(* ===== verification/_CoqProject ===== *)
-Q . S2P
Prelude.v
F64.v
RustStr.v
Decimal.v
Json.v
Serde.v
TmrConsensus.v
CircuitBreaker.v
BreakerRace.v
RateLimiter.v
FinOps.v
AbiGuard.v
PayloadValidator.v
FuelMonitor.v
HotSwap.v
Allocator.v
HmacAuth.v
EgressGuard.v
SingleFlight.v
PiiMask.v
ComplianceBus.v
Coordinator.v
Payload.v
CachedResults.v
Arbitrator.v
WriteDiscipline.v
Backoff.v
TmrCache.v
Telemetry.v
Poison.v
HexEvasion.v
Staleness.v
WasiVirt.v
WasiState.v
DeterministicHooks.v
XmlHarness.v
SignatureVerify.v
FlightRecorder.v
Retention.v
Scheduler.v
TpmMeasure.v
MockHsm.v
ModelInterface.v
FallbackPool.v
Provider.v
OpenAiPlugin.v
Masking.v
HostStore.v
ResourceMonitor.v
Oracle.v
MemoryHints.v
Microkernel.v
KernelBoot.v
Config.v
PromptCache.v
Web3.v
LogSanitizer.v
Gateway.v
SwapRace.v
RequestRace.v
Startup.v
BudgetRace.v
