(* ===== verification/Prelude.v ===== *)
(** * Serein gateway: a verification development

    The gateway sends a prompt to several LLM providers, accepts an answer on which
    enough of them agree, and runs generated payloads in a guarded sandbox.  This
    library models the Rust code of that path as executable definitions and proves
    what each part promises, or, where the code falls short of its documentation,
    what it does instead.

    ** How the code is translated

    - A [u32], [u64], [usize] or [i64] is an integer of [Z] with the bounds of its
      type; atomics wrap around ([wrapping_add]); the operators panic on overflow,
      since every build profile sets overflow-checks ([add_u] and the [outcome]
      monad).  [Result] is [result], the [?] operator [x <-? c ;; k].
    - [f64] is the Standard Library's executable IEEE 754 ([F64]); strings are byte
      strings ([RustStr]); a [HashMap] is a [gmap] whose iteration order is any
      instance of [HashOrder].
    - Time is an argument: an operation is given the instants its clock reads return,
      in nanoseconds.
    - Operations that are atomic in the code (a lock held throughout, or one caller)
      are functions on a state record.  Where several threads share atomics or
      locks, a step relation has one constructor per atomic access or critical section,
      and the theorems speak of all its runs.
    - Code that is not in the repository (serde_json, regex, SHA-256, HMAC, Redis,
      DNS, HTTP, the system allocator, wasmtime) is a parameter, mostly a class that
      states its documented behaviour; each such class has a concrete instance, at
      which the witnesses are evaluated.

    ** Files, in dependency order, and the sources they model

    - [Prelude], [F64], [RustStr], [Decimal], [Serde]: integers, results, panics, time;
      binary64 arithmetic with its exactness lemmas; strings as [str] uses them; numerals
      that are read back; codecs of the values serde writes.
    - [Json]: crates/consensus/src/tmr_consensus.rs, [sort_json_keys] on
      serde_json values; key order is normalised exactly up to object equality.
    - [TmrConsensus]: the same file's canonical hashing, node registry, [query]
      (adjudication as answers arrive) and [evaluate] (adjudication of a batch).
    - [CircuitBreaker], [BreakerRace]: crates/traffic-control/src/circuit_breaker.rs, the
      operations of one caller, and their accesses when threads share a breaker.
    - [RateLimiter], [FinOps]: crates/traffic-control/src/rate_limiter.rs, the
      token buckets with the two-layer limiter, and the budgets in Redis.
    - [AbiGuard]: crates/core/src/abi_guard.rs, guest memory and capabilities.
    - [PayloadValidator], [FuelMonitor]: crates/core/src/engine/fuel_monitor.rs.
    - [HotSwap]: crates/core/src/engine/hot_swap.rs, module container, its type-erased
      form and interlock.
    - [Allocator]: crates/core/src/allocator.rs.
    - [HmacAuth]: crates/core/src/security/hmac_auth.rs, nonces and headers.
    - [EgressGuard]: crates/llm-router/src/egress_guard.rs, the outgoing firewall.
    - [SingleFlight]: crates/llm-router/src/coordinator.rs, deduplication of
      concurrent requests.
    - [PiiMask], [ComplianceBus]: crates/worker/src/lib.rs, masking of personal
      data and the audit event bus.
    - [Coordinator]: crates/llm-router/src/coordinator.rs (with the request and
      error types of provider.rs and the payload of crates/interfaces): cache keys,
      the semantic cache, one dispatch from masking to billing, and the fallback.
    - [Payload]: crates/interfaces/src/lib.rs, fences, field aliases and the two JSON
      parsers, as the instance of the class through which [Coordinator] reads answers.
    - [CachedResults], [FallbackPool]: coordinator.rs again, results as they are written to
      the cache and read back, with the other serde implementations and builders; and the
      fallback node's overlapping invocations with their two semaphores.
    - [Arbitrator]: crates/traffic-control/src/lib.rs; [WriteDiscipline]:
      crates/llm-router/src/write_discipline.rs.
    - [Backoff]: crates/consensus/src/jittered_backoff.rs, delays and retry loops.
    - [TmrCache], [Staleness], [FlightRecorder], [Retention]: crates/cache-storage/src,
      the result cache, the freshness levels with the fuel allocator, the black box with
      its batching writer and dated corpus, and its set-up, hot path and clean-up
      (tmr_cache.rs, staleness.rs with lib.rs, flight_recorder.rs).
    - [Poison], [HexEvasion], [Telemetry]: crates/cache-storage/src/adversarial_poison.rs
      and hex_evasion.rs, noise for suspicious callers and escaped names;
      crates/telemetry/src/lib.rs, the offline backup answer.
    - [WasiVirt], [WasiState], [DeterministicHooks]: crates/sandbox-guard/src/wasi_virt.rs
      and deterministic_hooks.rs, the virtual file system with its path policy, the cache of
      modules with what is written and read back of a context, and the prompt firewall with
      the pre-tool hook.
    - [XmlHarness], [SignatureVerify]: crates/sandbox-guard/src, tool invocations, the tool
      registry and the context (xml_harness.rs, mcp_server.rs, lib.rs), and Ed25519
      signatures of payloads (signature_verify.rs).
    - [Provider], [PromptCache], [MemoryHints], [Oracle]: crates/llm-router/src, the
      providers and their registry (provider.rs), requests with cache directives
      (prompt_cache.rs), verified hints (memory_hints.rs), the confidence gate (lib.rs).
    - [OpenAiPlugin]: plugins/openai-compatible/src/lib.rs and the component that the
      adapter provider of [Provider] is to call; [Web3]: crates/llm-router/src/web3.
    - [TpmMeasure], [Masking], [LogSanitizer], [ResourceMonitor], [Config]:
      crates/core/src/security/tpm_measure.rs, masking.rs, log_sanitizer.rs and
      capabilities.rs, and crates/core/src/config.rs.
    - [MockHsm], [ModelInterface]: crates/core/src/security/mock_hsm.rs and
      crates/core/src/model_interface.rs, two traits as classes with their implementations.
    - [HostStore]: crates/core/src/engine/wasmtime_rt.rs, the state of a guest's store
      and the host functions the guest calls.
    - [Microkernel], [KernelBoot]: crates/core/src/lib.rs, the request pipeline around the
      guest; the kernel's construction, the search for components and the epoch ticker.
    - [Gateway], [SwapRace], [RequestRace], [BudgetRace], [Startup], [Scheduler]:
      apps/gateway/src, the two HTTP handlers of main.rs; hot swaps and requests that
      overlap, and what overlapping requests do to a budget; the gateway's start, background
      turns, router and shutdown; bin/scheduler.rs, which ships the recorded corpus.

    [Startup.start] builds the state of the gateway from the environment, and
    [Startup.route] hands a request to one of the two handlers.
    A request enters at [Gateway.handle_agent_execution], which authenticates it
    ([HmacAuth]), takes a rate token ([RateLimiter]) and a budget ([FinOps]), scans the
    prompt ([DeterministicHooks]), asks [Coordinator] and records the result
    ([FlightRecorder], [ComplianceBus]).  A dispatch of [Coordinator] calls
    [PiiMask.mask], each provider's [CircuitBreaker], [TmrConsensus.evaluate],
    [FinOps.refund_tokens] and [PiiMask.restore]; its concurrent callers meet in
    [SingleFlight], where the breakers are shared ([BreakerRace]).  The guards of
    [EgressGuard] are called by nothing in the repository.  [Gateway.handle_hot_swap] replaces a component of [Microkernel], whose
    pipeline goes through [ResourceMonitor], [Oracle], [PayloadValidator], a store of
    [HostStore], the guest, and the meters [FuelMonitor] and [HotSwap].  [HostStore] keeps
    records with [Masking] behind [AbiGuard].  The other components do not call each other
    in the code modelled here.

    ** What the theorems show

    - From start to answer: a gateway that starts authenticates, and has neither a cache
      nor refunds ([start_spec], [production_gate_spec]); no request without a token gets
      past it ([unauthenticated_refused]); which requests reach a handler ([route_spec]); a
      disabled fallback node comes back ([healing_spec]), and its blocking tasks are not
      bounded although its callers are ([abandoned_tasks_pile_up],
      [permits_bound_callers]).
    - The gateway: what an answered request went through ([admission]), which audit event
      each answer leaves ([audit_trail]), what refused requests do to the budget
      ([refused_requests_mint]), which headers are let in ([forged_header_admitted]), and in
      which order a swap takes effect, alone or among others ([hot_swap_commits_first],
      [short_module_panics], [commit_swap_refines], [swaps_settle], [swaps_mix]).
    - The kernel: the guest runs only behind the gates ([pipeline_gate]), the two fuel
      meters agree over every run ([meters_agree]), an emergency shutdown is final
      ([shutdown_is_permanent]), who sets the confidence threshold
      ([source_chooses_threshold]), what a started kernel holds ([boot_spec]) and when a
      guest is interrupted, as far as the epoch ticker is served in time
      ([guest_interrupted_in_time]).
    - Shipping: records are posted at least once, in order, and a cycle without faults
      catches up ([no_record_lost], [cycle_catches_up]), but what the recorder writes is not
      what is shipped ([recorder_never_shipped]).
    - Interfaces: the plugin agrees with the built-in provider it stands for but cannot be
      called by the adapter ([plugin_agrees_with_builtin], [plugin_never_called]); a tool
      invocation comes from a complete element ([extract_invocation_spec]); a model's
      context comes from one file, though its graph may come from another
      ([context_from_one_file], [reloads_mix]); the mock attests nothing
      ([mock_attests_nothing]); a cached module was compiled for its key
      ([cached_module_provenance]).
    - Data: records are kept under their tenant in the form of their level
      ([persist_spec]), buffers belong to their handle ([buffer_isolated],
      [shared_buffer_read_spec]), encrypted data come back ([encrypted_round_trip]), masked
      values hide all but their ends ([mask_value_hides]), rows and files are read back
      ([record_round_trip], [vfs_read_write], [context_round_trip]) and the black box is in
      order, never waits, and is cleaned by calendar day ([recorder_fifo],
      [record_event_spec], [gc_by_day]).
    - Overlapping requests: each handler is one of the interleavings of its steps
      ([handler_refines]), and in all of them a nonce is used once ([nonce_used_once]), the
      balance counts the requests that were refused or dropped behind its gate
      ([balance_counts_refusals]); a breaker shared by threads loses no trip and fails fast
      ([trip_not_lost], [open_fails_fast]), though a request may slip in after a new failure
      ([late_probe]).
    - Agreement: an answer is backed by as many equal votes as the quorum rule asks
      for, votes are equal exactly when the JSON is equal up to key order, and hash
      order does not matter ([evaluate_sound], [query_first_quorum],
      [canonical_hash_iff], [dispatch_quorum] and their companions); a fenced answer is
      read as the payload it carries, in either spelling of its fields
      ([fenced_answer_read], [payload_round_trip]), and an agreed answer is the cached one
      ([cached_answer_returned]).
    - Isolation: keys, in-flight entries, cached results, guest paths and allow-listed
      hosts are kept apart, and only masked prompts leave ([canonical_keys_separate],
      [keys_separate], [singleflight_confined], [tmr_cache_refines], [manager_get_typed],
      [redirect_confined], [guarded_call_spec], [dispatch_effects]).
    - Resource bounds: tokens, fuel, pool bytes and pending tasks are conserved under
      every interleaving or run ([token_bucket_conservation],
      [exhaustion_interrupts], [pool_accounting], [rayon_backpressure_bound],
      [bus_accounting]); refunds happen once ([refund_exactly_once]); retries end
      ([backoff_terminates]).
    - Safety of inputs: memory bounds, capability derivation, payload validation,
      reserved addresses, replayed nonces, prompt scanning, configuration
      ([read_wasm_memory_spec], [derived_capability_confined], [prove_safety_spec],
      [is_reserved_ip_spec], [replay_rejected], [hook_gate], [from_env_validates]).
    - Divergences, stated as theorems about what the code does: beyond those named above,
      a half-open breaker that admits one probe too many or never closes, a bucket that
      polling starves, a shutdown that consumption revokes or a race loses, an eviction
      that forgets fresh nonces, capability accesses past their region, a single flight
      that races and loses wake-ups, an outage that the cache prolongs, concurrent writers
      that pass their quota, a hook that reports the least severe match, a reader that
      never gets the last chunk ([read_all_loses_tail]), and a configuration watcher that
      ignores an even number of events ([burst_reloads_when_odd]).

    ** Bounds

    Recursions that are not structural take a measure of their input as fuel:
    [RustStr.trim_with] the length of the string, since each turn removes at least one
    byte; the retry loops of [Backoff] and [WriteDiscipline] the number of attempts left,
    and [backoff_terminates] shows that it is enough; the reading loop of
    [HostStore.read_all] and [Config.drain] the turns they are given, which the theorems
    bound from below.  Hypotheses of the form [x <= U64_MAX] or [x < 2 ^ 53] exclude
    counters that overflow, or ratios that binary64 rounds to the other side of a threshold.

    ** Not modelled

    The guests themselves, wasmtime, SQLite and the other libraries, whose answers are
    parameters or arguments; the set-up of tracing and of the OTLP exporter, the sockets and
    the signal handlers of apps/gateway; the lifting and lowering of values in the plugin's
    generated bindings; derived formats for debugging; log output and the source's own
    tests.  The recorder and the scheduler are not composed: they do not share a file
    ([recorder_never_shipped]).  What is left of the code has no state and decides
    nothing. *)
From stdpp Require Export base list gmap strings pretty.
From Stdlib Require Export ZArith Lia.

#[global] Open Scope Z_scope.

(** ** Panics

    Every build profile of the workspace sets [overflow-checks], so an
    arithmetic overflow, an out-of-range slice or an [unwrap] of [None] ends
    the operation: [Panic].  [outcome] is the monad of such computations. *)
Inductive outcome (A : Type) : Type :=
  | Ret (a : A)
  | Panic.
Arguments Ret {A} a.
Arguments Panic {A}.

#[export] Instance outcome_ret : MRet outcome := fun A a => Ret a.
#[export] Instance outcome_bind : MBind outcome := fun A B f m =>
  match m with Ret a => f a | Panic => Panic end.
#[export] Instance outcome_fmap : FMap outcome := fun A B f m =>
  match m with Ret a => Ret (f a) | Panic => Panic end.

(** [Result<T, E>] of the source. *)
Inductive result (T E : Type) : Type :=
  | Ok (t : T)
  | Err (e : E).
Arguments Ok {T E} t.
Arguments Err {T E} e.

Definition is_ok {T E} (r : result T E) : bool :=
  match r with Ok _ => true | Err _ => false end.

#[export] Instance result_ret E : MRet (fun T => result T E) := fun T t => Ok t.

Definition result_bind {T U E} (r : result T E) (k : T -> result U E) : result U E :=
  match r with Ok t => k t | Err e => Err e end.

(** The [?] operator. *)
Notation "x <-? c ;; k" := (result_bind c (fun x => k))
  (at level 100, c at next level, right associativity).

(** A loop whose body may return early with an error, and [Iterator::collect]
    into a [Result]. *)
Definition all_ok {A E} (f : A -> result unit E) : list A -> result unit E :=
  fix go l := match l with [] => Ok tt | x :: l => _ <-? f x ;; go l end.
Definition collect {A B E} (f : A -> result B E) : list A -> result (list B) E :=
  fix go l := match l with [] => Ok [] | x :: l => y <-? f x ;; ys <-? go l ;; Ok (y :: ys) end.

Lemma all_ok_Forall {A E} (f : A -> result unit E) l :
  all_ok f l = Ok tt <-> Forall (fun x => f x = Ok tt) l.
Proof.
  induction l as [|x l IH]; simpl; [by split; constructor|].
  rewrite Forall_cons, <- IH. destruct (f x) as [[]|]; simpl; naive_solver.
Qed.

#[export] Instance outcome_eq_dec A `{EqDecision A} : EqDecision (outcome A).
Proof. solve_decision. Defined.
#[export] Instance result_eq_dec T E `{EqDecision T, EqDecision E} : EqDecision (result T E).
Proof. solve_decision. Defined.

(** ** Fixed-width unsigned integers

    A [u32], [u64] or [usize] (64-bit targets) is an integer of [Z] together
    with the largest value of its type. *)
Definition U32_MAX : Z := 4294967295.
Definition U64_MAX : Z := 18446744073709551615.
Definition USIZE_MAX : Z := 18446744073709551615.
Definition I64_MAX : Z := 9223372036854775807.
Definition I64_MIN : Z := -9223372036854775808.

Definition fits (max x : Z) : Prop := 0 <= x <= max.
#[export] Instance fits_dec max x : Decision (fits max x).
Proof. unfold fits. apply _. Defined.

(** [fetch_add] and [fetch_sub] of the atomics wrap around. *)
Definition wrapping_add (max a b : Z) : Z := (a + b) mod (max + 1).
Definition wrapping_sub (max a b : Z) : Z := (a - b) mod (max + 1).
Definition checked_add (max a b : Z) : option Z :=
  if decide (a + b <= max) then Some (a + b) else None.
Definition saturating_add (max a b : Z) : Z := Z.min (a + b) max.
Definition saturating_sub (a b : Z) : Z := Z.max 0 (a - b).
Definition saturating_mul (max a b : Z) : Z := Z.min (a * b) max.

(** The operators [+], [-] and [*] panic on overflow. *)
Definition add_u (max a b : Z) : outcome Z :=
  if decide (a + b <= max) then Ret (a + b) else Panic.
Definition sub_u (a b : Z) : outcome Z :=
  if decide (b <= a) then Ret (a - b) else Panic.
Definition mul_u (max a b : Z) : outcome Z :=
  if decide (a * b <= max) then Ret (a * b) else Panic.
Definition add_i64 (a b : Z) : outcome Z :=
  if decide (I64_MIN <= a + b <= I64_MAX) then Ret (a + b) else Panic.

(** ** Time

    An [Instant] is a number of nanoseconds of the monotonic clock, a
    [Duration] a number of nanoseconds; an operation is given the instants its
    clock reads return.  [Instant::elapsed] at time [now]: *)
Definition elapsed_since (t now : Z) : Z := Z.max 0 (now - t).

(** The tactics of the development: unfold the bounds and call [lia]. *)
Ltac uint := unfold fits, U32_MAX, U64_MAX, USIZE_MAX, I64_MAX, I64_MIN in *.
Ltac ulia := uint; lia.
(** Linear arithmetic with divisions and remainders by constants. *)
Ltac dlia := Z.div_mod_to_equations; lia.

(** The bound checks: one case per branch, closed by arithmetic. *)
Ltac bounds_case :=
  case_decide; split; intros; destruct_and?; simplify_eq;
  first [done | lia | split; [done | lia] | by f_equal; lia].

(** Case analysis on every [match], [if] and [decide] of the goal. *)
Ltac cases :=
  repeat (case_match || case_decide); simplify_eq/=.

Section uint_lemmas.
Implicit Types max a b c : Z.

Lemma checked_add_Some max a b c :
  checked_add max a b = Some c <-> c = a + b /\ a + b <= max.
Proof. unfold checked_add. bounds_case. Qed.

Lemma checked_add_None max a b :
  checked_add max a b = None <-> max < a + b.
Proof. unfold checked_add. bounds_case. Qed.

Lemma add_u_Ret max a b c :
  add_u max a b = Ret c <-> c = a + b /\ a + b <= max.
Proof. unfold add_u. bounds_case. Qed.

Lemma add_u_small max a b : a + b <= max -> add_u max a b = Ret (a + b).
Proof. intros. unfold add_u. by rewrite decide_True. Qed.

Lemma mul_u_small max a b : a * b <= max -> mul_u max a b = Ret (a * b).
Proof. intros. unfold mul_u. by rewrite decide_True. Qed.

Lemma sub_u_small a b : b <= a -> sub_u a b = Ret (a - b).
Proof. intros. unfold sub_u. by rewrite decide_True. Qed.

Lemma add_u_Panic max a b : add_u max a b = Panic <-> max < a + b.
Proof. unfold add_u. bounds_case. Qed.

Lemma sub_u_Ret a b c : sub_u a b = Ret c <-> c = a - b /\ b <= a.
Proof. unfold sub_u. bounds_case. Qed.

Lemma wrapping_add_fits max a b : 0 <= max -> fits max (wrapping_add max a b).
Proof.
  intros. unfold wrapping_add, fits.
  pose proof (Z.mod_pos_bound (a + b) (max + 1)). lia.
Qed.

Lemma wrapping_sub_fits max a b : 0 <= max -> fits max (wrapping_sub max a b).
Proof.
  intros. unfold wrapping_sub, fits.
  pose proof (Z.mod_pos_bound (a - b) (max + 1)). lia.
Qed.

Lemma wrapping_add_small max a b :
  0 <= a -> 0 <= b -> a + b <= max -> wrapping_add max a b = a + b.
Proof. intros. unfold wrapping_add. apply Z.mod_small. lia. Qed.

Lemma wrapping_sub_small max a b :
  0 <= b -> b <= a -> a <= max -> wrapping_sub max a b = a - b.
Proof. intros. unfold wrapping_sub. apply Z.mod_small. lia. Qed.

(** Subtracting below zero lands near the top of the range. *)
Lemma wrapping_sub_under max a b :
  0 <= a -> a < b -> b <= max -> wrapping_sub max a b = max + 1 + a - b.
Proof.
  intros. unfold wrapping_sub.
  rewrite <- (Z.mod_add (a - b) 1 (max + 1)) by lia.
  rewrite Z.mod_small; lia.
Qed.

Lemma saturating_sub_fits max a b :
  0 <= b -> fits max a -> fits max (saturating_sub a b).
Proof. unfold saturating_sub, fits. lia. Qed.
End uint_lemmas.

(** ** Lists *)

(** Membership in a list that is written out, by evaluation. *)
Ltac in_list := apply (bool_decide_unpack _); vm_compute; exact I.

(** Counting after an update. *)
Lemma count_insert {A} (p : A -> bool) (l : list A) i x y :
  l !! i = Some x ->
  (length (List.filter p (<[i := y]> l)) + (if p x then 1 else 0) =
   length (List.filter p l) + (if p y then 1 else 0))%nat.
Proof.
  revert i. induction l as [|z l IH]; intros [|i] Hi; simplify_eq/=.
  - destruct (p x), (p y); simpl; lia.
  - specialize (IH i Hi). destruct (p z); simpl; lia.
Qed.

(** A [HashMap] iterates in an unspecified order: an instance of this class
    is one such order, and the theorems hold for every instance. *)
Class HashOrder := {
  hash_iter : forall {K V} `{Countable K}, gmap K V -> list (K * V);
  hash_iter_perm : forall {K V} `{Countable K} (m : gmap K V),
    Permutation (hash_iter m) (map_to_list m) }.

Definition canonical_order : HashOrder.
Proof. by refine {| hash_iter := fun K V _ _ m => map_to_list m |}. Defined.

Create HintDb rust.
#[export] Hint Resolve wrapping_add_fits wrapping_sub_fits saturating_sub_fits : rust.
