(* ===== verification/F64.v ===== *)
(** * IEEE 754 binary64 arithmetic as Rust's [f64] uses it

    A value is a [spec_float] of the Standard Library (the executable
    specification of IEEE 754), at precision 53 and maximal exponent 1024.
    The conversions, [min], [max], [floor] and the saturating casts are the
    documented ones of the [f64] primitive type. *)
From Stdlib Require Import SpecFloat.
From S2P Require Import Prelude.

Abbreviation f64 := spec_float.

Definition f64_add (x y : f64) : f64 := SFadd 53 1024 x y.
Definition f64_sub (x y : f64) : f64 := SFsub 53 1024 x y.
Definition f64_mul (x y : f64) : f64 := SFmul 53 1024 x y.
Definition f64_div (x y : f64) : f64 := SFdiv 53 1024 x y.
Definition f64_abs (x : f64) : f64 := SFabs x.
Definition f64_opp (x : f64) : f64 := SFopp x.

(** The comparisons [<], [<=], [>=], [>]: false when an operand is NaN. *)
Definition f64_lt (x y : f64) : bool := SFltb x y.
Definition f64_le (x y : f64) : bool := SFleb x y.
Definition f64_ge (x y : f64) : bool := SFleb y x.
Definition f64_gt (x y : f64) : bool := SFltb y x.

Definition is_nan (x : f64) : bool :=
  match x with S754_nan => true | _ => false end.
Definition is_infinite (x : f64) : bool :=
  match x with S754_infinity _ => true | _ => false end.
Definition is_finite (x : f64) : bool :=
  match x with S754_zero _ | S754_finite _ _ _ => true | _ => false end.
Definition sign_bit (x : f64) : bool :=
  match x with
  | S754_zero s | S754_infinity s | S754_finite s _ _ => s
  | S754_nan => false
  end.

(** [f64::min] and [f64::max] return the other operand when one is NaN. *)
Definition f64_min (x y : f64) : f64 :=
  if is_nan x then y else if f64_lt y x then y else x.
Definition f64_max (x y : f64) : f64 :=
  if is_nan x then y else if f64_lt x y then y else x.

(** [n as f64]: rounded to nearest, ties to even. *)
Definition f64_of_Z (n : Z) : f64 := binary_normalize 53 1024 n 0 false.

(** The real number [m * 2^e], rounded towards minus infinity. *)
Definition Zfloor_of (s : bool) (m : positive) (e : Z) : Z :=
  let v := if s then - Zpos m else Zpos m in
  if 0 <=? e then v * 2 ^ e else v / 2 ^ (- e).
Definition Zceil_of (s : bool) (m : positive) (e : Z) : Z :=
  - Zfloor_of (negb s) m e.
Definition Ztrunc_of (s : bool) (m : positive) (e : Z) : Z :=
  if s then Zceil_of s m e else Zfloor_of s m e.

Definition f64_floor (x : f64) : f64 :=
  match x with
  | S754_finite s m e =>
      if 0 <=? e then x else binary_normalize 53 1024 (Zfloor_of s m e) 0 s
  | _ => x
  end.
Definition f64_ceil (x : f64) : f64 :=
  match x with
  | S754_finite s m e =>
      if 0 <=? e then x else binary_normalize 53 1024 (Zceil_of s m e) 0 s
  | _ => x
  end.

(** [x as T]: truncation towards zero, saturating, NaN becomes 0. *)
Definition f64_cast (min max : Z) (x : f64) : Z :=
  match x with
  | S754_nan | S754_zero _ => 0
  | S754_infinity s => if s then min else max
  | S754_finite s m e => Z.min max (Z.max min (Ztrunc_of s m e))
  end.
Definition f64_as_u64 : f64 -> Z := f64_cast 0 U64_MAX.
Definition f64_as_u32 : f64 -> Z := f64_cast 0 U32_MAX.
Definition f64_as_i64 : f64 -> Z := f64_cast I64_MIN I64_MAX.

(** A decimal literal [n * 10^-k], correctly rounded. *)
Definition f64_lit (n : positive) (k : N) : f64 :=
  let d := (10 ^ Z.of_N k)%Z in
  match SFdiv_core_binary 53 1024 (Zpos n * 2 ^ 128) (-128) d 0 with
  | (q, e, l) => binary_round_aux 53 1024 false q e l
  end.

Definition f64_zero : f64 := S754_zero false.
Definition f64_one : f64 := f64_of_Z 1.

Example f64_lit_09 : f64_lit 90 2 = S754_finite false 8106479329266893 (-53).
Proof. reflexivity. Qed.
Example f64_lit_1em6 : f64_lit 1 6 = S754_finite false 4722366482869645 (-72).
Proof. reflexivity. Qed.
Example f64_third : f64_div f64_one (f64_of_Z 3) = S754_finite false 6004799503160661 (-54).
Proof. reflexivity. Qed.

(** ** Order *)

Lemma SFcompare_antisym x y : SFcompare y x = option_map CompOpp (SFcompare x y).
Proof.
  destruct x as [[]|[]| |[] mx ex], y as [[]|[]| |[] my ey]; try reflexivity; simpl;
    rewrite (Z.compare_antisym ex ey); destruct (ex ?= ey) eqn:E; try reflexivity;
    simpl; f_equal; change (Pos.compare_cont Eq) with Pos.compare;
    rewrite (Pos.compare_antisym mx my); by destruct (mx ?= my)%positive.
Qed.

Lemma SFcompare_refl x : is_nan x = false -> SFcompare x x = Some Eq.
Proof.
  destruct x as [[]|[]| |[] m e]; try done; intros _; simpl;
    rewrite Z.compare_refl; change (Pos.compare_cont Eq) with Pos.compare;
    by rewrite Pos.compare_refl.
Qed.

Lemma f64_le_refl x : is_nan x = false -> f64_le x x = true.
Proof. intros. unfold f64_le, SFleb. by rewrite SFcompare_refl. Qed.

Lemma SFcompare_not_nan x y :
  is_nan x = false -> is_nan y = false -> is_Some (SFcompare x y).
Proof. destruct x as [[]|[]| |[] m e], y as [[]|[]| |[] m' e']; done. Qed.

Lemma f64_nlt_le x y :
  is_nan x = false -> is_nan y = false -> f64_lt x y = false -> f64_le y x = true.
Proof.
  intros Hx Hy. unfold f64_lt, f64_le, SFltb, SFleb.
  rewrite (SFcompare_antisym x y).
  by destruct (SFcompare_not_nan x y Hx Hy) as [[] ->].
Qed.

(** [x.min(cap) <= cap], NaN included. *)
Lemma f64_min_le_r x cap : is_nan cap = false -> f64_le (f64_min x cap) cap = true.
Proof.
  intros Hc. unfold f64_min. destruct (is_nan x) eqn:Hx; [by apply f64_le_refl|].
  destruct (f64_lt cap x) eqn:Hlt; [by apply f64_le_refl|].
  by apply f64_nlt_le.
Qed.

Lemma f64_min_not_nan x cap : is_nan cap = false -> is_nan (f64_min x cap) = false.
Proof. intros. unfold f64_min. by destruct (is_nan x) eqn:?, (f64_lt cap x). Qed.

(** ** Integers below [2^53] are exact *)

Lemma digits2_log2 p : Zpos (digits2_pos p) = Z.log2 (Zpos p) + 1.
Proof.
  induction p as [p IH|p IH|]; simpl digits2_pos; [| |reflexivity].
  - rewrite Pos2Z.inj_succ, IH, Pos2Z.inj_xI, Z.log2_succ_double; lia.
  - rewrite Pos2Z.inj_succ, IH, Pos2Z.inj_xO, Z.log2_double; lia.
Qed.

Lemma Zdigits2_log2 n : 0 < n -> Zdigits2 n = Z.log2 n + 1.
Proof. destruct n; [lia| |lia]. intros _. apply digits2_log2. Qed.

Lemma fexp_normal d : -1021 <= d -> fexp 53 1024 d = d - 53.
Proof. intros. unfold fexp, emin. lia. Qed.

Lemma iter_pos_comm {A} (f : A -> A) (n : positive) (x : A) :
  f (SpecFloat.iter_pos f n x) = SpecFloat.iter_pos f n (f x).
Proof. revert x. induction n as [n IH|n IH|]; intros x; simpl; by rewrite ?IH. Qed.

Lemma iter_pos_S {A} (f : A -> A) (n : positive) (x : A) :
  SpecFloat.iter_pos f (Pos.succ n) x = SpecFloat.iter_pos f n (f x).
Proof.
  revert x. induction n as [n IH|n IH|]; intros x; simpl; [|done..].
  by rewrite !IH, iter_pos_comm.
Qed.

Lemma shr_1_double m : 0 <= m ->
  shr_1 (Build_shr_record (2 * m) false false) = Build_shr_record m false false.
Proof. destruct m; [done|done|lia]. Qed.

(** Shifting out zero bits is exact. *)
Lemma shr_exact m d : 0 <= m ->
  SpecFloat.iter_pos shr_1 d (Build_shr_record (m * 2 ^ Zpos d) false false) =
  Build_shr_record m false false.
Proof.
  intros Hm. induction d as [|d IH] using Pos.peano_ind.
  - rewrite Z.mul_comm. by apply shr_1_double.
  - rewrite iter_pos_S, Pos2Z.inj_succ, Z.pow_succ_r by lia.
    replace (m * (2 * 2 ^ Zpos d)) with (2 * (m * 2 ^ Zpos d)) by lia.
    rewrite shr_1_double by (apply Z.mul_nonneg_nonneg; lia). done.
Qed.

Lemma shr_loc_exact m e d : 0 <= m ->
  shr (shr_record_of_loc (m * 2 ^ Zpos d) loc_Exact) e (Zpos d) =
  (Build_shr_record m false false, e + Zpos d).
Proof. intros. unfold shr, shr_record_of_loc. by rewrite shr_exact. Qed.

(** The canonical mantissa and exponent of an integer below [2^53]. *)
Definition canon_m (n : Z) : Z := n * 2 ^ (52 - Z.log2 n).
Definition canon_e (n : Z) : Z := Z.log2 n - 52.
Definition f64_canon (n : Z) : f64 := S754_finite false (Z.to_pos (canon_m n)) (canon_e n).

Section canonical.
Context (n : Z) (Hn : 0 < n < 2 ^ 53).

Lemma log2_bounds : 0 <= Z.log2 n <= 52.
Proof.
  split; [apply Z.log2_nonneg|].
  apply Z.lt_succ_r. apply Z.log2_lt_pow2; lia.
Qed.

Lemma canon_m_bounds : 2 ^ 52 <= canon_m n < 2 ^ 53.
Proof.
  pose proof log2_bounds. unfold canon_m.
  pose proof (Z.log2_spec n ltac:(lia)) as [H1 H2].
  replace (2 ^ 52) with (2 ^ Z.log2 n * 2 ^ (52 - Z.log2 n))
    by (rewrite <- Z.pow_add_r by lia; f_equal; lia).
  replace (2 ^ 53) with (2 ^ Z.succ (Z.log2 n) * 2 ^ (52 - Z.log2 n))
    by (rewrite <- Z.pow_add_r by lia; f_equal; lia).
  pose proof (Z.pow_pos_nonneg 2 (52 - Z.log2 n)). nia.
Qed.

Lemma canon_m_log2 : Z.log2 (canon_m n) = 52.
Proof. apply Z.log2_unique; [lia|]. pose proof canon_m_bounds. simpl; lia. Qed.
End canonical.

(** A 53-bit mantissa is left as it is. *)
Lemma shr_fexp_53 m e l : 2 ^ 52 <= m < 2 ^ 53 -> -1074 <= e ->
  shr_fexp 53 1024 m e l = (shr_record_of_loc m l, e).
Proof.
  intros Hm He. unfold shr_fexp.
  assert (Hl : Z.log2 m = 52) by (apply Z.log2_unique; simpl; lia).
  rewrite Zdigits2_log2, fexp_normal by lia.
  by replace (Z.log2 m + 1 + e - 53 - e) with 0 by lia.
Qed.

(** A mantissa with [d] more bits, all zero, loses them. *)
Lemma shr_fexp_zeros m e d : 2 ^ 52 <= m < 2 ^ 53 -> -1074 <= e ->
  shr_fexp 53 1024 (m * 2 ^ Zpos d) e loc_Exact =
  (Build_shr_record m false false, e + Zpos d).
Proof.
  intros Hm He. unfold shr_fexp.
  assert (Hl : Z.log2 m = 52) by (apply Z.log2_unique; simpl; lia).
  rewrite Zdigits2_log2 by (pose proof (Z.pow_pos_nonneg 2 (Zpos d)); nia).
  rewrite Z.log2_mul_pow2, Hl, fexp_normal by lia.
  replace (Zpos d + 52 + 1 + e - 53 - e) with (Zpos d) by lia.
  apply shr_loc_exact. lia.
Qed.

Lemma round_aux_53 s m e : 2 ^ 52 <= m < 2 ^ 53 -> -1074 <= e <= 971 ->
  binary_round_aux 53 1024 s m e loc_Exact = S754_finite s (Z.to_pos m) e.
Proof.
  intros Hm He. unfold binary_round_aux. rewrite shr_fexp_53 by lia. simpl shr_m.
  simpl round_nearest_even. rewrite shr_fexp_53 by lia. simpl.
  destruct m; [lia| |lia]. by destruct (Z.leb_spec e (1024 - 53)); [|lia].
Qed.

Lemma shl_align_shift mx ex ex' :
  ex' <= ex ->
  shl_align mx ex ex' = (Z.to_pos (Zpos mx * 2 ^ (ex - ex')), ex').
Proof.
  intros Hle. unfold shl_align. destruct (ex' - ex) as [|d|d] eqn:E; [|lia|].
  - replace (ex - ex') with 0 by lia. rewrite Z.pow_0_r, Z.mul_1_r.
    simpl. f_equal. lia.
  - replace (ex - ex') with (Zpos d) by lia. f_equal.
    apply Pos2Z.inj. rewrite Z2Pos.id by nia.
    change (Pos.iter xO mx d) with (shift_pos d mx).
    rewrite shift_pos_correct. change (Z.pow_pos 2 d) with (2 ^ Zpos d). lia.
Qed.

Lemma mul_pow2_pow2 n a b : 0 <= a -> 0 <= b -> n * 2 ^ a * 2 ^ b = n * 2 ^ (a + b).
Proof. intros. rewrite <- Z.mul_assoc, <- Z.pow_add_r; lia. Qed.

(** Rounding [n * 2^j] at exponent [-j] is exact for an integer [n < 2^53]. *)
Lemma binary_round_exact n j : 0 < n < 2 ^ 53 -> 0 <= j <= 1000 ->
  binary_round 53 1024 false (Z.to_pos (n * 2 ^ j)) (- j) = f64_canon n.
Proof.
  intros Hn Hj. pose proof (log2_bounds n Hn). pose proof (canon_m_bounds n Hn) as Hm.
  assert (Hp : 0 < n * 2 ^ j) by (pose proof (Z.pow_pos_nonneg 2 j); nia).
  assert (Hd : Zpos (digits2_pos (Z.to_pos (n * 2 ^ j))) = Z.log2 n + j + 1).
  { rewrite digits2_log2, Z2Pos.id by lia. rewrite Z.log2_mul_pow2; lia. }
  unfold binary_round. rewrite Hd, fexp_normal by lia.
  replace (Z.log2 n + j + 1 + - j - 53) with (canon_e n) by (unfold canon_e; lia).
  unfold f64_canon. destruct (Z.leb_spec (canon_e n) (- j)) as [Hle|Hgt].
  - rewrite shl_align_shift, (Z2Pos.id (n * 2 ^ j)) by lia.
    replace (n * 2 ^ j * 2 ^ (- j - canon_e n)) with (canon_m n).
    2: { unfold canon_m, canon_e in *. rewrite mul_pow2_pow2 by lia. do 2 f_equal. lia. }
    rewrite Z2Pos.id by lia. apply round_aux_53; [lia|unfold canon_e; lia].
  - unfold shl_align. destruct (canon_e n - - j) as [|d|d] eqn:E; [lia| |lia].
    rewrite Z2Pos.id by lia.
    replace (n * 2 ^ j) with (canon_m n * 2 ^ Zpos d).
    2: { rewrite <- E. unfold canon_m, canon_e in *. rewrite mul_pow2_pow2 by lia.
         do 2 f_equal. lia. }
    assert (Ha : canon_e n = - j + Zpos d) by lia.
    unfold binary_round_aux. rewrite shr_fexp_zeros by lia. simpl round_nearest_even.
    rewrite shr_fexp_53 by lia. rewrite <- Ha. simpl.
    destruct (canon_m n); [lia| |lia]. unfold canon_e.
    by destruct (Z.leb_spec (Z.log2 n - 52) (1024 - 53)); [|lia].
Qed.

Lemma f64_of_Z_canon n : 0 < n < 2 ^ 53 -> f64_of_Z n = f64_canon n.
Proof.
  intros Hn. unfold f64_of_Z. rewrite <- (binary_round_exact n 0) by lia.
  rewrite Z.pow_0_r, Z.mul_1_r. by destruct n; [lia| |lia].
Qed.

Lemma f64_canon_compare a b : 0 < a < 2 ^ 53 -> 0 < b < 2 ^ 53 ->
  SFcompare (f64_canon a) (f64_canon b) = Some (a ?= b).
Proof.
  intros Ha Hb. unfold f64_canon, SFcompare.
  pose proof (canon_m_bounds a Ha) as Hma. pose proof (canon_m_bounds b Hb) as Hmb.
  pose proof (log2_bounds a Ha). pose proof (log2_bounds b Hb).
  f_equal. unfold canon_e.
  destruct (Z.compare_spec (Z.log2 a - 52) (Z.log2 b - 52)) as [E|E|E].
  - change (Pos.compare_cont Eq) with Pos.compare.
    change (Z.to_pos ?x ?= Z.to_pos ?y)%positive
      with (Zpos (Z.to_pos x) ?= Zpos (Z.to_pos y)).
    rewrite !Z2Pos.id by lia. unfold canon_m.
    replace (Z.log2 b) with (Z.log2 a) by lia.
    rewrite <- Zmult_compare_compat_r; [done|].
    pose proof (Z.pow_pos_nonneg 2 (52 - Z.log2 a)). lia.
  - symmetry. apply Z.compare_lt_iff. apply Z.log2_lt_cancel. lia.
  - symmetry. apply Z.compare_gt_iff. apply Z.log2_lt_cancel. lia.
Qed.

(** Integers compare as their conversions do. *)
Lemma f64_of_Z_compare a b : 0 <= a < 2 ^ 53 -> 0 <= b < 2 ^ 53 ->
  SFcompare (f64_of_Z a) (f64_of_Z b) = Some (a ?= b).
Proof.
  intros Ha Hb.
  destruct (decide (a = 0)) as [->|], (decide (b = 0)) as [->|]; [done| | |].
  - rewrite (f64_of_Z_canon b) by lia. by destruct b; [lia| |lia].
  - rewrite (f64_of_Z_canon a) by lia. by destruct a; [lia| |lia].
  - rewrite !f64_of_Z_canon by lia. apply f64_canon_compare; lia.
Qed.

Lemma f64_of_Z_le a b : 0 <= a < 2 ^ 53 -> 0 <= b < 2 ^ 53 ->
  f64_le (f64_of_Z a) (f64_of_Z b) = (a <=? b).
Proof.
  intros Ha Hb. unfold f64_le, SFleb, Z.leb. rewrite f64_of_Z_compare by done.
  by destruct (a ?= b).
Qed.

Lemma f64_of_Z_lt a b : 0 <= a < 2 ^ 53 -> 0 <= b < 2 ^ 53 ->
  f64_lt (f64_of_Z a) (f64_of_Z b) = (a <? b).
Proof.
  intros Ha Hb. unfold f64_lt, SFltb, Z.ltb. rewrite f64_of_Z_compare by done.
  by destruct (a ?= b).
Qed.

Lemma f64_of_Z_not_nan n : 0 <= n < 2 ^ 53 -> is_nan (f64_of_Z n) = false.
Proof.
  intros. destruct (decide (n = 0)) as [->|]; [done|].
  by rewrite f64_of_Z_canon by lia.
Qed.

Lemma shl_align_canon n ez : 0 < n < 2 ^ 53 -> ez <= canon_e n ->
  Zpos (fst (shl_align (Z.to_pos (canon_m n)) (canon_e n) ez)) = n * 2 ^ (- ez).
Proof.
  intros Hn Hle. pose proof (canon_m_bounds n Hn). pose proof (log2_bounds n Hn).
  rewrite shl_align_shift by lia. simpl fst.
  pose proof (Z.pow_pos_nonneg 2 (canon_e n - ez)).
  rewrite !Z2Pos.id by nia. unfold canon_m, canon_e in *.
  rewrite mul_pow2_pow2 by lia. do 2 f_equal. lia.
Qed.

(** The difference of two such integers is exact. *)
Lemma f64_of_Z_sub a b : 0 <= b < a -> a < 2 ^ 53 ->
  f64_sub (f64_of_Z a) (f64_of_Z b) = f64_of_Z (a - b).
Proof.
  intros Hb Ha. destruct (decide (b = 0)) as [->|].
  { rewrite Z.sub_0_r, f64_of_Z_canon by lia. done. }
  rewrite !f64_of_Z_canon by lia. unfold f64_sub, f64_canon, SFsub.
  pose proof (canon_m_bounds a ltac:(lia)). pose proof (canon_m_bounds b ltac:(lia)).
  pose proof (log2_bounds a ltac:(lia)). pose proof (log2_bounds b ltac:(lia)).
  set (ez := Z.min (canon_e a) (canon_e b)).
  unfold cond_Zopp. rewrite !shl_align_canon by lia. rewrite <- Z.mul_sub_distr_r.
  fold (f64_canon (a - b)).
  unfold canon_e in ez. rewrite <- (binary_round_exact (a - b) (- ez)) by lia.
  rewrite Z.opp_involutive.
  pose proof (Z.pow_pos_nonneg 2 (- ez)).
  unfold binary_normalize. destruct ((a - b) * 2 ^ (- ez)) eqn:E; [nia|done|nia].
Qed.

(** ** Magnitudes: results that cannot overflow *)

(** A finite value: a mantissa of at most 53 bits, an exponent at most [K]. *)
Definition f64_below (K : Z) (x : f64) : Prop :=
  match x with
  | S754_zero _ => True
  | S754_finite _ m e => Zpos m < 2 ^ 53 /\ -1074 <= e <= K
  | _ => False
  end.

Lemma f64_below_finite K x : f64_below K x -> is_finite x = true.
Proof. by destruct x. Qed.

Lemma f64_below_mono K K' x : K <= K' -> f64_below K x -> f64_below K' x.
Proof. destruct x; simpl; try done. lia. Qed.

Lemma shr_1_m r : 0 <= shr_m r -> shr_m (shr_1 r) = shr_m r / 2.
Proof.
  destruct r as [[|p|p] a b]; simpl; [done| |lia]. intros _.
  destruct p as [p|p|]; simpl; [| |done].
  - rewrite (Pos2Z.inj_xI p). apply Z.div_unique with 1; lia.
  - rewrite (Pos2Z.inj_xO p). apply Z.div_unique with 0; lia.
Qed.

Lemma shr_iter_m d r : 0 <= shr_m r ->
  shr_m (SpecFloat.iter_pos shr_1 d r) = shr_m r / 2 ^ Zpos d.
Proof.
  revert r. induction d as [|d IH] using Pos.peano_ind; intros r Hr; [by apply shr_1_m|].
  rewrite iter_pos_S, IH, shr_1_m, Zdiv_Zdiv, Pos2Z.inj_succ, Z.pow_succ_r;
    rewrite ?shr_1_m; try done; try lia; apply Z.div_pos; lia.
Qed.

(** [shr_fexp] shifts the mantissa right by the growth of the exponent. *)
Lemma shr_fexp_m m e l : 0 <= m ->
  exists r e', shr_fexp 53 1024 m e l = (r, e') /\
    e' = Z.max e (fexp 53 1024 (Zdigits2 m + e)) /\ shr_m r = m / 2 ^ (e' - e).
Proof.
  intros Hm. unfold shr_fexp, shr.
  assert (H0 : shr_m (shr_record_of_loc m l) = m) by by destruct l as [|[]].
  destruct (fexp 53 1024 (Zdigits2 m + e) - e) as [|d|d] eqn:E;
    eexists _, _; (split; [reflexivity|]).
  - split; [lia|]. by rewrite H0, Z.sub_diag, Z.div_1_r.
  - split; [lia|]. rewrite shr_iter_m, H0 by lia. do 2 f_equal. lia.
  - split; [lia|]. by rewrite H0, Z.sub_diag, Z.div_1_r.
Qed.

Lemma shr_fexp_small m e l k : 0 <= m < 2 ^ k -> 0 <= k ->
  let '(r, e') := shr_fexp 53 1024 m e l in
  0 <= shr_m r < 2 ^ 53 /\ -1074 <= e' <= Z.max (-1074) (Z.max e (k + e - 53)).
Proof.
  intros Hm Hk. destruct (shr_fexp_m m e l ltac:(lia)) as (r & e' & -> & He' & ->).
  assert (Hd : m < 2 ^ Zdigits2 m /\ 0 <= Zdigits2 m <= k).
  { destruct (decide (m = 0)) as [->|Hne]; [simpl; lia|].
    rewrite Zdigits2_log2 by lia. pose proof (Z.log2_spec m ltac:(lia)).
    pose proof (Z.log2_nonneg m). assert (Z.log2 m < k) by (apply Z.log2_lt_pow2; lia).
    replace (Z.log2 m + 1) with (Z.succ (Z.log2 m)) by lia. lia. }
  unfold fexp, emin in He'. simpl in He'.
  split_and!; [| |lia|lia].
  - apply Z.div_pos; [lia|]. apply Z.pow_pos_nonneg; lia.
  - apply Z.div_lt_upper_bound; [apply Z.pow_pos_nonneg; lia|].
    rewrite <- Z.pow_add_r by lia. eapply Z.lt_le_trans; [apply Hd|].
    apply Z.pow_le_mono_r; lia.
Qed.

(** Rounding a number below [2^(k + e)] gives a finite one. *)
Lemma round_aux_below s m e l k K : 0 <= m < 2 ^ k -> 0 <= k ->
  Z.max (-1074) (Z.max e (k + e - 53)) < K -> K <= 971 ->
  f64_below K (binary_round_aux 53 1024 s m e l).
Proof.
  intros Hm Hk HK HK'. unfold binary_round_aux.
  pose proof (shr_fexp_small m e l k Hm Hk) as H1.
  destruct (shr_fexp 53 1024 m e l) as [r e'], H1 as (Hr & He').
  set (m1 := round_nearest_even _ _).
  assert (Hm1 : 0 <= m1 < 2 ^ 54).
  { unfold m1, round_nearest_even. destruct (loc_of_shr_record r) as [|[]];
      try case_match; simpl in *; lia. }
  pose proof (shr_fexp_small m1 e' loc_Exact 54 Hm1 ltac:(lia)) as H2.
  destruct (shr_fexp 53 1024 m1 e' loc_Exact) as [r2 e2], H2 as (Hr2 & He2).
  destruct (shr_m r2) as [|p|p]; [done| |lia].
  destruct (Z.leb_spec e2 (1024 - 53)); simpl; lia.
Qed.

Lemma binary_round_below s p e k K : Zpos p < 2 ^ k ->
  Z.max (-1074) (Z.max e (k + e - 53)) < K -> K <= 971 ->
  f64_below K (binary_round 53 1024 s p e).
Proof.
  intros Hp HK HK'. assert (Hk : 0 <= k).
  { destruct (decide (0 <= k)); [done|]. rewrite Z.pow_neg_r in Hp by lia. lia. }
  unfold binary_round. set (e0 := fexp _ _ _).
  destruct (decide (e0 <= e)) as [Hd|Hd].
  - rewrite shl_align_shift by done. apply round_aux_below with (k := k + (e - e0)); try lia.
    pose proof (Z.pow_pos_nonneg 2 (e - e0)). rewrite Z2Pos.id by nia.
    rewrite Z.pow_add_r by lia. nia.
  - unfold shl_align. destruct (e0 - e) as [|d|d] eqn:E; [lia| |lia].
    apply round_aux_below with (k := k); lia.
Qed.

Lemma binary_normalize_below m e s k K : Z.abs m < 2 ^ k ->
  Z.max (-1074) (Z.max e (k + e - 53)) < K -> K <= 971 ->
  f64_below K (binary_normalize 53 1024 m e s).
Proof. intros. destruct m; [done|eapply binary_round_below; eauto..]. Qed.

Lemma f64_of_Z_below n : Z.abs n <= U64_MAX -> f64_below 12 (f64_of_Z n).
Proof. intros. apply (binary_normalize_below _ _ _ 64); ulia. Qed.

Lemma f64_add_below K x y : -1074 <= K -> K + 2 <= 971 ->
  f64_below K x -> f64_below K y -> f64_below (K + 2) (f64_add x y).
Proof.
  intros HK HK' Hx Hy. unfold f64_add, SFadd.
  destruct x as [sx| | |sx mx ex], y as [sy| | |sy my ey]; try done.
  - by destruct sx, sy.
  - by apply (f64_below_mono K); [lia|].
  - by apply (f64_below_mono K); [lia|].
  - simpl in Hx, Hy. set (ez := Z.min ex ey).
    rewrite !shl_align_shift by lia. simpl fst.
    apply binary_normalize_below with (k := Z.max ex ey - ez + 54); [|lia|lia].
    assert (Hb : forall m e, Zpos m < 2 ^ 53 -> ez <= e <= Z.max ex ey ->
      Zpos (Z.to_pos (Zpos m * 2 ^ (e - ez))) < 2 ^ (Z.max ex ey - ez + 53)).
    { intros m e Hm He. pose proof (Z.pow_pos_nonneg 2 (e - ez)). rewrite Z2Pos.id by nia.
      apply Z.lt_le_trans with (2 ^ 53 * 2 ^ (e - ez)); [nia|].
      rewrite <- Z.pow_add_r by lia. apply Z.pow_le_mono_r; lia. }
    pose proof (Hb mx ex ltac:(lia) ltac:(lia)). pose proof (Hb my ey ltac:(lia) ltac:(lia)).
    replace (2 ^ (Z.max ex ey - ez + 54)) with (2 * 2 ^ (Z.max ex ey - ez + 53))
      by (rewrite <- Z.pow_succ_r by lia; f_equal; lia).
    destruct sx, sy; unfold cond_Zopp; lia.
Qed.

(** The quotient of the mantissas, and its exponent. *)
Lemma div_core m1 e1 m2 e2 : 0 < m1 -> 0 < m2 ->
  let e' := Z.min (fexp 53 1024 (Z.log2 m1 - Z.log2 m2 + e1 - e2)) (e1 - e2) in
  let s := e1 - e2 - e' in
  SFdiv_core_binary 53 1024 m1 e1 m2 e2 =
    (m1 * 2 ^ s / m2, e', new_location m2 (m1 * 2 ^ s mod m2)).
Proof.
  intros H1 H2 e' s. unfold SFdiv_core_binary. rewrite !Zdigits2_log2 by done.
  replace (Z.log2 m1 + 1 + e1 - (Z.log2 m2 + 1 + e2))
    with (Z.log2 m1 - Z.log2 m2 + e1 - e2) by lia.
  fold e'. fold s. assert (Hs : 0 <= s) by lia.
  replace (match s with Z0 => m1 | Zpos _ => Z.shiftl m1 s | Zneg _ => 0 end) with (m1 * 2 ^ s).
  2: { destruct s; [lia|by rewrite Z.shiftl_mul_pow2|lia]. }
  unfold Z.div, Z.modulo. by destruct (Z.div_eucl _ m2).
Qed.

Lemma div_core_bound m1 m2 s k : 0 < m1 -> 0 < m2 -> 0 <= s -> 0 <= k ->
  Z.log2 m1 - Z.log2 m2 + s + 1 <= k -> 0 <= m1 * 2 ^ s / m2 < 2 ^ k.
Proof.
  intros H1 H2 Hs Hk Hle. pose proof (Z.log2_spec m1 H1). pose proof (Z.log2_spec m2 H2).
  pose proof (Z.log2_nonneg m1). pose proof (Z.log2_nonneg m2).
  pose proof (Z.pow_pos_nonneg 2 s).
  split; [apply Z.div_pos; nia|]. apply Z.div_lt_upper_bound; [lia|].
  apply Z.lt_le_trans with (2 ^ Z.succ (Z.log2 m1) * 2 ^ s); [nia|].
  apply Z.le_trans with (2 ^ Z.log2 m2 * 2 ^ k).
  - rewrite <- !Z.pow_add_r by lia. apply Z.pow_le_mono_r; lia.
  - pose proof (Z.pow_pos_nonneg 2 k). nia.
Qed.

Lemma f64_div_below K x b : -1074 < K -> K + 53 <= 971 -> 0 < b < 2 ^ 53 ->
  f64_below K x -> f64_below (K + 53) (f64_div x (f64_of_Z b)).
Proof.
  intros HK HK' Hb Hx. rewrite f64_of_Z_canon by done.
  pose proof (canon_m_bounds b Hb). pose proof (log2_bounds b Hb).
  destruct x as [sx| | |sx mx ex]; try done. simpl in Hx.
  unfold f64_div, f64_canon, SFdiv.
  pose proof (div_core (Zpos mx) ex (canon_m b) (canon_e b)) as Hc.
  rewrite Z2Pos.id by lia. cbv zeta in Hc. rewrite canon_m_log2 in Hc by done.
  rewrite Hc by lia. clear Hc. set (e' := Z.min _ _). unfold canon_e in *.
  assert (0 <= Z.log2 (Zpos mx) <= 52) by
    (split; [apply Z.log2_nonneg|]; apply Z.lt_succ_r, Z.log2_lt_pow2; lia).
  set (k := Z.max 0 (Z.log2 (Zpos mx) - 52 + (ex - (Z.log2 b - 52) - e') + 1)).
  unfold fexp, emin in e'.
  apply round_aux_below with (k := k); [|lia|lia|lia].
  apply div_core_bound; rewrite ?canon_m_log2 by done; lia.
Qed.

(** [Duration::as_secs_f64] of a duration in nanoseconds. *)
Definition as_secs_f64 (ns : Z) : f64 :=
  f64_add (f64_of_Z (ns / 10 ^ 9)) (f64_div (f64_of_Z (ns mod 10 ^ 9)) (f64_of_Z (10 ^ 9))).

Lemma as_secs_f64_below ns : 0 <= ns <= U64_MAX * 10 ^ 9 -> f64_below 67 (as_secs_f64 ns).
Proof.
  intros. pose proof (Z.mod_pos_bound ns (10 ^ 9)). pose proof (Z.div_pos ns (10 ^ 9)).
  assert (ns / 10 ^ 9 <= U64_MAX) by (apply Z.div_le_upper_bound; lia).
  apply (f64_add_below 65); [lia|lia|..].
  - apply (f64_below_mono 12), f64_of_Z_below; ulia.
  - apply (f64_div_below 12); [lia..|]. apply f64_of_Z_below. ulia.
Qed.

(** Adding a zero, and multiplying by one, leave a positive integer as it is. *)
Lemma f64_add_zero_r n s : 0 < n < 2 ^ 53 ->
  f64_add (f64_of_Z n) (S754_zero s) = f64_of_Z n.
Proof. intros. by rewrite f64_of_Z_canon. Qed.

Lemma f64_mul_zero x : is_finite x = true -> exists s, f64_mul x f64_zero = S754_zero s.
Proof. destruct x; try done; intros _; by eexists. Qed.

Lemma round_aux_zeros s m e d : 2 ^ 52 <= m < 2 ^ 53 -> -1074 <= e -> e + Zpos d <= 971 ->
  binary_round_aux 53 1024 s (m * 2 ^ Zpos d) e loc_Exact =
  S754_finite s (Z.to_pos m) (e + Zpos d).
Proof.
  intros Hm He Hd. unfold binary_round_aux. rewrite shr_fexp_zeros by lia.
  simpl round_nearest_even. rewrite shr_fexp_53 by lia. simpl.
  destruct m; [lia| |lia]. by destruct (Z.leb_spec (e + Zpos d) (1024 - 53)); [|lia].
Qed.

Lemma f64_mul_one n : 0 <= n < 2 ^ 53 -> f64_mul (f64_of_Z n) f64_one = f64_of_Z n.
Proof.
  intros Hn. destruct (decide (n = 0)) as [->|]; [done|].
  rewrite f64_of_Z_canon by lia. pose proof (canon_m_bounds n ltac:(lia)).
  pose proof (log2_bounds n ltac:(lia)).
  unfold f64_mul, f64_canon. change f64_one with (S754_finite false 4503599627370496 (-52)).
  simpl SFmul. unfold canon_e.
  replace (Zpos (Z.to_pos (canon_m n) * 4503599627370496)) with (canon_m n * 2 ^ 52) by lia.
  rewrite round_aux_zeros by lia. f_equal. lia.
Qed.

Lemma f64_div_one n : 0 <= n < 2 ^ 53 -> f64_div (f64_of_Z n) f64_one = f64_of_Z n.
Proof.
  intros Hn. destruct (decide (n = 0)) as [->|]; [done|].
  rewrite f64_of_Z_canon by lia. pose proof (canon_m_bounds n ltac:(lia)) as Hm.
  pose proof (log2_bounds n ltac:(lia)).
  unfold f64_div, f64_canon. change f64_one with (S754_finite false 4503599627370496 (-52)).
  unfold SFdiv. pose proof (div_core (canon_m n) (canon_e n) 4503599627370496 (-52)) as Hc.
  rewrite Z2Pos.id by lia. cbv zeta in Hc.
  change (Z.log2 4503599627370496) with 52 in Hc.
  rewrite canon_m_log2, fexp_normal in Hc by (unfold canon_e; lia).
  rewrite Z.min_l in Hc by lia. rewrite Hc by lia. clear Hc.
  replace (canon_e n - -52 - (52 - 52 + canon_e n - -52 - 53)) with 53 by lia.
  replace (canon_m n * 2 ^ 53) with (canon_m n * 2 ^ 1 * 4503599627370496) by lia.
  rewrite Z.div_mul, Z.mod_mul by lia. unfold canon_e. simpl new_location.
  unfold new_location. simpl.
  rewrite round_aux_zeros by (simpl; lia). f_equal. lia.
Qed.

(** The roundings to an integer and the casts leave integers as they are. *)
Lemma Zfloor_canon n : 0 < n < 2 ^ 53 -> Zfloor_of false (Z.to_pos (canon_m n)) (canon_e n) = n.
Proof.
  intros Hn. pose proof (canon_m_bounds n Hn). pose proof (log2_bounds n Hn).
  unfold Zfloor_of. rewrite Z2Pos.id by lia. unfold canon_m, canon_e.
  destruct (Z.leb_spec 0 (Z.log2 n - 52)) as [Hl|Hl].
  - replace (Z.log2 n) with 52 by lia. simpl. lia.
  - replace (- (Z.log2 n - 52)) with (52 - Z.log2 n) by lia.
    apply Z.div_mul. pose proof (Z.pow_pos_nonneg 2 (52 - Z.log2 n)). lia.
Qed.

Lemma Zceil_canon n : 0 < n < 2 ^ 53 -> Zceil_of false (Z.to_pos (canon_m n)) (canon_e n) = n.
Proof.
  intros Hn. pose proof (canon_m_bounds n Hn). pose proof (log2_bounds n Hn).
  unfold Zceil_of, Zfloor_of. simpl negb. cbv iota.
  replace (- Zpos (Z.to_pos (canon_m n))) with (- canon_m n) by lia. unfold canon_m, canon_e.
  destruct (Z.leb_spec 0 (Z.log2 n - 52)) as [Hl|Hl].
  - replace (Z.log2 n) with 52 by lia. simpl. lia.
  - replace (- (Z.log2 n - 52)) with (52 - Z.log2 n) by lia.
    rewrite <- Z.mul_opp_l, Z.div_mul; [lia|].
    pose proof (Z.pow_pos_nonneg 2 (52 - Z.log2 n)). lia.
Qed.

Lemma f64_floor_of_Z n : 0 <= n < 2 ^ 53 -> f64_floor (f64_of_Z n) = f64_of_Z n.
Proof.
  intros Hn. destruct (decide (n = 0)) as [->|]; [done|].
  rewrite f64_of_Z_canon by lia. unfold f64_floor, f64_canon. rewrite Zfloor_canon by lia.
  case_match; [done|]. apply f64_of_Z_canon; lia.
Qed.

Lemma f64_ceil_of_Z n : 0 <= n < 2 ^ 53 -> f64_ceil (f64_of_Z n) = f64_of_Z n.
Proof.
  intros Hn. destruct (decide (n = 0)) as [->|]; [done|].
  rewrite f64_of_Z_canon by lia. unfold f64_ceil, f64_canon. rewrite Zceil_canon by lia.
  case_match; [done|]. apply f64_of_Z_canon; lia.
Qed.

Lemma f64_cast_of_Z lo hi n : lo <= n <= hi -> 0 <= n < 2 ^ 53 -> f64_cast lo hi (f64_of_Z n) = n.
Proof.
  intros Hb Hn. destruct (decide (n = 0)) as [->|]; [done|].
  rewrite f64_of_Z_canon by lia. unfold f64_cast, f64_canon, Ztrunc_of.
  rewrite Zfloor_canon by lia. lia.
Qed.

(** A whole number of seconds. *)
Lemma as_secs_f64_whole n : 0 < n < 2 ^ 53 -> as_secs_f64 (n * 10 ^ 9) = f64_of_Z n.
Proof.
  intros. unfold as_secs_f64. rewrite Z.div_mul, Z.mod_mul by lia. by apply f64_add_zero_r.
Qed.

(** ** Quotients of integers against one *)

Lemma round_nearest_even_bounds m l :
  m <= round_nearest_even m l <= m + 1 /\ (l = loc_Exact -> round_nearest_even m l = m).
Proof. destruct l as [|[]]; simpl; [lia| | |]; split; try done; try case_match; lia. Qed.

(** The last step of a rounding: a carry into the 54th bit. *)
Lemma round_carry s m e : 2 ^ 52 <= m <= 2 ^ 53 -> -1074 <= e <= 970 ->
  (let '(r, e'') := shr_fexp 53 1024 m e loc_Exact in
   match shr_m r with
   | 0 => S754_zero s
   | Zpos m => if e'' <=? 1024 - 53 then S754_finite s m e'' else S754_infinity s
   | _ => S754_nan
   end) =
  if m =? 2 ^ 53 then S754_finite s (Z.to_pos (2 ^ 52)) (e + 1) else S754_finite s (Z.to_pos m) e.
Proof.
  intros Hm He. destruct (Z.eqb_spec m (2 ^ 53)) as [->|].
  - change (2 ^ 53) with (2 ^ 52 * 2 ^ 1). rewrite shr_fexp_zeros by lia. simpl.
    by destruct (Z.leb_spec (e + 1) (1024 - 53)); [|lia].
  - rewrite shr_fexp_53 by lia. simpl. destruct m; [lia| |lia].
    by destruct (Z.leb_spec e (1024 - 53)); [|lia].
Qed.

Lemma f64_one_le m e :
  f64_le f64_one (S754_finite false m e) = true <-> -52 < e \/ e = -52 /\ 2 ^ 52 <= Zpos m.
Proof.
  unfold f64_le, SFleb. change f64_one with (S754_finite false 4503599627370496 (-52)).
  assert (Hc : Zpos 4503599627370496 = 2 ^ 52) by reflexivity.
  revert Hc. generalize 4503599627370496%positive as c. intros c Hc. rewrite <- Hc. clear Hc.
  unfold SFcompare. change (Pos.compare_cont Eq) with Pos.compare.
  destruct (Z.compare_spec (-52) e); [|split; [lia|done]|split; [done|lia]].
  destruct (Pos.compare_spec c m); split; intros; done || lia.
Qed.

(** A rounded mantissa of 53 bits at exponent [e] reaches one exactly when
    [e >= -52], or when it carries at [e = -53]. *)
Lemma round_one_le m e l : 2 ^ 52 <= m < 2 ^ 53 -> -1074 <= e <= 970 ->
  let m' := round_nearest_even m l in
  f64_le f64_one
    (let '(r, e'') := shr_fexp 53 1024 m' e loc_Exact in
     match shr_m r with
     | 0 => S754_zero false
     | Zpos m => if e'' <=? 1024 - 53 then S754_finite false m e'' else S754_infinity false
     | _ => S754_nan
     end) = true <-> -52 <= e \/ e = -53 /\ m' = 2 ^ 53.
Proof.
  intros Hm He m'. pose proof (round_nearest_even_bounds m l) as [Hb _]. fold m' in Hb.
  rewrite round_carry by lia.
  destruct (Z.eqb_spec m' (2 ^ 53)); rewrite f64_one_le, Z2Pos.id by lia; lia.
Qed.

Section quotient.
Context (a b : Z) (Ha : 0 < a < 2 ^ 53) (Hb : 0 < b < 2 ^ 53).

Definition quotient : Z := canon_m a * 2 ^ 53 / canon_m b.
Definition quotient_exp : Z := Z.log2 a - Z.log2 b.

Lemma quotient_core :
  f64_div (f64_of_Z a) (f64_of_Z b) =
  binary_round_aux 53 1024 false quotient (quotient_exp - 53)
    (new_location (canon_m b) (canon_m a * 2 ^ 53 mod canon_m b)).
Proof.
  pose proof (canon_m_bounds a Ha). pose proof (canon_m_bounds b Hb).
  pose proof (log2_bounds a Ha). pose proof (log2_bounds b Hb).
  rewrite !f64_of_Z_canon by done. unfold f64_div, f64_canon, SFdiv.
  pose proof (div_core (canon_m a) (canon_e a) (canon_m b) (canon_e b)) as Hc. cbv zeta in Hc.
  rewrite !Z2Pos.id by lia.
  rewrite !canon_m_log2, fexp_normal in Hc by (done || unfold canon_e; lia).
  rewrite Z.min_l in Hc by (unfold canon_e; lia). rewrite Hc by lia. simpl xorb. cbv iota.
  replace (canon_e a - canon_e b - (52 - 52 + canon_e a - canon_e b - 53)) with 53 by lia.
  unfold quotient, quotient_exp, canon_e. f_equal. lia.
Qed.

Lemma quotient_bounds : 2 ^ 52 <= quotient < 2 ^ 54 /\
  (2 ^ 53 <= quotient <-> canon_m b <= canon_m a).
Proof.
  pose proof (canon_m_bounds a Ha) as Hma. pose proof (canon_m_bounds b Hb) as Hmb.
  unfold quotient. split; [split|].
  - apply Z.div_le_lower_bound; lia.
  - apply Z.div_lt_upper_bound; lia.
  - split; intros Hle.
    + destruct (decide (canon_m b <= canon_m a)); [done|]. exfalso.
      assert (canon_m a * 2 ^ 53 / canon_m b < 2 ^ 53); [|lia].
      apply Z.div_lt_upper_bound; lia.
    + apply Z.div_le_lower_bound; lia.
Qed.

(** Comparing the integers through their canonical forms. *)
Lemma canon_le : b <= a <->
  0 < quotient_exp \/ quotient_exp = 0 /\ canon_m b <= canon_m a.
Proof.
  unfold quotient_exp. pose proof (log2_bounds a Ha). pose proof (log2_bounds b Hb).
  split.
  - intros Hle. pose proof (Z.log2_le_mono b a Hle).
    destruct (decide (Z.log2 a = Z.log2 b)) as [Heq|]; [right|lia].
    split; [lia|]. unfold canon_m. rewrite Heq. apply Z.mul_le_mono_nonneg_r; lia.
  - intros [Hlt|[Heq Hle]].
    + apply Z.lt_le_incl, Z.log2_lt_cancel. lia.
    + unfold canon_m in Hle. replace (Z.log2 b) with (Z.log2 a) in Hle by lia.
      apply Z.mul_le_mono_pos_r in Hle; [done|]. apply Z.pow_pos_nonneg; lia.
Qed.

(** No quotient below one is rounded up to one. *)
Lemma no_carry_low : canon_m a < canon_m b -> quotient + 1 < 2 ^ 53.
Proof.
  pose proof (canon_m_bounds a Ha). pose proof (canon_m_bounds b Hb). intros Hlt.
  assert (quotient < 2 ^ 53 - 1); [|lia]. apply Z.div_lt_upper_bound; nia.
Qed.

Lemma no_carry_high : 2 ^ 54 - 2 <= quotient ->
  quotient = 2 ^ 54 - 2 /\ canon_m a * 2 ^ 53 mod canon_m b = 0.
Proof.
  pose proof (canon_m_bounds a Ha). pose proof (canon_m_bounds b Hb).
  intros Hq. unfold quotient in *.
  pose proof (Z.div_mod (canon_m a * 2 ^ 53) (canon_m b) ltac:(lia)).
  pose proof (Z.mod_pos_bound (canon_m a * 2 ^ 53) (canon_m b) ltac:(lia)).
  assert (Hb2 : canon_m b = 2 ^ 52) by nia.
  assert (Ha2 : canon_m a = 2 ^ 53 - 1) by nia.
  rewrite Ha2, Hb2. split; reflexivity.
Qed.

Lemma f64_div_one_le : f64_le f64_one (f64_div (f64_of_Z a) (f64_of_Z b)) = (b <=? a).
Proof.
  pose proof quotient_bounds as [Hq Hqm]. pose proof canon_le as Hle.
  pose proof (log2_bounds a Ha). pose proof (log2_bounds b Hb).
  assert (Hexp : -52 <= quotient_exp <= 52) by (unfold quotient_exp; lia).
  apply eq_bool_prop_intro. rewrite !Is_true_true, Z.leb_le, quotient_core.
  unfold binary_round_aux. set (l := new_location _ _).
  destruct (decide (quotient < 2 ^ 53)) as [Hlo|Hhi].
  - rewrite shr_fexp_53 by lia. rewrite Hle.
    assert (Hm : shr_m (shr_record_of_loc quotient l) = quotient) by by destruct l as [|[]].
    rewrite Hm, round_one_le by lia.
    pose proof (round_nearest_even_bounds quotient
      (loc_of_shr_record (shr_record_of_loc quotient l))) as [Hr _].
    pose proof no_carry_low. lia.
  - destruct (shr_fexp_m quotient (quotient_exp - 53) l ltac:(lia)) as (r & e' & E & He' & Hr).
    rewrite E.
    assert (Hlog : Z.log2 quotient = 53) by (apply Z.log2_unique; simpl; lia).
    rewrite Zdigits2_log2, fexp_normal in He' by lia.
    assert (e' = quotient_exp - 52) as -> by lia.
    replace (quotient_exp - 52 - (quotient_exp - 53)) with 1 in Hr by lia.
    assert (2 ^ 52 <= shr_m r < 2 ^ 53).
    { rewrite Hr. split; [apply Z.div_le_lower_bound; lia|apply Z.div_lt_upper_bound; lia]. }
    rewrite Hle, round_one_le by lia.
    pose proof (round_nearest_even_bounds (shr_m r) (loc_of_shr_record r)) as [Hrn Hex].
    assert (quotient_exp = -1 -> round_nearest_even (shr_m r) (loc_of_shr_record r) <> 2 ^ 53); [|lia].
    intros _ Hcarry. assert (2 ^ 53 - 1 <= quotient / 2 ^ 1) by lia.
    destruct no_carry_high as [Hqe Hmod].
    { pose proof (Z.div_mod quotient (2 ^ 1) ltac:(lia)).
      pose proof (Z.mod_pos_bound quotient (2 ^ 1) ltac:(lia)). lia. }
    unfold l in E. rewrite Hmod, Hqe in E.
    change (2 ^ 54 - 2) with ((2 ^ 53 - 1) * 2 ^ 1) in E.
    replace (new_location (canon_m b) 0) with loc_Exact in E
      by (unfold new_location; by destruct (Z.even (canon_m b))).
    rewrite shr_fexp_zeros in E by lia. injection E as <- _.
    rewrite Hex in Hcarry by done. done.
Qed.
End quotient.

(** A ratio of integers is at least one exactly when the division is. *)
Lemma f64_ratio_full a b : 0 <= a < 2 ^ 53 -> 0 < b < 2 ^ 53 ->
  f64_le f64_one (f64_div (f64_of_Z a) (f64_of_Z b)) = (b <=? a).
Proof.
  intros Ha Hb. destruct (decide (a = 0)) as [->|]; [|apply f64_div_one_le; lia].
  rewrite (f64_of_Z_canon b) by lia. destruct (Z.leb_spec b 0); [lia|reflexivity].
Qed.

(** ** [Duration::from_secs_f64] and [f64::powi] *)

(** [num / den] rounded to nearest, ties to even. *)
Definition round_ties_even (num den : Z) : Z :=
  let q := num / den in
  let r := num mod den in
  if 2 * r <? den then q
  else if den <? 2 * r then q + 1
  else if Z.even q then q else q + 1.

(** [Duration::MAX] in nanoseconds. *)
Definition DURATION_MAX : Z := U64_MAX * 10 ^ 9 + 999999999.

(** Panics on a negative, too large or not finite number of seconds. *)
Definition from_secs_f64 (x : f64) : outcome Z :=
  match x with
  | S754_zero _ => Ret 0
  | S754_finite false m e =>
      let ns := if 0 <=? e then Zpos m * 2 ^ e * 10 ^ 9
                else round_ties_even (Zpos m * 10 ^ 9) (2 ^ (- e)) in
      if decide (ns <= DURATION_MAX) then Ret ns else Panic
  | _ => Panic
  end.

(** Square and multiply, as the runtime's [__powidf2]; a negative exponent
    takes the reciprocal of the power. *)
Fixpoint powi_loop (a r : f64) (n : positive) : f64 :=
  match n with
  | xH => f64_mul r a
  | xO n => powi_loop (f64_mul a a) r n
  | xI n => powi_loop (f64_mul a a) (f64_mul r a) n
  end.
Definition powi (a : f64) (b : Z) : f64 :=
  match b with
  | 0 => f64_one
  | Zpos n => powi_loop a f64_one n
  | Zneg n => f64_div f64_one (powi_loop a f64_one n)
  end.

Example powi_2_10 : powi (f64_of_Z 2) 10 = f64_of_Z 1024.
Proof. reflexivity. Qed.
Example from_secs_ms : from_secs_f64 (f64_lit 1 3) = Ret 1000000.
Proof. reflexivity. Qed.

Lemma f64_mul_below Kx Ky x y : f64_below Kx x -> f64_below Ky y ->
  -1074 < Kx + Ky + 54 <= 971 -> f64_below (Kx + Ky + 54) (f64_mul x y).
Proof.
  destruct x as [| | |sx mx ex], y as [| | |sy my ey]; try done.
  intros [Hmx Hex] [Hmy Hey] HK. unfold f64_mul, SFmul.
  apply round_aux_below with (k := 106); [|lia|lia|lia].
  change (2 ^ 106) with (2 ^ 53 * 2 ^ 53). nia.
Qed.

Lemma round_ties_even_bounds num den : 0 < den ->
  num / den <= round_ties_even num den <= num / den + 1.
Proof. intros. unfold round_ties_even. repeat case_match; lia. Qed.

(** Below [2^63] seconds nothing overflows. *)
Lemma from_secs_f64_small x : f64_below 10 x -> sign_bit x = false ->
  exists d, from_secs_f64 x = Ret d /\ 0 <= d.
Proof.
  destruct x as [| | |[] m e]; try done; [by exists 0|].
  intros [Hm He] _. unfold from_secs_f64.
  set (ns := if 0 <=? e then _ else _).
  assert (Hb : 0 <= ns <= DURATION_MAX); [|exists ns; rewrite decide_True by apply Hb; split; [done|apply Hb]].
  unfold ns, DURATION_MAX. destruct (Z.leb_spec 0 e).
  - assert (0 < 2 ^ e <= 2 ^ 10) by
      (split; [apply Z.pow_pos_nonneg; lia|apply Z.pow_le_mono_r; lia]).
    assert (Zpos m * 2 ^ e < 2 ^ 53 * 2 ^ 10) by nia. ulia.
  - pose proof (Z.pow_pos_nonneg 2 (- e) ltac:(lia) ltac:(lia)) as Hp.
    pose proof (round_ties_even_bounds (Zpos m * 10 ^ 9) (2 ^ (- e)) Hp).
    assert (0 <= Zpos m * 10 ^ 9 / 2 ^ (- e) <= Zpos m * 10 ^ 9).
    { split; [apply Z.div_pos; lia|]. apply Z.div_le_upper_bound; [lia|]. nia. }
    ulia.
Qed.

(** The sign of a rounded result. *)
Lemma round_aux_sign s m e l :
  is_nan (binary_round_aux 53 1024 s m e l) = false ->
  sign_bit (binary_round_aux 53 1024 s m e l) = s.
Proof.
  unfold binary_round_aux. destruct (shr_fexp _ _ _ _ l) as [r e'].
  destruct (shr_fexp _ _ _ e' _) as [r' e'']. destruct (shr_m r'); try done.
  by case_match.
Qed.

Lemma f64_of_Z_sign n : 0 <= n < 2 ^ 53 -> sign_bit (f64_of_Z n) = false.
Proof.
  intros Hn. destruct (decide (n = 0)) as [->|]; [done|]. by rewrite f64_of_Z_canon by lia.
Qed.

Lemma f64_div_sign x y : is_nan (f64_div x y) = false ->
  sign_bit (f64_div x y) = xorb (sign_bit x) (sign_bit y).
Proof.
  destruct x as [| | |sx mx ex], y as [| | |sy my ey]; try done.
  unfold f64_div, SFdiv. destruct (SFdiv_core_binary _ _ _ _ _ _) as [[q e] l].
  apply round_aux_sign.
Qed.

Lemma f64_mul_sign x y : is_nan (f64_mul x y) = false ->
  sign_bit (f64_mul x y) = xorb (sign_bit x) (sign_bit y).
Proof. destruct x, y; try done. apply round_aux_sign. Qed.

(** A proper fraction rounds to less than one, so a time of less than [2^53]
    seconds stays below [2^55]. *)
Lemma f64_fraction_below a b : 0 <= a < b -> b < 2 ^ 53 ->
  f64_below (-52) (f64_div (f64_of_Z a) (f64_of_Z b)).
Proof.
  intros Ha Hb. pose proof (f64_ratio_full a b ltac:(lia) ltac:(lia)) as Hle.
  replace (b <=? a) with false in Hle by (symmetry; apply Z.leb_gt; lia).
  assert (Hbl : f64_below 65 (f64_div (f64_of_Z a) (f64_of_Z b))).
  { apply (f64_div_below 12); [lia..|]. apply f64_of_Z_below. ulia. }
  pose proof (f64_div_sign (f64_of_Z a) (f64_of_Z b)) as Hs.
  rewrite !f64_of_Z_sign in Hs by lia.
  destruct (f64_div (f64_of_Z a) (f64_of_Z b)) as [| | |[] m e]; try done; [by specialize (Hs eq_refl)|].
  pose proof (f64_one_le m e) as Hone. rewrite Hle in Hone. simpl in *.
  split; [tauto|]. assert (~ -52 < e) by (intros ?; destruct Hone; auto with lia). lia.
Qed.

Lemma f64_of_Z_below_canon n K : 0 <= n < 2 ^ 53 -> Z.log2 n - 52 <= K -> f64_below K (f64_of_Z n).
Proof.
  intros Hn HK. destruct (decide (n = 0)) as [->|]; [done|].
  rewrite f64_of_Z_canon by lia. pose proof (canon_m_bounds n ltac:(lia)).
  pose proof (log2_bounds n ltac:(lia)). simpl. unfold canon_e. lia.
Qed.

Lemma as_secs_f64_small ns : 0 <= ns < 2 ^ 53 * 10 ^ 9 -> f64_below 2 (as_secs_f64 ns).
Proof.
  intros Hns. pose proof (Z.mod_pos_bound ns (10 ^ 9) ltac:(lia)).
  assert (0 <= ns / 10 ^ 9 < 2 ^ 53) by
    (split; [apply Z.div_pos; lia|apply Z.div_lt_upper_bound; lia]).
  apply (f64_add_below 0); [lia|lia|..].
  - apply f64_of_Z_below_canon; [done|].
    destruct (decide (ns / 10 ^ 9 = 0)) as [->|]; [done|]. pose proof (log2_bounds (ns / 10 ^ 9)). lia.
  - apply (f64_below_mono (-52)); [lia|]. by apply f64_fraction_below; [|lia].
Qed.

(** What a multiplication can return: a mantissa of at most 53 bits. *)
Definition f64_rounded (x : f64) : Prop :=
  match x with S754_finite _ m e => Zpos m < 2 ^ 53 /\ -1074 <= e | _ => True end.

Lemma f64_mul_rounded x y : f64_rounded (f64_mul x y).
Proof.
  destruct x as [| | |sx mx ex], y as [| | |sy my ey]; try done.
  unfold f64_mul, SFmul. set (m := Zpos (mx * my)). set (k := Z.log2 m + 1).
  assert (Hk : 0 <= m < 2 ^ k /\ 0 <= k).
  { unfold k. pose proof (Z.log2_spec m ltac:(lia)). pose proof (Z.log2_nonneg m).
    replace (Z.succ (Z.log2 m)) with (Z.log2 m + 1) in * by lia. lia. }
  unfold binary_round_aux. pose proof (shr_fexp_small m (ex + ey) loc_Exact k) as H1.
  destruct (shr_fexp 53 1024 m (ex + ey) _) as [r e']. specialize (H1 ltac:(lia) ltac:(lia)).
  set (m1 := round_nearest_even _ _).
  assert (Hm1 : 0 <= m1 < 2 ^ 54).
  { unfold m1. pose proof (round_nearest_even_bounds (shr_m r) (loc_of_shr_record r)). lia. }
  pose proof (shr_fexp_small m1 e' loc_Exact 54 Hm1 ltac:(lia)) as H2.
  destruct (shr_fexp 53 1024 m1 e' loc_Exact) as [r2 e2].
  destruct H2 as [Hr2 He2].
  destruct (shr_m r2) as [|p|p]; [done| |lia]. case_match; [|done]. simpl. lia.
Qed.

(** [x.min(y)] is bounded as [x] is, unless [y] is negative. *)
Lemma f64_min_below K x y : f64_below K x -> f64_rounded y ->
  sign_bit (f64_min x y) = true \/ sign_bit x = false /\ f64_below K (f64_min x y) \/ sign_bit x = true.
Proof.
  intros Hx Hy. destruct (sign_bit x) eqn:Hs; [tauto|].
  unfold f64_min. destruct (is_nan x) eqn:?; [by destruct x|].
  destruct (f64_lt y x) eqn:Hlt; [|tauto].
  destruct x as [[]|[]| |[] mx ex], y as [[]|[]| |[] my ey]; try done; try tauto.
  right. left. split; [done|]. simpl in *. split; [tauto|].
  unfold f64_lt, SFltb, SFcompare in Hlt. destruct (Z.compare_spec ey ex); try done; lia.
Qed.

(** Negative values and NaN lose to a positive one in [max]. *)
Lemma f64_max_negative x m e : is_nan x = true \/ sign_bit x = true ->
  f64_max x (S754_finite false m e) = S754_finite false m e.
Proof. intros [H|H]; by destruct x as [[]|[]| |[] mx ex]. Qed.

Lemma as_secs_f64_sign ns : 0 <= ns < 2 ^ 53 * 10 ^ 9 -> sign_bit (as_secs_f64 ns) = false.
Proof.
  intros Hns. pose proof (Z.mod_pos_bound ns (10 ^ 9) ltac:(lia)).
  assert (0 <= ns / 10 ^ 9 < 2 ^ 53) by
    (split; [apply Z.div_pos; lia|apply Z.div_lt_upper_bound; lia]).
  pose proof (f64_of_Z_sign (ns / 10 ^ 9) ltac:(lia)) as H1.
  pose proof (f64_div_sign (f64_of_Z (ns mod 10 ^ 9)) (f64_of_Z (10 ^ 9))) as H2.
  rewrite !f64_of_Z_sign in H2 by lia.
  pose proof (f64_fraction_below (ns mod 10 ^ 9) (10 ^ 9) ltac:(lia) ltac:(lia)) as Hf.
  pose proof (as_secs_f64_small ns Hns) as Hb. unfold as_secs_f64 in *.
  destruct (f64_div _ _) as [[]| | |[] my ey]; try done; try by specialize (H2 eq_refl).
  - destruct (f64_of_Z (ns / 10 ^ 9)) as [[]| | |[] mx ex]; try done.
  - destruct (f64_of_Z (ns / 10 ^ 9)) as [[]| | |[] mx ex]; try done.
    unfold f64_add, SFadd in *. simpl cond_Zopp in *.
    destruct (_ + _) as [|p|p] eqn:E in *; [lia| |lia]. unfold binary_normalize in *.
    unfold binary_round in *. destruct (shl_align p _ _) as [m e].
    apply round_aux_sign. by destruct (binary_round_aux _ _ _ _ _ _).
Qed.
