(* ===== verification/RustStr.v ===== *)
(** * Rust strings

    A [str] is its UTF-8 encoding: a [string] of bytes.  This file has the
    methods of [str] that the modelled code calls. *)
From Stdlib Require Import Ascii String.
From S2P Require Import Prelude.

Local Open Scope string_scope.

Definition byte_string (l : list nat) : string :=
  List.fold_right (fun n s => String (ascii_of_nat n) s) "" l.

Definition len (s : string) : Z := Z.of_nat (String.length s).
Definition is_empty (s : string) : bool := bool_decide (s = "").

Fixpoint drop_bytes (n : nat) (s : string) : string :=
  match n, s with
  | 0%nat, _ => s
  | S n, String _ s => drop_bytes n s
  | S _, EmptyString => ""
  end.
Fixpoint take_bytes (n : nat) (s : string) : string :=
  match n, s with
  | S n, String c s => String c (take_bytes n s)
  | _, _ => ""
  end.

Fixpoint starts_with (p s : string) : bool :=
  match p, s with
  | EmptyString, _ => true
  | String a p, String b s => if Ascii.eqb a b then starts_with p s else false
  | String _ _, EmptyString => false
  end.
Definition strip_prefix (p s : string) : option string :=
  if starts_with p s then Some (drop_bytes (String.length p) s) else None.

(** Byte index of the first and of the last occurrence. *)
Fixpoint find (p s : string) : option nat :=
  if starts_with p s then Some 0%nat
  else match s with
       | EmptyString => None
       | String _ s => S <$> find p s
       end.
Fixpoint rfind (p s : string) : option nat :=
  match s with
  | EmptyString => if starts_with p s then Some 0%nat else None
  | String _ s' =>
      match rfind p s' with
      | Some n => Some (S n)
      | None => if starts_with p s then Some 0%nat else None
      end
  end.
Definition contains (p s : string) : bool := bool_decide (is_Some (find p s)).

(** [str::from_utf8]: the well-formed byte sequences of the Unicode standard. *)
Definition in_range (lo hi : nat) (c : ascii) : bool :=
  (Nat.leb lo (nat_of_ascii c) && Nat.leb (nat_of_ascii c) hi)%bool.
Fixpoint utf8_valid (s : string) : bool :=
  let cont := in_range 128 191 in
  match s with
  | EmptyString => true
  | String a s1 =>
      if in_range 0 127 a then utf8_valid s1
      else match s1 with
      | EmptyString => false
      | String b s2 =>
          if in_range 194 223 a then cont b && utf8_valid s2
          else match s2 with
          | EmptyString => false
          | String c s3 =>
              if in_range 224 239 a then
                (if in_range 224 224 a then in_range 160 191 b
                 else if in_range 237 237 a then in_range 128 159 b else cont b)
                && cont c && utf8_valid s3
              else match s3 with
              | EmptyString => false
              | String d s4 =>
                  in_range 240 244 a &&
                  (if in_range 240 240 a then in_range 144 191 b
                   else if in_range 244 244 a then in_range 128 143 b else cont b)
                  && cont c && cont d && utf8_valid s4
              end
          end
      end
  end%bool.
Example utf8_valid_ex :
  utf8_valid (byte_string [226; 130; 172; 65]%nat) = true /\
  utf8_valid (byte_string [237; 160; 128]%nat) = false.
Proof. split; reflexivity. Qed.

(** [str::parse::<i64>]: an optional sign and decimal digits, in range. *)
Definition digit_value (c : ascii) : option Z :=
  if in_range 48 57 c then Some (Z.of_nat (nat_of_ascii c) - 48) else None.
Fixpoint parse_digits (acc : Z) (s : string) : option Z :=
  match s with
  | EmptyString => Some acc
  | String c s =>
      match digit_value c with Some d => parse_digits (10 * acc + d) s | None => None end
  end.
Definition parse_i64 (s : string) : option Z :=
  let in_i64 v := if decide (I64_MIN <= v <= I64_MAX) then Some v else None in
  match s with
  | EmptyString => None
  | String c t =>
      let signed := Ascii.eqb c "-" || Ascii.eqb c "+" in
      if (signed && is_empty t)%bool then None
      else if Ascii.eqb c "-" then v ← parse_digits 0 t; in_i64 (- v)
      else if Ascii.eqb c "+" then v ← parse_digits 0 t; in_i64 v
      else v ← parse_digits 0 s; in_i64 v
  end.
(** [str::parse::<u64>] (and [usize]): an optional plus sign and decimal digits. *)
Definition parse_u64 (s : string) : option Z :=
  let in_u64 v := if decide (v <= U64_MAX) then Some v else None in
  match s with
  | EmptyString => None
  | String c t =>
      if Ascii.eqb c "+" then (if is_empty t then None else v ← parse_digits 0 t; in_u64 v)
      else v ← parse_digits 0 s; in_u64 v
  end.
Example parse_i64_ex :
  parse_i64 "-120" = Some (-120) /\ parse_i64 "+" = None /\ parse_i64 "9223372036854775808" = None.
Proof. split_and!; reflexivity. Qed.

(** The encodings of the characters with the Unicode property White_Space. *)
Definition white_space : list string :=
  List.map byte_string
    ([[9]; [10]; [11]; [12]; [13]; [32]; [194; 133]; [194; 160]; [225; 154; 128];
      [226; 128; 128]; [226; 128; 129]; [226; 128; 130]; [226; 128; 131];
      [226; 128; 132]; [226; 128; 133]; [226; 128; 134]; [226; 128; 135];
      [226; 128; 136]; [226; 128; 137]; [226; 128; 138]; [226; 128; 168];
      [226; 128; 169]; [226; 128; 175]; [226; 129; 159]; [227; 128; 128]])%nat.

Fixpoint strip_any (ps : list string) (s : string) : option string :=
  match ps with
  | [] => None
  | p :: ps => match strip_prefix p s with Some s' => Some s' | None => strip_any ps s end
  end.
Fixpoint trim_with (fuel : nat) (ps : list string) (s : string) : string :=
  match fuel with
  | 0%nat => s
  | S fuel => match strip_any ps s with Some s' => trim_with fuel ps s' | None => s end
  end.
Fixpoint rev_string (s : string) : string :=
  match s with EmptyString => "" | String c s => rev_string s ++ String c "" end.

Definition trim_start (s : string) : string := trim_with (String.length s) white_space s.
Definition trim_end (s : string) : string :=
  rev_string (trim_with (String.length s) (rev_string <$> white_space) (rev_string s)).
Definition trim (s : string) : string := trim_end (trim_start s).

Example trim_ex : trim ("  {a b}" ++ byte_string [10; 226; 128; 169]%nat) = "{a b}".
Proof. reflexivity. Qed.

(** Byte-wise lexicographic order, as [Ord for str]. *)
Definition str_ltb (s t : string) : bool :=
  match String.compare s t with Lt => true | _ => false end.

Lemma ascii_compare_trans a b c :
  Ascii.compare a b = Lt -> Ascii.compare b c = Lt -> Ascii.compare a c = Lt.
Proof. unfold Ascii.compare. rewrite !N.compare_lt_iff. apply N.lt_trans. Qed.

Lemma str_compare_refl s : String.compare s s = Eq.
Proof. pose proof (String.compare_antisym s s) as H. by destruct (String.compare s s). Qed.

Lemma str_ltb_irrefl s : str_ltb s s = false.
Proof. unfold str_ltb. by rewrite str_compare_refl. Qed.

Lemma ascii_compare_refl a : Ascii.compare a a = Eq.
Proof. unfold Ascii.compare. apply N.compare_refl. Qed.

Lemma ascii_compare_Eq a b : Ascii.compare a b = Eq -> a = b.
Proof. apply Ascii.compare_eq_iff. Qed.

Lemma str_ltb_trans s t u : str_ltb s t = true -> str_ltb t u = true -> str_ltb s u = true.
Proof.
  unfold str_ltb. revert t u. induction s as [|a s IH]; intros [|b t] [|c u]; simpl; try done.
  destruct (Ascii.compare a b) eqn:E1, (Ascii.compare b c) eqn:E2; try done; intros H1 H2.
  - apply ascii_compare_Eq in E1, E2; subst. rewrite ascii_compare_refl. by apply (IH t).
  - apply ascii_compare_Eq in E1; subst. by rewrite E2.
  - apply ascii_compare_Eq in E2; subst. by rewrite E1.
  - by rewrite (ascii_compare_trans a b c).
Qed.

Lemma str_ltb_total s t : str_ltb s t = false -> str_ltb t s = false -> s = t.
Proof.
  unfold str_ltb. pose proof (String.compare_antisym s t) as Ha.
  destruct (String.compare s t) eqn:E, (String.compare t s); try done.
  intros _ _. by apply String.compare_eq_iff.
Qed.

Lemma str_ltb_neq s t : str_ltb s t = true -> s <> t.
Proof. intros H ->. by rewrite str_ltb_irrefl in H. Qed.
#[export] Hint Resolve str_ltb_trans str_ltb_neq : rust.

(** ** Trimming *)

#[local] Arguments String.append : simpl nomatch.

Lemma string_app_nil_r s : s ++ "" = s.
Proof. induction s as [|c s IH]; simpl; by rewrite ?IH. Qed.
Lemma string_app_cons c s t : String c s ++ t = String c (s ++ t).
Proof. done. Qed.

Lemma string_app_assoc s t u : s ++ t ++ u = (s ++ t) ++ u.
Proof. induction s as [|c s IH]; simpl; by rewrite ?IH. Qed.
Lemma rev_string_app s t : rev_string (s ++ t) = rev_string t ++ rev_string s.
Proof.
  induction s as [|c s IH]; simpl; [by rewrite string_app_nil_r|].
  by rewrite IH, string_app_assoc.
Qed.
Lemma rev_string_involutive s : rev_string (rev_string s) = s.
Proof. induction s as [|c s IH]; simpl; [done|]. by rewrite rev_string_app, IH. Qed.

Lemma trim_with_stop n ps s : strip_any ps s = None -> trim_with n ps s = s.
Proof. destruct n; simpl; [done|]. by intros ->. Qed.


Lemma strip_any_solid c s :
  c = "{"%char \/ c = "}"%char \/ c = "`"%char \/ c = "["%char \/ c = "]"%char ->
  strip_any white_space (String c s) = None /\
  strip_any (rev_string <$> white_space) (String c s) = None.
Proof. intros [->|[->|[->|[->| ->]]]]; (split; vm_compute; reflexivity). Qed.

Lemma trim_start_solid c s :
  c = "{"%char \/ c = "}"%char \/ c = "`"%char \/ c = "["%char \/ c = "]"%char ->
  trim_start (String c s) = String c s.
Proof. intros Hc. unfold trim_start. apply trim_with_stop. exact (proj1 (strip_any_solid c s Hc)). Qed.

Lemma trim_end_solid c s :
  c = "{"%char \/ c = "}"%char \/ c = "`"%char \/ c = "["%char \/ c = "]"%char ->
  trim_end (s ++ String c "") = s ++ String c "".
Proof.
  intros Hc. unfold trim_end. rewrite rev_string_app.
  change (rev_string (String c "")) with (String c "").
  change (String c "" ++ rev_string s) with (String c (rev_string s)).
  rewrite trim_with_stop by exact (proj2 (strip_any_solid c _ Hc)).
  change (rev_string (String c (rev_string s))) with (rev_string (rev_string s) ++ String c "").
  rewrite rev_string_involutive. reflexivity.
Qed.

Definition newline : string := String "010"%char "".

Lemma trim_start_newline s : trim_start (newline ++ s) = trim_start s.
Proof. reflexivity. Qed.

Lemma length_rev_string s : String.length (rev_string s) = String.length s.
Proof.
  enough (forall t, String.length (rev_string s ++ t) = String.length s + String.length t)%nat
    as H by (specialize (H ""); rewrite string_app_nil_r in H; simpl in H; lia).
  induction s as [|c s IH]; intros t; simpl; [done|].
  rewrite <- string_app_assoc, IH. simpl. lia.
Qed.

Lemma trim_end_newline s : trim_end (s ++ newline) = trim_end s.
Proof.
  unfold trim_end. rewrite <- (length_rev_string (s ++ newline)), rev_string_app.
  change (rev_string newline ++ rev_string s) with (String "010"%char (rev_string s)).
  rewrite <- (length_rev_string s). reflexivity.
Qed.

(** ** Searching *)

Lemma starts_with_app p s : starts_with p (p ++ s) = true.
Proof. induction p as [|c p IH]; simpl; [done|]. by rewrite Ascii.eqb_refl. Qed.

Lemma drop_bytes_app p s : drop_bytes (String.length p) (p ++ s) = s.
Proof. by induction p. Qed.

Lemma take_bytes_app p s : take_bytes (String.length p) (p ++ s) = p.
Proof. induction p as [|c p IH]; simpl; by rewrite ?IH; destruct s. Qed.

Lemma strip_prefix_app p s : strip_prefix p (p ++ s) = Some s.
Proof. unfold strip_prefix. by rewrite starts_with_app, drop_bytes_app. Qed.

(** The last occurrence of [p] in [s ++ p]-like strings. *)
Lemma rfind_app p s t n : rfind p t = Some n -> rfind p (s ++ t) = Some (String.length s + n)%nat.
Proof. intros Ht. induction s as [|c s IH]; simpl; [done|]. by rewrite IH. Qed.

(** The first occurrence of a character. *)
Lemma find_char_app (c : ascii) a b : find (String c "") a = None ->
  find (String c "") (a ++ String c b) = Some (String.length a).
Proof.
  induction a as [|x a IH]; simpl.
  - rewrite Ascii.eqb_refl. done.
  - destruct (Ascii.eqb c x); [done|]. intros Hf.
    destruct (find (String c "") a); [done|]. by rewrite (IH eq_refl).
Qed.

Lemma drop_bytes_app_S p c s : drop_bytes (S (String.length p)) (p ++ String c s) = s.
Proof. by induction p. Qed.

Lemma parse_digits_nonneg acc s v : 0 <= acc -> parse_digits acc s = Some v -> 0 <= v.
Proof.
  revert acc. induction s as [|c s IH]; simpl; [by intros ? ? [= <-]|].
  intros acc Ha. unfold digit_value. destruct (in_range 48 57 c) eqn:Hr; [|done]. apply IH.
  unfold in_range in Hr. apply andb_true_iff in Hr as [Hlo%Nat.leb_le _]. lia.
Qed.
Lemma parse_u64_bounds s v : parse_u64 s = Some v -> 0 <= v <= U64_MAX.
Proof.
  unfold parse_u64. destruct s as [|c t]; [done|].
  destruct (Ascii.eqb c "+"); [destruct (is_empty t); [done|]|];
    (destruct (parse_digits 0 _) as [n|] eqn:Hn; simpl; [|done]; case_decide; [|done]; intros [= <-];
     apply parse_digits_nonneg in Hn; lia).
Qed.

Lemma parse_digits_no_dot acc s v : parse_digits acc s = Some v -> find "." s = None.
Proof.
  revert acc. induction s as [|c s IH]; intros acc Hp; [done|].
  cbn [parse_digits] in Hp. destruct (digit_value c) as [d|] eqn:E; [|done].
  cbn [find starts_with]. replace (Ascii.eqb "." c) with false.
  - by rewrite (IH _ Hp).
  - symmetry. apply Ascii.eqb_neq. intros <-. done.
Qed.

(** A parsed integer has no dot. *)
Lemma parse_i64_no_dot s v : parse_i64 s = Some v -> find "." s = None.
Proof.
  destruct s as [|c s]; [done|]. unfold parse_i64.
  destruct ((Ascii.eqb c "-" || Ascii.eqb c "+") && is_empty s)%bool; [done|].
  destruct (Ascii.eqb_spec c "-") as [->|_]; [|destruct (Ascii.eqb_spec c "+") as [->|_]].
  - destruct (parse_digits 0 s) eqn:E; [|done]. intros _. cbn [find starts_with].
    change (Ascii.eqb "." "-") with false. by rewrite (parse_digits_no_dot _ _ _ E).
  - destruct (parse_digits 0 s) eqn:E; [|done]. intros _. cbn [find starts_with].
    change (Ascii.eqb "." "+") with false. by rewrite (parse_digits_no_dot _ _ _ E).
  - destruct (parse_digits 0 (String c s)) eqn:E; [|done]. intros _. by eapply parse_digits_no_dot.
Qed.

(** ** [str::replace] for a non-empty pattern

    Left to right, without overlaps: after a match the scan resumes behind it. *)
Fixpoint replace_from (skip : nat) (p r s : string) : string :=
  match s with
  | EmptyString => ""
  | String c s' =>
      match skip with
      | S skip => replace_from skip p r s'
      | O => if starts_with p s then r ++ replace_from (pred (String.length p)) p r s'
             else String c (replace_from 0 p r s')
      end
  end.
Definition replace (p r s : string) : string := replace_from 0 p r s.

(** [{:?}] of a string without characters to escape. *)
Definition quoted (s : string) : string := String "034" (s ++ String "034" "").

Fixpoint lacks (c : ascii) (s : string) : bool :=
  match s with EmptyString => true | String d s => negb (Ascii.eqb d c) && lacks c s end.

Lemma lacks_app c s t : lacks c (s ++ t) = lacks c s && lacks c t.
Proof. induction s; simpl; [done|]. rewrite IHs. apply andb_assoc. Qed.

Lemma replace_from_skip p r a s : replace_from (String.length a) p r (a ++ s) = replace p r s.
Proof. induction a; simpl; [done|]. by rewrite IHa. Qed.

Lemma replace_match p r s : p <> "" -> replace p r (p ++ s) = r ++ replace p r s.
Proof.
  intros Hp. unfold replace. pose proof (starts_with_app p s) as H.
  destruct p as [|c p]; [done|]. change (String c p ++ s) with (String c (p ++ s)) in *.
  cbn [replace_from]. rewrite H. f_equal. apply replace_from_skip.
Qed.

Lemma replace_skip p r c s :
  starts_with p (String c s) = false -> replace p r (String c s) = String c (replace p r s).
Proof. intros H. unfold replace. cbn [replace_from]. by rewrite H. Qed.

(** Inside a text that lacks the pattern's first character nothing is replaced. *)
Lemma replace_lacks c p r a s :
  lacks c a = true -> replace (String c p) r (a ++ s) = a ++ replace (String c p) r s.
Proof.
  induction a as [|d a IH]; simpl (_ ++ _); [done|]. intros [Hd Ha]%andb_true_iff.
  rewrite replace_skip, IH; [done|done|]. simpl. destruct (Ascii.eqb_spec c d) as [->|]; [|done].
  by rewrite Ascii.eqb_refl in Hd.
Qed.

Lemma find_None_cons p c s :
  find p (String c s) = None -> starts_with p (String c s) = false /\ find p s = None.
Proof. cbn [find]. destruct (starts_with p (String c s)); [done|]. by destruct (find p s). Qed.

Lemma find_None_suffix p a s : find p (a ++ s) = None -> find p s = None.
Proof. induction a; [done|]. intros [_ ?]%find_None_cons. auto. Qed.

(** Two words closed by the same delimiter, one a prefix of the other. *)
Lemma starts_with_delimited c w w' s :
  lacks c w = true -> lacks c w' = true ->
  starts_with (w ++ String c "") (w' ++ String c s) = true -> w = w'.
Proof.
  revert w'. induction w as [|d w IH]; intros [|d' w'] Hw Hw' H; simpl in *; try done.
  - apply andb_true_iff in Hw' as [Hd _]. by rewrite Ascii.eqb_sym in H; destruct (Ascii.eqb d' c).
  - apply andb_true_iff in Hw as [Hd _]. by destruct (Ascii.eqb d c).
  - apply andb_true_iff in Hw as [_ Hw]. apply andb_true_iff in Hw' as [_ Hw'].
    destruct (Ascii.eqb_spec d d') as [->|]; [|done]. f_equal. by apply IH.
Qed.

(** Decimal numerals consist of digits. *)
Lemma pretty_N_lacks c (n : N) : in_range 48 57 c = false -> lacks c (pretty n) = true.
Proof.
  intros Hc.
  assert (Hd : forall x, Ascii.eqb (pretty_N_char x) c = false).
  { intros x. apply Ascii.eqb_neq. intros <-. revert Hc. unfold pretty_N_char.
    repeat case_match; done. }
  assert (Hgo : forall x s, lacks c s = true -> lacks c (pretty_N_go x s) = true).
  { intros x. induction (N.lt_wf_0 x) as [x _ IH]. intros s Hs.
    destruct (decide (0 < x)%N) as [Hx|]; [|by replace x with 0%N by lia].
    rewrite pretty_N_go_step by done. apply IH; [by apply N.div_lt|]. simpl. by rewrite Hd. }
  unfold pretty, pretty_N. case_decide; [|by apply Hgo]. cbn [lacks].
  by rewrite (Hd 0%N : Ascii.eqb "0" c = false).
Qed.

Lemma pretty_Z_lacks c (n : Z) : 0 <= n -> in_range 48 57 c = false -> lacks c (pretty n) = true.
Proof.
  intros Hn Hc. destruct n as [|p|p]; [exact (pretty_N_lacks c 0 Hc)| |lia].
  exact (pretty_N_lacks c (Npos p) Hc).
Qed.

Lemma starts_with_weaken p q s : starts_with (p ++ q) s = true -> starts_with p s = true.
Proof.
  revert s. induction p as [|c p IH]; intros [|d s] H; simpl in *; try done.
  destruct (Ascii.eqb c d); [by apply IH|done].
Qed.
#[global] Arguments replace : simpl never.

(** A text is split in one way at the last occurrence of a character. *)
Lemma app_last_char c a x a' x' :
  lacks c x = true -> lacks c x' = true -> a ++ String c x = a' ++ String c x' -> a = a' /\ x = x'.
Proof.
  revert a'. induction a as [|d a IH]; intros [|d' a'] Hx Hx' Heq.
  - by injection Heq as ->.
  - injection Heq as <- ->. rewrite lacks_app in Hx. simpl in Hx.
    by rewrite Ascii.eqb_refl, andb_false_r in Hx.
  - injection Heq as -> <-. rewrite lacks_app in Hx'. simpl in Hx'.
    by rewrite Ascii.eqb_refl, andb_false_r in Hx'.
  - rewrite !string_app_cons in Heq. injection Heq as -> Heq.
    by destruct (IH a' Hx Hx' Heq) as [-> ->].
Qed.

Lemma lacks_drop_bytes c n s : lacks c s = true -> lacks c (drop_bytes n s) = true.
Proof.
  revert s. induction n; intros [|d s] Hs; simpl; try done.
  apply IHn. simpl in Hs. by apply andb_true_iff in Hs as [_ ?].
Qed.

Lemma strip_any_lacks c ps s s' : strip_any ps s = Some s' -> lacks c s = true -> lacks c s' = true.
Proof.
  induction ps as [|p ps IH]; simpl; [done|]. unfold strip_prefix.
  destruct (starts_with p s); [|by auto]. intros [= <-]. apply lacks_drop_bytes.
Qed.

Lemma trim_with_lacks c n ps s : lacks c s = true -> lacks c (trim_with n ps s) = true.
Proof.
  revert s. induction n as [|n IH]; intros s Hs; simpl; [done|].
  destruct (strip_any ps s) eqn:E; [|done]. apply IH. by eapply strip_any_lacks.
Qed.

Lemma lacks_rev c s : lacks c (rev_string s) = lacks c s.
Proof.
  induction s as [|d s IH]; simpl; [done|]. rewrite lacks_app, IH. simpl.
  by rewrite andb_true_r, andb_comm.
Qed.

Lemma trim_lacks c s : lacks c s = true -> lacks c (trim s) = true.
Proof.
  intros Hs. unfold trim, trim_start, trim_end.
  rewrite lacks_rev. apply trim_with_lacks. rewrite lacks_rev. by apply trim_with_lacks.
Qed.

(** ** [split] and [trim_start_matches] at one ASCII character, [join] *)

Fixpoint split_char (c : ascii) (s : string) : list string :=
  match s with
  | "" => [""]
  | String d s =>
      let parts := split_char c s in
      if decide (d = c) then "" :: parts
      else match parts with
           | p :: parts => String d p :: parts
           | [] => [String d ""]
           end
  end.

Fixpoint trim_start_char (c : ascii) (s : string) : string :=
  match s with
  | String d s' => if decide (d = c) then trim_start_char c s' else s
  | "" => ""
  end.

Lemma split_char_nonempty c s : split_char c s <> [].
Proof. destruct s as [|d s]; simpl; [done|]. case_decide; [done|]. by case_match. Qed.

Lemma split_char_lacks c s : Forall (fun p => lacks c p = true) (split_char c s).
Proof.
  induction s as [|d s IH]; simpl; [by repeat constructor|].
  case_decide as Hd; [by constructor|].
  apply Ascii.eqb_neq in Hd. destruct (split_char c s) as [|p parts].
  - apply Forall_singleton. simpl. by rewrite Hd.
  - apply Forall_cons in IH as [Hp Hparts]. constructor; [|done]. simpl. by rewrite Hd, Hp.
Qed.

Lemma split_char_solid c p : lacks c p = true -> split_char c p = [p].
Proof.
  induction p as [|d p IH]; simpl; [done|]. intros [Hd Hp]%andb_prop.
  case_decide as Hdc; [by rewrite Hdc, Ascii.eqb_refl in Hd|]. by rewrite IH.
Qed.

Lemma split_char_app c p s : lacks c p = true ->
  split_char c (p ++ String c s) = p :: split_char c s.
Proof.
  induction p as [|d p IH]; intros Hp.
  - change ("" ++ String c s) with (String c s). simpl. by rewrite decide_True.
  - apply andb_prop in Hp as [Hd Hp]. rewrite string_app_cons. simpl.
    case_decide as Hdc; [by rewrite Hdc, Ascii.eqb_refl in Hd|]. by rewrite IH.
Qed.

(** Splitting undoes joining when the parts lack the separator. *)
Lemma split_char_concat c parts : parts <> [] -> Forall (fun p => lacks c p = true) parts ->
  split_char c (String.concat (String c "") parts) = parts.
Proof.
  induction parts as [|p parts IH]; [done|]. intros _ [Hp Hparts]%Forall_cons.
  destruct parts as [|q parts]; [by apply split_char_solid|].
  change (String.concat (String c "") (p :: q :: parts)) with
    (p ++ String c (String.concat (String c "") (q :: parts))).
  by rewrite split_char_app, IH.
Qed.

Lemma find_app_le p a s n : find p s = Some n -> exists m, find p (a ++ s) = Some m.
Proof.
  intros Hs. induction a as [|c a [m IH]]; [by exists n|].
  rewrite string_app_cons. simpl. case_match; [by eexists|]. rewrite IH. simpl. by eexists.
Qed.

Lemma contains_app p a b : contains p (a ++ p ++ b) = true.
Proof.
  unfold contains. apply bool_decide_true.
  assert (Hp : exists n, find p (p ++ b) = Some n).
  { exists O. pose proof (starts_with_app p b) as Hs. by destruct (p ++ b); simpl; rewrite Hs. }
  destruct Hp as [n Hn]. destruct (find_app_le p a _ n Hn) as [m ->]. by eexists.
Qed.

(** ** [to_ascii_lowercase] *)

Definition ascii_lower (c : ascii) : ascii :=
  if in_range 65 90 c then ascii_of_nat (nat_of_ascii c + 32) else c.
Fixpoint to_ascii_lowercase (s : string) : string :=
  match s with "" => "" | String c s => String (ascii_lower c) (to_ascii_lowercase s) end.

Lemma ascii_lower_range c d : in_range 65 90 c = true -> Ascii.eqb (ascii_lower d) c = false.
Proof.
  intros Hc. apply Ascii.eqb_neq. intros Hd. revert Hc. rewrite <- Hd. clear.
  destruct d as [[] [] [] [] [] [] [] []]; by vm_compute.
Qed.

(** No capital is left. *)
Lemma to_ascii_lowercase_lacks c s : in_range 65 90 c = true -> lacks c (to_ascii_lowercase s) = true.
Proof.
  intros Hc. induction s as [|d s IH]; [done|]. simpl. by rewrite ascii_lower_range, IH.
Qed.

Lemma starts_with_lacks c p s : starts_with p s = true -> lacks c s = true -> lacks c p = true.
Proof.
  revert s. induction p as [|d p IH]; intros [|e s]; simpl; try done.
  destruct (Ascii.eqb d e) eqn:Hde; [|done]. apply Ascii.eqb_eq in Hde as ->.
  intros Hs [-> Hl]%andb_prop. by rewrite (IH s).
Qed.

Lemma contains_lacks c p s : contains p s = true -> lacks c s = true -> lacks c p = true.
Proof.
  intros [n Hn]%bool_decide_eq_true. revert n Hn. induction s as [|d s IH]; intros n Hn Hl; simpl in Hn.
  - destruct (starts_with p "") eqn:Hs; [|done]. by eapply starts_with_lacks.
  - destruct (starts_with p (String d s)) eqn:Hs; [by eapply starts_with_lacks|].
    destruct (find p s) as [m|] eqn:Hm; [|done]. apply andb_prop in Hl as [_ Hl]. by eapply IH.
Qed.

(** A pattern with a capital is not found in a lowercased text. *)
Lemma contains_lower_capital c p s :
  in_range 65 90 c = true -> lacks c p = false -> contains p (to_ascii_lowercase s) = false.
Proof.
  intros Hc Hp. destruct (contains p _) eqn:Hf; [|done].
  by rewrite (contains_lacks c p _ Hf) in Hp by by apply to_ascii_lowercase_lacks.
Qed.

(** ** Characters

    A byte that is not a continuation byte of UTF-8 starts a character. *)
Definition is_char_boundary (s : string) (n : nat) : bool :=
  match String.get n s with
  | Some c => negb (in_range 128 191 c)
  | None => bool_decide (n = String.length s)
  end.
(** [&s[..n]]. *)
Definition slice_to (s : string) (n : nat) : outcome string :=
  if is_char_boundary s n then Ret (take_bytes n s) else Panic.

(** [chars]: a character is a first byte with its continuation bytes, of which ASCII
    characters have none. *)
Definition char_cons (c : ascii) (s : string) (ws : list string) : list string :=
  match s, ws with
  | String d _, w :: ws' =>
      if in_range 128 191 d && in_range 128 255 c then String c w :: ws' else String c "" :: ws
  | _, _ => String c "" :: ws
  end.
Fixpoint chars (s : string) : list string :=
  match s with "" => [] | String c s => char_cons c s (chars s) end.
(** [collect::<String>()] and [repeat_n(c, n).collect::<String>()]. *)
Definition collect_str (l : list string) : string := fold_right String.append "" l.
Definition repeat_n (c : string) (n : Z) : string := collect_str (repeat c (Z.to_nat n)).

Lemma collect_char_cons c s ws : collect_str (char_cons c s ws) = String c (collect_str ws).
Proof. unfold char_cons. repeat case_match; simpl; by rewrite ?string_app_cons. Qed.

Lemma chars_collect s : collect_str (chars s) = s.
Proof. induction s as [|c s IH]; [done|]. simpl. by rewrite collect_char_cons, IH. Qed.

Lemma length_string_app s t :
  String.length (s ++ t) = (String.length s + String.length t)%nat.
Proof. induction s as [|c s IH]; [done|]. rewrite string_app_cons. simpl. by rewrite IH. Qed.

Lemma length_repeat_n c n : c <> "" -> (Z.to_nat n <= String.length (repeat_n c n))%nat.
Proof.
  intros Hc. unfold repeat_n. induction (Z.to_nat n) as [|m IH]; simpl; [done|].
  rewrite length_string_app. destruct c; [done|]. simpl. lia.
Qed.

Lemma collect_str_app l l' : collect_str (l ++ l')%list = collect_str l ++ collect_str l'.
Proof. induction l as [|w l IH]; simpl; [done|]. by rewrite IH, string_app_assoc. Qed.

Lemma take_drop_bytes n s : take_bytes n s ++ drop_bytes n s = s.
Proof.
  revert s. induction n as [|n IH]; intros [|c s]; simpl; rewrite ?string_app_cons; try done.
  by rewrite IH.
Qed.
Lemma length_drop_bytes n s : String.length (drop_bytes n s) = (String.length s - n)%nat.
Proof. revert s. induction n as [|n IH]; intros [|c s]; simpl; [done..|]. apply IH. Qed.
Lemma length_take_bytes n s : (n <= String.length s)%nat -> String.length (take_bytes n s) = n.
Proof.
  revert s. induction n as [|n IH]; intros [|c s] Hn; simpl in *; [done..|lia|]. by rewrite IH by lia.
Qed.

Lemma drop_bytes_add a b s : drop_bytes (a + b) s = drop_bytes b (drop_bytes a s).
Proof. revert s. induction a as [|a IH]; intros [|c s]; simpl; [done..|by destruct b|apply IH]. Qed.
Lemma take_bytes_add a b s : take_bytes (a + b) s = take_bytes a s ++ take_bytes b (drop_bytes a s).
Proof.
  revert s. induction a as [|a IH]; intros [|c s]; simpl; [done..|by destruct b|].
  rewrite IH. reflexivity.
Qed.

(** [chars().all(p)] for a predicate that only ASCII characters satisfy. *)
Fixpoint all_chars (p : ascii -> bool) (s : string) : bool :=
  match s with "" => true | String c s => p c && all_chars p s end.
Definition is_ascii_alphanumeric (c : ascii) : bool :=
  in_range 48 57 c || in_range 65 90 c || in_range 97 122 c.
(** Space, tab, line feed, form feed and carriage return. *)
Definition is_ascii_whitespace (c : ascii) : bool :=
  in_range 32 32 c || in_range 9 10 c || in_range 12 13 c.

Lemma in_range_iff lo hi c : in_range lo hi c = true <-> (lo <= Ascii.nat_of_ascii c <= hi)%nat.
Proof. unfold in_range. rewrite andb_true_iff, !Nat.leb_le. done. Qed.

Lemma lacks_collect c l : Forall (fun w => lacks c w = true) l -> lacks c (collect_str l) = true.
Proof. induction 1 as [|w l Hw _ IH]; simpl; [done|]. by rewrite lacks_app, Hw, IH. Qed.

(** An ASCII character is a word of its own. *)
Lemma chars_ascii c s :
  in_range 0 127 c = true -> Forall (fun w => w = String c "" \/ lacks c w = true) (chars s).
Proof.
  intros Hc. assert (Hhigh : forall d n, in_range 128 n d = true -> Ascii.eqb d c = false).
  { intros d n Hd. apply Ascii.eqb_neq. intros ->. apply in_range_iff in Hc, Hd. lia. }
  induction s as [|a s IH]; [constructor|]. simpl.
  assert (Hsingle : String a "" = String c "" \/ lacks c (String a "") = true).
  { destruct (decide (a = c)) as [->|Hne]; [by left|right]. cbn [lacks].
    by rewrite (proj2 (Ascii.eqb_neq a c)) by congruence. }
  assert (Hcons : forall ws, Forall (fun w => w = String c "" \/ lacks c w = true) ws ->
    Forall (fun w => w = String c "" \/ lacks c w = true) (String a "" :: ws)) by by constructor.
  unfold char_cons. destruct s as [|d s]; [by apply Hcons|].
  destruct (chars (String d s)) as [|w ws] eqn:E; [by apply Hcons|].
  destruct (in_range 128 191 d) eqn:Hd, (in_range 128 255 a) eqn:Ha; try (by apply Hcons). simpl andb. cbv iota.
  inversion IH as [|? ? Hw Hws]; subst. constructor; [|done]. right. simpl.
  rewrite (Hhigh _ _ Ha). destruct Hw as [->|Hw]; [|done].
  pose proof (chars_collect (String d s)) as Hcol. rewrite E in Hcol. simpl in Hcol.
  injection Hcol as <- _. pose proof (Hhigh _ _ Hd) as He. by rewrite Ascii.eqb_refl in He.
Qed.

Lemma len_nonneg s : 0 <= len s.
Proof. unfold len. lia. Qed.
Lemma len_app s t : len (s ++ t) = len s + len t.
Proof. unfold len. rewrite length_string_app. lia. Qed.

Definition ends_with (p s : string) : bool := starts_with (rev_string p) (rev_string s).

(** ** Parts of a text *)

Lemma starts_with_split p s : starts_with p s = true -> s = p ++ drop_bytes (String.length p) s.
Proof.
  revert s. induction p as [|c p IH]; intros [|d s] Hs; try done. cbn in Hs.
  destruct (Ascii.eqb_spec c d) as [->|]; [|done]. cbn. f_equal. by apply IH.
Qed.

Lemma find_split p s n : find p s = Some n ->
  s = take_bytes n s ++ p ++ drop_bytes (n + String.length p) s.
Proof.
  revert n. induction s as [|c s IH]; intros n Hs; cbn [find] in Hs.
  - destruct (starts_with p "") eqn:E; [|done]. injection Hs as <-. by apply starts_with_split in E.
  - destruct (starts_with p (String c s)) eqn:E.
    + injection Hs as <-. by apply starts_with_split in E.
    + destruct (find p s) as [m|]; [|done]. injection Hs as <-. cbn. f_equal. by apply IH.
Qed.

Lemma contains_iff p s : contains p s = true <-> exists a b, s = a ++ p ++ b.
Proof.
  split; [|intros (a & b & ->); apply contains_app]. unfold contains. intros [n Hn]%bool_decide_eq_true.
  apply find_split in Hn. eauto.
Qed.

Lemma contains_none p s : find p s = None <-> contains p s = false.
Proof. unfold contains. rewrite bool_decide_eq_false. destruct (find p s); naive_solver. Qed.

Lemma contains_infix p a s b : contains p s = true -> contains p (a ++ s ++ b) = true.
Proof.
  rewrite !contains_iff. intros (x & y & ->). exists (a ++ x), (y ++ b). by rewrite <- !string_app_assoc.
Qed.

(** The text before the first occurrence does not contain it. *)
Lemma starts_with_app_long p a b :
  (String.length p <= String.length a)%nat -> starts_with p (a ++ b) = starts_with p a.
Proof.
  revert a. induction p as [|c p IH]; intros [|d a] Hl; cbn in Hl |- *; try done; [lia|].
  change (String d a ++ b) with (String d (a ++ b)). destruct (Ascii.eqb c d); [|done]. apply IH. lia.
Qed.

Lemma find_length p s n : find p s = Some n -> (n + String.length p <= String.length s)%nat.
Proof.
  revert n. induction s as [|c s IH]; intros n; cbn [find].
  - destruct p; [|done]. intros [= <-]. done.
  - destruct (starts_with p (String c s)) eqn:E.
    + intros [= <-]. apply starts_with_split in E. rewrite E, length_string_app. lia.
    + destruct (find p s) as [m|]; [|done]. intros [= <-]. specialize (IH m eq_refl). cbn. lia.
Qed.

(** What is found first stays first, whatever follows. *)
Lemma find_app_r p a b n : find p a = Some n -> find p (a ++ b) = Some n.
Proof.
  revert n. induction a as [|c a IH]; intros n Hn.
  - destruct p; [|done]. cbn in Hn. injection Hn as <-. by destruct b.
  - pose proof (find_length _ _ _ Hn) as Hl. change (String c a ++ b) with (String c (a ++ b)).
    cbn [find] in Hn |- *. change (String c (a ++ b)) with (String c a ++ b).
    rewrite starts_with_app_long by (cbn in *; lia).
    destruct (starts_with p (String c a)); [done|].
    destruct (find p a) as [m|]; [|done]. by rewrite (IH m eq_refl).
Qed.

Lemma find_first p s n : p <> "" -> find p s = Some n -> contains p (take_bytes n s) = false.
Proof.
  intros Hp. revert n. induction s as [|c s IH]; intros n Hs; cbn [find] in Hs.
  - by destruct p.
  - destruct (starts_with p (String c s)) eqn:E.
    + injection Hs as <-. apply contains_none. by destruct p.
    + destruct (find p s) as [m|] eqn:Hm; [|done]. injection Hs as <-. apply contains_none. cbn [take_bytes find].
      rewrite (proj2 (contains_none _ _) (IH m eq_refl)). destruct (starts_with p (String c (take_bytes m s))) eqn:E'; [|done].
      exfalso. apply starts_with_split in E'. rewrite <- (take_drop_bytes m s), <- string_app_cons, E' in E.
      rewrite <- string_app_assoc, starts_with_app in E. done.
Qed.

Lemma strip_any_prefix ps s s' : strip_any ps s = Some s' -> exists a, s = a ++ s'.
Proof.
  induction ps as [|p ps IH]; cbn; [done|]. unfold strip_prefix. destruct (starts_with p s) eqn:E; [|done].
  intros [= <-]. exists p. by apply starts_with_split.
Qed.

Lemma trim_with_suffix n ps s : exists a, s = a ++ trim_with n ps s.
Proof.
  revert s. induction n as [|n IH]; intros s; cbn; [by exists ""|].
  destruct (strip_any ps s) as [s'|] eqn:E; [|by exists ""].
  apply strip_any_prefix in E as [a ->]. destruct (IH s') as [b Hb]. exists (a ++ b).
  by rewrite <- string_app_assoc, <- Hb.
Qed.

Lemma trim_end_prefix s : exists b, s = trim_end s ++ b.
Proof.
  unfold trim_end. destruct (trim_with_suffix (String.length s) (rev_string <$> white_space) (rev_string s)) as [a Ha].
  exists (rev_string a). by rewrite <- rev_string_app, <- Ha, rev_string_involutive.
Qed.

Lemma trim_infix s : exists a b, s = a ++ trim s ++ b.
Proof.
  destruct (trim_with_suffix (String.length s) white_space s) as [a Ha].
  destruct (trim_end_prefix (trim_start s)) as [b Hb]. exists a, b. unfold trim. by rewrite <- Hb.
Qed.

(** Trimming leaves nothing to trim. *)
Lemma trim_with_done n ps s : Forall (fun p => p <> "") ps -> (String.length s <= n)%nat ->
  strip_any ps (trim_with n ps s) = None.
Proof.
  intros Hps. assert (forall t t', strip_any ps t = Some t' -> (String.length t' < String.length t)%nat) as Hlt.
  { intros t t'. induction Hps as [|p ps Hp _ IH]; cbn; [done|]. unfold strip_prefix.
    destruct (starts_with p t) eqn:E; [|done]. intros [= <-]. apply starts_with_split in E. rewrite E at 2.
    rewrite length_string_app. destruct p; [done|]. cbn. lia. }
  revert s. induction n as [|n IH]; intros s Hn; cbn.
  - destruct (strip_any ps s) as [s'|] eqn:E; [|done]. apply Hlt in E. lia.
  - destruct (strip_any ps s) as [s'|] eqn:E; [|done]. apply IH. apply Hlt in E. lia.
Qed.

Lemma strip_any_app_none ps s b : strip_any ps (s ++ b) = None -> strip_any ps s = None.
Proof.
  induction ps as [|p ps IH]; cbn; [done|]. unfold strip_prefix. destruct (starts_with p s) eqn:E.
  - apply starts_with_split in E. rewrite E, <- string_app_assoc, starts_with_app. done.
  - destruct (starts_with p (s ++ b)); [done|exact IH].
Qed.

Lemma white_space_nonempty : Forall (fun p => p <> "") white_space /\
  Forall (fun p => p <> "") (rev_string <$> white_space).
Proof. split; repeat (constructor; [discriminate|]); constructor. Qed.

Lemma trim_idempotent s : trim (trim s) = trim s.
Proof.
  assert (strip_any white_space (trim s) = None) as Hs.
  { destruct (trim_end_prefix (trim_start s)) as [b Hb]. apply (strip_any_app_none _ _ b). unfold trim.
    rewrite <- Hb. by apply trim_with_done; [apply white_space_nonempty|]. }
  assert (strip_any (rev_string <$> white_space) (rev_string (trim s)) = None) as He.
  { unfold trim, trim_end. rewrite rev_string_involutive.
    apply trim_with_done; [apply white_space_nonempty|by rewrite length_rev_string]. }
  unfold trim at 1, trim_start. rewrite (trim_with_stop _ _ _ Hs). unfold trim_end.
  by rewrite (trim_with_stop _ _ _ He), rev_string_involutive.
Qed.

Lemma drop_bytes_le n a b : (n <= String.length a)%nat -> drop_bytes n (a ++ b) = drop_bytes n a ++ b.
Proof.
  revert a. induction n as [|n IH]; intros [|c a] Hn; cbn in *; try done; [lia|]. apply IH. lia.
Qed.

Lemma find_le p x b i : find p (x ++ p ++ b) = Some i -> (i <= String.length x)%nat.
Proof.
  revert i. induction x as [|c x IH]; intros i Hi.
  - cbn [String.append] in Hi. pose proof (starts_with_app p b) as Hs.
    destruct (p ++ b); cbn [find] in Hi; rewrite Hs in Hi; by injection Hi as <-.
  - cbn [String.append find] in Hi. destruct (starts_with _ _); [injection Hi as <-; lia|].
    destruct (find p (x ++ p ++ b)) as [m|]; [|done]. injection Hi as <-. cbn. specialize (IH m eq_refl). lia.
Qed.
