(* ===== verification/Decimal.v ===== *)
(** * Decimal numerals

    What [to_string] prints of an unsigned integer, [parse] reads back, with or without
    white space around it. *)
From Stdlib Require Import Ascii String.
From S2P Require Import Prelude RustStr.

Local Open Scope string_scope.

Definition is_digit (c : ascii) : bool := in_range 48 57 c.

Lemma strip_any_digit c s : is_digit c = true ->
  strip_any white_space (String c s) = None /\
  strip_any (rev_string <$> white_space) (String c s) = None.
Proof.
  destruct c as [[] [] [] [] [] [] [] []]; try discriminate; intros _; (split; vm_compute; reflexivity).
Qed.

Lemma all_chars_rev p s : all_chars p (rev_string s) = all_chars p s.
Proof.
  enough (Happ : forall t u, all_chars p (t ++ u) = all_chars p t && all_chars p u).
  { induction s as [|c s IH]; [done|]. cbn [rev_string]. rewrite Happ, IH. cbn.
    by rewrite andb_true_r, andb_comm. }
  intros t u. induction t as [|c t IH]; [done|]. rewrite string_app_cons. cbn. by rewrite IH, andb_assoc.
Qed.

Lemma trim_digits s : all_chars is_digit s = true -> trim s = s.
Proof.
  intros Hs. assert (Hstart : trim_start s = s).
  { destruct s as [|c s]; [done|]. apply andb_true_iff in Hs as [Hc _].
    unfold trim_start. apply trim_with_stop. exact (proj1 (strip_any_digit c s Hc)). }
  unfold trim. rewrite Hstart. unfold trim_end. rewrite trim_with_stop; [apply rev_string_involutive|].
  rewrite <- all_chars_rev in Hs. destruct (rev_string s) as [|c t]; [done|].
  apply andb_true_iff in Hs as [Hc _]. exact (proj2 (strip_any_digit c t Hc)).
Qed.

Lemma pretty_N_char_value (x : N) : (x < 10)%N ->
  is_digit (pretty_N_char x) = true /\ digit_value (pretty_N_char x) = Some (Z.of_N x).
Proof.
  intros Hx. destruct x as [|p]; [done|].
  do 4 (destruct p as [p|p|]; try (exfalso; lia); try done).
Qed.

Lemma pretty_N_go_digits x s :
  all_chars is_digit s = true -> all_chars is_digit (pretty_N_go x s) = true.
Proof.
  revert s. induction (N.lt_wf_0 x) as [x _ IH]. intros s Hs.
  destruct (decide (0 < x)%N) as [Hx|]; [|by replace x with 0%N by lia].
  rewrite pretty_N_go_step by done. apply IH; [by apply N.div_lt|]. cbn.
  apply andb_true_iff. split; [|done].
  exact (proj1 (pretty_N_char_value _ (N.mod_lt x 10 ltac:(lia)))).
Qed.

Lemma parse_pretty_N_go x s :
  parse_digits 0 (pretty_N_go x s) = parse_digits (Z.of_N x) s.
Proof.
  revert s. induction (N.lt_wf_0 x) as [x _ IH]. intros s.
  destruct (decide (0 < x)%N) as [Hx|]; [|by replace x with 0%N by lia].
  rewrite pretty_N_go_step, IH by (done || by apply N.div_lt). cbn [parse_digits].
  rewrite (proj2 (pretty_N_char_value _ (N.mod_lt x 10 ltac:(lia)))).
  f_equal. rewrite N2Z.inj_div, N2Z.inj_mod. pose proof (Z.div_mod (Z.of_N x) 10). lia.
Qed.

Lemma pretty_digits (n : Z) : 0 <= n -> all_chars is_digit (pretty n) = true /\ pretty n <> "".
Proof.
  intros Hn. assert (Hx : exists x : N, n = Z.of_N x) by (exists (Z.to_N n); lia).
  destruct Hx as [x ->].
  assert (pretty (Z.of_N x) = pretty x) as -> by by destruct x.
  unfold pretty, pretty_N. case_decide as Hx; [done|]. split; [by apply pretty_N_go_digits|].
  intros Heq. pose proof (parse_pretty_N_go x "") as Hp. rewrite Heq in Hp. injection Hp as Hp. lia.
Qed.

(** A number printed in decimal is read back as itself. *)
Lemma parse_pretty n : 0 <= n <= U64_MAX -> parse_u64 (pretty n) = Some n.
Proof.
  intros Hn. destruct (pretty_digits n) as [Hd Hne]; [lia|].
  assert (Hp : parse_digits 0 (pretty n) = Some n).
  { destruct n as [|p|p]; [done| |lia].
    change (pretty (Z.pos p)) with (pretty_N_go (Npos p) ""). by rewrite parse_pretty_N_go. }
  unfold parse_u64. destruct (pretty n) as [|c t]; [done|].
  destruct (Ascii.eqb_spec c "+") as [->|_]; [done|]. rewrite Hp. cbn. by rewrite decide_True by lia.
Qed.

Lemma parse_trim_pretty n : 0 <= n <= U64_MAX -> parse_u64 (trim (pretty n)) = Some n.
Proof. intros Hn. rewrite trim_digits by by apply pretty_digits; lia. by apply parse_pretty. Qed.
#[export] Hint Resolve parse_pretty parse_trim_pretty : rust.
