(* ===== verification/Json.v ===== *)
(** * JSON values and their canonical form

    [Value] has the constructors of [serde_json::Value] that the sources match
    on; a number is a parameter, read only through its accessors.  An object
    lists its entries in iteration order.  [sort_json_keys] is the
    normalisation of crates/consensus/src/tmr_consensus.rs. *)
From S2P Require Import Prelude RustStr.
From Stdlib Require Import Permutation Sorted.

Section values.
Context {Number : Type}.

#[warnings="-register-all"]
Inductive Value : Type :=
  | JNull
  | JBool (b : bool)
  | JNumber (n : Number)
  | JString (s : string)
  | JArray (l : list Value)
  | JObject (m : list (string * Value)).

(** Induction through the nested lists. *)
Section value_ind.
Context (P : Value -> Prop)
  (Hnull : P JNull) (Hbool : forall b, P (JBool b)) (Hnum : forall n, P (JNumber n))
  (Hstr : forall s, P (JString s))
  (Harr : forall l, Forall P l -> P (JArray l))
  (Hobj : forall m, Forall (fun e => P e.2) m -> P (JObject m)).

Fixpoint Value_nested_ind (v : Value) : P v :=
  match v with
  | JNull => Hnull
  | JBool b => Hbool b
  | JNumber n => Hnum n
  | JString s => Hstr s
  | JArray l => Harr l
      ((fix go l : Forall P l :=
          match l with
          | [] => List.Forall_nil _
          | v :: l => List.Forall_cons _ _ _ (Value_nested_ind v) (go l)
          end) l)
  | JObject m => Hobj m
      ((fix go m : Forall (fun e => P e.2) m :=
          match m with
          | [] => List.Forall_nil _
          | (k, v) :: m => List.Forall_cons _ (k, v) _ (Value_nested_ind v) (go m)
          end) m)
  end.
End value_ind.

(** [BTreeMap::insert] on the sorted list of entries: an equal key is
    replaced in place. *)
Fixpoint btree_insert (k : string) (v : Value) (m : list (string * Value))
    : list (string * Value) :=
  match m with
  | [] => [(k, v)]
  | (k', v') :: m' =>
      if str_ltb k k' then (k, v) :: m
      else if str_ltb k' k then (k', v') :: btree_insert k v m'
      else (k, v) :: m'
  end.

(** [into_iter().collect::<BTreeMap<_, _>>()] *)
Definition btree_collect (m : list (string * Value)) : list (string * Value) :=
  fold_left (fun acc e => btree_insert e.1 e.2 acc) m [].

(** The source sorts the entries of an object and then recurses into the
    values; here the values are normalised as the entries are visited
    ([sort_json_keys_object] is the source's order). *)
Fixpoint sort_json_keys (v : Value) : Value :=
  match v with
  | JObject m => JObject (btree_collect (List.map (fun e => (e.1, sort_json_keys e.2)) m))
  | JArray l => JArray (List.map sort_json_keys l)
  | _ => v
  end.
End values.

(** The same value with its numbers as another type keeps them. *)
Fixpoint map_numbers {A B} (f : A -> B) (v : @Value A) : @Value B :=
  match v with
  | JNull => JNull
  | JBool b => JBool b
  | JNumber n => JNumber (f n)
  | JString s => JString s
  | JArray l => JArray (List.map (map_numbers f) l)
  | JObject m => JObject (List.map (fun e => (e.1, map_numbers f e.2)) m)
  end.
Arguments Value : clear implicits.

Section canonical.
Context {Number : Type}.
Implicit Types (v : Value Number) (m : list (string * Value Number)).

Definition map_values (f : Value Number -> Value Number) (e : string * Value Number) :=
  (e.1, f e.2).
Definition key_lt (e e' : string * Value Number) : Prop := str_ltb e.1 e'.1 = true.

Lemma btree_insert_map f k v m :
  List.map (map_values f) (btree_insert k v m) =
  btree_insert k (f v) (List.map (map_values f) m).
Proof. induction m as [|[k' v'] m IH]; simpl; cases; by rewrite ?IH. Qed.

Lemma btree_collect_map f m :
  List.map (map_values f) (btree_collect m) = btree_collect (List.map (map_values f) m).
Proof.
  unfold btree_collect.
  change (fold_left (fun acc e => btree_insert e.1 e.2 acc) (List.map (map_values f) m) [])
    with (fold_left (fun acc e => btree_insert e.1 e.2 acc) (List.map (map_values f) m)
            (List.map (map_values f) [])).
  generalize (@nil (string * Value Number)).
  induction m as [|[k v] m IH]; intros acc; simpl; [done|].
  by rewrite IH, btree_insert_map.
Qed.

(** The source's order of the two passes. *)
Lemma sort_json_keys_object m :
  sort_json_keys (JObject m) =
  JObject (List.map (map_values sort_json_keys) (btree_collect m)).
Proof. simpl. f_equal. symmetry. apply btree_collect_map. Qed.

Lemma btree_insert_sorted k v m :
  StronglySorted key_lt m -> StronglySorted key_lt (btree_insert k v m).
Proof.
  induction 1 as [|[k' v'] m Hs IH Hf]; simpl; [by repeat constructor|].
  destruct (str_ltb k k') eqn:E1; [|destruct (str_ltb k' k) eqn:E2].
  - constructor; [by constructor|]. constructor; [done|].
    eapply List.Forall_impl; [|exact Hf]. intros [] ?. by eapply str_ltb_trans.
  - constructor; [done|]. clear IH Hs. induction Hf as [|[k2 v2] m Hk Hf IH]; simpl;
      [by constructor|]. cases; by repeat constructor.
  - pose proof (str_ltb_total _ _ E1 E2) as ->. by constructor.
Qed.

Lemma btree_collect_sorted m : StronglySorted key_lt (btree_collect m).
Proof.
  unfold btree_collect. assert (H : StronglySorted key_lt (@nil (string * Value Number)))
    by constructor. revert H. generalize (@nil (string * Value Number)).
  induction m as [|e m IH]; intros acc H; simpl; [done|].
  by apply IH, btree_insert_sorted.
Qed.

(** Inserting a fresh key adds one entry. *)
Lemma btree_insert_perm k v m :
  ~ In k (List.map fst m) -> Permutation (btree_insert k v m) ((k, v) :: m).
Proof.
  induction m as [|[k' v'] m IH]; simpl; intros Hk; [done|].
  destruct (str_ltb k k') eqn:E1; [done|].
  destruct (str_ltb k' k) eqn:E2; [|pose proof (str_ltb_total _ _ E1 E2); naive_solver].
  rewrite IH by naive_solver. apply perm_swap.
Qed.

Lemma btree_collect_perm m :
  List.NoDup (List.map fst m) -> Permutation (btree_collect m) m.
Proof.
  intros Hnd. unfold btree_collect.
  enough (forall acc, List.NoDup (List.map fst (acc ++ m)) ->
    Permutation (fold_left (fun acc e => btree_insert e.1 e.2 acc) m acc) (acc ++ m)) as Hg
    by by rewrite Hg.
  clear Hnd. induction m as [|[k v] m IH]; intros acc Hnd; simpl.
  { by rewrite app_nil_r. }
  assert (Hp : Permutation (btree_insert k v acc ++ m) (acc ++ (k, v) :: m)).
  { rewrite map_app in Hnd. simpl in Hnd. rewrite btree_insert_perm.
    - simpl. by apply Permutation_cons_app.
    - intros ?. apply List.NoDup_remove_2 in Hnd. rewrite List.in_app_iff in Hnd. tauto. }
  rewrite IH; [done|].
  eapply Permutation_NoDup; [|exact Hnd]. by apply Permutation_map.
Qed.

Lemma sorted_perm_unique m m' :
  StronglySorted key_lt m -> StronglySorted key_lt m' -> Permutation m m' -> m = m'.
Proof.
  intros Hs. revert m'. induction Hs as [|e m Hs IH Hf]; intros m' Hs' Hp.
  { by apply Permutation_nil in Hp as ->. }
  destruct Hs' as [|e' m' Hs' Hf']; [by apply Permutation_sym, Permutation_nil in Hp|].
  rewrite List.Forall_forall in Hf, Hf'.
  assert (e = e') as ->.
  { assert (Hin : In e (e' :: m')) by (rewrite <- Hp; by left).
    assert (Hin' : In e' (e :: m)) by (rewrite Hp; by left).
    destruct Hin as [|Hin], Hin' as [|Hin']; try congruence.
    pose proof (str_ltb_trans _ _ _ (Hf _ Hin') (Hf' _ Hin)) as Hc.
    by rewrite str_ltb_irrefl in Hc. }
  f_equal. apply IH; [done|]. by apply Permutation_cons_inv in Hp.
Qed.
End canonical.

(** ** Semantic equality of JSON values

    Two values are equal when they differ only in the order in which objects
    list their entries. *)
Section equivalence.
Context {Number : Type}.
Implicit Types (v : Value Number) (m : list (string * Value Number)).

#[warnings="-register-all"]
Inductive json_equiv : Value Number -> Value Number -> Prop :=
  | je_null : json_equiv JNull JNull
  | je_bool b : json_equiv (JBool b) (JBool b)
  | je_number n : json_equiv (JNumber n) (JNumber n)
  | je_string s : json_equiv (JString s) (JString s)
  | je_array l l' : Forall2 json_equiv l l' -> json_equiv (JArray l) (JArray l')
  | je_object m m1 m' :
      Permutation m m1 ->
      Forall2 (fun e e' => e.1 = e'.1 /\ json_equiv e.2 e'.2) m1 m' ->
      json_equiv (JObject m) (JObject m').

(** Keys are distinct in every object, as in any [serde_json::Map]. *)
Fixpoint json_wf (v : Value Number) : Prop :=
  match v with
  | JArray l => List.fold_right (fun v P => json_wf v /\ P) True l
  | JObject m =>
      List.NoDup (List.map fst m) /\
      List.fold_right (fun e P => json_wf e.2 /\ P) True m
  | _ => True
  end.

Lemma json_wf_array l : json_wf (JArray l) <-> Forall json_wf l.
Proof. induction l; simpl in *; [by split|]. rewrite Forall_cons. tauto. Qed.

Lemma json_wf_object m :
  json_wf (JObject m) <-> List.NoDup (List.map fst m) /\ Forall (fun e => json_wf e.2) m.
Proof.
  simpl. f_equiv. induction m; simpl in *; [by split|]. rewrite Forall_cons. tauto.
Qed.

Lemma map_values_keys f m : List.map fst (List.map (map_values f) m) = List.map fst m.
Proof. by rewrite List.map_map. Qed.

Lemma btree_collect_perm_inv m m' :
  List.NoDup (List.map fst m) -> List.NoDup (List.map fst m') ->
  btree_collect m = btree_collect m' <-> Permutation m m'.
Proof.
  intros Hm Hm'. split; intros H.
  - rewrite <- (btree_collect_perm m), <- (btree_collect_perm m'), H by done. done.
  - apply sorted_perm_unique; try apply btree_collect_sorted.
    by rewrite !btree_collect_perm.
Qed.

Lemma sort_json_keys_equiv v v' :
  json_wf v -> json_wf v' -> json_equiv v v' -> sort_json_keys v = sort_json_keys v'.
Proof.
  revert v'. induction v as [| | | |l IH|m IH] using Value_nested_ind;
    intros v' Hwf Hwf' He; inversion He as [| | | |? l' Hl|? m1 m' Hp Hm]; subst; try done.
  - rewrite json_wf_array in Hwf, Hwf'. simpl. f_equal.
    clear He. induction Hl as [|v w l l' Hv Hl IHl]; simpl; [done|].
    rewrite Forall_cons in IH, Hwf, Hwf'. f_equal; [apply IH|apply IHl]; naive_solver.
  - rewrite json_wf_object in Hwf, Hwf'. destruct Hwf as [Hnd Hwf], Hwf' as [Hnd' Hwf'].
    simpl. f_equal.
    change (btree_collect (List.map (map_values sort_json_keys) m) =
            btree_collect (List.map (map_values sort_json_keys) m')).
    apply btree_collect_perm_inv; rewrite ?map_values_keys; try done.
    rewrite Hp. rewrite Hp in IH, Hwf. clear Hp Hnd Hnd' He.
    assert (List.map (map_values sort_json_keys) m1 = List.map (map_values sort_json_keys) m')
      as ->; [|done].
    induction Hm as [|e e' m1 m' [Hk Hv] Hm IHm]; simpl; [done|].
    rewrite Forall_cons in IH, Hwf, Hwf'. unfold map_values at 1 3. f_equal;
      [rewrite Hk; f_equal; apply IH|apply IHm]; naive_solver.
Qed.

Lemma sort_json_keys_equiv_inv v v' :
  json_wf v -> json_wf v' -> sort_json_keys v = sort_json_keys v' -> json_equiv v v'.
Proof.
  revert v'. induction v as [| | | |l IH|m IH] using Value_nested_ind;
    intros v' Hwf Hwf' He; destruct v' as [| | | |l'|m']; simplify_eq/=; try by constructor.
  - constructor. change (json_wf (JArray l)) in Hwf. change (json_wf (JArray l')) in Hwf'.
    rewrite json_wf_array in Hwf, Hwf'. revert l' He Hwf'.
    induction l as [|v l IHl]; intros [|v' l'] He Hwf'; simplify_eq/=; constructor;
      rewrite Forall_cons in IH, Hwf, Hwf'; naive_solver.
  - change (json_wf (JObject m)) in Hwf. change (json_wf (JObject m')) in Hwf'.
    rewrite json_wf_object in Hwf, Hwf'. destruct Hwf as [Hnd Hwf], Hwf' as [Hnd' Hwf'].
    match goal with H : btree_collect _ = btree_collect _ |- _ => rename H into Hc end.
    change (btree_collect (List.map (map_values sort_json_keys) m) =
            btree_collect (List.map (map_values sort_json_keys) m')) in Hc.
    apply btree_collect_perm_inv in Hc; rewrite ?map_values_keys; try done.
    apply Permutation_sym, Permutation_map_inv in Hc as (m1 & Hm1 & Hp).
    apply (je_object m m1); [done|]. rewrite Hp in IH, Hwf. clear Hp Hnd Hnd'.
    revert m' Hm1 Hwf'. induction m1 as [|[k v] m1 IHm]; intros [|[k' v'] m'] He Hwf';
      simplify_eq/=; constructor; rewrite Forall_cons in IH, Hwf, Hwf'; naive_solver.
Qed.

(** The relation on well-formed values, for setoid rewriting. *)
Definition json_eqv v v' : Prop := json_wf v /\ json_wf v' /\ json_equiv v v'.

Lemma json_eqv_sort v v' :
  json_eqv v v' <->
  json_wf v /\ json_wf v' /\ sort_json_keys v = sort_json_keys v'.
Proof.
  unfold json_eqv. split; intros (?&?&?); split_and!;
    auto using sort_json_keys_equiv, sort_json_keys_equiv_inv.
Qed.

#[export] Instance json_eqv_per : RelationClasses.PER json_eqv.
Proof.
  split.
  - intros v w. rewrite !json_eqv_sort. naive_solver.
  - intros v w u. rewrite !json_eqv_sort. intros (?&?&?) (?&?&?). split_and!; congruence.
Qed.
#[export] Instance sort_json_keys_proper : Proper (json_eqv ==> eq) sort_json_keys.
Proof. intros v w. rewrite json_eqv_sort. naive_solver. Qed.
End equivalence.

(** [Value::get] with a string: [None] unless the value is an object. *)
Definition value_get {Number} (key : string) (v : Value Number) : option (Value Number) :=
  match v with
  | JObject m => snd <$> List.find (fun e => String.eqb e.1 key) m
  | _ => None
  end.
(** serde_json's [Map::insert] with its feature [preserve_order], which the gateway's
    build enables: an equal key is replaced in place, a new one goes to the end. *)
Fixpoint map_insert {Number} (k : string) (v : Value Number) (m : list (string * Value Number))
    : list (string * Value Number) :=
  match m with
  | [] => [(k, v)]
  | (k', v') :: m => if String.eqb k' k then (k', v) :: m else (k', v') :: map_insert k v m
  end.
Definition map_collect {Number} (m : list (string * Value Number)) : list (string * Value Number) :=
  fold_left (fun acc e => map_insert e.1 e.2 acc) m [].
(** [Value::as_str]. *)
Definition as_str {Number} (v : Value Number) : option string :=
  match v with JString s => Some s | _ => None end.
