(* ===== verification/Serde.v ===== *)
(** * Values as serde writes and reads them

    The serde implementations of the sources, derived or written by hand, go through
    the same few shapes: a codec is a writer and a reader with the law that what is
    written is read back.  A struct is an object with one entry per field; its derived
    reader also takes an array of the fields' values in order, ignores other keys and
    refuses a key that comes twice. *)
From Stdlib Require Import Ascii.
From S2P Require Import Prelude RustStr Json.

Open Scope string_scope.

(** None of the types serialized here has a number that is not an integer. *)
Local Abbreviation value := (Value Z).

Record codec (A : Type) := mkCodec {
  ser : A -> value;
  de : value -> option A;
  representable : A -> Prop;
  round_trips : forall a, representable a -> de (ser a) = Some a }.
Arguments mkCodec {A}.
Arguments ser {A}.
Arguments de {A}.
Arguments representable {A}.
Arguments round_trips {A}.

Definition str_codec : codec string.
Proof. by refine (mkCodec JString as_str (fun _ => True) _). Defined.

Definition as_bool (v : value) : option bool := match v with JBool b => Some b | _ => None end.
Definition bool_codec : codec bool.
Proof. by refine (mkCodec JBool as_bool (fun _ => True) _). Defined.

Definition as_uint (max : Z) (v : value) : option Z :=
  match v with JNumber n => if decide (fits max n) then Some n else None | _ => None end.
Lemma uint_round_trip max n : fits max n -> as_uint max (JNumber n) = Some n.
Proof. intros. unfold as_uint. by rewrite decide_True. Qed.
Definition uint_codec (max : Z) : codec Z := mkCodec JNumber (as_uint max) (fits max) (uint_round_trip max).

Definition option_de {A} (d : value -> option A) (v : value) : option (option A) :=
  match v with JNull => Some None | _ => Some <$> d v end.
Definition option_ser {A} (s : A -> value) (o : option A) : value := from_option s JNull o.

(** [Vec<u8>]: an array of numbers. *)
Definition bytes_ser (s : string) : value :=
  JArray (List.map (fun c => JNumber (Z.of_nat (nat_of_ascii c))) (String.list_ascii_of_string s)).
Definition bytes_de (v : value) : option string :=
  match v with
  | JArray l => String.string_of_list_ascii <$> mapM (fun v => (fun n => ascii_of_nat (Z.to_nat n)) <$> as_uint 255 v) l
  | _ => None
  end.
Lemma bytes_round_trip s : bytes_de (bytes_ser s) = Some s.
Proof.
  unfold bytes_de, bytes_ser. apply fmap_Some. exists (String.list_ascii_of_string s).
  rewrite String.string_of_list_ascii_of_string. split; [|done].
  induction (String.list_ascii_of_string s) as [|c l IH]; [done|]. cbn [List.map mapM].
  assert (nat_of_ascii c < 256)%nat by apply nat_ascii_bounded.
  rewrite (uint_round_trip 255) by (split; lia).
  cbn. by rewrite Nat2Z.id, ascii_nat_embedding, IH.
Qed.
Definition bytes_codec : codec string :=
  mkCodec bytes_ser bytes_de (fun _ => True) (fun s _ => bytes_round_trip s).

(** [HashMap<String, T>]: an object in the map's order; a key that comes twice keeps
    its last value. *)
Section maps.
Context `{HashOrder} {A : Type} (c : codec A).

Definition map_ser (m : gmap string A) : value :=
  JObject (List.map (fun e => (e.1, ser c e.2)) (hash_iter m)).
Definition map_de (v : value) : option (gmap string A) :=
  match v with
  | JObject l =>
      (fun l => fold_left (fun m e => <[e.1 := e.2]> m) l ∅) <$> mapM (fun e => pair e.1 <$> de c e.2) l
  | _ => None
  end.

Lemma fold_insert_fresh (l : list (string * A)) (m : gmap string A) :
  NoDup l.*1 -> (forall k, k ∈ l.*1 -> m !! k = None) ->
  fold_left (fun m e => <[e.1 := e.2]> m) l m = (list_to_map l : gmap string A) ∪ m.
Proof.
  revert m. induction l as [|[k a] l IH]; intros m Hnd Hfresh; [by rewrite list_to_map_nil, (left_id_L ∅ (∪))|].
  apply NoDup_cons in Hnd as [Hk Hnd]. cbn [fold_left fst snd]. rewrite IH; [|done|].
  - rewrite list_to_map_cons, <- insert_union_l. symmetry. apply insert_union_r.
    by apply not_elem_of_list_to_map_1.
  - intros k' Hk'. rewrite lookup_insert_ne by (intros <-; done). apply Hfresh. by right.
Qed.

Lemma map_round_trip m : map_Forall (fun _ => representable c) m -> map_de (map_ser m) = Some m.
Proof.
  intros Hm. unfold map_de, map_ser.
  assert (mapM (fun e : string * value => pair e.1 <$> de c e.2)
    (List.map (fun e => (e.1, ser c e.2)) (hash_iter m)) = Some (hash_iter m)) as ->.
  { assert (Forall (fun e => representable c e.2) (hash_iter m)) as Hall.
    { rewrite (hash_iter_perm m). apply Forall_forall. intros [k a] Hin.
      apply elem_of_map_to_list in Hin. by apply (Hm k). }
    induction Hall as [|[k a] l Ha _ IH]; [done|]. cbn. cbn in Ha.
    rewrite (round_trips c a Ha). cbn. by rewrite IH. }
  cbn. f_equal. rewrite fold_insert_fresh.
  - rewrite (right_id_L ∅ (∪)). rewrite <- (list_to_map_to_list m) at 2.
    apply list_to_map_proper; [|apply hash_iter_perm].
    rewrite (hash_iter_perm m). apply NoDup_fst_map_to_list.
  - rewrite (hash_iter_perm m). apply NoDup_fst_map_to_list.
  - intros k _. apply lookup_empty.
Qed.
Definition map_codec : codec (gmap string A) :=
  mkCodec map_ser map_de (map_Forall (fun _ => representable c)) map_round_trip.
End maps.

(** ** Structs *)

Definition field_values {N} (names : list string) (v : Value N) : option (list (option (Value N))) :=
  match v with
  | JObject m =>
      if decide (NoDup (filter (fun k => k ∈ names) m.*1))
      then Some (List.map (fun n => value_get n v) names) else None
  | JArray l => if decide (length l = length names) then Some (List.map Some l) else None
  | _ => None
  end.
Definition struct_ser (names : list string) (vals : list value) : value := JObject (zip names vals).
(** A struct of one field. *)
Definition only_field {N} (name : string) (v : Value N) : option (Value N) :=
  fs ← field_values [name] v; match fs with [o] => o | _ => None end.
Definition as_array {N} (v : Value N) : option (list (Value N)) :=
  match v with JArray l => Some l | _ => None end.
Definition required {A} (c : codec A) (o : option value) : option A := v ← o; de c v.
(** A field of type [Option] may be missing. *)
Definition optional {A} (c : codec A) (o : option value) : option (option A) :=
  match o with None => Some None | Some v => option_de (de c) v end.

Lemma value_get_zip n names vals v i : NoDup names ->
  names !! i = Some n -> vals !! i = Some v -> value_get n (struct_ser names vals) = Some v.
Proof.
  unfold struct_ser, value_get. revert vals i.
  induction names as [|n' names IH]; intros [|v' vals] [|i] Hnd Hn Hv; try done; simpl in *.
  - simplify_eq. by rewrite String.eqb_refl.
  - apply NoDup_cons in Hnd as [Hn' Hnd].
    destruct (String.eqb_spec n' n) as [->|_]; [|eauto].
    destruct Hn'. by apply list_elem_of_lookup_2 in Hn.
Qed.

Lemma field_values_struct names vals : NoDup names -> length names = length vals ->
  field_values names (struct_ser names vals) = Some (List.map Some vals).
Proof.
  intros Hnd Hlen. unfold field_values, struct_ser. rewrite decide_True.
  - f_equal. apply list_eq. intros i. rewrite !list_lookup_fmap.
    destruct (names !! i) as [n|] eqn:Hn; cbn.
    + destruct (lookup_lt_is_Some_2 vals i) as [v Hv].
      { rewrite <- Hlen. by apply lookup_lt_is_Some_1. }
      rewrite Hv. cbn. f_equal. by apply (value_get_zip n names vals v i).
    + apply lookup_ge_None in Hn. rewrite (proj2 (lookup_ge_None vals i)) by lia. done.
  - apply NoDup_filter. by rewrite fst_zip by lia.
Qed.
Lemma required_round_trip {A} (c : codec A) a : representable c a -> required c (Some (ser c a)) = Some a.
Proof. apply (round_trips c). Qed.

Lemma required_str s : required str_codec (Some (JString s)) = Some s.
Proof. reflexivity. Qed.
Lemma required_bool b : required bool_codec (Some (JBool b)) = Some b.
Proof. reflexivity. Qed.
Lemma required_uint max n : fits max n -> required (uint_codec max) (Some (JNumber n)) = Some n.
Proof. apply (uint_round_trip max). Qed.

(** Each field that was written is read back. *)
Ltac read_fields :=
  rewrite field_values_struct; [|apply (bool_decide_unpack _); vm_compute; exact I|reflexivity];
  cbn [List.map mbind option_bind];
  rewrite ?required_str, ?required_bool, ?required_uint by assumption.

Lemma optional_round_trip {A} (c : codec A) o :
  (forall a, ser c a <> JNull) -> (forall a, o = Some a -> representable c a) ->
  optional c (Some (option_ser (ser c) o)) = Some o.
Proof.
  intros Hnull Ho. destruct o as [a|]; [|done]. cbn. unfold option_de.
  assert (de c (ser c a) = Some a) as Ha by by apply (round_trips c), Ho.
  specialize (Hnull a). destruct (ser c a); (done || by rewrite Ha).
Qed.

(** [Vec<T>]: an array. *)
Section vectors.
Context {A : Type} (c : codec A).

Definition vec_ser (l : list A) : value := JArray (List.map (ser c) l).
Definition vec_de (v : value) : option (list A) := match v with JArray l => mapM (de c) l | _ => None end.
Lemma vec_round_trip l : Forall (representable c) l -> vec_de (vec_ser l) = Some l.
Proof.
  unfold vec_de, vec_ser. induction 1 as [|a l Ha _ IH]; [done|]. cbn. by rewrite (round_trips c a Ha); cbn; rewrite IH.
Qed.
Definition vec_codec : codec (list A) := mkCodec vec_ser vec_de (Forall (representable c)) vec_round_trip.
End vectors.

(** ** Enums

    Externally tagged: a unit variant is its name, a newtype variant an object with the
    name as its only key.  The derived reader takes a unit variant in either form. *)
Definition tagged {Number} (v : Value Number) : option (string * option (Value Number)) :=
  match v with
  | JString name => Some (name, None)
  | JObject [(name, v)] => Some (name, Some v)
  | _ => None
  end.
Definition unit_content {Number} (o : option (Value Number)) : bool := match o with None | Some JNull => true | _ => false end.
