(* ===== verification/TmrConsensus.v ===== *)
(** * crates/consensus/src/tmr_consensus.rs

    The 2-out-of-3 arbitrator: canonical keys, the consensus engine, its
    [query] loop and the adjudication of [evaluate]. *)
From S2P Require Import Prelude RustStr Json.
From Stdlib Require Import Permutation Ascii.

Local Open Scope string_scope.

(** ** Canonical semantic keys *)

Definition RAYON_BACKPRESSURE_LIMIT : Z := 1000.

(** [strip_markdown_fences] *)
Definition strip_markdown_fences (response : string) : string :=
  let s := trim response in
  if starts_with "```" s then
    match (match strip_prefix "```json" s with
           | Some r => Some r
           | None => strip_prefix "```" s
           end) with
    | Some after_open =>
        let s := trim_start after_open in
        match rfind "```" s with
        | Some pos => trim (take_bytes pos s)
        | None => s
        end
    | None => s
    end
  else s.

Section canonical_key.
(** serde_json, sha2, hex and blake3 are libraries. *)
Context {Number : Type}.
Context (from_str : string -> result (Value Number) string)
        (to_string : Value Number -> result string string)
        (sha256 : string -> list Z) (hex_encode : list Z -> string)
        (blake3_hex : string -> string).

Definition compute_canonical_hash (raw_output : string) : result string string :=
  let trimmed := trim raw_output in
  match from_str trimmed with
  | Err e => Err ("failed to parse raw_output as JSON: " ++ e)
  | Ok value =>
      let value := sort_json_keys value in
      match to_string value with
      | Err e => Err ("failed to serialize canonical JSON: " ++ e)
      | Ok canonical => Ok (hex_encode (sha256 canonical))
      end
  end.

Definition compute_canonical_key_sync (raw : string) : string :=
  let sanitized := strip_markdown_fences raw in
  let trimmed := trim sanitized in
  if negb (starts_with "{" trimmed) && negb (starts_with "[" trimmed) then
    "blake3:" ++ blake3_hex trimmed
  else
    match compute_canonical_hash trimmed with
    | Ok hex_hash => "sha256:" ++ hex_hash
    | Err _ => "blake3:" ++ blake3_hex trimmed
    end.

(** [canonical_semantic_key], from the counter of pending tasks it reads to
    the key it returns and the counter it leaves while its task is queued;
    [worker] is what the oneshot channel delivers. *)
Definition canonical_semantic_key (rayon_pending : Z) (raw_content : string)
    (worker : option string) : Z * string :=
  if decide (RAYON_BACKPRESSURE_LIMIT < rayon_pending) then
    (rayon_pending, "429_TOO_MANY_REQUESTS_BACKPRESSURE")
  else
    let rayon_pending := wrapping_add USIZE_MAX rayon_pending 1 in
    (rayon_pending,
      match worker with Some hash => hash | None => "500_RAYON_WORKER_DROPPED" end).

(** The task spawned on the pool: [PendingGuard] releases its slot on every
    exit. *)
Definition PendingGuard_drop (rayon_pending : Z) : Z := wrapping_sub USIZE_MAX rayon_pending 1.
Definition rayon_task (rayon_pending : Z) (tx_is_closed : bool) (raw : string)
    : Z * option string :=
  (PendingGuard_drop rayon_pending,
    if tx_is_closed then None else Some (compute_canonical_key_sync raw)).
End canonical_key.

(** ** Providers, responses, results *)

Inductive ProviderNode : Type :=
  | GoogleGemini | DeepSeek | Groq | Custom (id : string).
#[export] Instance ProviderNode_eq_dec : EqDecision ProviderNode.
Proof. solve_decision. Defined.
#[export] Instance ProviderNode_countable : Countable ProviderNode.
Proof.
  refine (inj_countable
    (fun p => match p with
              | GoogleGemini => inl 0%nat | DeepSeek => inl 1%nat | Groq => inl 2%nat
              | Custom s => inr s end)
    (fun x => match x with
              | inl 0%nat => Some GoogleGemini | inl 1%nat => Some DeepSeek
              | inl _ => Some Groq | inr s => Some (Custom s) end) _).
  by intros [].
Defined.

Definition ProviderNode_fmt (p : ProviderNode) : string :=
  match p with
  | GoogleGemini => "gemini" | DeepSeek => "deepseek" | Groq => "groq"
  | Custom id => "custom:" ++ id
  end.

Inductive NodeHealth : Type := Healthy | Degraded | Tripped.
#[export] Instance NodeHealth_eq_dec : EqDecision NodeHealth.
Proof. solve_decision. Defined.

Inductive ResponseStatus : Type :=
  | Success | RateLimited | ServerError | NetworkError | Timeout.
#[export] Instance ResponseStatus_eq_dec : EqDecision ResponseStatus.
Proof. solve_decision. Defined.

Record ProviderResponse := mkResponse {
  provider : ProviderNode;
  content : string;
  semantic_key : string;
  latency_ms : Z;
  tokens_used : Z;
  status : ResponseStatus }.

Record ConsensusResult := mkResult {
  r_content : string;
  winning_providers : list ProviderNode;
  total_latency_ms : Z;
  degraded : bool;
  total_tokens_used : Z }.

Inductive ConsensusError : Type :=
  | AllProvidersUnavailable
  | NoConsensus (reason : string)
  | ProviderError (provider error : string)
  | Backpressure (limit : Z).

Record TmrConfig := mkConfig {
  strict_mode : bool;
  query_timeout_ms : Z;
  consensus_timeout_ms : Z;
  min_agreement : nat }.
Definition TmrConfig_default : TmrConfig := mkConfig true 30000 60000 2.

(** ** The engine *)

Record TmrConsensusEngine := mkEngine {
  config : TmrConfig;
  node_health : gmap ProviderNode NodeHealth }.

Definition builtin_health : gmap ProviderNode NodeHealth :=
  list_to_map [(GoogleGemini, Healthy); (DeepSeek, Healthy); (Groq, Healthy)].
Definition engine_new : TmrConsensusEngine := mkEngine TmrConfig_default builtin_health.
Definition engine_with_config (c : TmrConfig) : TmrConsensusEngine := mkEngine c builtin_health.
Definition collect_healthy (nodes : list ProviderNode) : gmap ProviderNode NodeHealth :=
  fold_left (fun m n => <[n := Healthy]> m) nodes ∅.
Definition engine_with_nodes (nodes : list ProviderNode) : TmrConsensusEngine :=
  mkEngine TmrConfig_default (collect_healthy nodes).
Definition engine_with_config_and_nodes (c : TmrConfig) (nodes : list ProviderNode) :=
  mkEngine c (collect_healthy nodes).
Definition register_node (e : TmrConsensusEngine) (n : ProviderNode) (h : NodeHealth) :=
  mkEngine (config e) (<[n := h]> (node_health e)).
Definition update_node_health (e : TmrConsensusEngine) (n : ProviderNode) (h : NodeHealth) :=
  mkEngine (config e) (<[n := h]> (node_health e)).

Definition healthy_nodes `{HashOrder} (e : TmrConsensusEngine) : list ProviderNode :=
  List.map fst (List.filter (fun nh => negb (bool_decide (nh.2 = Tripped)))
                            (hash_iter (node_health e))).

(** One entry of the [consensus_map]: count, content, providers. *)
Abbreviation Entry := (nat * string * list ProviderNode)%type.

Definition votes_for (r : ProviderResponse) : bool :=
  bool_decide (status r = Success) && negb (is_empty (semantic_key r)).

(** The body shared by both loops: [entry(key).or_insert((0, "", []))],
    then count, content and provider are updated. *)
Definition tally (m : gmap string Entry) (r : ProviderResponse) : gmap string Entry :=
  if votes_for r then
    let '(c, _, ps) := default (0%nat, "", []) (m !! semantic_key r) in
    <[semantic_key r := (S c, content r, (ps ++ [provider r])%list)]> m
  else m.

Definition required (c : TmrConfig) (total_nodes : nat) : nat :=
  if strict_mode c then
    if (3 <=? total_nodes)%nat then min_agreement c else total_nodes
  else 1%nat.

(** [max_by_key] keeps the last of the maximal elements. *)
Definition max_by_count (l : list (string * Entry)) : option Entry :=
  fold_left (fun best e =>
    match best with
    | None => Some e.2
    | Some b => if (b.1.1 <=? e.2.1.1)%nat then Some e.2 else Some b
    end) l None.

Definition sum_tokens (rs : list ProviderResponse) : outcome Z :=
  fold_left (fun acc r => t ← acc; add_u U32_MAX t (tokens_used r)) rs (Ret 0).
Definition max_latency (rs : list ProviderResponse) : Z :=
  fold_left (fun acc r => Z.max acc (latency_ms r)) rs 0.

Definition no_majority_message (n : nat) (best required : nat) : string :=
  "Received " ++ pretty n ++ " responses, no majority achieved (best agreement: "
    ++ pretty best ++ ", required: " ++ pretty required ++ ")".

Definition evaluate `{HashOrder} (e : TmrConsensusEngine) (responses : list ProviderResponse)
    : outcome (result ConsensusResult ConsensusError) :=
  if decide (responses = []) then Ret (Err AllProvidersUnavailable)
  else
    let available_nodes := healthy_nodes e in
    let total_nodes :=
      match available_nodes with [] => length responses | _ => length available_nodes end in
    total_tokens ← sum_tokens responses;
    let total_latency := max_latency responses in
    let consensus_map := fold_left tally responses ∅ in
    let req := required (config e) total_nodes in
    let failure := Ret (Err (NoConsensus (no_majority_message (length responses)
      match max_by_count (hash_iter consensus_map) with Some (c, _, _) => c | None => 0%nat end
      req))) in
    match max_by_count (hash_iter consensus_map) with
    | Some (count, content, providers) =>
        if (req <=? count)%nat then
          Ret (Ok (mkResult content providers total_latency (total_nodes <? 3)%nat total_tokens))
        else failure
    | None => failure
    end.

(** ** [query]: dispatch to the healthy nodes, adjudicate as answers arrive *)

(** The task of one node: its answer, or a [Timeout] response when
    [tokio::time::timeout] fires ([None]). *)
Definition task_response (e : TmrConsensusEngine) (node : ProviderNode)
    (answer : option ProviderResponse) : ProviderResponse :=
  match answer with
  | Some response => response
  | None => mkResponse node "" "" (query_timeout_ms (config e)) 0 Timeout
  end.

(** [completions] lists the responses in the order in which the tasks of the
    [FuturesUnordered] complete; [elapsed k] is the time since the start when [k] answers have
    been received. *)
Fixpoint query_loop `{HashOrder} (e : TmrConsensusEngine) (n_available : nat)
    (elapsed : nat -> Z) (m : gmap string Entry) (responses completions : list ProviderResponse)
    : outcome (result ConsensusResult ConsensusError) :=
  match completions with
  | [] => Ret (Err (NoConsensus
      ("Received " ++ pretty (length responses) ++ " responses, no majority achieved")))
  | response :: completions =>
      let m := tally m response in
      let responses := (responses ++ [response])%list in
      match List.find (fun kv => (required (config e) n_available <=? kv.2.1.1)%nat) (hash_iter m) with
      | Some (_, (_, content, providers)) =>
          total_tokens ← sum_tokens responses;
          Ret (Ok (mkResult content providers (elapsed (length responses))
                    (n_available <? 3)%nat total_tokens))
      | None => query_loop e n_available elapsed m responses completions
      end
  end.

(** [answers] lists the tasks in completion order: the node and what its
    future gave ([None] after [query_timeout_ms]). *)
Definition query `{HashOrder} (e : TmrConsensusEngine) (elapsed : nat -> Z)
    (answers : list (ProviderNode * option ProviderResponse))
    : outcome (result ConsensusResult ConsensusError) :=
  let available_nodes := healthy_nodes e in
  if decide (available_nodes = []) then Ret (Err AllProvidersUnavailable)
  else query_loop e (length available_nodes) elapsed ∅ []
         (List.map (fun a => task_response e a.1 a.2) answers).

Definition health_snapshot `{HashOrder} (e : TmrConsensusEngine) : gmap string NodeHealth :=
  fold_left (fun m kv => <[ProviderNode_fmt kv.1 := kv.2]> m) (hash_iter (node_health e)) ∅.

(** ** Specification vocabulary *)

(** The responses that vote for key [k], in order of arrival. *)
Definition votes (k : string) (rs : list ProviderResponse) : list ProviderResponse :=
  List.filter (fun r => votes_for r && bool_decide (semantic_key r = k)) rs.

Definition entry_of (vs : list ProviderResponse) : option Entry :=
  match last vs with
  | None => None
  | Some r => Some (length vs, content r, provider <$> vs)
  end.

Lemma votes_app k rs rs' : votes k (rs ++ rs') = (votes k rs ++ votes k rs')%list.
Proof. apply List.filter_app. Qed.

Lemma votes_length k rs : (length (votes k rs) <= length rs)%nat.
Proof. apply List.filter_length_le. Qed.

Lemma entry_of_nil vs : entry_of vs = None <-> vs = [].
Proof.
  unfold entry_of. destruct (last vs) eqn:E; [|by rewrite last_None in E].
  split; [done|]. intros ->. done.
Qed.

Lemma entry_of_Some vs c t ps :
  entry_of vs = Some (c, t, ps) ->
  c = length vs /\ ps = provider <$> vs /\ exists r, last vs = Some r /\ t = content r.
Proof. unfold entry_of. destruct (last vs) eqn:E; naive_solver. Qed.

Lemma entry_of_snoc vs r :
  entry_of (vs ++ [r]) =
  let '(c, _, ps) := default (0%nat, "", []) (entry_of vs) in
  Some (S c, content r, (ps ++ [provider r])%list).
Proof.
  unfold entry_of. rewrite last_snoc, length_app, fmap_app. simpl.
  destruct (last vs) eqn:E; simpl.
  - do 3 f_equal. lia.
  - apply last_None in E as ->. done.
Qed.

(** The consensus map of both loops holds exactly the votes. *)
Lemma consensus_map_lookup rs k :
  fold_left tally rs ∅ !! k = entry_of (votes k rs).
Proof.
  induction rs as [|r rs IH] using List.rev_ind; [done|].
  rewrite fold_left_app, votes_app. simpl. unfold tally at 1.
  destruct (votes_for r) eqn:Hv; simpl; [|by rewrite app_nil_r].
  destruct (decide (semantic_key r = k)) as [<-|Hne].
  - rewrite bool_decide_true, IH by done. rewrite entry_of_snoc.
    destruct (default _ _) as [[c t] ps]. by rewrite lookup_insert_eq.
  - rewrite bool_decide_false, app_nil_r by done.
    destruct (default _ _) as [[c t] ps]. by rewrite lookup_insert_ne.
Qed.

Section iteration.
Context `{HashOrder}.

Lemma hash_iter_elem (m : gmap string Entry) k e : In (k, e) (hash_iter m) <-> m !! k = Some e.
Proof.
  rewrite (hash_iter_perm m). rewrite <- list_elem_of_In. apply elem_of_map_to_list.
Qed.

Lemma max_by_count_step l b :
  exists e, fold_left (fun best (e : string * Entry) =>
    match best with
    | None => Some e.2
    | Some b => if (b.1.1 <=? e.2.1.1)%nat then Some e.2 else Some b
    end) l (Some b) = Some e /\
    (e = b \/ exists k, In (k, e) l) /\ (b.1.1 <= e.1.1)%nat /\
    forall k e', In (k, e') l -> (e'.1.1 <= e.1.1)%nat.
Proof.
  revert b. induction l as [|[k a] l IH]; intros b; simpl.
  { exists b. naive_solver. }
  destruct (b.1.1 <=? a.1.1)%nat eqn:E.
  - apply Nat.leb_le in E. destruct (IH a) as (e & -> & Hin & Hle & Hmax).
    exists e. split_and!; [done|naive_solver|lia|]. intros k' e' [Heq|?]; naive_solver.
  - apply Nat.leb_gt in E. destruct (IH b) as (e & -> & Hin & Hle & Hmax).
    exists e. split_and!; [done|naive_solver|lia|].
    intros k' e' [Heq|?]; [simplify_eq; lia|naive_solver].
Qed.

Lemma max_by_count_spec (m : gmap string Entry) e :
  max_by_count (hash_iter m) = Some e ->
  (exists k, m !! k = Some e) /\ (forall k e', m !! k = Some e' -> (e'.1.1 <= e.1.1)%nat).
Proof.
  intros Hm. setoid_rewrite <- hash_iter_elem. revert Hm.
  destruct (hash_iter m) as [|[k a] l]; [done|]. unfold max_by_count. simpl. intros Hf.
  destruct (max_by_count_step l a) as (e' & Heq & Hin & Hle & Hmax).
  rewrite Heq in Hf. simplify_eq. naive_solver.
Qed.

Lemma max_by_count_None (m : gmap string Entry) :
  max_by_count (hash_iter m) = None -> m = ∅.
Proof.
  intros Hm. apply map_eq. intros k. rewrite lookup_empty.
  destruct (m !! k) as [e|] eqn:E; [|done]. apply hash_iter_elem in E. exfalso.
  revert Hm E. destruct (hash_iter m) as [|[k' a] l]; [done|]. unfold max_by_count. simpl.
  destruct (max_by_count_step l a) as (? & -> & _). done.
Qed.
End iteration.

Lemma votes_key k rs : Forall (fun r => status r = Success /\ semantic_key r = k) (votes k rs).
Proof.
  apply List.Forall_forall. intros r [_ Hr]%List.filter_In.
  unfold votes_for in Hr. rewrite !andb_true_iff, !bool_decide_eq_true in Hr. tauto.
Qed.

Lemma votes_empty_key rs : votes "" rs = [].
Proof.
  induction rs as [|r rs IH]; simpl; [done|]. rewrite IH. unfold votes_for, is_empty.
  by destruct (decide (semantic_key r = "")) as [->|];
    rewrite ?(bool_decide_true (_ = "")), ?(bool_decide_false (_ = "")), ?andb_false_r by done.
Qed.

(** Two keys never share a vote. *)
Lemma votes_disjoint k k' rs :
  k <> k' -> (length (votes k rs) + length (votes k' rs) <= length rs)%nat.
Proof.
  intros Hk. induction rs as [|r rs IH]; simpl; [lia|].
  destruct (votes_for r); simpl; [|lia].
  repeat case_bool_decide; simpl; subst; (done || lia).
Qed.

Definition token_total (rs : list ProviderResponse) : Z :=
  foldr (fun r n => tokens_used r + n) 0 rs.

Lemma token_total_nonneg rs : Forall (fun r => 0 <= tokens_used r) rs -> 0 <= token_total rs.
Proof. induction 1; simpl in *; lia. Qed.

(** Token counts add up when the total fits a [u32]. *)
Lemma sum_tokens_fits rs :
  Forall (fun r => 0 <= tokens_used r) rs -> token_total rs <= U32_MAX ->
  sum_tokens rs = Ret (token_total rs).
Proof.
  intros Hf. unfold sum_tokens. change (token_total rs) with (0 + token_total rs).
  generalize 0 as t. induction Hf as [|r rs Hr Hf IH]; intros t Ht; simpl in *.
  { f_equal. lia. }
  pose proof (token_total_nonneg _ Hf). unfold add_u at 2.
  rewrite decide_True, IH by lia. f_equal. lia.
Qed.

Lemma max_latency_from rs t :
  let m := fold_left (fun acc r => Z.max acc (latency_ms r)) rs t in
  t <= m /\ Forall (fun r => latency_ms r <= m) rs /\
  (m = t \/ exists r, In r rs /\ m = latency_ms r).
Proof.
  revert t. induction rs as [|r rs IH]; intros t; simpl; [split_and!; [lia|done|by left]|].
  destruct (IH (Z.max t (latency_ms r))) as (Hle & Hf & Hin). split_and!.
  - lia.
  - constructor; [lia|done].
  - destruct Hin as [->|(r' & ? & ?)]; [|naive_solver].
    destruct (Z.max_spec t (latency_ms r)) as [[_ ->]|[_ ->]]; naive_solver.
Qed.

Section evaluate_facts.
Context `{HashOrder}.

(** The number of nodes the quorum rule refers to. *)
Definition quorum_base (e : TmrConsensusEngine) (rs : list ProviderResponse) : nat :=
  match healthy_nodes e with [] => length rs | _ => length (healthy_nodes e) end.

Lemma evaluate_unfold e rs t :
  rs <> [] -> sum_tokens rs = Ret t ->
  let m := fold_left tally rs ∅ in
  let req := required (config e) (quorum_base e rs) in
  (max_by_count (hash_iter m) = None /\ m = ∅ /\
     evaluate e rs = Ret (Err (NoConsensus (no_majority_message (length rs) 0 req)))) \/
  (exists k c txt ps,
     max_by_count (hash_iter m) = Some (c, txt, ps) /\
     entry_of (votes k rs) = Some (c, txt, ps) /\
     (forall k', length (votes k' rs) <= c)%nat /\
     evaluate e rs =
       if (req <=? c)%nat
       then Ret (Ok (mkResult txt ps (max_latency rs) (quorum_base e rs <? 3)%nat t))
       else Ret (Err (NoConsensus (no_majority_message (length rs) c req)))).
Proof.
  intros Hne Hs m req. unfold evaluate. rewrite decide_False by done.
  rewrite Hs. simpl. fold m. fold (quorum_base e rs). fold req.
  destruct (max_by_count (hash_iter m)) as [[[c txt] ps]|] eqn:Hm.
  - right. destruct (max_by_count_spec _ _ Hm) as [[k Hk] Hmax].
    unfold m in Hk. rewrite consensus_map_lookup in Hk.
    exists k, c, txt, ps. split_and!; try done.
    intros k'. destruct (entry_of (votes k' rs)) as [[[c' t'] ps']|] eqn:E.
    + pose proof (entry_of_Some _ _ _ _ E) as (-> & _ & _).
      rewrite <- consensus_map_lookup in E. by apply (Hmax _ _ E).
    + apply entry_of_nil in E as ->. simpl. lia.
  - left. by split_and!; [|apply max_by_count_None|].
Qed.
End evaluate_facts.

Lemma healthy_nodes_perm (o1 o2 : HashOrder) e :
  Permutation (healthy_nodes (H := o1) e) (healthy_nodes (H := o2) e).
Proof.
  unfold healthy_nodes. apply Permutation_map.
  assert (Hp : Permutation (hash_iter (HashOrder := o1) (node_health e))
                           (hash_iter (HashOrder := o2) (node_health e))).
  { by rewrite !hash_iter_perm. }
  revert Hp. generalize (hash_iter (HashOrder := o1) (node_health e)).
  generalize (hash_iter (HashOrder := o2) (node_health e)). intros l2 l1 Hp.
  induction Hp; simpl; repeat case_match; eauto using Permutation.
Qed.

Lemma quorum_base_order (o1 o2 : HashOrder) e rs :
  quorum_base (H := o1) e rs = quorum_base (H := o2) e rs.
Proof.
  unfold quorum_base. pose proof (healthy_nodes_perm o1 o2 e) as Hp.
  pose proof (Permutation_length Hp).
  by destruct (healthy_nodes (H := o1) e), (healthy_nodes (H := o2) e).
Qed.

(** ** Properties of the adjudication *)

(** C16: [evaluate] succeeds only on a quorum: the winners are exactly the
    providers whose successful responses carry one common non-empty semantic
    key, they are at least as many as the quorum rule requires and as any other
    key has, the content is that of the last of them, the latency is the
    maximum over all responses (an upper bound that one of them attains, or 0 when none
    is positive) and the token total their sum. *)
Theorem evaluate_sound `{HashOrder} e rs r :
  evaluate e rs = Ret (Ok r) ->
  exists k v,
    k <> "" /\ Forall (fun p => status p = Success /\ semantic_key p = k) (votes k rs) /\
    winning_providers r = provider <$> votes k rs /\
    (required (config e) (quorum_base e rs) <= length (winning_providers r))%nat /\
    (forall k', length (votes k' rs) <= length (winning_providers r))%nat /\
    last (votes k rs) = Some v /\ r_content r = content v /\
    Forall (fun p => latency_ms p <= total_latency_ms r) rs /\ 0 <= total_latency_ms r /\
    (total_latency_ms r = 0 \/ exists p, In p rs /\ total_latency_ms r = latency_ms p) /\
    sum_tokens rs = Ret (total_tokens_used r) /\
    degraded r = (quorum_base e rs <? 3)%nat.
Proof.
  intros He. assert (Hne : rs <> []) by (by intros ->).
  destruct (sum_tokens rs) as [t|] eqn:Hs.
  2: { unfold evaluate in He. by rewrite decide_False, Hs in He. }
  destruct (evaluate_unfold e rs t Hne Hs) as [(_ & _ & Hu)|(k & c & txt & ps & _ & Hk & Hmax & Hu)];
    rewrite Hu in He; [done|].
  destruct (_ <=? c)%nat eqn:Hc; [|done]. apply Nat.leb_le in Hc. simplify_eq/=.
  pose proof (entry_of_Some _ _ _ _ Hk) as (-> & -> & v & Hl & ->).
  exists k, v. rewrite length_fmap. split_and!; auto using votes_key.
  - intros ->. by rewrite votes_empty_key in Hl.
  - apply (max_latency_from rs 0).
  - apply (max_latency_from rs 0).
  - apply (max_latency_from rs 0).
Qed.

(** [evaluate] decides the quorum rule: on responses whose token total fits
    a [u32] it never panics, and it returns [Ok] exactly when some key has
    votes and as many as required; an empty list is
    [AllProvidersUnavailable], everything else [NoConsensus]. *)
Theorem evaluate_decides `{HashOrder} e rs :
  Forall (fun r => 0 <= tokens_used r) rs -> token_total rs <= U32_MAX ->
  match evaluate e rs with
  | Ret (Ok _) =>
      exists k, votes k rs <> [] /\
        (required (config e) (quorum_base e rs) <= length (votes k rs))%nat
  | Ret (Err AllProvidersUnavailable) => rs = []
  | Ret (Err (NoConsensus _)) =>
      rs <> [] /\ forall k, votes k rs = [] \/
        (length (votes k rs) < required (config e) (quorum_base e rs))%nat
  | _ => False
  end.
Proof.
  intros Hf Ht. destruct (decide (rs = [])) as [->|Hne]; [done|].
  destruct (evaluate_unfold e rs _ Hne (sum_tokens_fits rs Hf Ht))
    as [(_ & Hm & ->)|(k & c & txt & ps & _ & Hk & Hmax & ->)].
  - split; [done|]. intros k. left. apply entry_of_nil.
    by rewrite <- consensus_map_lookup, Hm, lookup_empty.
  - pose proof (entry_of_Some _ _ _ _ Hk) as (-> & _ & v & Hl & _).
    destruct (_ <=? length _)%nat eqn:Hc.
    + apply Nat.leb_le in Hc. exists k. split; [|done]. intros Hnil. by rewrite Hnil in Hl.
    + apply Nat.leb_gt in Hc. split; [done|]. intros k'. right. specialize (Hmax k'). lia.
Qed.

(** With a strict majority required, the unspecified iteration order of the
    [HashMap] cannot influence the verdict: any two orders give the same
    result. *)
Theorem evaluate_order_independent (o1 o2 : HashOrder) e rs :
  (length rs < 2 * required (config e) (quorum_base (H := o1) e rs))%nat ->
  evaluate (H := o1) e rs = evaluate (H := o2) e rs.
Proof.
  intros Hreq. destruct (decide (rs = [])) as [->|Hne]; [done|].
  destruct (sum_tokens rs) as [t|] eqn:Hs.
  2: { unfold evaluate. by rewrite !decide_False, Hs by done. }
  destruct (evaluate_unfold (H := o1) e rs t Hne Hs)
    as [(_ & Hm1 & ->)|(k1 & c1 & t1 & p1 & _ & Hk1 & Hmax1 & ->)];
  destruct (evaluate_unfold (H := o2) e rs t Hne Hs)
    as [(_ & Hm2 & ->)|(k2 & c2 & t2 & p2 & _ & Hk2 & Hmax2 & ->)];
  rewrite <- ?(quorum_base_order o1 o2); try done.
  1, 2: rewrite <- consensus_map_lookup in *; by rewrite ?Hm1, ?Hm2, lookup_empty in *.
  pose proof (entry_of_Some _ _ _ _ Hk1) as (Hc1 & _). pose proof (entry_of_Some _ _ _ _ Hk2) as (Hc2 & _).
  assert (c1 = c2) as <- by (specialize (Hmax1 k2); specialize (Hmax2 k1); lia).
  destruct (_ <=? c1)%nat eqn:Hc; [|done]. apply Nat.leb_le in Hc.
  destruct (decide (k1 = k2)) as [->|Hk]; [congruence|].
  pose proof (votes_disjoint k1 k2 rs Hk). lia.
Qed.

Section query_facts.
Context `{HashOrder} (e : TmrConsensusEngine) (n : nat) (elapsed : nat -> Z).

(** Key [k] has reached the quorum among the responses [rs]. *)
Definition reached (k : string) (rs : list ProviderResponse) : Prop :=
  votes k rs <> [] /\ (required (config e) n <= length (votes k rs))%nat.

Lemma find_reached rs :
  match List.find (fun kv => (required (config e) n <=? kv.2.1.1)%nat)
          (hash_iter (fold_left tally rs ∅)) with
  | Some (k, en) => reached k rs /\ entry_of (votes k rs) = Some en
  | None => forall k, ~ reached k rs
  end.
Proof.
  destruct (List.find _ _) as [[k en]|] eqn:Hf.
  - apply List.find_some in Hf as [Hin Hc]. apply hash_iter_elem in Hin.
    rewrite consensus_map_lookup in Hin. split; [|done]. destruct en as [[c t] ps].
    pose proof (entry_of_Some _ _ _ _ Hin) as (-> & _ & v & Hl & _).
    apply Nat.leb_le in Hc. split; [|done]. intros Hn. by rewrite Hn in Hl.
  - intros k [Hn Hq]. destruct (entry_of (votes k rs)) as [en|] eqn:Hen;
      [|by apply entry_of_nil in Hen].
    pose proof Hen as Hin. rewrite <- consensus_map_lookup in Hin. apply hash_iter_elem in Hin.
    pose proof (List.find_none _ _ Hf _ Hin) as Hc. simpl in Hc. apply Nat.leb_gt in Hc.
    destruct en as [[c t] ps]. pose proof (entry_of_Some _ _ _ _ Hen) as (-> & _). simpl in Hc. lia.
Qed.

(** Only the key of the newest response can reach the quorum. *)
Lemma reached_snoc k rs p :
  ~ reached k rs -> reached k (rs ++ [p]) ->
  k = semantic_key p /\ votes k (rs ++ [p]) = (votes k rs ++ [p])%list.
Proof.
  unfold reached. rewrite votes_app. simpl. intros Hn Hr.
  destruct (votes_for p && bool_decide (semantic_key p = k)) eqn:E; simpl in *.
  - rewrite andb_true_iff, bool_decide_eq_true in E. naive_solver.
  - by rewrite app_nil_r in Hr.
Qed.

Lemma query_loop_spec cs pre :
  (forall k, ~ reached k pre) ->
  Forall (fun r => 0 <= tokens_used r) (pre ++ cs) -> token_total (pre ++ cs) <= U32_MAX ->
  (exists mid p post,
     cs = (mid ++ p :: post)%list /\ (forall k, ~ reached k (pre ++ mid)) /\
     reached (semantic_key p) (pre ++ mid ++ [p]) /\
     query_loop e n elapsed (fold_left tally pre ∅) pre cs =
       Ret (Ok (mkResult (content p) (provider <$> votes (semantic_key p) (pre ++ mid ++ [p]))
         (elapsed (length (pre ++ mid ++ [p]))) (n <? 3)%nat (token_total (pre ++ mid ++ [p]))))) \/
  ((forall k, ~ reached k (pre ++ cs)) /\
   query_loop e n elapsed (fold_left tally pre ∅) pre cs =
     Ret (Err (NoConsensus ("Received " ++ pretty (length (pre ++ cs)) ++
       " responses, no majority achieved")))).
Proof.
  revert pre. induction cs as [|p cs IH]; intros pre Hpre Hf Ht; simpl.
  { right. by rewrite app_nil_r. }
  change (tally (fold_left tally pre ∅) p) with (fold_left tally [p] (fold_left tally pre ∅)).
  rewrite <- fold_left_app. pose proof (find_reached (pre ++ [p])) as Hfind.
  rewrite cons_middle, (assoc_L app) in Hf, Ht.
  destruct (List.find _ _) as [[k [[c txt] ps]]|] eqn:E.
  - left. exists [], p, cs. rewrite app_nil_r, app_nil_l. destruct Hfind as [Hr Hen].
    destruct (reached_snoc k pre p (Hpre k) Hr) as [-> Hv].
    split_and!; try done.
    assert (Htot : token_total (pre ++ [p]) <= token_total ((pre ++ [p]) ++ cs)).
    { apply Forall_app in Hf as [_ Hf]. clear -Hf.
      induction (pre ++ [p])%list as [|r l IHl]; simpl; [by apply token_total_nonneg|lia]. }
    rewrite sum_tokens_fits; [|by apply Forall_app in Hf as [? _]|lia]. simpl.
    rewrite Hv in Hen |- *. rewrite entry_of_snoc in Hen.
    assert (ps = provider <$> (votes (semantic_key p) pre ++ [p])%list) as ->.
    { rewrite <- entry_of_snoc in Hen. by apply entry_of_Some in Hen as (_ & -> & _). }
    destruct (default _ _) as [[c' t'] ps'] in Hen. by simplify_eq.
  - destruct (IH (pre ++ [p])%list Hfind Hf Ht) as [(mid & q & post & -> & Hn & Hr & Hq)|[Hn Hq]].
    + left. exists (p :: mid), q, post. rewrite <- (assoc_L app) in Hn, Hr, Hq.
      by simpl in *.
    + right. rewrite <- (assoc_L app) in Hn, Hq. done.
Qed.
End query_facts.

(** C17: [query] answers with the first quorum: it consumes completions only
    until one key has the required votes, and returns the content of the
    response that completed the quorum, its voters in arrival order, and the
    tokens of the responses received so far; if no key gets there it returns
    [NoConsensus].  The iteration order of the map has no influence. *)
Theorem query_first_quorum `{HashOrder} e elapsed answers :
  let n := length (healthy_nodes e) in
  let cs := List.map (fun a => task_response e a.1 a.2) answers in
  healthy_nodes e <> [] -> Forall (fun r => 0 <= tokens_used r) cs -> token_total cs <= U32_MAX ->
  (exists pre p post,
     cs = (pre ++ p :: post)%list /\ (forall k, ~ reached e n k pre) /\
     reached e n (semantic_key p) (pre ++ [p]) /\
     query e elapsed answers =
       Ret (Ok (mkResult (content p) (provider <$> votes (semantic_key p) (pre ++ [p]))
         (elapsed (length (pre ++ [p]))) (n <? 3)%nat (token_total (pre ++ [p]))))) \/
  ((forall k, ~ reached e n k cs) /\
   exists msg, query e elapsed answers = Ret (Err (NoConsensus msg))).
Proof.
  intros n cs Hne Hf Ht. unfold query. fold cs. rewrite decide_False by done.
  assert (Hnil : forall k, ~ reached e n k []) by (intros k [Hn _]; done).
  destruct (query_loop_spec e n elapsed cs [] Hnil Hf Ht) as [(?&?&?&?&?&?&?)|[??]];
    [left; naive_solver|right; eauto].
Qed.

(** ** Canonical keys *)

Section fences.
(** A JSON object or array as its text: delimiters around anything. *)
Definition json_text (c d : ascii) (b : string) : string := String c (b ++ String d "").
Definition delimiters (c d : ascii) : Prop :=
  (c = "{"%char /\ d = "}"%char) \/ (c = "["%char /\ d = "]"%char).
Definition fence (tag body : string) : string :=
  "```" ++ tag ++ newline ++ body ++ newline ++ "```".

Lemma trim_json_text c d b : delimiters c d -> trim (json_text c d b) = json_text c d b.
Proof.
  intros Hd. unfold trim, json_text. rewrite trim_start_solid by (destruct Hd; naive_solver).
  change (String c (b ++ String d "")) with (String c b ++ String d "").
  apply trim_end_solid. destruct Hd; naive_solver.
Qed.

Lemma trim_fence tag body : trim (fence tag body) = fence tag body.
Proof.
  unfold trim, fence. change ("```" ++ ?x) with (String "`" ("``" ++ x)).
  rewrite trim_start_solid by naive_solver.
  change (String "`" ("``" ++ ?x)) with ("```" ++ x).
  replace ("```" ++ tag ++ newline ++ body ++ newline ++ "```")
    with (("```" ++ tag ++ newline ++ body ++ newline ++ "``") ++ "`")
    by by rewrite <- !string_app_assoc.
  apply trim_end_solid. naive_solver.
Qed.

Lemma fence_contents c d b : delimiters c d ->
  trim (take_bytes (String.length (json_text c d b) + 1) (json_text c d b ++ newline ++ "```"))
  = json_text c d b.
Proof.
  intros Hd. rewrite string_app_assoc.
  replace (String.length (json_text c d b) + 1)%nat
    with (String.length (json_text c d b ++ newline)).
  2: { generalize (json_text c d b). intros s.
       induction s as [|a s IH]; [done|]. simpl in *. by rewrite <- IH. }
  rewrite take_bytes_app. unfold trim, json_text.
  change (String c (b ++ String d "") ++ newline) with (String c ((b ++ String d "") ++ newline)).
  rewrite trim_start_solid by (destruct Hd; naive_solver).
  change (String c ((b ++ String d "") ++ newline)) with ((String c b ++ String d "") ++ newline).
  rewrite trim_end_newline. apply trim_end_solid. destruct Hd; naive_solver.
Qed.

(** The fence variants of the providers are normalised away: a JSON
    object or array comes out of [strip_markdown_fences] unchanged whether it
    arrives raw, in a [```json] block or in a bare [```] block, back-quotes
    inside it included. *)
Theorem strip_markdown_fences_json c d b :
  delimiters c d ->
  strip_markdown_fences (json_text c d b) = json_text c d b /\
  strip_markdown_fences (fence "json" (json_text c d b)) = json_text c d b /\
  strip_markdown_fences (fence "" (json_text c d b)) = json_text c d b.
Proof.
  intros Hd.
  assert (Hr : rfind "```" (json_text c d b ++ newline ++ "```") =
               Some (String.length (json_text c d b) + 1)%nat) by by apply rfind_app.
  assert (Hs : trim_start (newline ++ json_text c d b ++ newline ++ "```") =
               json_text c d b ++ newline ++ "```").
  { rewrite trim_start_newline. apply trim_start_solid. destruct Hd; naive_solver. }
  unfold strip_markdown_fences. rewrite !trim_fence, trim_json_text by done. split_and!.
  - by destruct Hd as [[-> ->]|[-> ->]].
  - change (starts_with "```" (fence "json" _)) with true. cbv iota.
    unfold fence. change ("```" ++ "json" ++ ?x) with ("```json" ++ x).
    rewrite strip_prefix_app, Hs, Hr. by apply fence_contents.
  - change (starts_with "```" (fence "" _)) with true. cbv iota.
    unfold fence. change ("```" ++ "" ++ ?x) with ("```" ++ x).
    change (strip_prefix "```json" ("```" ++ newline ++ ?x)) with (@None string).
    rewrite strip_prefix_app, Hs, Hr. by apply fence_contents.
Qed.
End fences.

Section canonical_facts.
Context {Number : Type}.
Context (from_str : string -> result (Value Number) string)
        (to_string : Value Number -> result string string)
        (sha256 : string -> list Z) (hex_encode : list Z -> string).

(** Documented behaviour of serde_json: distinct values print differently. *)
Hypothesis to_string_inj : forall v w s,
  to_string v = Ok s -> to_string w = Ok s -> v = w.

(** C18: on two well-formed JSON documents the canonical hash agrees exactly
    when the documents are equal up to the order of object keys, as long as
    SHA-256 digests do not collide on their canonical texts. *)
Theorem canonical_hash_iff r1 r2 v1 v2 c1 c2 :
  from_str (trim r1) = Ok v1 -> from_str (trim r2) = Ok v2 ->
  json_wf v1 -> json_wf v2 ->
  to_string (sort_json_keys v1) = Ok c1 -> to_string (sort_json_keys v2) = Ok c2 ->
  (hex_encode (sha256 c1) = hex_encode (sha256 c2) -> c1 = c2) ->
  (compute_canonical_hash from_str to_string sha256 hex_encode r1 =
   compute_canonical_hash from_str to_string sha256 hex_encode r2) <-> json_equiv v1 v2.
Proof using to_string_inj.
  intros H1 H2 Hw1 Hw2 Hc1 Hc2 Hsha. unfold compute_canonical_hash.
  rewrite H1, H2, Hc1, Hc2. split.
  - intros [= ->%Hsha]. apply sort_json_keys_equiv_inv; eauto.
  - intros He. rewrite (sort_json_keys_equiv v1 v2) in Hc1 by done. congruence.
Qed.
End canonical_facts.

(** ** Backpressure on the hashing pool *)

(** Callers of [canonical_semantic_key] and pool tasks interleave freely: a
    caller loads the counter, later increments it and spawns its task, and the
    [PendingGuard] of the task decrements it. *)
Record RayonPool := mkPool { pending : Z; admitted : nat; running : nat }.

Inductive rayon_step : RayonPool -> RayonPool -> Prop :=
  | rs_admit p a r : p <= RAYON_BACKPRESSURE_LIMIT ->
      rayon_step (mkPool p a r) (mkPool p (S a) r)
  | rs_reject p a r : RAYON_BACKPRESSURE_LIMIT < p ->
      rayon_step (mkPool p a r) (mkPool p a r)
  | rs_spawn p a r :
      rayon_step (mkPool p (S a) r) (mkPool (wrapping_add USIZE_MAX p 1) a (S r))
  | rs_finish p a r :
      rayon_step (mkPool p a (S r)) (mkPool (PendingGuard_drop p) a r).

(** Steps in which at most [callers] tasks are between the check and the
    increment. *)
Definition rayon_steps (callers : nat) : RayonPool -> RayonPool -> Prop :=
  rtc (fun s s' => rayon_step s s' /\ (admitted s' <= callers)%nat).

(** One call of [canonical_semantic_key] is the two caller steps. *)
Lemma canonical_semantic_key_steps p r raw w p' key :
  canonical_semantic_key p raw w = (p', key) -> p <= RAYON_BACKPRESSURE_LIMIT ->
  rayon_steps 1 (mkPool p 0 r) (mkPool p' 0 (S r)).
Proof.
  unfold canonical_semantic_key. case_decide; [lia|]. intros [= <- _] Hp.
  eapply rtc_l; [split; [by apply (rs_admit p 0 r)|done]|].
  apply rtc_once. split; [apply rs_spawn|simpl; lia].
Qed.

Definition rayon_inv (callers : nat) (s : RayonPool) : Prop :=
  pending s = Z.of_nat (running s) /\ (admitted s <= callers)%nat /\
  Z.of_nat (running s + admitted s) <= RAYON_BACKPRESSURE_LIMIT + Z.of_nat callers.

Lemma rayon_inv_step callers s s' :
  Z.of_nat callers <= 1000000 ->
  rayon_inv callers s -> rayon_step s s' -> (admitted s' <= callers)%nat -> rayon_inv callers s'.
Proof.
  unfold rayon_inv. intros Hc (Hp & Ha & Hb) Hs Ha'. destruct Hs;
    unfold RAYON_BACKPRESSURE_LIMIT, PendingGuard_drop in *; simpl in *;
    rewrite ?wrapping_add_small, ?wrapping_sub_small by ulia; lia.
Qed.

(** The pending counter never leaks and never underflows: under every
    interleaving of callers and pool tasks it equals the number of queued
    tasks, so requests are refused exactly while more than the limit are
    queued; and with at most [callers] concurrent callers no more than
    [limit + callers] tasks are ever queued. *)
Theorem rayon_backpressure_bound callers s :
  Z.of_nat callers <= 1000000 -> rayon_steps callers (mkPool 0 0 0) s ->
  pending s = Z.of_nat (running s) /\
  Z.of_nat (running s) <= RAYON_BACKPRESSURE_LIMIT + Z.of_nat callers.
Proof.
  intros Hc Hr. enough (rayon_inv callers s) as (?&?&?) by (split; [done|lia]).
  revert Hr. apply (rtc_ind_r _ (mkPool 0 0 0)).
  - unfold rayon_inv, RAYON_BACKPRESSURE_LIMIT. simpl. lia.
  - intros y z _ [Hs Ha] IH. eauto using rayon_inv_step.
Qed.

(** ** Instances *)

Definition resp (p : ProviderNode) (txt key : string) (ms tokens : Z) : ProviderResponse :=
  mkResponse p txt key ms tokens Success.
Definition trio : list ProviderResponse :=
  [resp GoogleGemini "a" "k1" 120 10; resp DeepSeek "b" "k2" 80 20; resp Groq "a'" "k1" 300 30].
Definition trio_result : ConsensusResult := mkResult "a'" [GoogleGemini; Groq] 300 false 60.

Lemma evaluate_sound_witness :
  (2 <= length (winning_providers trio_result))%nat /\ exists v, r_content trio_result = content v.
Proof.
  destruct (evaluate_sound (H := canonical_order) engine_new trio trio_result)
    as (k & v & _ & _ & _ & Hreq & _ & _ & Hc & _); [vm_compute; reflexivity|].
  split; [exact Hreq|by exists v].
Defined.

Lemma evaluate_decides_witness :
  exists k, votes k trio <> [] /\ (2 <= length (votes k trio))%nat.
Proof.
  pose proof (evaluate_decides (H := canonical_order) engine_new trio) as Hd.
  assert (He : evaluate (H := canonical_order) engine_new trio = Ret (Ok trio_result))
    by (vm_compute; reflexivity).
  rewrite He in Hd. apply Hd; [repeat constructor; simpl; lia|vm_compute; discriminate].
Defined.

Definition reverse_order : HashOrder.
Proof.
  refine {| hash_iter := fun K V _ _ m => List.rev (map_to_list m) |}.
  intros. symmetry. apply Permutation_rev.
Defined.

Lemma evaluate_order_independent_witness :
  evaluate (H := canonical_order) engine_new trio = evaluate (H := reverse_order) engine_new trio.
Proof. apply evaluate_order_independent. vm_compute. lia. Defined.

Definition trio_answers : list (ProviderNode * option ProviderResponse) :=
  [(DeepSeek, None); (GoogleGemini, Some (resp GoogleGemini "a" "k1" 120 10));
   (Groq, Some (resp Groq "a'" "k1" 300 30))].

Lemma query_first_quorum_witness :
  exists r, query (H := canonical_order) engine_new (fun n => Z.of_nat n * 50) trio_answers = Ret (Ok r).
Proof.
  destruct (query_first_quorum (H := canonical_order) engine_new (fun n => Z.of_nat n * 50)
              trio_answers)
    as [(pre & p & post & _ & _ & _ & Hq)|[Hn _]].
  - vm_compute. discriminate.
  - repeat constructor; simpl; lia.
  - vm_compute. discriminate.
  - by eexists.
  - exfalso. apply (Hn "k1"). split; vm_compute; [discriminate|lia].
Defined.

Lemma strip_markdown_fences_json_witness :
  strip_markdown_fences (fence "json" (json_text "{" "}" "```")) = "{```}".
Proof. apply (strip_markdown_fences_json "{" "}" "```"). left. by split. Defined.

Definition toy_a : Value unit := JObject [("a", JNull); ("b", JBool true)].
Definition toy_b : Value unit := JObject [("b", JBool true); ("a", JNull)].
Definition toy_from_str (s : string) : result (Value unit) string :=
  if String.eqb s "A" then Ok toy_a else Ok toy_b.
(** A printer of the two shapes that occur. *)
Definition toy_to_string (v : Value unit) : result string string :=
  match v with
  | JNull => Ok "null"
  | JObject [(k1, JNull); (k2, JBool true)] =>
      if String.eqb k1 "a" && String.eqb k2 "b" then Ok "{a,b}" else Err "unsupported"
  | _ => Err "unsupported"
  end.

Lemma toy_to_string_inj v w s : toy_to_string v = Ok s -> toy_to_string w = Ok s -> v = w.
Proof.
  assert (H : forall v s, toy_to_string v = Ok s ->
    (v = JNull /\ s = "null") \/ (v = toy_a /\ s = "{a,b}")).
  { clear. intros v s. unfold toy_to_string. repeat (case_match; try done); intros; simplify_eq; [by left|].
    match goal with H : _ && _ = true |- _ => apply andb_true_iff in H as [?%String.eqb_eq ?%String.eqb_eq] end.
    subst. by right. }
  intros [[-> ->]|[-> ->]]%H [[-> ?]|[-> ?]]%H; done.
Qed.

Lemma canonical_hash_iff_witness :
  compute_canonical_hash toy_from_str toy_to_string (fun s => [len s]) (fun _ => "h") "A" =
  compute_canonical_hash toy_from_str toy_to_string (fun s => [len s]) (fun _ => "h") "B" /\
  json_equiv toy_a toy_b.
Proof.
  split; [reflexivity|].
  apply (canonical_hash_iff toy_from_str toy_to_string (fun s => [len s]) (fun _ => "h")
           toy_to_string_inj "A" "B" toy_a toy_b "{a,b}" "{a,b}"); try reflexivity.
  1, 2: repeat constructor; simpl; intuition discriminate.
Defined.

Lemma rayon_backpressure_bound_witness :
  rayon_steps 1 (mkPool 0 0 0) (mkPool 1 0 1) /\
  Z.of_nat (running (mkPool 1 0 1)) <= RAYON_BACKPRESSURE_LIMIT + Z.of_nat 1.
Proof.
  assert (Hs : rayon_steps 1 (mkPool 0 0 0) (mkPool 1 0 1)).
  { apply (canonical_semantic_key_steps 0 0 "x" (Some "k") 1 "k"); [reflexivity|].
    unfold RAYON_BACKPRESSURE_LIMIT. lia. }
  split; [exact Hs|]. apply (rayon_backpressure_bound 1 (mkPool 1 0 1)); [lia|exact Hs].
Defined.
