(* ===== verification/CircuitBreaker.v ===== *)
(** * crates/traffic-control/src/circuit_breaker.rs

    The three-state breaker of one provider, its operations as one caller sees them who
    is not disturbed; [BreakerRace] takes them apart for threads that share a breaker.
    Instants and durations are nanoseconds of the monotonic clock; the atomics are
    64-bit counters that wrap around. *)
From S2P Require Import Prelude.

Local Open Scope string_scope.

Inductive CircuitState : Type := Closed | Open | HalfOpen.
#[export] Instance CircuitState_eq_dec : EqDecision CircuitState.
Proof. solve_decision. Defined.

Definition CircuitState_from_u8 (v : Z) : CircuitState :=
  match v with 0 => Closed | 1 => Open | 2 => HalfOpen | _ => Closed end.
Definition CircuitState_as_u8 (s : CircuitState) : Z :=
  match s with Closed => 0 | Open => 1 | HalfOpen => 2 end.

Record CircuitBreakerConfig := mkConfig {
  failure_threshold : Z;
  open_duration : Z;
  half_open_max_attempts : Z }.
Definition CircuitBreakerConfig_default : CircuitBreakerConfig :=
  mkConfig 3 (30 * 10 ^ 9) 1.

(** [CircuitStatus] (the value under the lock) and the atomic counters. *)
Record CircuitBreaker := mkBreaker {
  config : CircuitBreakerConfig;
  state : CircuitState;
  last_failure_time : option Z;
  failure_count : Z;
  success_count : Z;
  half_open_successes : Z;
  probes_in_flight : Z;
  node_id : string }.

Inductive CircuitBreakerError : Type :=
  | CircuitOpen (node reason : string)
  | Internal (detail : string).
#[export] Instance CircuitBreakerError_eq_dec : EqDecision CircuitBreakerError.
Proof. solve_decision. Defined.

Definition breaker_new (id : string) (c : CircuitBreakerConfig) : CircuitBreaker :=
  mkBreaker c Closed None 0 0 0 0 id.

(** Field updates. *)
Definition set_status (st : CircuitState) (t : option Z) (b : CircuitBreaker) :=
  mkBreaker (config b) st t (failure_count b) (success_count b) (half_open_successes b)
    (probes_in_flight b) (node_id b).
Definition set_failures (n : Z) (b : CircuitBreaker) :=
  mkBreaker (config b) (state b) (last_failure_time b) n (success_count b)
    (half_open_successes b) (probes_in_flight b) (node_id b).
Definition set_successes (n : Z) (b : CircuitBreaker) :=
  mkBreaker (config b) (state b) (last_failure_time b) (failure_count b) n
    (half_open_successes b) (probes_in_flight b) (node_id b).
Definition set_half_open (n : Z) (b : CircuitBreaker) :=
  mkBreaker (config b) (state b) (last_failure_time b) (failure_count b) (success_count b)
    n (probes_in_flight b) (node_id b).
Definition set_probes (n : Z) (b : CircuitBreaker) :=
  mkBreaker (config b) (state b) (last_failure_time b) (failure_count b) (success_count b)
    (half_open_successes b) n (node_id b).

Definition transition_to (new_state : CircuitState) (b : CircuitBreaker) : CircuitBreaker :=
  let b := set_status new_state (last_failure_time b) b in
  match new_state with
  | Closed => set_probes 0 (set_half_open 0 (set_failures 0 b))
  | Open => set_half_open 0 b
  | HalfOpen => b
  end.

Definition circuit_open (b : CircuitBreaker) (reason : string) : CircuitBreakerError :=
  CircuitOpen (node_id b) reason.

Definition allow_request (now : Z) (b : CircuitBreaker)
    : CircuitBreaker * result unit CircuitBreakerError :=
  match state b with
  | Closed => (b, Ok tt)
  | Open =>
      let rejected := (b, Err (circuit_open b "Failure threshold exceeded")) in
      match last_failure_time b with
      | Some t =>
          if decide (open_duration (config b) <= elapsed_since t now)
          then (transition_to HalfOpen b, Ok tt) else rejected
      | None => rejected
      end
  | HalfOpen =>
      let current_probes := probes_in_flight b in
      let b := set_probes (wrapping_add U64_MAX current_probes 1) b in
      if decide (half_open_max_attempts (config b) <= current_probes) then
        (set_probes (wrapping_sub U64_MAX (probes_in_flight b) 1) b,
         Err (circuit_open b "HalfOpen probe slot exhausted"))
      else (b, Ok tt)
  end.

Definition record_success (b : CircuitBreaker) : CircuitBreaker :=
  let b := set_successes (wrapping_add U64_MAX (success_count b) 1) b in
  let b := set_failures 0 b in
  if decide (state b = HalfOpen) then
    let b := set_probes (wrapping_sub U64_MAX (probes_in_flight b) 1) b in
    let b := set_half_open (wrapping_add U64_MAX (half_open_successes b) 1) b in
    if decide (half_open_max_attempts (config b) <= half_open_successes b)
    then transition_to Closed b else b
  else b.

(** The status code is only logged. *)
Definition record_failure (now : Z) (status_code : option Z) (b : CircuitBreaker)
    : outcome CircuitBreaker :=
  let previous := failure_count b in
  let b := set_failures (wrapping_add U64_MAX previous 1) b in
  failures ← add_u U64_MAX previous 1;
  let b := set_status (state b) (Some now) b in
  let b := if decide (failure_threshold (config b) <= failures) then transition_to Open b else b in
  Ret (if decide (state b = HalfOpen) then
         transition_to Open (set_probes (wrapping_sub U64_MAX (probes_in_flight b) 1) b)
       else b).

Record CircuitMetrics := mkMetrics {
  m_node_id : string; m_state : CircuitState;
  consecutive_failures : Z; total_successes : Z }.
Definition metrics (b : CircuitBreaker) : CircuitMetrics :=
  mkMetrics (node_id b) (state b) (failure_count b) (success_count b).

(** ** Probe guards

    A guard is live until it is marked or dropped; marking sets [resolved], so
    that the drop that follows does nothing. *)
Record ProbeGuard := mkGuard { resolved : bool }.

Definition acquire_probe_guard (now : Z) (b : CircuitBreaker)
    : CircuitBreaker * result ProbeGuard CircuitBreakerError :=
  let '(b, r) := allow_request now b in (b, _ <-? r ;; Ok (mkGuard false)).

Definition guard_drop (now : Z) (g : ProbeGuard) (b : CircuitBreaker) : outcome CircuitBreaker :=
  if resolved g then Ret b
  else
    let current := probes_in_flight b in
    let b := if decide (0 < current) then set_probes (wrapping_sub U64_MAX current 1) b else b in
    record_failure now None b.

Definition mark_success (now : Z) (g : ProbeGuard) (b : CircuitBreaker) : outcome CircuitBreaker :=
  guard_drop now (mkGuard true) (record_success b).
Definition mark_failure (now : Z) (status_code : option Z) (g : ProbeGuard) (b : CircuitBreaker)
    : outcome CircuitBreaker :=
  b ← record_failure now status_code b; guard_drop now (mkGuard true) b.

(** ** Sequences of operations *)

(** Requests arriving at the given times, no outcome being recorded. *)
Fixpoint requests (times : list Z) (b : CircuitBreaker) : CircuitBreaker * list bool :=
  match times with
  | [] => (b, [])
  | t :: times =>
      let '(b, r) := allow_request t b in
      let '(b, rs) := requests times b in (b, is_ok r :: rs)
  end.
Definition admitted (rs : list bool) : nat := length (List.filter id rs).

Fixpoint failures_at (times : list Z) (b : CircuitBreaker) : outcome CircuitBreaker :=
  match times with
  | [] => Ret b
  | t :: times => b ← record_failure t None b; failures_at times b
  end.

Lemma record_failure_tripped t code b :
  failure_threshold (config b) <= failure_count b + 1 -> 0 <= failure_count b < U64_MAX ->
  exists b', record_failure t code b = Ret b' /\ state b' = Open /\
    failure_count b' = failure_count b + 1 /\ config b' = config b.
Proof.
  intros Hth Hf. destruct b as [cfg st lft f s h p id]. simpl in *. unfold record_failure. simpl.
  unfold add_u. rewrite decide_True by lia. simpl.
  rewrite (decide_True (P := failure_threshold cfg <= f + 1)) by lia. simpl.
  eexists. split; [done|]. simpl. rewrite wrapping_add_small by ulia. done.
Qed.

Lemma record_failure_closed t code b :
  state b = Closed -> failure_count b + 1 < failure_threshold (config b) ->
  0 <= failure_count b < U64_MAX ->
  exists b', record_failure t code b = Ret b' /\ state b' = Closed /\
    failure_count b' = failure_count b + 1 /\ config b' = config b.
Proof.
  intros Hs Hth Hf. destruct b as [cfg st lft f s h p id]. simpl in *. subst st.
  unfold record_failure. simpl. unfold add_u. rewrite decide_True by lia. simpl.
  rewrite (decide_False (P := failure_threshold cfg <= f + 1)) by lia. simpl.
  eexists. split; [done|]. simpl. rewrite wrapping_add_small by ulia. done.
Qed.

(** Failures trip the circuit exactly at the threshold: after any number of
    consecutive failures a closed breaker is [Open] when its count has reached
    the threshold and still [Closed] below it (no overflow below 2^64). *)
Theorem trips_exactly_at_threshold b times :
  state b = Closed -> 0 <= failure_count b < failure_threshold (config b) ->
  failure_count b + Z.of_nat (length times) <= U64_MAX ->
  exists b', failures_at times b = Ret b' /\
    failure_count b' = failure_count b + Z.of_nat (length times) /\
    state b' = if decide (failure_threshold (config b) <= failure_count b + Z.of_nat (length times))
               then Open else Closed.
Proof.
  intros Hs Hf. pose (P b := 0 <= failure_count b /\
    (state b = Closed /\ failure_count b < failure_threshold (config b) \/
     state b = Open /\ failure_threshold (config b) <= failure_count b)).
  assert (HP : P b) by (split; [lia|left; split; [done|lia]]). clear Hs Hf.
  revert b HP. induction times as [|t times IH]; intros b [H0 HP] Hmax; simpl in *.
  - exists b. rewrite Z.add_0_r. split_and!; try done.
    case_decide; destruct HP as [[]|[]]; done || lia.
  - assert (exists b1, record_failure t None b = Ret b1 /\ P b1 /\
      failure_count b1 = failure_count b + 1 /\ config b1 = config b)
      as (b1 & -> & HP1 & Hf1 & Hc1).
    { destruct (decide (failure_threshold (config b) <= failure_count b + 1)).
      - destruct (record_failure_tripped t None b) as (b1 & ? & ? & ? & Hc); [done|lia|].
        exists b1. split_and!; try done. split; [lia|right; rewrite Hc; split; [done|lia]].
      - destruct (record_failure_closed t None b) as (b1 & ? & ? & ? & Hc);
          [destruct HP as [[]|[]]; [done|lia]|lia|lia|].
        exists b1. split_and!; try done. split; [lia|left; rewrite Hc; split; [done|lia]]. }
    simpl. destruct (IH b1 HP1) as (b' & -> & Hf' & Hs'); [lia|].
    exists b'. rewrite Hf', Hs', Hf1, Hc1. split_and!; [done|lia|].
    by replace (failure_count b + 1 + Z.of_nat (length times))
      with (failure_count b + Z.of_nat (S (length times))) by lia.
Qed.

(** A success resets the failure count in every state; in [HalfOpen] it
    frees a probe slot, and the one that completes [half_open_max_attempts]
    successes closes the circuit with every counter cleared. *)
Theorem record_success_spec b :
  let b' := record_success b in
  failure_count b' = 0 /\ success_count b' = wrapping_add U64_MAX (success_count b) 1 /\
  last_failure_time b' = last_failure_time b /\
  match state b with
  | HalfOpen =>
      if decide (half_open_max_attempts (config b) <=
                 wrapping_add U64_MAX (half_open_successes b) 1)
      then state b' = Closed /\ half_open_successes b' = 0 /\ probes_in_flight b' = 0
      else state b' = HalfOpen /\
           half_open_successes b' = wrapping_add U64_MAX (half_open_successes b) 1 /\
           probes_in_flight b' = wrapping_sub U64_MAX (probes_in_flight b) 1
  | s => state b' = s /\ probes_in_flight b' = probes_in_flight b /\
         half_open_successes b' = half_open_successes b
  end.
Proof.
  destruct b as [cfg st lft f s h p id]. unfold record_success. simpl.
  destruct st; simpl; [by split_and!..|]. repeat case_decide; done.
Qed.

Lemma half_open_step t b :
  state b = HalfOpen -> fits U64_MAX (probes_in_flight b) ->
  half_open_max_attempts (config b) <= U64_MAX ->
  let m := half_open_max_attempts (config b) in
  let p := probes_in_flight b in
  let '(b', r) := allow_request t b in
  state b' = HalfOpen /\ config b' = config b /\
  if decide (m <= p) then b' = b /\ is_ok r = false
  else probes_in_flight b' = p + 1 /\ is_ok r = true.
Proof.
  intros Hs Hp Hm. destruct b as [cfg st lft f s h p id]. simpl in *. subst st.
  unfold allow_request. simpl. case_decide; simpl; split_and!; try done.
  - do 2 f_equal. unfold set_probes, wrapping_sub, wrapping_add. simpl. f_equal.
    rewrite Zminus_mod_idemp_l. replace (p + 1 - 1) with p by lia. apply Z.mod_small. ulia.
  - apply wrapping_add_small; ulia.
Qed.

Lemma half_open_requests times b :
  state b = HalfOpen -> fits U64_MAX (probes_in_flight b) ->
  half_open_max_attempts (config b) <= U64_MAX ->
  let '(b', rs) := requests times b in
  state b' = HalfOpen /\ config b' = config b /\
  Z.of_nat (admitted rs) = Z.min (Z.of_nat (length times))
    (Z.max 0 (half_open_max_attempts (config b) - probes_in_flight b)) /\
  (half_open_max_attempts (config b) <= probes_in_flight b -> b' = b).
Proof.
  revert b. induction times as [|t times IH]; intros b Hs Hp Hm; simpl.
  { unfold admitted. simpl. split_and!; [done|done|lia|done]. }
  pose proof (half_open_step t b Hs Hp Hm) as Hst. destruct (allow_request t b) as [b1 r].
  destruct Hst as (Hs1 & Hc1 & Hst). case_decide as Hd.
  - destruct Hst as [-> Hr]. specialize (IH b Hs Hp Hm). destruct (requests times b) as [b' rs].
    destruct IH as (? & ? & Ha & ?). unfold admitted in *. rewrite Hr. simpl.
    split_and!; try done; lia.
  - destruct Hst as [Hp1 Hr]. assert (fits U64_MAX (probes_in_flight b1)) as Hp1' by (rewrite Hp1; ulia).
    rewrite <- Hc1 in Hm. specialize (IH b1 Hs1 Hp1' Hm). destruct (requests times b1) as [b' rs].
    destruct IH as (? & ? & Ha & ?). unfold admitted in *. rewrite Hr, Hp1, Hc1 in *. simpl.
    split_and!; [done|congruence|lia|lia].
Qed.

(** The number of concurrent probes: when the open period is over and no
    probe is in flight, a burst of requests that record no outcome is admitted
    [1 + half_open_max_attempts] times and refused afterwards, since the request
    that moves [Open] to [HalfOpen] does not take a slot.  (The module
    documentation announces a single probe.) *)
Theorem half_open_burst b u t times :
  state b = Open -> last_failure_time b = Some u ->
  open_duration (config b) <= elapsed_since u t ->
  probes_in_flight b = 0 -> 0 <= half_open_max_attempts (config b) <= U32_MAX ->
  let '(b', rs) := requests (t :: times) b in
  state b' = HalfOpen /\
  Z.of_nat (admitted rs) =
    1 + Z.min (Z.of_nat (length times)) (half_open_max_attempts (config b)).
Proof.
  intros Hs Hu Ht Hp Hm. simpl. unfold allow_request at 1. rewrite Hs, Hu, decide_True by done.
  pose proof (half_open_requests times (transition_to HalfOpen b)) as Hr.
  destruct (requests times (transition_to HalfOpen b)) as [b' rs].
  destruct Hr as (Hs' & _ & Ha & _); [done|simpl; rewrite Hp; ulia|simpl; ulia|].
  split; [done|]. unfold admitted in *. simpl in *. lia.
Qed.

(** With two or more successes required, recovery is impossible: the first
    probe of a half-open phase holds no slot, so its success drives
    [probes_in_flight] below zero to [2^64 - 1]; the breaker stays [HalfOpen]
    and refuses every later request, unchanged, at whatever time it comes. *)
Theorem half_open_wedge b u t times :
  state b = Open -> last_failure_time b = Some u ->
  open_duration (config b) <= elapsed_since u t ->
  probes_in_flight b = 0 -> half_open_successes b = 0 ->
  2 <= half_open_max_attempts (config b) <= U32_MAX ->
  exists b1, allow_request t b = (b1, Ok tt) /\
    let b2 := record_success b1 in
    state b2 = HalfOpen /\ probes_in_flight b2 = U64_MAX /\
    let '(b3, rs) := requests times b2 in b3 = b2 /\ admitted rs = 0%nat.
Proof.
  intros Hs Hu Ht Hp Hh Hm. exists (transition_to HalfOpen b). split.
  { unfold allow_request. by rewrite Hs, Hu, decide_True by done. }
  set (b2 := record_success _). pose proof (record_success_spec (transition_to HalfOpen b)) as Hspec.
  fold b2 in Hspec. simpl in Hspec. rewrite Hh, Hp in Hspec.
  destruct Hspec as (_ & _ & _ & Hspec).
  change (wrapping_add U64_MAX 0 1) with 1 in Hspec. rewrite decide_False in Hspec by lia.
  destruct Hspec as (Hs2 & _ & Hp2). change (wrapping_sub U64_MAX 0 1) with U64_MAX in Hp2.
  split_and!; try done.
  assert (Hc2 : config b2 = config b).
  { unfold b2, record_success. simpl. by repeat case_decide. }
  pose proof (half_open_requests times b2 Hs2) as Hr. rewrite Hp2, Hc2 in Hr.
  destruct (requests times b2) as [b3 rs].
  destruct Hr as (_ & _ & Ha & Heq); [ulia|ulia|]. split; [apply Heq; ulia|ulia].
Qed.

(** ** Witnesses *)

Definition demo_open : CircuitBreaker :=
  mkBreaker (mkConfig 3 100 2) Open (Some 5) 3 0 0 0 "node".

Lemma trips_exactly_at_threshold_witness :
  let b := breaker_new "node" CircuitBreakerConfig_default in
  exists b', failures_at [1; 2; 3] b = Ret b' /\ failure_count b' = 3 /\ state b' = Open.
Proof.
  apply (trips_exactly_at_threshold (breaker_new "node" CircuitBreakerConfig_default) [1; 2; 3]);
    [reflexivity|simpl; lia|simpl; ulia].
Defined.

Lemma half_open_burst_witness :
  let '(b', rs) := requests [200; 201; 202; 203] demo_open in
  state b' = HalfOpen /\ Z.of_nat (admitted rs) = 3.
Proof.
  apply (half_open_burst demo_open 5 200 [201; 202; 203]);
    [reflexivity|reflexivity|by vm_compute|reflexivity|simpl; ulia].
Defined.

Lemma half_open_wedge_witness :
  exists b1, allow_request 200 demo_open = (b1, Ok tt) /\
    let b2 := record_success b1 in
    state b2 = HalfOpen /\ probes_in_flight b2 = U64_MAX /\
    let '(b3, rs) := requests [300; 400] b2 in b3 = b2 /\ admitted rs = 0%nat.
Proof.
  apply (half_open_wedge demo_open 5 200 [300; 400]);
    [reflexivity|reflexivity|by vm_compute|reflexivity|reflexivity|simpl; ulia].
Defined.
