(* ===== verification/BreakerRace.v ===== *)
(** * crates/traffic-control/src/circuit_breaker.rs: a breaker that threads share

    [CircuitBreaker] has each operation as one caller sees it.  Here the operations are
    cut into the single accesses to what the threads share: the status behind its
    [RwLock], and the atomic counters, which nothing locks.  A reader of the status is
    one access, since it holds the lock for nothing else; [transition_to] keeps the write
    lock while it clears the counters, so that others find the status locked, but not
    the counters.  The accesses of all threads happen in one order, which each sees. *)
From S2P Require Import Prelude CircuitBreaker.

Local Open Scope string_scope.

(** A call, by the access that comes next. *)
Inductive call : Type :=
  (* allow_request, and acquire_probe_guard *)
  | Asking | Admitting | Probing | Overbooked | Allowed | Rejected (reason : string)
  (* record_success, and mark_success *)
  | AddSuccess | ClearFailures | ReadForSuccess | ReleaseProbe | AddHalfOpen | LoadHalfOpen
  | CloseStatus | CloseFailures | CloseHalfOpen | CloseProbes
  (* record_failure, and mark_failure *)
  | AddFailure | StampFailure (failures : Z) | ReadForFailure | FailProbe
  | OpenStatus (reopened : bool) | OpenHalfOpen (reopened : bool)
  (* the drop of a guard without a mark *)
  | LoadProbes | DropProbe
  | Finished | Panicked.
#[export] Instance call_eq_dec : EqDecision call.
Proof. solve_decision. Defined.

(** One access at time [t]; [None]: the lock is held by another, or the call is over. *)
Definition access (t : Z) (b : CircuitBreaker) (locked : bool) (c : call)
    : option (CircuitBreaker * bool * call) :=
  let go b c := Some (b, locked, c) in
  let unlocked x := if locked then None else x in
  let probes := probes_in_flight b in
  match c with
  | Asking =>
      unlocked match state b with
      | Closed => go b Allowed
      | Open =>
          go b match last_failure_time b with
          | Some u => if decide (open_duration (config b) <= elapsed_since u t)
                      then Admitting else Rejected "Failure threshold exceeded"
          | None => Rejected "Failure threshold exceeded"
          end
      | HalfOpen => go b Probing
      end
  | Admitting => unlocked (go (set_status HalfOpen (last_failure_time b) b) Allowed)
  | Probing =>
      go (set_probes (wrapping_add U64_MAX probes 1) b)
        (if decide (half_open_max_attempts (config b) <= probes) then Overbooked else Allowed)
  | Overbooked =>
      go (set_probes (wrapping_sub U64_MAX probes 1) b) (Rejected "HalfOpen probe slot exhausted")
  | AddSuccess => go (set_successes (wrapping_add U64_MAX (success_count b) 1) b) ClearFailures
  | ClearFailures => go (set_failures 0 b) ReadForSuccess
  | ReadForSuccess => unlocked (go b (if decide (state b = HalfOpen) then ReleaseProbe else Finished))
  | ReleaseProbe => go (set_probes (wrapping_sub U64_MAX probes 1) b) AddHalfOpen
  | AddHalfOpen => go (set_half_open (wrapping_add U64_MAX (half_open_successes b) 1) b) LoadHalfOpen
  | LoadHalfOpen =>
      go b (if decide (half_open_max_attempts (config b) <= half_open_successes b)
            then CloseStatus else Finished)
  | CloseStatus => unlocked (Some (set_status Closed (last_failure_time b) b, true, CloseFailures))
  | CloseFailures => go (set_failures 0 b) CloseHalfOpen
  | CloseHalfOpen => go (set_half_open 0 b) CloseProbes
  | CloseProbes => Some (set_probes 0 b, false, Finished)
  | AddFailure =>
      go (set_failures (wrapping_add U64_MAX (failure_count b) 1) b)
        match add_u U64_MAX (failure_count b) 1 with
        | Ret failures => StampFailure failures
        | Panic => Panicked
        end
  | StampFailure failures =>
      unlocked (go (set_status (state b) (Some t) b)
        (if decide (failure_threshold (config b) <= failures) then OpenStatus false else ReadForFailure))
  | OpenStatus reopened =>
      unlocked (Some (set_status Open (last_failure_time b) b, true, OpenHalfOpen reopened))
  | OpenHalfOpen reopened =>
      Some (set_half_open 0 b, false, if reopened then Finished else ReadForFailure)
  | ReadForFailure => unlocked (go b (if decide (state b = HalfOpen) then FailProbe else Finished))
  | FailProbe => go (set_probes (wrapping_sub U64_MAX probes 1) b) (OpenStatus true)
  | LoadProbes => go b (if decide (0 < probes) then DropProbe else AddFailure)
  | DropProbe => go (set_probes (wrapping_sub U64_MAX probes 1) b) AddFailure
  | Allowed | Rejected _ | Finished | Panicked => None
  end.

(** ** A caller that is alone *)

Fixpoint run_alone (n : nat) (t : Z) (x : CircuitBreaker * bool * call) : CircuitBreaker * bool * call :=
  match n with
  | O => x
  | S n => match access t x.1.1 x.1.2 x.2 with Some y => run_alone n t y | None => x end
  end.
Definition verdict (r : result unit CircuitBreakerError) : call :=
  match r with Ok _ => Allowed | Err (CircuitOpen _ reason) => Rejected reason | Err (Internal e) => Rejected e end.
Definition recorded (b : CircuitBreaker) (o : outcome CircuitBreaker) : CircuitBreaker * bool * call :=
  match o with
  | Ret b => (b, false, Finished)
  | Panic => (set_failures 0 b, false, Panicked)
  end.

Ltac alone := repeat (cbn; try case_decide; simplify_eq); try done.

Lemma run_alone_S n t b k c b' k' c' : access t b k c = Some (b', k', c') ->
  run_alone (S n) t (b, k, c) = run_alone n t (b', k', c').
Proof. intros Ha. cbn [run_alone fst snd]. by rewrite Ha. Qed.

Lemma lone_failure n t code b : fits U64_MAX (failure_count b) -> (8 <= n <= 9)%nat ->
  run_alone n t (b, false, AddFailure) = recorded b (record_failure t code b).
Proof.
  intros Hf Hn. destruct b as [cfg st lft f s h p id]. cbn in Hf. unfold record_failure. cbn.
  assert (n = 8 \/ n = 9)%nat as [-> | ->] by lia; cbn; unfold add_u; case_decide as Hm; cbn;
    try (destruct st; alone; fail); replace f with U64_MAX by ulia; reflexivity.
Qed.

(** Undisturbed, the accesses of a call make up the operation of [CircuitBreaker]: the
    interleavings here are those of the operations that the orchestrator calls. *)
Theorem lone_calls t b : fits U64_MAX (failure_count b) ->
  run_alone 4 t (b, false, Asking) =
    ((allow_request t b).1, false, verdict (allow_request t b).2) /\
  run_alone 10 t (b, false, AddSuccess) = (record_success b, false, Finished) /\
  (forall code, run_alone 8 t (b, false, AddFailure) = recorded b (record_failure t code b)) /\
  run_alone 10 t (b, false, LoadProbes) =
    recorded (if decide (0 < probes_in_flight b)
              then set_probes (wrapping_sub U64_MAX (probes_in_flight b) 1) b else b)
      (guard_drop t (mkGuard false) b).
Proof.
  intros Hf. split_and!; [| |intros code; by apply lone_failure; [|lia]|].
  - destruct b as [cfg st lft f s h p id]. unfold allow_request. cbn.
    destruct st; [done|destruct lft; alone|alone].
  - destruct b as [cfg st lft f s h p id]. unfold record_success. destruct st; alone.
  - unfold guard_drop. cbn [resolved]. erewrite run_alone_S by reflexivity. case_decide.
    + erewrite run_alone_S by reflexivity. by apply lone_failure; [destruct b|lia].
    + by apply lone_failure; [|lia].
Qed.

(** ** Threads *)

Record World := mkWorld { now : Z; breaker : CircuitBreaker; locked : bool; calls : list call }.

Definition beginning (c : call) : bool :=
  match c with Asking | AddSuccess | AddFailure | LoadProbes => true | _ => false end.

Inductive step : World -> World -> Prop :=
  | w_tick t t' b k cs : t <= t' -> step (mkWorld t b k cs) (mkWorld t' b k cs)
  | w_call t b k cs c : beginning c = true -> step (mkWorld t b k cs) (mkWorld t b k (cs ++ [c])%list)
  | w_access t b k cs i c b' k' c' :
      cs !! i = Some c -> access t b k c = Some (b', k', c') ->
      step (mkWorld t b k cs) (mkWorld t b' k' (<[i := c']> cs)).

Definition reached (id : string) (c : CircuitBreakerConfig) (w : World) : Prop :=
  exists t0, rtc step (mkWorld t0 (breaker_new id c) false []) w.

(** One access, by what it may do to the status, the count and the configuration. *)
Ltac accesses Ha :=
  unfold access in Ha;
  repeat match type of Ha with
    | context [match ?x with _ => _ end] => destruct x eqn:?
    end; simplify_eq/=.

Lemma access_config t b k c b' k' c' : access t b k c = Some (b', k', c') -> config b' = config b.
Proof. intros Ha. accesses Ha; done. Qed.

(** *** The invariant *)

(** A call that is about to open the circuit, or to clear the count of a closed one. *)
Definition settling (threshold : Z) (c : call) : bool :=
  match c with
  | StampFailure failures => bool_decide (threshold <= failures)
  | OpenStatus _ | CloseFailures => true
  | _ => false
  end.
(** A call that goes by the time of a failure it has seen or recorded. *)
Definition timed (c : call) : bool :=
  match c with Admitting | Probing | FailProbe | OpenStatus _ => true | _ => false end.
(** A call that holds the write lock. *)
Definition holding (c : call) : bool :=
  match c with CloseFailures | CloseHalfOpen | CloseProbes | OpenHalfOpen _ => true | _ => false end.
Definition over (c : call) : bool :=
  match c with Allowed | Rejected _ | Finished | Panicked => true | _ => false end.

Definition some_call (p : call -> bool) (cs : list call) : Prop := exists i c, cs !! i = Some c /\ p c = true.

Record breaker_inv (cf : CircuitBreakerConfig) (w : World) : Prop := {
  ri_config : config (breaker w) = cf;
  ri_fits : fits U64_MAX (failure_count (breaker w));
  ri_count : state (breaker w) = Closed ->
    failure_count (breaker w) < failure_threshold cf \/ some_call (settling (failure_threshold cf)) (calls w);
  ri_time : state (breaker w) <> Closed \/ some_call timed (calls w) ->
    exists u, last_failure_time (breaker w) = Some u /\ u <= now w;
  ri_lock : locked w = true -> some_call holding (calls w) }.

Lemma access_fits t b k c b' k' c' : access t b k c = Some (b', k', c') ->
  fits U64_MAX (failure_count b) -> fits U64_MAX (failure_count b').
Proof. intros Ha Hf. accesses Ha; try done; try (by apply wrapping_add_fits; ulia); ulia. Qed.

Lemma access_count t b k c b' k' c' : access t b k c = Some (b', k', c') ->
  let threshold := failure_threshold (config b) in
  0 < threshold -> fits U64_MAX (failure_count b) -> state b' = Closed ->
  failure_count b' < threshold \/ settling threshold c' = true \/
  state b = Closed /\ failure_count b' = failure_count b /\ settling threshold c = false.
Proof.
  intros Ha threshold Hth Hf Hs. subst threshold. accesses Ha; auto; try congruence;
    try (by left; lia); try (by right; right); try (by destruct reopened; auto).
  - match goal with E : add_u _ _ _ = Ret _ |- _ => apply add_u_Ret in E as [-> Hle] end.
    rewrite wrapping_add_small by ulia. destruct (decide (failure_threshold (config b) <= failure_count b + 1)).
    + right; left. by apply bool_decide_true.
    + left. lia.
  - match goal with E : add_u _ _ _ = Panic |- _ => apply add_u_Panic in E end.
    left. replace (failure_count b) with U64_MAX by ulia. exact Hth.
  - right; right. split_and!; [done..|]. by apply bool_decide_false.
Qed.

Lemma access_time t b k c b' k' c' : access t b k c = Some (b', k', c') ->
  last_failure_time b' = Some t \/
  last_failure_time b' = last_failure_time b /\
  (state b' <> Closed \/ timed c' = true -> state b <> Closed \/ timed c = true).
Proof.
  intros Ha. accesses Ha; auto; right; (split; [done|]); intros [?|?];
    first [by auto|by right|by left; congruence|by destruct reopened].
Qed.

Lemma access_lock t b k c b' k' c' : access t b k c = Some (b', k', c') -> k' = true ->
  holding c' = true \/ k = true /\ holding c = false.
Proof. intros Ha. accesses Ha; auto. Qed.

Lemma some_call_insert p cs i c c' : cs !! i = Some c -> some_call p (<[i := c']> cs) ->
  some_call p cs \/ p c' = true.
Proof.
  intros Hi (j & d & Hj & Hd). apply list_lookup_insert_Some in Hj as [(-> & -> & _)|[_ Hj]]; [by right|left].
  by exists j, d.
Qed.
Lemma some_call_new p cs i c c' : cs !! i = Some c -> p c' = true -> some_call p (<[i := c']> cs).
Proof. intros Hi Hc. exists i, c'. split; [|done]. apply list_lookup_insert_eq. by eapply lookup_lt_Some. Qed.
Lemma some_call_other p cs i c c' : cs !! i = Some c -> p c = false -> some_call p cs ->
  some_call p (<[i := c']> cs).
Proof.
  intros Hi Hc (j & d & Hj & Hd). exists j, d. split; [|done].
  rewrite list_lookup_insert_ne; [done|]. intros ->. congruence.
Qed.
Lemma some_call_app p cs c : some_call p cs -> some_call p (cs ++ [c])%list.
Proof. intros (i & d & Hi & Hd). exists i, d. split; [|done]. by apply lookup_app_l_Some. Qed.
Lemma some_call_snoc p cs c : p c = false -> some_call p (cs ++ [c])%list -> some_call p cs.
Proof.
  intros Hp (i & d & Hi & Hd). apply lookup_app_Some in Hi as [Hi|[_ Hi]]; [by exists i, d|].
  apply list_lookup_singleton_Some in Hi as [_ ->]. congruence.
Qed.

Lemma breaker_inv_step cf w w' : 0 < failure_threshold cf -> breaker_inv cf w -> step w w' -> breaker_inv cf w'.
Proof.
  intros Hth [Hc Hf Hn Ht Hl] Hs. destruct Hs as [t t' b k cs Hle|t b k cs c Hb|t b k cs i c b' k' c' Hi Ha];
    cbn [now breaker locked calls] in *.
  - constructor; try done. cbn. intros Hx. destruct (Ht Hx) as (u & Hu & ?). exists u. split; [done|lia].
  - constructor; try done; cbn.
    + intros Hx. destruct (Hn Hx) as [?|?]; [by left|right; by apply some_call_app].
    + intros [Hx|Hx]; [by auto|]. apply some_call_snoc in Hx; [by auto|by destruct c].
    + intros Hx. by apply some_call_app, Hl.
  - pose proof (access_config _ _ _ _ _ _ _ Ha) as Hc'.
    constructor; cbn; [congruence|by eapply access_fits| | |].
    + intros Hx. pose proof (access_count _ _ _ _ _ _ _ Ha) as Hcount. cbv zeta in Hcount. rewrite Hc in Hcount.
      destruct (Hcount Hth Hf Hx) as [?|[?|(Hx0 & -> & Hset)]]; [by left|right; by eapply some_call_new|].
      destruct (Hn Hx0); [by left|right; by eapply some_call_other].
    + intros Hx. destruct (access_time _ _ _ _ _ _ _ Ha) as [->|[-> Hx0]]; [exists t; split; [done|lia]|].
      apply Ht. destruct Hx as [Hx|Hx]; [|apply (some_call_insert _ _ _ _ _ Hi) in Hx as [Hx|Hx]; [by right|]].
      all: destruct Hx0 as [?|?]; [by auto|by left|right; by exists i, c].
    + intros Hx. destruct (access_lock _ _ _ _ _ _ _ Ha Hx) as [?|[Hk Hh]]; [by eapply some_call_new|].
      eapply some_call_other; eauto.
Qed.

Lemma reached_inv id cf w : 0 < failure_threshold cf -> reached id cf w -> breaker_inv cf w.
Proof.
  intros Hth [t0 Hr]. revert Hr. apply (rtc_ind_r _ (mkWorld t0 (breaker_new id cf) false [])).
  - constructor; cbn; [done|ulia|by left| |done]. intros [?|(i & c & Hi & _)]; [done|by rewrite lookup_nil in Hi].
  - intros. by eapply breaker_inv_step.
Qed.

Lemma step_now w w' : step w w' -> now w <= now w'.
Proof. intros []; cbn; lia. Qed.
Lemma steps_now w w' : rtc step w w' -> now w <= now w'.
Proof. induction 1 as [|x y z Hxy _ IH]; [lia|]. apply step_now in Hxy. lia. Qed.

(** A call that waits for the lock waits for one that can go on. *)
Lemma access_unlocked t b c : over c = false -> is_Some (access t b false c).
Proof. destruct c; cbn; intros; try done; eauto; repeat case_match; eauto. Qed.
Lemma access_holding t b k c : holding c = true -> is_Some (access t b k c).
Proof. destruct c; cbn; intros; try done; eauto. Qed.

(** *** Trips are not lost *)

(** C12: a trip is never lost, and nobody waits for ever: however the accesses of any number
    of threads interleave, a [Closed] breaker has counted fewer failures than its threshold,
    or a call is on its way that is about to open it or has just closed it and is about to
    clear the count; so that, whenever no call is on its way, a closed breaker is below its
    threshold.  And as long as a call is not over, one of them can make its next access:
    no interleaving ends with all of them waiting for the lock of the status. *)
Theorem trip_not_lost id cf w : 0 < failure_threshold cf -> reached id cf w ->
  (state (breaker w) = Closed ->
     failure_count (breaker w) < failure_threshold cf \/
     some_call (settling (failure_threshold cf)) (calls w)) /\
  ((forall c, c ∈ calls w -> over c = true) -> state (breaker w) = Closed ->
     failure_count (breaker w) < failure_threshold cf) /\
  (some_call (fun c => negb (over c)) (calls w) ->
     exists i c, calls w !! i = Some c /\ is_Some (access (now w) (breaker w) (locked w) c)).
Proof.
  intros Hth Hr. destruct (reached_inv _ _ _ Hth Hr) as [_ _ Hn _ Hl]. split_and!; [exact Hn| |].
  - intros Hover Hs. destruct (Hn Hs) as [?|(i & c & Hi & Hc)]; [done|].
    pose proof (Hover c ltac:(by eapply list_elem_of_lookup_2)). by destruct c.
  - intros (i & c & Hi & Hc%negb_true_iff). destruct (locked w) eqn:Hk.
    + destruct (Hl eq_refl) as (j & d & Hj & Hd). exists j, d. split; [done|by apply access_holding].
    + exists i, c. split; [done|by apply access_unlocked].
Qed.

(** *** Open circuits fail fast *)

(** A call that may take the breaker out of [Open]: it has read the status before. *)
Definition leaving (c : call) : bool :=
  match c with Admitting | ReleaseProbe | AddHalfOpen | LoadHalfOpen | CloseStatus => true | _ => false end.
(** A request on its way to being admitted, or there. *)
Definition let_in (c : call) : bool :=
  match c with Admitting | Probing | Allowed => true | _ => false end.
(** The calls of [w] that have yet to read the status, and those still to come. *)
Definition yet_to_read (w : World) (i : nat) : Prop :=
  match calls w !! i with Some c => c = Asking | None => True end.

(** While the circuit is [Open], for a time [u] or a later one, and nobody is leaving it. *)
Record shut (w : World) (u : Z) (x : World) : Prop := {
  sh_config : config (breaker x) = config (breaker w);
  sh_state : state (breaker x) = Open;
  sh_time : exists v, last_failure_time (breaker x) = Some v /\ u <= v;
  sh_now : now w <= now x;
  sh_leaving : ~ some_call leaving (calls x);
  sh_let_in : forall i c, yet_to_read w i -> calls x !! i = Some c -> let_in c = false }.

Lemma access_shut t b k c b' k' c' u : access t b k c = Some (b', k', c') ->
  state b = Open -> (exists v, last_failure_time b = Some v /\ u <= v) -> u <= t ->
  elapsed_since u t < open_duration (config b) -> leaving c = false ->
  state b' = Open /\ (exists v, last_failure_time b' = Some v /\ u <= v) /\ leaving c' = false /\
  (let_in c = false -> let_in c' = false).
Proof.
  intros Ha Hs (v & Hv & Huv) Hut He Hc. unfold elapsed_since in He.
  accesses Ha; simplify_eq/=; try congruence; try (split_and!; eauto; fail).
  all: try (split_and!; eauto; by destruct reopened).
  - unfold elapsed_since in *. lia.
Qed.

Lemma shut_steps w u w' : state (breaker w) = Open -> last_failure_time (breaker w) = Some u -> u <= now w ->
  (forall c, c ∈ calls w -> leaving c = false) ->
  rtc step w w' -> elapsed_since u (now w') < open_duration (config (breaker w)) -> shut w u w'.
Proof.
  intros Hs Hu Hle Hcalls Hr. revert Hr. 
  apply (rtc_ind_r (fun x => elapsed_since u (now x) < open_duration (config (breaker w)) -> shut w u x) w).
  - intros _. constructor; try done.
    + exists u. split; [done|lia].
    + intros (i & c & Hi & Hc). rewrite Hcalls in Hc; [done|by eapply list_elem_of_lookup_2].
    + intros i c Hi Hc. unfold yet_to_read in Hi. rewrite Hc in Hi. by subst.
  - intros x y Hr Hxy IH He. pose proof (step_now _ _ Hxy) as Hxn.
    destruct IH as [Hc Ho Ht Hn Hl Hi]; [unfold elapsed_since in *; lia|].
    destruct Hxy as [t t' b k cs Hle'|t b k cs c Hb|t b k cs i c b' k' c' Hci Ha];
      cbn [now breaker locked calls] in *.
    + constructor; try done. cbn. lia.
    + constructor; try done; cbn.
      * intros Hx. apply some_call_snoc in Hx; [done|by destruct c].
      * intros j d Hj Hd. apply lookup_app_Some in Hd as [Hd|[_ Hd]]; [by eapply Hi|].
        apply list_lookup_singleton_Some in Hd as [_ <-]. by destruct c.
    + assert (leaving c = false) as Hlc by (destruct (leaving c) eqn:E; [destruct Hl; by exists i, c|done]).
      destruct (access_shut _ _ _ _ _ _ _ u Ha Ho Ht ltac:(lia)) as (Ho' & Ht' & Hl' & Hi'); [by rewrite Hc|done|].
      constructor; cbn; [by rewrite (access_config _ _ _ _ _ _ _ Ha)|exact Ho'|exact Ht'|exact Hn| |].
      * intros Hx. apply (some_call_insert _ _ _ _ _ Hci) in Hx as [Hx|Hx]; [done|congruence].
      * intros j d Hj Hd. apply list_lookup_insert_Some in Hd as [(-> & <- & _)|[_ Hd]]; [|by eapply Hi].
        by eapply Hi', Hi.
Qed.

(** C23: [Open] fails fast and is not for good, however the accesses of any number of
    threads interleave: an open circuit knows the time of a past failure; once no call is
    left that read the status before (and may still move it), the circuit stays open, and
    no request that reads it later is let in, until [open_duration] has passed since that
    failure, whatever is recorded meanwhile; and a request that reads it when
    [open_duration] has passed is let in, whatever the others do. *)
Theorem open_fails_fast id cf w : 0 < failure_threshold cf -> reached id cf w -> state (breaker w) = Open ->
  exists u, last_failure_time (breaker w) = Some u /\ u <= now w /\
  ((forall c, c ∈ calls w -> leaving c = false) ->
   forall w', rtc step w w' -> elapsed_since u (now w') < open_duration cf ->
     state (breaker w') = Open /\ forall i, yet_to_read w i -> calls w' !! i <> Some Allowed) /\
  (open_duration cf <= elapsed_since u (now w) ->
   forall i, calls w !! i = Some Asking -> locked w = false ->
     exists w1, step w w1 /\ forall w2, rtc step w1 w2 ->
       calls w2 !! i = Some Admitting \/ calls w2 !! i = Some Allowed).
Proof.
  intros Hth Hr Hs. destruct (reached_inv _ _ _ Hth Hr) as [Hc _ _ Ht _].
  destruct Ht as (u & Hu & Hle); [left; by rewrite Hs|]. exists u. split_and!; [done|done| |].
  - intros Hcalls w' Hw He. rewrite <- Hc in He.
    destruct (shut_steps _ _ _ Hs Hu Hle Hcalls Hw He) as [_ Ho _ _ _ Hi]. split; [done|].
    intros i Hy Ha. by specialize (Hi _ _ Hy Ha).
  - intros He i Hi Hk. destruct w as [t b k cs]. cbn [now breaker locked calls] in *. subst k.
    eexists. split.
    { eapply w_access; [exact Hi|]. cbn. rewrite Hs, Hu, decide_True by (by rewrite Hc). reflexivity. }
    intros w2 Hw2. change (calls w2 !! i = Some Admitting \/ calls w2 !! i = Some Allowed).
    eapply (rtc_ind_r (fun x => calls x !! i = Some Admitting \/ calls x !! i = Some Allowed)); [| |exact Hw2].
    + left. cbn. apply list_lookup_insert_eq. by eapply lookup_lt_Some.
    + intros x y _ Hxy Hx. destruct Hxy as [|? ? ? cs' ? _|? ? ? cs' j c ? ? c' Hj Ha]; cbn [calls] in *; [done| |].
      * destruct Hx as [Hx|Hx]; [left|right]; by apply lookup_app_l_Some.
      * destruct (decide (i = j)) as [->|Hne]; [|by rewrite list_lookup_insert_ne].
        rewrite list_lookup_insert_eq by by eapply lookup_lt_Some.
        destruct Hx as [Hx|Hx]; rewrite Hj in Hx; injection Hx as ->; cbn in Ha; [|done].
        right. by accesses Ha.
Qed.

(** ** Concrete interleavings *)

Inductive move : Type := Tick (d : Z) | Begin (c : call) | Go (i : nat).
Definition make (m : move) (w : World) : option World :=
  match m with
  | Tick d => if decide (0 <= d) then Some (mkWorld (now w + d) (breaker w) (locked w) (calls w)) else None
  | Begin c =>
      if beginning c then Some (mkWorld (now w) (breaker w) (locked w) (calls w ++ [c])%list) else None
  | Go i =>
      c ← calls w !! i;
      '(b, k, c') ← access (now w) (breaker w) (locked w) c;
      Some (mkWorld (now w) b k (<[i := c']> (calls w)))
  end.
Fixpoint play (l : list move) (w : World) : option World :=
  match l with [] => Some w | m :: l => w ← make m w; play l w end.

Lemma make_step m w w' : make m w = Some w' -> step w w'.
Proof.
  destruct w as [t b k cs], m as [d|c|i]; cbn.
  - case_decide; [|done]. intros [= <-]. apply w_tick. lia.
  - destruct (beginning c) eqn:Hb; [|done]. intros [= <-]. by apply w_call.
  - destruct (cs !! i) as [c|] eqn:Hi; [|done]. cbn.
    destruct (access t b k c) as [[[b' k'] c']|] eqn:Ha; [|done]. intros [= <-]. by eapply w_access.
Qed.
Lemma play_steps l w w' : play l w = Some w' -> rtc step w w'.
Proof.
  revert w. induction l as [|m l IH]; intros w; cbn; [intros [= <-]; apply rtc_refl|].
  destruct (make m w) as [x|] eqn:Hm; [|done]. intros Hp.
  eapply rtc_l; [by eapply make_step|by apply IH].
Qed.

Definition demo_config : CircuitBreakerConfig := mkConfig 1 100 1.
Definition demo_start : World := mkWorld 0 (breaker_new "node" demo_config) false [].
Definition after (l : list move) : World := default demo_start (play l demo_start).
Lemma after_reached l : is_Some (play l demo_start) -> reached "node" demo_config (after l).
Proof. intros [w Hw]. exists 0. apply (play_steps l). unfold after. by rewrite Hw. Qed.

(** A failure at 5 opens the circuit; then a second one is counted and a request asks. *)
Definition demo_trip : list move :=
  [Tick 5; Begin AddFailure; Go 0; Go 0; Go 0; Go 0; Go 0].
Definition demo_open : list move := (demo_trip ++ [Begin AddFailure; Go 1; Begin Asking])%list.

(** The status and the counters are not one: a request that has read an old failure's
    time lets itself in after a new failure, and the breaker is [HalfOpen] although the
    circuit was opened at that very instant. *)
Theorem late_probe : exists w, reached "node" demo_config w /\
  state (breaker w) = HalfOpen /\ last_failure_time (breaker w) = Some (now w) /\ calls w !! 1%nat = Some Allowed.
Proof.
  exists (after (demo_trip ++ [Tick 100; Begin Asking; Go 1; Begin AddFailure; Go 2; Go 2; Go 2; Go 2; Go 2; Go 1])).
  split; [apply after_reached; vm_compute; eauto|]. vm_compute. done.
Qed.

(** And a closed breaker may for a while have counted its threshold of failures. *)
Theorem closed_at_threshold : exists w, reached "node" demo_config w /\
  state (breaker w) = Closed /\ failure_count (breaker w) = 1.
Proof.
  exists (after [Begin AddFailure; Go 0]). split; [apply after_reached; vm_compute; eauto|]. vm_compute. done.
Qed.

(** The failure has been counted, and the circuit is about to be opened. *)
Lemma trip_not_lost_witness :
  let w := after [Begin AddFailure; Go 0] in
  state (breaker w) = Closed /\ failure_count (breaker w) = 1 /\
  (failure_count (breaker w) < 1 \/ some_call (settling 1) (calls w)).
Proof.
  split; [reflexivity|]. split; [vm_compute; reflexivity|].
  apply (trip_not_lost "node" demo_config (after [Begin AddFailure; Go 0])); [reflexivity| |reflexivity].
  apply after_reached. vm_compute. eauto.
Defined.

Lemma demo_open_calls : calls (after demo_open) = [Finished; StampFailure 2; Asking].
Proof. vm_compute. reflexivity. Qed.
Lemma demo_open_config : open_duration demo_config = 100.
Proof. reflexivity. Qed.

(** At 104 the second failure has been recorded, a success too and the request has asked:
    the circuit is open, and the request (the third call) is not let in. *)
Definition demo_moves : list move :=
  [Go 1; Tick 99; Begin AddSuccess; Go 3; Go 3; Go 2; Go 3].
Definition demo_later : World := default demo_start (play demo_moves (after demo_open)).

Lemma open_fails_fast_witness :
  state (breaker demo_later) = Open /\ calls demo_later !! 2%nat <> Some Allowed /\ length (calls demo_later) = 4%nat.
Proof.
  assert (rtc step (after demo_open) demo_later) as Hw by (apply (play_steps demo_moves); vm_compute; reflexivity).
  destruct (open_fails_fast "node" demo_config (after demo_open)) as (u & Hu & _ & Hfast & _);
    [reflexivity|apply after_reached; vm_compute; eauto|reflexivity|].
  vm_compute in Hu. injection Hu as <-.
  destruct (fun H => Hfast H demo_later Hw) as [Hs Ha].
  - intros c. rewrite demo_open_calls. intros Hc. apply list_elem_of_In in Hc.
    by destruct Hc as [<-|[<-|[<-|[]]]].
  - rewrite demo_open_config. vm_compute. reflexivity.
  - split_and!; [exact Hs| |vm_compute; reflexivity]. apply Ha. unfold yet_to_read. by rewrite demo_open_calls.
Defined.
