(* ===== verification/RateLimiter.v ===== *)
(** * crates/traffic-control/src/rate_limiter.rs: egress throttling

    The per-node [TokenBucket] (an atomic counter updated by compare-and-swap
    loops, refilled under a lock) and its registry; the two-layer
    [ApiRateLimiter] built from [SimpleTokenBucket]s on [f64] tokens.
    Operations that read the clock take the instants read, in order. *)
From Stdlib Require Import SpecFloat.
From S2P Require Import Prelude F64.

Local Open Scope string_scope.

(** ** Token buckets *)

Record BucketConfig := mkBucketConfig {
  bc_max_tokens : Z;
  refill_rate_per_sec : f64;
  cost_per_request : Z }.
Definition BucketConfig_default : BucketConfig := mkBucketConfig 60 f64_one 1.
Definition GEMINI : BucketConfig := mkBucketConfig 60 f64_one 1.
Definition DEEPSEEK : BucketConfig := mkBucketConfig 60 f64_one 1.

Record TokenBucket := mkTokenBucket {
  tb_config : BucketConfig;
  tokens : Z;
  max_tokens : Z;
  last_refill : Z;
  is_limited : bool;
  tb_node_id : string }.

Inductive RateLimitError : Type :=
  | RateLimited (node : string) (retry_after_secs : Z)
  | RateLimit_Internal (detail : string).

Definition bucket_new (now : Z) (node_id : string) (c : BucketConfig) : TokenBucket :=
  mkTokenBucket c (bc_max_tokens c) (bc_max_tokens c) now false node_id.

Definition set_tokens (n : Z) (b : TokenBucket) : TokenBucket :=
  mkTokenBucket (tb_config b) n (max_tokens b) (last_refill b) (is_limited b) (tb_node_id b).
Definition set_limited (l : bool) (b : TokenBucket) : TokenBucket :=
  mkTokenBucket (tb_config b) (tokens b) (max_tokens b) (last_refill b) l (tb_node_id b).
Definition set_last_refill (t : Z) (b : TokenBucket) : TokenBucket :=
  mkTokenBucket (tb_config b) (tokens b) (max_tokens b) t (is_limited b) (tb_node_id b).

(** The tokens that [elapsed] nanoseconds are worth. *)
Definition tokens_to_add (c : BucketConfig) (elapsed : Z) : Z :=
  f64_as_u64 (f64_floor (f64_mul (as_secs_f64 elapsed) (refill_rate_per_sec c))).

(** [t1] is read by [elapsed], [t2] by the [Instant::now] that follows. *)
Definition refill_tokens (t1 t2 : Z) (b : TokenBucket) : outcome TokenBucket :=
  let add := tokens_to_add (tb_config b) (elapsed_since (last_refill b) t1) in
  let b := set_last_refill t2 b in
  if decide (0 < add) then
    sum ← add_u U64_MAX (tokens b) add; Ret (set_tokens (Z.min sum (max_tokens b)) b)
  else Ret b.

Definition estimate_retry_after (b : TokenBucket) : Z :=
  let current := tokens b in
  if decide (cost_per_request (tb_config b) <= current) then 0
  else
    let deficit := cost_per_request (tb_config b) - current in
    f64_as_u64 (f64_ceil (f64_div (f64_of_Z deficit) (refill_rate_per_sec (tb_config b)))).

(** Run by one thread: the exchange succeeds. *)
Definition bucket_try_acquire (t1 t2 : Z) (b : TokenBucket)
    : outcome (TokenBucket * result unit RateLimitError) :=
  b ← refill_tokens t1 t2 b;
  let current := tokens b in
  Ret (if decide (current < cost_per_request (tb_config b)) then
         let b := set_limited true b in
         (b, Err (RateLimited (tb_node_id b) (estimate_retry_after b)))
       else
         (set_limited false (set_tokens (current - cost_per_request (tb_config b)) b), Ok tt)).

Definition available_tokens (b : TokenBucket) : Z := tokens b.
Definition bucket_reset (now : Z) (b : TokenBucket) : TokenBucket :=
  set_last_refill now (set_limited false (set_tokens (max_tokens b) b)).

Record BucketMetrics := mkBucketMetrics {
  bm_node_id : string; bm_available_tokens : Z; bm_max_tokens : Z; bm_is_limited : bool }.
Definition bucket_metrics (b : TokenBucket) : BucketMetrics :=
  mkBucketMetrics (tb_node_id b) (available_tokens b) (max_tokens b) (is_limited b).

(** ** The registry *)

Definition RateLimiterRegistry : Type := gmap string TokenBucket.
Definition registry_new : RateLimiterRegistry := ∅.
Definition register (now : Z) (node_id : string) (c : BucketConfig) (r : RateLimiterRegistry)
    : RateLimiterRegistry := <[node_id := bucket_new now node_id c]> r.

Definition registry_acquire (t1 t2 : Z) (node_id : string) (r : RateLimiterRegistry)
    : outcome (RateLimiterRegistry * result unit RateLimitError) :=
  match r !! node_id with
  | Some bucket =>
      '(bucket, res) ← bucket_try_acquire t1 t2 bucket; Ret (<[node_id := bucket]> r, res)
  | None => Ret (r, Ok tt)
  end.

(** In no particular order. *)
Definition all_metrics (r : RateLimiterRegistry) : list BucketMetrics :=
  List.map (fun kv => bucket_metrics kv.2) (map_to_list r).

(** ** Concurrent callers of one bucket

    Every caller runs [try_acquire] over the shared atomics.  A step is one
    atomic access: a load, a (possibly spuriously failing) exchange, or a store
    of the flag; the refill happens under the lock of [last_refill]. *)
Inductive Caller : Type :=
  | AtRefill                          (* before taking the lock *)
  | AtRefillLoad (add : Z)            (* in the refill loop, holding the lock *)
  | AtRefillSwap (add current : Z)
  | AtLoad                            (* in the acquire loop *)
  | AtSwap (current : Z)
  | AtDeny | AtGrant                  (* before the store of [is_limited] *)
  | Denied | Granted.                 (* returned *)

(** [minted] is the number of tokens that refills have put into the bucket. *)
Record BucketSystem := mkSystem {
  bucket : TokenBucket;
  lock_held : bool;
  callers : list Caller;
  minted : Z }.

Inductive caller_step : TokenBucket * bool * Caller -> TokenBucket * bool * Caller -> Z -> Prop :=
  | st_refill b t1 t2 :
      let add := tokens_to_add (tb_config b) (elapsed_since (last_refill b) t1) in
      caller_step (b, false, AtRefill)
        (set_last_refill t2 b, bool_decide (0 < add),
         if decide (0 < add) then AtRefillLoad add else AtLoad) 0
  | st_refill_load b l add :
      tokens b + add <= U64_MAX ->
      caller_step (b, l, AtRefillLoad add) (b, l, AtRefillSwap add (tokens b)) 0
  | st_refill_swap b l add current :
      tokens b = current ->
      let new_val := Z.min (current + add) (max_tokens b) in
      caller_step (b, l, AtRefillSwap add current) (set_tokens new_val b, false, AtLoad)
        (new_val - current)
  | st_refill_retry b l add current :
      caller_step (b, l, AtRefillSwap add current) (b, l, AtRefillLoad add) 0
  | st_load_deny b l :
      tokens b < cost_per_request (tb_config b) ->
      caller_step (b, l, AtLoad) (b, l, AtDeny) 0
  | st_load b l :
      cost_per_request (tb_config b) <= tokens b ->
      caller_step (b, l, AtLoad) (b, l, AtSwap (tokens b)) 0
  | st_swap b l current :
      tokens b = current ->
      caller_step (b, l, AtSwap current)
        (set_tokens (current - cost_per_request (tb_config b)) b, l, AtGrant) 0
  | st_swap_retry b l current : caller_step (b, l, AtSwap current) (b, l, AtLoad) 0
  | st_deny b l : caller_step (b, l, AtDeny) (set_limited true b, l, Denied) 0
  | st_grant b l : caller_step (b, l, AtGrant) (set_limited false b, l, Granted) 0.

Inductive bucket_step : BucketSystem -> BucketSystem -> Prop :=
  | bucket_step_at s i c b' l' c' n :
      callers s !! i = Some c ->
      caller_step (bucket s, lock_held s, c) (b', l', c') n ->
      bucket_step s (mkSystem b' l' (<[i := c']> (callers s)) (minted s + n)).

Definition has_paid (c : Caller) : bool :=
  match c with AtGrant | Granted => true | _ => false end.
Definition granted (s : BucketSystem) : Z :=
  Z.of_nat (length (List.filter has_paid (callers s))).

(** ** The two-layer limiter *)

Inductive NetworkError : Type :=
  | TenantQuotaExceeded (tenant_id : string) (limit : Z) (refill_rate : f64)
  | GlobalRateLimitExceeded (capacity available : Z).
(** [f64_display] is the standard library's text of a number. *)
Definition NetworkError_display (f64_display : f64 -> string) (e : NetworkError) : string :=
  match e with
  | TenantQuotaExceeded tenant_id limit refill_rate =>
      "Tenant '" ++ tenant_id ++ "' has exceeded its per-tenant API quota (limit=" ++ pretty limit ++
      ", refill_rate=" ++ f64_display refill_rate ++ "/s)"
  | GlobalRateLimitExceeded capacity available =>
      "Global gateway rate limit exceeded (capacity=" ++ pretty capacity ++ ", available=" ++
      pretty available ++ ")"
  end%string.

Record SimpleTokenBucket := mkSimple {
  capacity : Z;
  s_tokens : f64;
  refill_rate : f64;
  s_last_refill : Z }.

Definition simple_new (now capacity : Z) (refill_rate : f64) : SimpleTokenBucket :=
  mkSimple capacity (f64_of_Z capacity) refill_rate now.

Definition refill (t1 t2 : Z) (b : SimpleTokenBucket) : SimpleTokenBucket :=
  let elapsed := as_secs_f64 (elapsed_since (s_last_refill b) t1) in
  let addition := f64_mul elapsed (refill_rate b) in
  mkSimple (capacity b)
    (f64_min (f64_add (s_tokens b) addition) (f64_of_Z (capacity b))) (refill_rate b) t2.

Definition simple_try_acquire (t1 t2 : Z) (b : SimpleTokenBucket) : SimpleTokenBucket * bool :=
  let b := refill t1 t2 b in
  if f64_ge (s_tokens b) f64_one then
    (mkSimple (capacity b) (f64_sub (s_tokens b) f64_one) (refill_rate b) (s_last_refill b), true)
  else (b, false).

Definition available (b : SimpleTokenBucket) : Z := f64_as_u32 (f64_floor (s_tokens b)).

Record TenantBucket := mkTenant {
  t_bucket : SimpleTokenBucket;
  last_accessed : Z }.

Record ApiRateLimiter := mkLimiter {
  global_bucket : SimpleTokenBucket;
  tenant_buckets : gmap string TenantBucket;
  tenant_capacity : Z;
  tenant_refill_rate : f64;
  max_tenants : Z }.

Definition limiter_new (now global_capacity : Z) (global_refill_rate : f64)
    (tenant_capacity : Z) (tenant_refill_rate : f64) (max_tenants : Z) : ApiRateLimiter :=
  mkLimiter (simple_new now global_capacity global_refill_rate) ∅
    tenant_capacity tenant_refill_rate max_tenants.

Definition set_tenants (m : gmap string TenantBucket) (l : ApiRateLimiter) : ApiRateLimiter :=
  mkLimiter (global_bucket l) m (tenant_capacity l) (tenant_refill_rate l) (max_tenants l).
Definition set_global (g : SimpleTokenBucket) (l : ApiRateLimiter) : ApiRateLimiter :=
  mkLimiter g (tenant_buckets l) (tenant_capacity l) (tenant_refill_rate l) (max_tenants l).

(** [clk i] is the [i]-th instant the call reads: 0 and 1 for a new tenant's
    bucket, 2 for the access, 3 and 4 in the tenant's refill, 5 and 6 in the
    global one. *)
Definition limiter_acquire (clk : nat -> Z) (tenant_id : string) (l : ApiRateLimiter)
    : ApiRateLimiter * result unit NetworkError :=
  let known := bool_decide (is_Some (tenant_buckets l !! tenant_id)) in
  if negb known && (max_tenants l <=? Z.of_nat (size (tenant_buckets l)))%Z then
    (l, Err (GlobalRateLimitExceeded (tenant_capacity l) 0))
  else
    let entry :=
      match tenant_buckets l !! tenant_id with
      | Some entry => entry
      | None => mkTenant (simple_new (clk 0%nat) (tenant_capacity l) (tenant_refill_rate l)) (clk 1%nat)
      end in
    let '(tb, tenant_ok) := simple_try_acquire (clk 3%nat) (clk 4%nat) (t_bucket entry) in
    let l := set_tenants (<[tenant_id := mkTenant tb (clk 2%nat)]> (tenant_buckets l)) l in
    if negb tenant_ok then
      (l, Err (TenantQuotaExceeded tenant_id (tenant_capacity l) (tenant_refill_rate l)))
    else
      let '(g, global_ok) := simple_try_acquire (clk 5%nat) (clk 6%nat) (global_bucket l) in
      let l := set_global g l in
      if negb global_ok then
        (l, Err (GlobalRateLimitExceeded (tenant_capacity l) (available g)))
      else (l, Ok tt).

(** [now tenant] is the instant read for that entry. *)
Definition evict_stale_tenants (now : string -> Z) (max_age : Z) (l : ApiRateLimiter)
    : ApiRateLimiter * Z :=
  let kept := filter (fun kv : string * TenantBucket =>
    elapsed_since (last_accessed kv.2) (now kv.1) < max_age) (tenant_buckets l) in
  (set_tenants kept l, Z.of_nat (size (tenant_buckets l)) - Z.of_nat (size kept)).

(** The process-wide limiter, a write-once cell. *)
Definition init_circuit_breaker (now : Z) (cell : option ApiRateLimiter) : option ApiRateLimiter :=
  match cell with
  | Some l => Some l
  | None => Some (limiter_new now 10000 (f64_of_Z 5000) 100 (f64_of_Z 50) 10000)
  end.
Definition get_circuit_breaker (cell : option ApiRateLimiter) : option ApiRateLimiter := cell.

Definition acquire_api_token (clk : nat -> Z) (tenant_id : string) (cell : option ApiRateLimiter)
    : option ApiRateLimiter * result unit NetworkError :=
  match cell with
  | None => (None, Err (GlobalRateLimitExceeded 0 0))
  | Some l => let '(l, r) := limiter_acquire clk tenant_id l in (Some l, r)
  end.

(** ** Conservation of tokens under concurrency *)

Lemma f64_cast_bounds lo hi x : lo <= 0 -> 0 <= hi -> lo <= f64_cast lo hi x <= hi.
Proof. intros. unfold f64_cast. destruct x as [|[]| |]; lia. Qed.

Record system_inv (c : BucketConfig) (cap : Z) (s : BucketSystem) : Prop := {
  si_config : tb_config (bucket s) = c;
  si_max : max_tokens (bucket s) = cap;
  si_tokens : 0 <= tokens (bucket s) <= cap;
  si_callers : Forall (fun k => match k with
    | AtRefillLoad add | AtRefillSwap add _ => 0 < add
    | AtSwap current => cost_per_request c <= current
    | _ => True end) (callers s);
  si_sum : tokens (bucket s) + cost_per_request c * granted s = cap + minted s;
  si_minted : 0 <= minted s }.

Lemma bucket_step_inv c cap s s' :
  0 <= cost_per_request c -> system_inv c cap s -> bucket_step s s' -> system_inv c cap s'.
Proof.
  intros Hc [H1 H2 H3 H4 H5 H6] Hs.
  destruct Hs as [s i k b' l' k' n Hi Hs].
  pose proof (Forall_lookup_1 _ _ _ _ H4 Hi) as Hk. simpl in Hk.
  assert (Hg : forall k', granted (mkSystem b' l' (<[i := k']> (callers s)) (minted s + n)) =
    granted s - Z.b2z (has_paid k) + Z.b2z (has_paid k')).
  { intros k2. unfold granted. simpl.
    pose proof (count_insert has_paid (callers s) i k k2 Hi).
    destruct (has_paid k), (has_paid k2); simpl in *; lia. }
  inversion Hs; subst; simpl in *;
    (constructor; [done|done|simpl; lia|
       apply Forall_insert; [done|try done; try (case_decide; done)]|
       rewrite Hg; simpl; try case_decide; simpl; lia|simpl; lia]).
Qed.

(** C24: callers of one bucket cannot overspend it, however their atomic
    accesses interleave and however often an exchange fails: from a full bucket
    the tokens stay between 0 and the capacity, and the tokens left plus
    the price of all granted requests are the capacity plus what refills
    have put in. *)
Theorem token_bucket_conservation now id c n s :
  0 <= cost_per_request c -> 0 <= bc_max_tokens c ->
  rtc bucket_step (mkSystem (bucket_new now id c) false (replicate n AtRefill) 0) s ->
  0 <= tokens (bucket s) <= bc_max_tokens c /\
  0 <= minted s /\
  tokens (bucket s) + cost_per_request c * granted s = bc_max_tokens c + minted s.
Proof.
  intros Hc Hm Hr.
  assert (Hi : system_inv c (bc_max_tokens c) s); [|by destruct Hi].
  revert Hr. apply (rtc_ind_r _ (mkSystem (bucket_new now id c) false (replicate n AtRefill) 0)).
  - assert (Hg : List.filter has_paid (replicate n AtRefill) = []) by by induction n.
    constructor; simpl; [done|done|lia|by apply Forall_replicate| |lia].
    unfold granted. simpl. rewrite Hg. simpl. lia.
  - intros. eauto using bucket_step_inv.
Qed.

(** ** Sequences of requests to one bucket *)

Fixpoint acquire_all (times : list (Z * Z)) (b : TokenBucket)
    : outcome (TokenBucket * list (result unit RateLimitError)) :=
  match times with
  | [] => Ret (b, [])
  | (t1, t2) :: times =>
      '(b, r) ← bucket_try_acquire t1 t2 b;
      '(b, rs) ← acquire_all times b; Ret (b, r :: rs)
  end.

(** Each request comes so soon after the previous one that the time in between
    is not worth a whole token. *)
Fixpoint frequent (c : BucketConfig) (last : Z) (times : list (Z * Z)) : Prop :=
  match times with
  | [] => True
  | (t1, t2) :: times => tokens_to_add c (elapsed_since last t1) = 0 /\ frequent c t2 times
  end.

(** Starvation by frequent polling: a refill rounds the elapsed time down
    to whole tokens and restarts the clock, losing the remainder; an empty bucket
    that is asked again before each new token is complete never refills,
    and refuses every request however long this goes on. *)
Theorem fast_polling_starves times b :
  tokens b < cost_per_request (tb_config b) ->
  frequent (tb_config b) (last_refill b) times ->
  exists b' rs, acquire_all times b = Ret (b', rs) /\ tokens b' = tokens b /\
    Forall (fun r => is_ok r = false) rs /\ length rs = length times.
Proof.
  revert b. induction times as [|[t1 t2] times IH]; intros b Ht Hf; simpl in *.
  - exists b, []. split_and!; done.
  - destruct Hf as [H0 Hf].
    set (b1 := set_limited true (set_last_refill t2 b)).
    assert (Hb : bucket_try_acquire t1 t2 b =
      Ret (b1, Err (RateLimited (tb_node_id b1) (estimate_retry_after b1)))).
    { unfold bucket_try_acquire, refill_tokens. rewrite H0, decide_False by lia. simpl.
      by rewrite decide_True. }
    rewrite Hb. simpl. destruct (IH b1) as (b' & rs & -> & ? & ? & ?); [done|done|].
    simpl. eexists _, _. split_and!; [done|done|by constructor|simpl; by f_equal].
Qed.

Lemma tokens_to_add_whole c n : refill_rate_per_sec c = f64_one -> 0 < n < 2 ^ 53 ->
  tokens_to_add c (n * 10 ^ 9) = n.
Proof.
  intros Hr Hn. unfold tokens_to_add.
  rewrite Hr, as_secs_f64_whole, f64_mul_one, f64_floor_of_Z by lia.
  apply f64_cast_of_Z; ulia.
Qed.

(** The retry hint at the presets' rate (one token per second) is exact:
    a refused request is told the number of missing tokens, and a request that
    waits that many seconds is granted, whatever is left of the bucket before
    then, and leaves it empty. *)
Theorem retry_hint_sufficient b t2 :
  refill_rate_per_sec (tb_config b) = f64_one ->
  0 <= tokens b < cost_per_request (tb_config b) ->
  cost_per_request (tb_config b) <= max_tokens b -> cost_per_request (tb_config b) < 2 ^ 53 ->
  let wait := estimate_retry_after b in
  wait = cost_per_request (tb_config b) - tokens b /\
  exists b', bucket_try_acquire (last_refill b + wait * 10 ^ 9) t2 b = Ret (b', Ok tt) /\
    tokens b' = 0 /\ is_limited b' = false.
Proof.
  intros Hr Ht Hm Hc wait.
  assert (Hw : wait = cost_per_request (tb_config b) - tokens b).
  { unfold wait, estimate_retry_after. rewrite decide_False by lia.
    rewrite Hr, f64_div_one, f64_ceil_of_Z by lia. apply f64_cast_of_Z; ulia. }
  split; [done|]. clearbody wait. unfold bucket_try_acquire, refill_tokens.
  replace (elapsed_since (last_refill b) (last_refill b + wait * 10 ^ 9)) with (wait * 10 ^ 9)
    by (unfold elapsed_since; lia).
  rewrite tokens_to_add_whole, decide_True by (done || lia).
  unfold add_u. simpl. rewrite decide_True by ulia. simpl. rewrite decide_False by lia.
  eexists. split; [done|]. simpl. split; [lia|done].
Qed.

(** ** The two-layer limiter *)

(** One acquisition through both layers: it is granted exactly when the
    tenant's bucket and the global bucket both yield a token; a tenant over its
    quota leaves the global bucket alone, but a request that the global
    bucket refuses has already spent the tenant's token; no other tenant's
    bucket is touched, and the table never outgrows [max_tenants]. *)
Theorem acquire_api_token_layers clk tenant l :
  Z.of_nat (size (tenant_buckets l)) <= max_tenants l ->
  let '(l', r) := limiter_acquire clk tenant l in
  Z.of_nat (size (tenant_buckets l')) <= max_tenants l' /\
  (forall other, other <> tenant -> tenant_buckets l' !! other = tenant_buckets l !! other) /\
  match tenant_buckets l !! tenant with
  | None => max_tenants l <= Z.of_nat (size (tenant_buckets l)) ->
            l' = l /\ r = Err (GlobalRateLimitExceeded (tenant_capacity l) 0)
  | Some e =>
      let '(tb, tenant_ok) := simple_try_acquire (clk 3%nat) (clk 4%nat) (t_bucket e) in
      let '(g, global_ok) := simple_try_acquire (clk 5%nat) (clk 6%nat) (global_bucket l) in
      tenant_buckets l' !! tenant = Some (mkTenant tb (clk 2%nat)) /\
      global_bucket l' = (if tenant_ok then g else global_bucket l) /\
      is_ok r = tenant_ok && global_ok
  end.
Proof.
  intros Hsz. unfold limiter_acquire.
  destruct (tenant_buckets l !! tenant) as [e|] eqn:He; simpl.
  - destruct (simple_try_acquire _ _ (t_bucket e)) as [tb [|]]; simpl;
      destruct (simple_try_acquire _ _ (global_bucket l)) as [g [|]]; simpl;
      (split_and!; [rewrite map_size_insert_Some by done; lia
                   |intros; by rewrite lookup_insert_ne
                   |by rewrite lookup_insert_eq|done|done]).
  - destruct (Z.leb_spec (max_tenants l) (Z.of_nat (size (tenant_buckets l)))); simpl; [done|].
    destruct (simple_try_acquire _ _ (simple_new _ _ _)) as [tb [|]]; simpl;
      [destruct (simple_try_acquire _ _ (global_bucket l)) as [g [|]]|]; simpl;
      (split_and!; [rewrite map_size_insert_None by done; lia
                   |intros; by rewrite lookup_insert_ne|intros; lia]).
Qed.

(** *** Exact quotas without refill *)

(** The instants of a clock that started at 0 and runs for less than 2^64 s. *)
Definition instant (t : Z) : Prop := 0 <= t <= U64_MAX * 10 ^ 9.

Definition holds (k : Z) (b : SimpleTokenBucket) : Prop :=
  s_tokens b = f64_of_Z k /\ 0 <= k <= capacity b /\ capacity b <= U32_MAX /\
  refill_rate b = f64_zero /\ instant (s_last_refill b).

Lemma refill_zero k t1 t2 b : holds k b -> instant t1 -> instant t2 ->
  holds k (refill t1 t2 b) /\ capacity (refill t1 t2 b) = capacity b.
Proof.
  intros (Hk & Hc & Hcap & Hr & Hl) H1 H2. split; [|done]. unfold holds. simpl.
  split_and!; try done; try lia. rewrite Hr, Hk.
  destruct (f64_mul_zero (as_secs_f64 (elapsed_since (s_last_refill b) t1))) as [s ->].
  { eapply f64_below_finite, as_secs_f64_below. unfold elapsed_since, instant in *. lia. }
  assert (f64_add (f64_of_Z k) (SpecFloat.S754_zero s) = f64_of_Z k) as ->.
  { destruct (decide (k = 0)) as [->|]; [by destruct s|]. apply f64_add_zero_r. ulia. }
  unfold f64_min. rewrite f64_of_Z_not_nan, f64_of_Z_lt by ulia.
  by destruct (Z.ltb_spec (capacity b) k); [lia|].
Qed.

Lemma simple_try_acquire_zero k t1 t2 b : holds k b -> instant t1 -> instant t2 ->
  let '(b', ok) := simple_try_acquire t1 t2 b in
  ok = bool_decide (0 < k) /\ holds (if bool_decide (0 < k) then k - 1 else k) b'.
Proof.
  intros Hk H1 H2. destruct (refill_zero k t1 t2 b Hk H1 H2) as [Hh Hc].
  unfold simple_try_acquire. set (b1 := refill t1 t2 b) in *.
  destruct Hh as (Ht & ? & ? & ? & ?). rewrite Ht. unfold f64_ge.
  change (SFleb f64_one (f64_of_Z k)) with (f64_le (f64_of_Z 1) (f64_of_Z k)).
  rewrite f64_of_Z_le by ulia. destruct (Z.leb_spec 1 k) as [Hle|Hgt].
  - rewrite bool_decide_true by lia. split; [done|]. unfold holds. simpl.
    split_and!; try done; try lia. destruct (decide (k = 1)) as [->|]; [done|].
    apply (f64_of_Z_sub k 1); ulia.
  - rewrite bool_decide_false by lia. split; [done|]. unfold holds. split_and!; done || lia.
Qed.

Fixpoint limiter_requests (clks : list (nat -> Z)) (tenant : string) (l : ApiRateLimiter)
    : ApiRateLimiter * list bool :=
  match clks with
  | [] => (l, [])
  | clk :: clks =>
      let '(l, r) := limiter_acquire clk tenant l in
      let '(l, rs) := limiter_requests clks tenant l in (l, is_ok r :: rs)
  end.

(** The tenant may still take [k] tokens, and the gateway [g]. *)
Definition quota (tenant : string) (k g : Z) (l : ApiRateLimiter) : Prop :=
  holds g (global_bucket l) /\
  match tenant_buckets l !! tenant with
  | Some e => holds k (t_bucket e)
  | None => k = tenant_capacity l /\ 0 <= k <= U32_MAX /\ tenant_refill_rate l = f64_zero /\
            Z.of_nat (size (tenant_buckets l)) < max_tenants l
  end.

Lemma limiter_acquire_zero clk tenant k g l :
  quota tenant k g l -> (forall i, instant (clk i)) ->
  let '(l', r) := limiter_acquire clk tenant l in
  is_ok r = bool_decide (0 < k) && bool_decide (0 < g) /\
  quota tenant (if bool_decide (0 < k) then k - 1 else k)
    (if bool_decide (0 < k) && bool_decide (0 < g) then g - 1 else g) l'.
Proof.
  intros [Hg Ht] Hclk. unfold limiter_acquire.
  set (e := match tenant_buckets l !! tenant with Some e => e | None => _ end).
  assert (He : holds k (t_bucket e) /\ negb (bool_decide (is_Some (tenant_buckets l !! tenant))) &&
    (max_tenants l <=? Z.of_nat (size (tenant_buckets l)))%Z = false).
  { unfold e. destruct (tenant_buckets l !! tenant) as [e0|]; [done|].
    destruct Ht as (-> & Hk & Hr & Hsz). split; [|simpl; lia].
    unfold holds. simpl. split_and!; try done; try lia; apply Hclk. }
  destruct He as [He ->]. clearbody e.
  pose proof (simple_try_acquire_zero k _ _ _ He (Hclk 3%nat) (Hclk 4%nat)) as H1.
  destruct (simple_try_acquire _ _ (t_bucket e)) as [tb ok], H1 as [-> Htb].
  pose proof (simple_try_acquire_zero g _ _ _ Hg (Hclk 5%nat) (Hclk 6%nat)) as H2.
  simpl global_bucket.
  destruct (simple_try_acquire _ _ (global_bucket l)) as [gb ok], H2 as [-> Hgb].
  destruct (bool_decide (0 < k)), (bool_decide (0 < g)); simpl;
    (split; [done|]; unfold quota; simpl; by rewrite lookup_insert_eq).
Qed.

(** Quotas are exact: without refill, a tenant's requests to a new limiter
    are granted until [tenant_capacity] or [global_capacity] of them have been,
    and every later one is refused, whenever they come. *)
Theorem tenant_quota_exact t0 gcap tcap maxt tenant clks :
  instant t0 -> Forall (fun clk => forall i, instant (clk i)) clks ->
  0 <= gcap <= U32_MAX -> 0 <= tcap <= U32_MAX -> 0 < maxt ->
  let m := Nat.min (length clks) (Z.to_nat (Z.min tcap gcap)) in
  (limiter_requests clks tenant (limiter_new t0 gcap f64_zero tcap f64_zero maxt)).2 =
    (replicate m true ++ replicate (length clks - m) false)%list.
Proof.
  intros Ht0 Hclks Hg Ht Hm.
  assert (Hq : quota tenant tcap gcap (limiter_new t0 gcap f64_zero tcap f64_zero maxt)).
  { split; [unfold holds; simpl; split_and!; try done; try lia; apply Ht0|].
    simpl. rewrite lookup_empty. split_and!; try done; lia. }
  revert Hq. generalize (limiter_new t0 gcap f64_zero tcap f64_zero maxt).
  clear Ht0. cbv zeta. revert tcap gcap Hg Ht.
  induction Hclks as [|clk clks Hclk _ IH]; intros k g Hg Hk l Hq; [done|]. simpl.
  pose proof (limiter_acquire_zero clk tenant k g l Hq Hclk) as Ha.
  destruct (limiter_acquire clk tenant l) as [l' r], Ha as [-> Hq'].
  assert (Hnext : (limiter_requests clks tenant l').2 = (replicate (Nat.min (length clks) (Z.to_nat
      (Z.min (if bool_decide (0 < k) then k - 1 else k)
        (if bool_decide (0 < k) && bool_decide (0 < g) then g - 1 else g)))) true ++
    replicate (length clks - Nat.min (length clks) (Z.to_nat
      (Z.min (if bool_decide (0 < k) then k - 1 else k)
        (if bool_decide (0 < k) && bool_decide (0 < g) then g - 1 else g)))) false)%list).
  { apply IH; [..|done]; repeat case_bool_decide; simpl; lia. }
  destruct (limiter_requests clks tenant l') as [l2 rs]. simpl in *. subst rs.
  destruct (decide (0 < k /\ 0 < g)) as [[Hk0 Hg0]|Hno].
  - rewrite !bool_decide_true by lia. simpl.
    replace (Z.to_nat (Z.min k g)) with (S (Z.to_nat (Z.min (k - 1) (g - 1)))) by lia.
    simpl Nat.min. done.
  - replace (bool_decide (0 < k) && bool_decide (0 < g)) with false
      by (repeat case_bool_decide; simpl; done || lia).
    replace (Z.to_nat (Z.min k g)) with 0%nat by lia.
    replace (Z.to_nat _) with 0%nat by (case_bool_decide; lia).
    rewrite !Nat.min_0_r, Nat.sub_0_r. done.
Qed.

(** ** Witnesses *)

(** One caller of a bucket of five tokens, up to its successful exchange. *)
Definition demo_config : BucketConfig := mkBucketConfig 5 f64_one 2.
Definition demo_system (t : Z) (k : Caller) : BucketSystem :=
  mkSystem (mkTokenBucket demo_config t 5 0 false "n") false [k] 0.

Lemma demo_run : rtc bucket_step (demo_system 5 AtRefill) (demo_system 3 AtGrant).
Proof.
  pose proof (bucket_step_at (demo_system 5 AtRefill) 0 _ _ _ _ _ eq_refl (st_refill _ 0 0)) as H1.
  pose proof (bucket_step_at (demo_system 5 AtLoad) 0 _ _ _ _ _ eq_refl
    (st_load (bucket (demo_system 5 AtLoad)) false ltac:(simpl; lia))) as H2.
  pose proof (bucket_step_at (demo_system 5 (AtSwap 5)) 0 _ _ _ _ _ eq_refl
    (st_swap (bucket (demo_system 5 AtLoad)) false 5 eq_refl)) as H3.
  eapply rtc_l; [exact H1|]. eapply rtc_l; [exact H2|]. eapply rtc_l; [exact H3|].
  apply rtc_refl.
Qed.

Lemma token_bucket_conservation_witness :
  let s := demo_system 3 AtGrant in
  0 <= tokens (bucket s) <= 5 /\ 0 <= minted s /\
  tokens (bucket s) + 2 * granted s = 5 + minted s.
Proof.
  apply (token_bucket_conservation 0 "n" demo_config 1); [simpl; lia..|]. apply demo_run.
Defined.

(** One token per second, polled every 0.9 s for 4.5 s. *)
Lemma fast_polling_starves_witness :
  let b := mkTokenBucket GEMINI 0 60 0 false "gemini" in
  let times := [(900000000, 900000000); (1800000000, 1800000000); (2700000000, 2700000000);
                (3600000000, 3600000000); (4500000000, 4500000000)] in
  exists b' rs, acquire_all times b = Ret (b', rs) /\ tokens b' = 0 /\
    Forall (fun r => is_ok r = false) rs /\ length rs = 5%nat.
Proof.
  intros b times. apply (fast_polling_starves times b); [simpl; lia|].
  by vm_compute.
Defined.

Lemma retry_hint_sufficient_witness :
  let b := mkTokenBucket (mkBucketConfig 10 f64_one 4) 1 10 7 true "n" in
  let wait := estimate_retry_after b in
  wait = 3 /\
  exists b', bucket_try_acquire (7 + wait * 10 ^ 9) 3000000007 b = Ret (b', Ok tt) /\
    tokens b' = 0 /\ is_limited b' = false.
Proof.
  intros b. apply (retry_hint_sufficient b 3000000007); simpl; [reflexivity|lia..].
Defined.

Lemma acquire_api_token_layers_witness :
  let l := limiter_new 0 2 f64_zero 1 f64_zero 1 in
  let '(l', r) := limiter_acquire (fun _ => 0) "t" l in
  Z.of_nat (size (tenant_buckets l')) <= max_tenants l' /\
  (forall other, other <> "t" -> tenant_buckets l' !! other = tenant_buckets l !! other) /\
  match tenant_buckets l !! "t" with
  | None => 1 <= Z.of_nat (size (tenant_buckets l)) ->
            l' = l /\ r = Err (GlobalRateLimitExceeded 1 0)
  | Some e => False
  end.
Proof.
  apply (acquire_api_token_layers (fun _ => 0) "t" (limiter_new 0 2 f64_zero 1 f64_zero 1)).
  by vm_compute.
Defined.

Lemma tenant_quota_exact_witness :
  (limiter_requests (replicate 5 (fun _ => 0)) "tenant-a"
     (limiter_new 0 100000 f64_zero 3 f64_zero 100)).2 = [true; true; true; false; false].
Proof.
  apply (tenant_quota_exact 0 100000 3 100 "tenant-a" (replicate 5 (fun _ => 0)));
    [unfold instant; ulia| |ulia..].
  apply Forall_replicate. intros _. unfold instant. ulia.
Defined.
