(* ===== verification/FinOps.v ===== *)
(** * crates/traffic-control/src/rate_limiter.rs: token budgets in Redis

    The manager's operations over a Redis database.  Redis is not part of the
    repository: the class [Redis] states the documented behaviour of the
    commands the scripts call, and [RedisMap] is a concrete database.  The
    scripts run atomically; the reply of an operation may be lost. *)
From Stdlib Require Import Sorting.Sorted.
From S2P Require Import Prelude RustStr.

Local Open Scope string_scope.

(** [balance d k] is the value of a key that holds an integer and has no expiry;
    [live t d k] is whether the key exists at instant [t].  INCRBY and GETSET work
    on integer keys; INCRBY fails when the sum is not a signed 64-bit integer. *)
Class Redis := {
  db : Type;
  balance : db -> string -> option Z;
  live : Z -> db -> string -> bool;
  incrby : Z -> string -> Z -> db -> option (db * Z);
  set_ex : Z -> string -> Z -> db -> db;
  getset : Z -> string -> Z -> db -> db * option Z;
  incrby_ok : forall t k n d v,
    balance d k = Some v -> I64_MIN <= v + n <= I64_MAX ->
    exists d', incrby t k n d = Some (d', v + n) /\ balance d' k = Some (v + n);
  incrby_frame : forall t k n d d' x, incrby t k n d = Some (d', x) -> forall k', k' <> k ->
    balance d' k' = balance d k' /\ forall t', live t' d' k' = live t' d k';
  incrby_overflow : forall t k n d v,
    balance d k = Some v -> ~ (I64_MIN <= v + n <= I64_MAX) -> incrby t k n d = None;
  live_set_ex : forall t t' k ttl d, t <= t' ->
    live t' (set_ex t k ttl d) k = bool_decide (t' < t + ttl * 10 ^ 9);
  live_set_ex_ne : forall t t' k k' ttl d, k' <> k -> live t' (set_ex t k ttl d) k' = live t' d k';
  balance_set_ex_ne : forall t k k' ttl d, k' <> k -> balance (set_ex t k ttl d) k' = balance d k';
  getset_spec : forall t k n d, let '(d', old) := getset t k n d in
    balance d' k = Some n /\ (forall v, balance d k = Some v -> old = Some v) /\
    (forall k', k' <> k -> balance d' k' = balance d k') }.

Inductive BudgetDeductionResult : Type :=
  | DeductSuccess (remaining : Z)
  | InsufficientFunds (balance required : Z).
Inductive BudgetRefundResult : Type :=
  | RefundSuccess (new_balance : Z)
  | AlreadyRefunded
  | RefundInaccessible.
Inductive RedisError : Type := NoScriptError | OtherRedisError.
Inductive FinOpsError : Type :=
  | UnexpectedScriptResult (n : Z)
  | FinOps_RedisError (e : RedisError)
  | StateStoreInaccessible.

Definition FINOPS_KEY_PREFIX : string := "serein:finops:budget".
Definition balance_key (tenant_id : string) : string := FINOPS_KEY_PREFIX ++ ":" ++ tenant_id.
Definition idempotency_key (request_id : string) : string := "serein:finops:refund:" ++ request_id.
Definition refund_ttl : Z := 86400.

(** What becomes of one round trip; a timeout may come before or after the
    script has run. *)
Inductive Network : Type := Delivered | ScriptFlushed | Unreachable | ReplyLost.
Definition executed (n : Network) : bool :=
  match n with Delivered | ReplyLost => true | _ => false end.

Section manager.
Context `{Redis}.

(** An error inside a script ends it before it has written anything. *)
Definition round_trip {A} (n : Network) (script : db -> option (db * A)) (d : db)
    : db * result A RedisError :=
  match n, script d with
  | Delivered, Some (d', a) => (d', Ok a)
  | ReplyLost, Some (d', _) => (d', Err OtherRedisError)
  | ScriptFlushed, _ => (d, Err NoScriptError)
  | _, _ => (d, Err OtherRedisError)
  end.

Definition FINOPS_DEDUCT_LUA (t : Z) (key : string) (cost : Z) (d : db) : option (db * Z) :=
  let balance := default 0 (balance d key) in
  if decide (cost <= balance) then incrby t key (- cost) d else Some (d, -1).

Definition FINOPS_REFUND_LUA (t : Z) (key idem : string) (amount ttl : Z) (d : db)
    : option (db * Z) :=
  if live t d idem then Some (d, 0)
  else match incrby t key amount d with
       | Some (d, new_balance) => Some (set_ex t idem ttl d, new_balance)
       | None => None
       end.

Record FinOpsBudgetManager := mkManager { bypass_on_failure : bool }.

Definition fail_open_or_err (m : FinOpsBudgetManager) : result BudgetDeductionResult FinOpsError :=
  if bypass_on_failure m then Ok (DeductSuccess (-1)) else Err StateStoreInaccessible.

(** The first statement of [deduct_tokens] returns: the budget is not read. *)
Definition deduct_tokens (m : FinOpsBudgetManager) (tenant_id : string) (estimated_cost : Z) (d : db)
    : db * result BudgetDeductionResult FinOpsError := (d, Ok (DeductSuccess (-1))).

Definition is_noscript_error (e : RedisError) : bool :=
  match e with NoScriptError => true | OtherRedisError => false end.

Definition deduct_reply (estimated_cost n : Z) : result BudgetDeductionResult FinOpsError :=
  if decide (0 <= n) then Ok (DeductSuccess n)
  else if decide (n = -1) then Ok (InsufficientFunds 0 estimated_cost)
  else Err (UnexpectedScriptResult n).

(** The statements that follow (unreachable as the code stands): EVALSHA, then
    at most one EVAL when the script cache was flushed and no other request is
    reloading it ([reloading] is the flag another request may hold). *)
Definition deduct_metered (m : FinOpsBudgetManager) (sha eval : Network) (reloading : bool)
    (t : Z) (tenant_id : string) (estimated_cost : Z) (d : db)
    : db * result BudgetDeductionResult FinOpsError :=
  let key := balance_key tenant_id in
  match round_trip sha (FINOPS_DEDUCT_LUA t key estimated_cost) d with
  | (d, Ok n) => (d, deduct_reply estimated_cost n)
  | (d, Err e) =>
      if is_noscript_error e then
        if reloading then (d, fail_open_or_err m)
        else match round_trip eval (FINOPS_DEDUCT_LUA t key estimated_cost) d with
             | (d, Ok n) => (d, deduct_reply estimated_cost n)
             | (d, Err _) => (d, fail_open_or_err m)
             end
      else (d, fail_open_or_err m)
  end.

Definition refund_tokens (net : Network) (t : Z) (tenant_id : string) (amount : Z)
    (request_id : string) (d : db) : db * BudgetRefundResult :=
  if decide (amount <= 0) then (d, RefundSuccess (-1))
  else
    match round_trip net (FINOPS_REFUND_LUA t (balance_key tenant_id)
            (idempotency_key request_id) amount refund_ttl) d with
    | (d, Ok 0) => (d, AlreadyRefunded)
    | (d, Ok new_balance) => (d, RefundSuccess new_balance)
    | (d, Err _) => (d, RefundInaccessible)
    end.

(** An absent previous value does not convert to an integer. *)
Definition set_budget (net : Network) (t : Z) (tenant_id : string) (budget : Z) (d : db) : db * Z :=
  match round_trip net (fun d => Some (getset t (balance_key tenant_id) budget d)) d with
  | (d, Ok (Some previous)) => (d, previous)
  | (d, _) => (d, -1)
  end.

Definition get_balance (net : Network) (tenant_id : string) (d : db) : option Z :=
  match (round_trip net (fun d => Some (d, balance d (balance_key tenant_id))) d).2 with
  | Ok (Some balance) => Some balance
  | _ => None
  end.

Record FinOpsRefundGuard := mkRefundGuard {
  g_tenant_id : string; g_request_id : string; consumed : bool }.
Definition refund_guard_new (tenant_id request_id : string) : FinOpsRefundGuard :=
  mkRefundGuard tenant_id request_id false.
Definition consume (g : FinOpsRefundGuard) : FinOpsRefundGuard :=
  mkRefundGuard (g_tenant_id g) (g_request_id g) true.
(** The refund is spawned: it runs at some later time [t]. *)
Definition refund_guard_drop (net : Network) (t : Z) (g : FinOpsRefundGuard) (d : db) : db :=
  if consumed g then d else (refund_tokens net t (g_tenant_id g) 1 (g_request_id g) d).1.

(** ** Keys *)

Lemma string_app_inj_r p a b : p ++ a = p ++ b -> a = b.
Proof. induction p as [|c p IH]; simpl; [done|]. intros [=]. by apply IH. Qed.

Lemma keys_distinct tenant request : idempotency_key request <> balance_key tenant.
Proof. done. Qed.
Lemma keys_distinct' tenant request : balance_key tenant <> idempotency_key request.
Proof. done. Qed.
#[local] Hint Resolve keys_distinct keys_distinct' : core.

Lemma idempotency_key_inj a b : a <> b -> idempotency_key a <> idempotency_key b.
Proof. intros Hne Heq. by apply Hne, (string_app_inj_r "serein:finops:refund:"). Qed.

(** ** Refunds *)

(** A request not refunded yet, and one whose refund is on record at [t]. *)
Lemma refund_fresh net t tenant amount request d v :
  0 < amount -> balance d (balance_key tenant) = Some v -> I64_MIN <= v + amount <= I64_MAX ->
  live t d (idempotency_key request) = false ->
  let '(d', r) := refund_tokens net t tenant amount request d in
  if executed net then
    balance d' (balance_key tenant) = Some (v + amount) /\
    (forall t', t <= t' -> live t' d' (idempotency_key request) =
       bool_decide (t' < t + refund_ttl * 10 ^ 9)) /\
    (forall t' other, other <> request ->
       live t' d' (idempotency_key other) = live t' d (idempotency_key other))
  else d' = d /\ r = RefundInaccessible.
Proof.
  intros Ha Hv Hr Hl. unfold refund_tokens. rewrite decide_False by lia.
  destruct (incrby_ok t _ amount d v Hv Hr) as (d1 & Hi & Hb).
  assert (forall t' k', k' <> balance_key tenant -> live t' d1 k' = live t' d k') as Hl1.
  { intros t' k' Hk. by destruct (incrby_frame _ _ _ _ _ _ Hi k' Hk) as [_ Hf]. }
  set (d2 := set_ex t (idempotency_key request) refund_ttl d1).
  assert (Hs : FINOPS_REFUND_LUA t (balance_key tenant) (idempotency_key request) amount refund_ttl d =
    Some (d2, v + amount)) by (unfold FINOPS_REFUND_LUA; by rewrite Hl, Hi).
  assert (Hd2 : balance d2 (balance_key tenant) = Some (v + amount) /\
    (forall t', t <= t' -> live t' d2 (idempotency_key request) =
       bool_decide (t' < t + refund_ttl * 10 ^ 9)) /\
    (forall t' other, other <> request ->
       live t' d2 (idempotency_key other) = live t' d (idempotency_key other))).
  { unfold d2. split_and!.
    - by rewrite balance_set_ex_ne.
    - intros. by apply live_set_ex.
    - intros. rewrite live_set_ex_ne by by apply idempotency_key_inj. by apply Hl1. }
  unfold round_trip. rewrite Hs. destruct net; simpl; try done.
  by destruct (v + amount).
Qed.

Lemma refund_repeated net t tenant amount request d :
  0 < amount -> live t d (idempotency_key request) = true ->
  (refund_tokens net t tenant amount request d).1 = d.
Proof.
  intros Ha Hl. unfold refund_tokens, round_trip, FINOPS_REFUND_LUA.
  rewrite decide_False, Hl by lia. by destruct net.
Qed.

Lemma balance_key_inj a b : a <> b -> balance_key a <> balance_key b.
Proof. intros Hne Heq. by apply Hne, (string_app_inj_r (FINOPS_KEY_PREFIX ++ ":")). Qed.

(** A refund touches the balance of its tenant and the mark of its request. *)
Lemma refund_frame net t tenant amount request d :
  let d' := (refund_tokens net t tenant amount request d).1 in
  (forall other, other <> tenant -> balance d' (balance_key other) = balance d (balance_key other)) /\
  (forall other t', other <> request ->
     live t' d' (idempotency_key other) = live t' d (idempotency_key other)).
Proof.
  unfold refund_tokens. case_decide; [done|]. unfold round_trip, FINOPS_REFUND_LUA.
  destruct (live t d _); [by destruct net|].
  destruct (incrby _ _ _ _) as [[d1 x]|] eqn:Hi; [|by destruct net].
  pose proof (incrby_frame _ _ _ _ _ _ Hi) as Hf.
  assert (let d' := set_ex t (idempotency_key request) refund_ttl d1 in
    (forall other, other <> tenant -> balance d' (balance_key other) = balance d (balance_key other)) /\
    (forall other t', other <> request ->
       live t' d' (idempotency_key other) = live t' d (idempotency_key other))) as Hset.
  { split; [intros other Ho|intros other t' Ho].
    - rewrite balance_set_ex_ne by done. apply Hf, balance_key_inj, Ho.
    - rewrite live_set_ex_ne by by apply idempotency_key_inj. by apply Hf. }
  destruct net; [destruct x|..]; done.
Qed.

(** Whatever its mark and the network, a refund adds the amount or nothing. *)
Lemma refund_adds net t tenant amount request d v :
  0 < amount -> balance d (balance_key tenant) = Some v -> I64_MIN <= v + amount <= I64_MAX ->
  let d' := (refund_tokens net t tenant amount request d).1 in
  balance d' (balance_key tenant) = Some v \/
  executed net = true /\ balance d' (balance_key tenant) = Some (v + amount).
Proof.
  intros Ha Hv Hr. destruct (live t d (idempotency_key request)) eqn:Hl.
  - left. by rewrite refund_repeated.
  - pose proof (refund_fresh net t tenant amount request d v Ha Hv Hr Hl) as Hf.
    destruct (refund_tokens net t tenant amount request d) as [d' r]. cbn [fst].
    destruct (executed net); [right|left]; [by destruct Hf|]. by destruct Hf as [-> _].
Qed.
(** Without an amount, a connection or a fresh mark a refund does nothing. *)
Lemma refund_idle net t tenant amount request d :
  amount <= 0 \/ executed net = false \/ live t d (idempotency_key request) = true ->
  (refund_tokens net t tenant amount request d).1 = d.
Proof.
  unfold refund_tokens. case_decide; [done|]. intros [?|[Hn|Hl]]; [lia| |].
  - unfold round_trip. destruct net; try discriminate Hn; reflexivity.
  - pose proof (refund_repeated net t tenant amount request d ltac:(lia) Hl) as Hr.
    unfold refund_tokens in Hr. by rewrite decide_False in Hr by lia.
Qed.

(** Attempts to refund one request, each at its time and with its network. *)
Fixpoint refund_attempts (attempts : list (Z * Network)) (tenant : string) (amount : Z)
    (request : string) (d : db) : db :=
  match attempts with
  | [] => d
  | (t, net) :: attempts =>
      refund_attempts attempts tenant amount request (refund_tokens net t tenant amount request d).1
  end.

Lemma refund_attempts_done attempts tenant amount request d t0 :
  0 < amount ->
  (forall t', t0 <= t' -> live t' d (idempotency_key request) =
     bool_decide (t' < t0 + refund_ttl * 10 ^ 9)) ->
  Forall (fun a => t0 <= a.1 < t0 + refund_ttl * 10 ^ 9) attempts ->
  refund_attempts attempts tenant amount request d = d.
Proof.
  intros Ha Hl Hin. induction Hin as [|[t net] attempts Ht _ IH]; [done|]. simpl in *.
  rewrite refund_repeated; [done|done|]. rewrite Hl by lia. apply bool_decide_true; lia.
Qed.

(** Refunds are idempotent: however often a refund of one request is
    retried within a day, and whichever replies are lost, the tenant's balance
    grows by the amount exactly once if any attempt reached Redis, and not
    at all otherwise. *)
Theorem refund_exactly_once attempts tenant amount request d v t0 :
  0 < amount -> balance d (balance_key tenant) = Some v -> I64_MIN <= v + amount <= I64_MAX ->
  (forall t, live t d (idempotency_key request) = false) ->
  StronglySorted Z.le (List.map fst attempts) ->
  Forall (fun a => t0 <= a.1 < t0 + refund_ttl * 10 ^ 9) attempts ->
  balance (refund_attempts attempts tenant amount request d) (balance_key tenant) =
    Some (if existsb (fun a => executed a.2) attempts then v + amount else v).
Proof.
  intros Ha Hv Hr Hl Hs Hin. induction Hin as [|[t net] attempts Ht Hin IH]; [done|]. simpl in *.
  inversion Hs as [|? ? Hs' Hle]; subst.
  pose proof (refund_fresh net t tenant amount request d v Ha Hv Hr (Hl t)) as Hf.
  destruct (refund_tokens net t tenant amount request d) as [d' r]. simpl.
  destruct (executed net); simpl.
  - destruct Hf as (Hb & Hlive & _). rewrite (refund_attempts_done _ _ _ _ _ t); [done|done|done|].
    rewrite Forall_map in Hle. rewrite Forall_forall in Hin, Hle |- *.
    intros a Ha'. specialize (Hin a Ha'). specialize (Hle a Ha'). simpl in *. lia.
  - destruct Hf as [-> _]. by apply IH.
Qed.

(** The budget is not enforced, and cancelled requests add to it:
    [deduct_tokens] takes nothing whatever the cost, but the guard of a request
    that is dropped still refunds one token, so that a run of requests with
    distinct identifiers, all cancelled, raises the balance by its length. *)
Theorem cancelled_requests_mint m tenant requests d v t :
  balance d (balance_key tenant) = Some v -> NoDup (List.map fst requests) ->
  (forall r, In r (List.map fst requests) -> live t d (idempotency_key r) = false) ->
  I64_MIN <= v -> v + Z.of_nat (length requests) <= I64_MAX ->
  let run d '(request, cost) :=
    let '(d, r) := deduct_tokens m tenant cost d in
    match r with
    | Ok (DeductSuccess _) => refund_guard_drop Delivered t (refund_guard_new tenant request) d
    | _ => d
    end in
  balance (fold_left run requests d) (balance_key tenant) =
    Some (v + Z.of_nat (length requests)).
Proof.
  intros Hv Hnd Hl Hmin Hmax run. revert d v Hv Hl Hmin Hmax.
  induction requests as [|[request cost] requests IH]; intros d v Hv Hl Hmin Hmax; simpl in *.
  { by rewrite Z.add_0_r. }
  inversion Hnd as [|? ? Hni Hnd']; subst.
  pose proof (refund_fresh Delivered t tenant 1 request d v ltac:(lia) Hv ltac:(lia)
    (Hl _ (or_introl eq_refl))) as Hf.
  unfold refund_guard_drop. simpl.
  destruct (refund_tokens Delivered t tenant 1 request d) as [d' r]. simpl in *.
  destruct Hf as (Hb & _ & Hother).
  rewrite (IH Hnd' d' (v + 1)); [f_equal; lia|done| |lia|lia].
  intros r' Hr'. rewrite Hother; [by apply Hl; right|]. intros ->.
  by rewrite list_elem_of_In in Hni.
Qed.

(** ** Metered deductions *)

(** The effect of the script when it runs. *)
Definition charged (cost v : Z) : Z := if decide (cost <= v) then cost else 0.

Lemma deduct_round_trip net t tenant cost d v :
  balance d (balance_key tenant) = Some v -> 0 <= v <= I64_MAX -> 0 <= cost ->
  let '(d', r) := round_trip net (FINOPS_DEDUCT_LUA t (balance_key tenant) cost) d in
  balance d' (balance_key tenant) = Some (if executed net then v - charged cost v else v) /\
  r = match net with
      | Delivered => Ok (if decide (cost <= v) then v - cost else -1)
      | ScriptFlushed => Err NoScriptError
      | _ => Err OtherRedisError
      end.
Proof.
  intros Hv Hb Hc. unfold round_trip, FINOPS_DEDUCT_LUA, charged. rewrite Hv. simpl.
  destruct (decide (cost <= v)).
  - destruct (incrby_ok t (balance_key tenant) (- cost) d v Hv) as (d1 & -> & Hb1); [ulia|].
    rewrite Z.add_opp_r in *. by destruct net.
  - rewrite Z.sub_0_r. by destruct net.
Qed.

(** What a deduction of [cost] from [v] promises about its reply [r] and the
    balance [v'] it leaves. *)
Definition deduct_promise (m : FinOpsBudgetManager) (cost v v' : Z)
    (r : result BudgetDeductionResult FinOpsError) : Prop :=
  0 <= v' /\ (v' = v \/ v' = v - cost) /\
  match r with
  | Ok (DeductSuccess n) =>
      n = v' /\ v' = v - cost \/ n = -1 /\ bypass_on_failure m = true
  | Ok (InsufficientFunds _ required) => v < cost /\ required = cost /\ v' = v
  | Err e => e = StateStoreInaccessible /\ bypass_on_failure m = false
  end.

Lemma promise_failure m cost v v' :
  0 <= v' -> v' = v \/ v' = v - cost -> deduct_promise m cost v v' (fail_open_or_err m).
Proof.
  intros. unfold deduct_promise, fail_open_or_err.
  destruct (bypass_on_failure m); split_and!; try done. by right.
Qed.

Lemma promise_reply m cost v : 0 <= v -> 0 <= cost ->
  deduct_promise m cost v (v - charged cost v)
    (deduct_reply cost (if decide (cost <= v) then v - cost else -1)).
Proof.
  intros. unfold deduct_promise, deduct_reply, charged.
  repeat case_decide; try lia; simpl; split_and!; lia || (left; lia).
Qed.

Lemma charged_cases cost v : 0 <= v -> 0 <= cost ->
  0 <= v - charged cost v /\ (v - charged cost v = v \/ v - charged cost v = v - cost).
Proof. unfold charged. case_decide; lia. Qed.

(** The metered deduction (the statements behind the bypass): the balance
    never becomes negative and changes by the cost or not at all; a
    success reports the new balance after the charge; a refusal charges nothing;
    every failure of Redis, and a script reload by another request, gives
    [StateStoreInaccessible], or a success with [-1] when the manager bypasses
    failures.  (A lost reply may hide a charge.) *)
Theorem deduct_metered_spec m sha eval reloading t tenant cost d v :
  balance d (balance_key tenant) = Some v -> 0 <= v <= I64_MAX -> 0 <= cost ->
  let '(d', r) := deduct_metered m sha eval reloading t tenant cost d in
  exists v', balance d' (balance_key tenant) = Some v' /\ deduct_promise m cost v v' r.
Proof.
  intros Hv Hb Hc. destruct (charged_cases cost v ltac:(lia) Hc) as [Hch Hch'].
  assert (Hloss : forall net, 0 <= (if executed net then v - charged cost v else v) /\
    ((if executed net then v - charged cost v else v) = v \/
     (if executed net then v - charged cost v else v) = v - cost)) by (intros []; simpl; lia).
  unfold deduct_metered.
  pose proof (deduct_round_trip sha t tenant cost d v Hv Hb Hc) as H1.
  pose proof (deduct_round_trip eval t tenant cost d v Hv Hb Hc) as H2.
  set (script := FINOPS_DEDUCT_LUA t (balance_key tenant) cost) in *. clearbody script.
  destruct (round_trip sha script d) as [d1 r1] eqn:E1, H1 as [Hv1 ->].
  destruct sha; simpl.
  - eexists. split; [exact Hv1|]. apply promise_reply; lia.
  - assert (d1 = d) as -> by (unfold round_trip in E1; by case_match; simplify_eq).
    destruct reloading.
    + exists v. split; [done|]. apply promise_failure; lia.
    + destruct (round_trip eval script d) as [d2 r2], H2 as [Hv2 ->].
      destruct eval; eexists; (split; [exact Hv2|]);
        first [apply promise_reply; lia|apply promise_failure; lia].
  - exists v. split; [done|]. apply promise_failure; lia.
  - eexists. split; [exact Hv1|]. apply promise_failure; lia.
Qed.
End manager.

(** ** A concrete database *)

(** Values are integers, with the instant of their expiry. *)
Abbreviation map_db := (gmap string (Z * option Z)).
Definition map_live (t : Z) (d : map_db) (k : string) : bool :=
  match d !! k with
  | Some (_, None) => true
  | Some (_, Some e) => bool_decide (t < e)
  | None => false
  end.
Definition map_balance (d : map_db) (k : string) : option Z :=
  match d !! k with Some (v, None) => Some v | _ => None end.
Definition map_incrby (t : Z) (k : string) (n : Z) (d : map_db) : option (map_db * Z) :=
  let '(v, e) := if map_live t d k then default (0, None) (d !! k) else (0, None) in
  if decide (I64_MIN <= v + n <= I64_MAX) then Some (<[k := (v + n, e)]> d, v + n) else None.

#[export] Instance RedisMap : Redis.
Proof.
  refine {| db := map_db; balance := map_balance; live := map_live; incrby := map_incrby;
    set_ex t k ttl d := <[k := (1, Some (t + ttl * 10 ^ 9))]> d;
    getset t k n d := (<[k := (n, None)]> d, fst <$> (if map_live t d k then d !! k else None)) |}.
  - intros t k n d v Hv Hr. unfold map_incrby, map_live, map_balance in *.
    destruct (d !! k) as [[w [e|]]|] eqn:E; simplify_eq. simpl. rewrite decide_True by done.
    eexists. split; [done|]. by rewrite lookup_insert_eq.
  - intros t k n d d' x Hi k' Hk. unfold map_incrby, map_live, map_balance in *.
    destruct (if map_live t d k then _ else _) as [w e]. case_decide; [|done]. injection Hi as <- <-.
    split; [|intros t']; by rewrite lookup_insert_ne.
  - intros t k n d v Hv Hr. unfold map_incrby, map_live, map_balance in *.
    destruct (d !! k) as [[w [e|]]|] eqn:E; simplify_eq. simpl. by rewrite decide_False.
  - intros. unfold map_live. cbv beta. by rewrite lookup_insert_eq.
  - intros. unfold map_live. cbv beta. by rewrite lookup_insert_ne.
  - intros. unfold map_balance. cbv beta. by rewrite lookup_insert_ne.
  - intros. unfold map_balance, map_live. cbv beta. split_and!.
    + by rewrite lookup_insert_eq.
    + intros v Hv. by destruct (d !! k) as [[w [e|]]|] eqn:E; simplify_eq/=.
    + intros. by rewrite lookup_insert_ne.
Defined.

Definition demo_db : @db RedisMap := <[balance_key "acme" := (10, None)]> (∅ : map_db).

Lemma refund_exactly_once_witness :
  balance (refund_attempts [(5, Unreachable); (6, ReplyLost); (7, Delivered)] "acme" 3 "req-1" demo_db)
    (balance_key "acme") = Some 13.
Proof.
  apply (refund_exactly_once [(5, Unreachable); (6, ReplyLost); (7, Delivered)] "acme" 3 "req-1"
    demo_db 10 0).
  - lia.
  - reflexivity.
  - ulia.
  - intros t. reflexivity.
  - simpl. repeat (constructor; [|repeat constructor; lia]). constructor.
  - unfold refund_ttl. repeat (constructor; [simpl; lia|]). constructor.
Defined.

Lemma cancelled_requests_mint_witness :
  let run d '(request, cost) :=
    let '(d, r) := deduct_tokens (mkManager false) "acme" cost d in
    match r with
    | Ok (DeductSuccess _) => refund_guard_drop Delivered 5 (refund_guard_new "acme" request) d
    | _ => d
    end in
  balance (fold_left run [("a", 100); ("b", 7)] demo_db) (balance_key "acme") = Some 12.
Proof.
  apply (cancelled_requests_mint (mkManager false) "acme" [("a", 100); ("b", 7)] demo_db 10 5).
  - reflexivity.
  - simpl. repeat constructor; set_solver.
  - intros r [<-|[<-|[]]]; reflexivity.
  - ulia.
  - simpl. ulia.
Defined.

Lemma deduct_metered_spec_witness :
  let '(d', r) := deduct_metered (mkManager false) ScriptFlushed Delivered false 5 "acme" 4 demo_db in
  exists v', balance d' (balance_key "acme") = Some v' /\ deduct_promise (mkManager false) 4 10 v' r.
Proof.
  apply (deduct_metered_spec (mkManager false) ScriptFlushed Delivered false 5 "acme" 4 demo_db 10);
    [reflexivity|ulia|lia].
Defined.
