(* ===== verification/AbiGuard.v ===== *)
(** * crates/core/src/abi_guard.rs

    Bounds checks on guest memory, simulated CHERI capabilities, and the guard
    that counts and decides cross-domain accesses.  A [usize] is an integer up
    to [USIZE_MAX]; the statistics are wrapping 64-bit atomics. *)
From S2P Require Import Prelude.

Local Open Scope string_scope.

Definition DEFAULT_TLSF_POOL_SIZE : Z := 256 * 1024 * 1024.
Definition WASM_PAGE_SIZE : Z := 64 * 1024.

Record CheriPermission := mkPermission {
  readable : bool; writable : bool; executable : bool;
  load_capability : bool; store_capability : bool; seal : bool; unseal : bool }.
#[export] Instance CheriPermission_eq_dec : EqDecision CheriPermission.
Proof. solve_decision. Defined.
Definition permission_default : CheriPermission := mkPermission true true false true true false false.
Definition read_only : CheriPermission := mkPermission true false false true false false false.
Definition execute_only : CheriPermission := mkPermission false false true false false false false.
Definition full : CheriPermission := mkPermission true true true true true true true.

Inductive Capability : Type :=
  | MemoryRead | MemoryWrite | Execute | NetworkAccess | FileSystemAccess | TimeAccess
  | RandomAccess.
#[export] Instance Capability_eq_dec : EqDecision Capability.
Proof. solve_decision. Defined.

Inductive AbiViolation : Type :=
  | OutOfBoundsAccess (offset length max : Z)
  | UnauthorizedCall (domain function : string)
  | CapabilityViolation (required granted : list Capability)
  | PointerProvenance (ptr : Z) (expected : string)
  | StackPointerViolation (sp lower upper : Z)
  | CheriBoundaryViolation (base length requested : Z)
  | CheriTagInvalid
  | CheriPermissionDenied (required granted : CheriPermission).

(** The texts of [Debug], [{:#x}] (at most 16 digits) and [Display]. *)
Definition Capability_debug (c : Capability) : string :=
  match c with
  | MemoryRead => "MemoryRead" | MemoryWrite => "MemoryWrite" | Execute => "Execute"
  | NetworkAccess => "NetworkAccess" | FileSystemAccess => "FileSystemAccess"
  | TimeAccess => "TimeAccess" | RandomAccess => "RandomAccess"
  end.
Definition capabilities_debug (l : list Capability) : string :=
  "[" ++ String.concat ", " (List.map Capability_debug l) ++ "]".
Definition bool_debug (b : bool) : string := if b then "true" else "false".
Definition CheriPermission_debug (p : CheriPermission) : string :=
  "CheriPermission { readable: " ++ bool_debug (readable p) ++ ", writable: " ++ bool_debug (writable p) ++
  ", executable: " ++ bool_debug (executable p) ++ ", load_capability: " ++ bool_debug (load_capability p) ++
  ", store_capability: " ++ bool_debug (store_capability p) ++ ", seal: " ++ bool_debug (seal p) ++
  ", unseal: " ++ bool_debug (unseal p) ++ " }".
Fixpoint lower_hex_digits (fuel : nat) (n : Z) : string :=
  match fuel with
  | O => ""
  | S fuel =>
      (if decide (n < 16) then "" else lower_hex_digits fuel (n / 16)) ++
      String.substring (Z.to_nat (n mod 16)) 1 "0123456789abcdef"
  end.
Definition lower_hex (n : Z) : string := "0x" ++ lower_hex_digits 16 n.
Definition AbiViolation_display (e : AbiViolation) : string :=
  match e with
  | OutOfBoundsAccess offset length max =>
      "Memory access out of bounds: offset=" ++ pretty offset ++ ", length=" ++ pretty length ++
      ", max=" ++ pretty max
  | UnauthorizedCall domain function =>
      "Unauthorized cross-domain call: domain=" ++ domain ++ ", function=" ++ function
  | CapabilityViolation required granted =>
      "Capability violation: required=" ++ capabilities_debug required ++ ", granted=" ++
      capabilities_debug granted
  | PointerProvenance ptr expected =>
      "Pointer provenance violation: ptr=" ++ lower_hex ptr ++ ", expected_domain=" ++ expected
  | StackPointerViolation sp lower upper =>
      "Stack pointer violation: sp=" ++ lower_hex sp ++ ", bounds=" ++ lower_hex lower ++ "-" ++
      lower_hex upper
  | CheriBoundaryViolation base length requested =>
      "CHERI boundary violation: base=" ++ lower_hex base ++ ", length=" ++ lower_hex length ++
      ", requested=" ++ lower_hex requested
  | CheriTagInvalid => "CHERI capability tag invalid: capability corrupted or revoked"
  | CheriPermissionDenied required granted =>
      "CHERI permission denied: required=" ++ CheriPermission_debug required ++ ", granted=" ++
      CheriPermission_debug granted
  end.
Example lower_hex_max : lower_hex USIZE_MAX = "0xffffffffffffffff".
Proof. reflexivity. Qed.

(** ** Guest memory *)

Inductive WasmMemoryViolation : Type :=
  | OutOfBounds (offset length data_size : Z)
  | OffsetOverflow (offset length data_size : Z)
  | MemoryExportNotFound.

(** A wasmtime memory is the bytes it holds. *)
Definition WasmMemory : Type := list Z.
Definition data_size (memory : WasmMemory) : Z := Z.of_nat (length memory).

Definition validate_wasm_memory_bounds (memory : WasmMemory) (offset length : Z)
    : result unit WasmMemoryViolation :=
  let data_size := data_size memory in
  match checked_add USIZE_MAX offset length with
  | None => Err (OffsetOverflow offset length data_size)
  | Some end_ =>
      if decide (data_size < end_) then Err (OutOfBounds offset length data_size) else Ok tt
  end.

(** [&data[from..to]]. *)
Definition slice (data : list Z) (from to : Z) : outcome (list Z) :=
  if decide (from <= to /\ to <= Z.of_nat (length data))
  then Ret (take (Z.to_nat (to - from)) (drop (Z.to_nat from) data)) else Panic.

Definition read_wasm_memory (memory : WasmMemory) (offset length : Z)
    : outcome (result (list Z) WasmMemoryViolation) :=
  match validate_wasm_memory_bounds memory offset length with
  | Err e => Ret (Err e)
  | Ok _ =>
      end_ ← add_u USIZE_MAX offset length;
      bytes ← slice memory offset end_; Ret (Ok bytes)
  end.

(** [exported] is the caller's "memory" export, if it is a memory. *)
Definition read_wasm_memory_from_caller (exported : option WasmMemory) (offset length : Z)
    : outcome (result (list Z) WasmMemoryViolation) :=
  match exported with
  | None => Ret (Err MemoryExportNotFound)
  | Some memory => read_wasm_memory memory offset length
  end.

(** ** Capabilities *)

Record CheriCapability := mkCapability {
  base : Z;
  cap_length : Z;
  cap_offset : Z;
  permissions : CheriPermission;
  tag : bool;
  sealed : bool }.

Definition capability_new (base length : Z) (p : CheriPermission) : CheriCapability :=
  mkCapability base length 0 p true false.
Definition from_tlsf_pool (pool_size : Z) : CheriCapability :=
  capability_new 0 pool_size permission_default.
Definition current_address (c : CheriCapability) : Z :=
  saturating_add USIZE_MAX (base c) (cap_offset c).
Definition is_valid (c : CheriCapability) : bool :=
  tag c && negb (sealed c) && bool_decide (cap_offset c <= cap_length c).

Definition check_bounds (access_offset access_length : Z) (c : CheriCapability)
    : result unit AbiViolation :=
  if negb (tag c) then Err CheriTagInvalid
  else if sealed c then Err CheriTagInvalid
  else
    let absolute_offset := saturating_add USIZE_MAX (cap_offset c) access_offset in
    match checked_add USIZE_MAX absolute_offset access_length with
    | None => Err (CheriBoundaryViolation (base c) (cap_length c) USIZE_MAX)
    | Some end_ =>
        if decide (cap_length c < end_)
        then Err (CheriBoundaryViolation (base c) (cap_length c) end_) else Ok tt
    end.

Definition derive (new_offset new_length : Z) (c : CheriCapability)
    : result CheriCapability AbiViolation :=
  if negb (is_valid c) then Err CheriTagInvalid
  else
    let derived_base := saturating_add USIZE_MAX (base c) new_offset in
    if decide (cap_length c < saturating_add USIZE_MAX new_offset new_length) then
      Err (CheriBoundaryViolation (base c) (cap_length c)
             (saturating_add USIZE_MAX new_offset new_length))
    else Ok (mkCapability derived_base new_length 0 (permissions c) true false).

(** ** The guard *)

Record AbiGuardStats := mkStats {
  total_calls : Z; violations_detected : Z; memory_checks : Z;
  capability_checks : Z; cheri_boundary_checks : Z }.
Definition stats_default : AbiGuardStats := mkStats 0 0 0 0 0.

Definition incr (n : Z) : Z := wrapping_add U64_MAX n 1.
Definition count_call (s : AbiGuardStats) :=
  mkStats (incr (total_calls s)) (violations_detected s) (memory_checks s)
    (incr (capability_checks s)) (cheri_boundary_checks s).
Definition count_violation (s : AbiGuardStats) :=
  mkStats (total_calls s) (incr (violations_detected s)) (memory_checks s)
    (capability_checks s) (cheri_boundary_checks s).
Definition count_memory (s : AbiGuardStats) :=
  mkStats (total_calls s) (violations_detected s) (incr (memory_checks s))
    (capability_checks s) (cheri_boundary_checks s).
Definition count_cheri (s : AbiGuardStats) :=
  mkStats (total_calls s) (violations_detected s) (memory_checks s)
    (capability_checks s) (incr (cheri_boundary_checks s)).

Record AbiGuard := mkGuard {
  stats : AbiGuardStats;
  enabled : bool;
  strict_mode : bool;
  default_capability : CheriCapability;
  named_capabilities : gmap string CheriCapability }.

Definition with_pool_size (enabled strict_mode : bool) (pool_size : Z) : AbiGuard :=
  mkGuard stats_default enabled strict_mode (from_tlsf_pool pool_size) ∅.
Definition guard_new (enabled strict_mode : bool) : AbiGuard :=
  with_pool_size enabled strict_mode DEFAULT_TLSF_POOL_SIZE.
Definition guard_default : AbiGuard := guard_new true false.

Definition set_stats (s : AbiGuardStats) (g : AbiGuard) : AbiGuard :=
  mkGuard s (enabled g) (strict_mode g) (default_capability g) (named_capabilities g).

Definition register_capability (name : string) (c : CheriCapability) (g : AbiGuard)
    : AbiGuard * result unit AbiViolation :=
  if negb (is_valid c) then (g, Err CheriTagInvalid)
  else (mkGuard (stats g) (enabled g) (strict_mode g) (default_capability g)
          (<[name := c]> (named_capabilities g)), Ok tt).

Definition check_cheri_boundary (offset length : Z) (g : AbiGuard)
    : AbiGuard * result CheriCapability AbiViolation :=
  if negb (enabled g) then (g, Ok (default_capability g))
  else (set_stats (count_cheri (stats g)) g,
        _ <-? check_bounds offset length (default_capability g) ;;
        derived <-? derive offset length (default_capability g) ;; Ok derived).

Definition check_memory_access (offset length max_memory : Z) (g : AbiGuard)
    : AbiGuard * result unit AbiViolation :=
  if negb (enabled g) then (g, Ok tt)
  else
    let g := set_stats (count_memory (stats g)) g in
    match checked_add USIZE_MAX offset length with
    | None => (g, Err (OutOfBoundsAccess offset length max_memory))
    | Some end_ =>
        if decide (max_memory < end_)
        then (set_stats (count_violation (stats g)) g, Err (OutOfBoundsAccess offset length max_memory))
        else (g, Ok tt)
    end.

Record CrossDomainContext := mkContext {
  source_domain : string; target_domain : string; function_name : string; timestamp : Z }.

Fixpoint all_granted (required granted : list Capability) : bool :=
  match required with
  | [] => true
  | r :: required => if bool_decide (r ∈ granted) then all_granted required granted else false
  end.

(** The context is only logged. *)
Definition check_cross_domain_call (context : CrossDomainContext)
    (required_capabilities granted_capabilities : list Capability) (g : AbiGuard)
    : AbiGuard * result unit AbiViolation :=
  if negb (enabled g) then (g, Ok tt)
  else
    let g := set_stats (count_call (stats g)) g in
    if all_granted required_capabilities granted_capabilities then (g, Ok tt)
    else (set_stats (count_violation (stats g)) g,
          Err (CapabilityViolation required_capabilities granted_capabilities)).

Definition check_pointer_provenance (ptr : Z) (expected_domain actual_domain : string)
    (g : AbiGuard) : AbiGuard * result unit AbiViolation :=
  if negb (enabled g) then (g, Ok tt)
  else if decide (expected_domain <> actual_domain) then
    (set_stats (count_violation (stats g)) g, Err (PointerProvenance ptr expected_domain))
  else (g, Ok tt).

Definition check_stack_pointer (sp stack_lower stack_upper : Z) (g : AbiGuard)
    : AbiGuard * result unit AbiViolation :=
  if negb (enabled g) then (g, Ok tt)
  else if decide (sp < stack_lower \/ stack_upper < sp) then
    (set_stats (count_violation (stats g)) g, Err (StackPointerViolation sp stack_lower stack_upper))
  else (g, Ok tt).

Definition reset_stats (g : AbiGuard) : AbiGuard := set_stats stats_default g.

(** ** Memory reads *)

(** Guest memory is read in bounds, whatever offset and length the guest
    passes: the read never panics; it returns the [length] bytes from [offset]
    exactly when they lie inside the memory, and otherwise the violation that
    applies (overflow of the end address before the size is looked at). *)
Theorem read_wasm_memory_spec memory offset length :
  fits USIZE_MAX offset -> fits USIZE_MAX length -> data_size memory <= USIZE_MAX ->
  read_wasm_memory memory offset length =
    if decide (offset + length <= data_size memory) then
      Ret (Ok (take (Z.to_nat length) (drop (Z.to_nat offset) memory)))
    else if decide (offset + length <= USIZE_MAX) then
      Ret (Err (OutOfBounds offset length (data_size memory)))
    else Ret (Err (OffsetOverflow offset length (data_size memory))).
Proof.
  intros Ho Hl Hs. unfold read_wasm_memory, validate_wasm_memory_bounds, checked_add, fits in *.
  destruct (decide (offset + length <= USIZE_MAX)) as [Hd|Hd].
  - destruct (decide (data_size memory < offset + length)) as [Hlt|Hge].
    + by rewrite decide_False by lia.
    + rewrite decide_True by lia. unfold add_u. rewrite decide_True by done. simpl.
      unfold slice. unfold data_size in Hge. rewrite decide_True by lia. simpl.
      by replace (offset + length - offset) with length by lia.
  - by rewrite decide_False by lia.
Qed.

(** ** Confinement of derived capabilities *)

Inductive derives (root : CheriCapability) : CheriCapability -> Prop :=
  | derives_root : derives root root
  | derives_step c o l c' :
      derives root c -> fits USIZE_MAX o -> fits USIZE_MAX l -> derive o l c = Ok c' ->
      derives root c'.

(** The region a capability addresses. *)
Definition within (root c : CheriCapability) : Prop :=
  base root <= base c /\ base c + cap_length c <= base root + cap_length root /\
  0 <= cap_length c.

Lemma derive_Ok o l c c' : derive o l c = Ok c' ->
  is_valid c = true /\ saturating_add USIZE_MAX o l <= cap_length c /\
  c' = mkCapability (saturating_add USIZE_MAX (base c) o) l 0 (permissions c) true false.
Proof.
  unfold derive. intros Hd. destruct (is_valid c); simpl in Hd; [|done].
  case_decide; simplify_eq. split_and!; done || lia.
Qed.

Lemma derives_within root c :
  0 <= base root -> 0 <= cap_length root -> base root + cap_length root < USIZE_MAX ->
  derives root c -> within root c /\ permissions c = permissions root.
Proof.
  intros Hb Hl Hfit Hd. induction Hd as [|c o l c' Hd [(Hb1 & He1 & Hl1) Hp] Ho Hl' Hc'].
  - by split; [unfold within; lia|].
  - apply derive_Ok in Hc' as (Hv & Hle & ->).
    unfold saturating_add, fits in *. split; [|done].
    unfold within. simpl. lia.
Qed.

(** C29: capabilities are monotone: whatever derivations are made from a root
    capability, the result addresses a region inside the root's with the root's
    permissions, and any access it lets through stays inside the region of the
    root; a derivation from an untagged, sealed or out-of-range capability fails. *)
Theorem derived_capability_confined root c :
  0 <= base root -> 0 <= cap_length root -> base root + cap_length root < USIZE_MAX ->
  derives root c ->
  within root c /\ permissions c = permissions root /\
  (forall o l, 0 <= cap_offset c -> 0 <= o -> 0 <= l -> check_bounds o l c = Ok tt ->
     base root <= base c + cap_offset c + o /\
     base c + cap_offset c + o + l <= base root + cap_length root) /\
  (forall o l, tag c = false \/ sealed c = true \/ cap_length c < cap_offset c ->
     derive o l c = Err CheriTagInvalid).
Proof.
  intros Hb Hl Hfit Hd. destruct (derives_within root c Hb Hl Hfit Hd) as [Hw Hp].
  split_and!; [done|done|..].
  - intros o l Hoff Ho Hl'. destruct Hw as (? & ? & ?). unfold check_bounds.
    destruct (tag c), (sealed c); simpl; try done.
    unfold checked_add, saturating_add. case_decide; [|done]. case_decide; [done|]. intros _.
    ulia.
  - intros o l Hinv. unfold derive, is_valid.
    destruct Hinv as [->|[->|Hlt]]; [done|by rewrite andb_false_r|].
    rewrite (bool_decide_false (cap_offset c <= cap_length c)) by lia.
    by rewrite andb_false_r.
Qed.

(** ** Decisions of the guard *)

Lemma all_granted_spec required granted :
  all_granted required granted = true <-> required ⊆ granted.
Proof.
  induction required as [|r required IH]; simpl; [set_solver|].
  case_bool_decide; [rewrite IH; set_solver|]. split; [done|]. set_solver.
Qed.

(** An enabled guard authorises a cross-domain call exactly when every
    required capability is granted, counting the call in both cases and a
    violation only on refusal; a disabled guard authorises and counts nothing. *)
Theorem cross_domain_call_spec context required granted g :
  let '(g', r) := check_cross_domain_call context required granted g in
  (is_ok r = true <-> enabled g = false \/ required ⊆ granted) /\
  stats g' =
    (if negb (enabled g) then stats g
     else if is_ok r then count_call (stats g) else count_violation (count_call (stats g))) /\
  default_capability g' = default_capability g /\ named_capabilities g' = named_capabilities g.
Proof.
  unfold check_cross_domain_call. destruct (enabled g); simpl; [|naive_solver].
  destruct (all_granted required granted) eqn:E; simpl; split_and!; try done.
  - rewrite all_granted_spec in E. naive_solver.
  - split; [done|]. intros [?|Hs]; [done|]. apply all_granted_spec in Hs. congruence.
Qed.

(** ** Witnesses *)

Lemma read_wasm_memory_spec_witness :
  read_wasm_memory [10; 20; 30; 40] 1 2 = Ret (Ok [20; 30]) /\
  read_wasm_memory [10; 20; 30; 40] USIZE_MAX 2 = Ret (Err (OffsetOverflow USIZE_MAX 2 4)).
Proof.
  split; (etransitivity; [apply read_wasm_memory_spec; unfold data_size; simpl; ulia|by vm_compute]).
Defined.

Definition demo_derived : CheriCapability :=
  mkCapability 100 50 0 permission_default true false.

Lemma derived_capability_confined_witness :
  within (from_tlsf_pool 1000) demo_derived /\
  permissions demo_derived = permissions (from_tlsf_pool 1000) /\
  (forall o l, 0 <= cap_offset demo_derived -> 0 <= o -> 0 <= l ->
     check_bounds o l demo_derived = Ok tt ->
     base (from_tlsf_pool 1000) <= base demo_derived + cap_offset demo_derived + o /\
     base demo_derived + cap_offset demo_derived + o + l <=
       base (from_tlsf_pool 1000) + cap_length (from_tlsf_pool 1000)) /\
  (forall o l, tag demo_derived = false \/ sealed demo_derived = true \/
     cap_length demo_derived < cap_offset demo_derived ->
     derive o l demo_derived = Err CheriTagInvalid).
Proof.
  apply (derived_capability_confined (from_tlsf_pool 1000) demo_derived); simpl; [lia|lia|ulia|].
  apply (derives_step _ (from_tlsf_pool 1000) 100 50);
    [constructor|ulia|ulia|by vm_compute].
Defined.
