(* ===== verification/PayloadValidator.v ===== *)
(** * crates/core/src/engine/fuel_monitor.rs: payload validation

    The abstract syntax tree of a JSON payload, its measures and leaf checks,
    the schema of execution payloads and [Z3FormalValidator].  The JSON parser,
    the accessors of its numbers and the formatting of floats and string lists
    are parameters. *)
From S2P Require Import Prelude F64 RustStr Json.

Local Open Scope string_scope.

Definition MAX_JSON_DEPTH : Z := 32.
Definition MAX_STRING_LENGTH : Z := 64 * 1024.
Definition MAX_OBJECT_KEYS : Z := 256.
Definition MAX_AST_NODES : Z := 10000.
Definition MAX_NUMERIC_VALUE : Z := U32_MAX.
Definition MAX_AST_STRING_LENGTH : Z := 64 * 1024.
Definition SIS_FUEL_QUOTA : Z := 10000000000.

Inductive PayloadViolation : Type :=
  | MemoryBounds (offset length region_size : Z)
  | InstructionBounds (required available : Z)
  | StructuralIntegrity (reason : string)
  | DepthExplosion (depth maximum : Z)
  | NumericOverflow (value maximum : Z)
  | ProofFailure (reason : string)
  | AstNodeCountExceeded (count maximum : Z)
  | InvalidUtf8
  | JsonParseError (reason : string)
  | SchemaConstraintViolated (constraint : string).

#[warnings="-register-all"]
Inductive AstNode : Type :=
  | Null
  | Bool (b : bool)
  | Integer (v : Z)
  | Float (v : f64)
  | Str (s : string)
  | Array (items : list AstNode)
  | Object (entries : list (string * AstNode)).

Section ast_ind.
Context (P : AstNode -> Prop)
  (Hnull : P Null) (Hbool : forall b, P (Bool b)) (Hint : forall v, P (Integer v))
  (Hfloat : forall v, P (Float v)) (Hstr : forall s, P (Str s))
  (Harr : forall l, Forall P l -> P (Array l))
  (Hobj : forall m, Forall (fun e => P e.2) m -> P (Object m)).

Fixpoint AstNode_nested_ind (a : AstNode) : P a :=
  match a with
  | Null => Hnull | Bool b => Hbool b | Integer v => Hint v | Float v => Hfloat v
  | Str s => Hstr s
  | Array l => Harr l
      ((fix go l : Forall P l :=
          match l with
          | [] => List.Forall_nil _
          | a :: l => List.Forall_cons _ _ _ (AstNode_nested_ind a) (go l)
          end) l)
  | Object m => Hobj m
      ((fix go m : Forall (fun e => P e.2) m :=
          match m with
          | [] => List.Forall_nil _
          | (k, a) :: m => List.Forall_cons _ (k, a) _ (AstNode_nested_ind a) (go m)
          end) m)
  end.
End ast_ind.

(** ** Measures *)

Definition sum (l : list Z) : Z := fold_right Z.add 0 l.
Definition max_or_0 (l : list Z) : Z := fold_right Z.max 0 l.

Fixpoint node_count (a : AstNode) : Z :=
  match a with
  | Array items => 1 + sum (List.map node_count items)
  | Object entries => 1 + sum (List.map (fun e => node_count e.2) entries)
  | _ => 1
  end.
Fixpoint depth (a : AstNode) : Z :=
  match a with
  | Array items => 1 + max_or_0 (List.map depth items)
  | Object entries => 1 + max_or_0 (List.map (fun e => depth e.2) entries)
  | _ => 1
  end.
Fixpoint memory_footprint (a : AstNode) : Z :=
  match a with
  | Null | Bool _ | Integer _ | Float _ => 8
  | Str s => 8 + len s
  | Array items => 8 + sum (List.map memory_footprint items)
  | Object entries => 8 + sum (List.map (fun e => len e.1 + memory_footprint e.2) entries)
  end.

(** ** Schema *)

Inductive FieldType : Type :=
  | StringExactLen (expected_len : Z)
  | StringRange (min max : Z)
  | StringPrefix (prefix : string)
  | IntegerRange (min max : Z)
  | FloatRange (min max : f64)
  | FloatMinThreshold (threshold : f64).

Record FieldConstraint := mkField {
  f_name : string; aliases : list string; field_type : FieldType; required : bool }.

Definition execution_payload_schema : list FieldConstraint :=
  [mkField "networkId" ["network_id"] (StringRange 1 64) true;
   mkField "taskType" ["task_type"] (StringRange 1 50) true;
   mkField "maxGasLimit" ["max_gas_limit"] (IntegerRange 0 I64_MAX) false;
   mkField "confidenceScore" ["confidence_score"] (FloatRange f64_zero f64_one) true;
   mkField "sourceUrl" ["source_url"] (StringPrefix "http") false].

(** [f64::EPSILON] is [2^-52]. *)
Definition f64_epsilon : f64 := f64_div f64_one (f64_of_Z (2 ^ 52)).

Definition is_ascii_uppercase (s : string) : bool :=
  forallb (fun c => in_range 65 90 c) (String.list_ascii_of_string s).

Section validator.
Context {Number : Type}.
Context (as_i64 : Number -> option Z) (as_f64 : Number -> option f64)
        (from_str : string -> result (@Value Number) string)
        (f64_display : f64 -> string) (strings_debug : list string -> string).

(** The loop over the entries of an object. *)
Definition entries_ok (f : AstNode -> result unit PayloadViolation)
    : list string -> list (string * AstNode) -> result unit PayloadViolation :=
  fix go seen_keys entries :=
    match entries with
    | [] => Ok tt
    | (key, value) :: entries =>
        if decide (MAX_AST_STRING_LENGTH < len key) then
          Err (MemoryBounds 0 (len key) MAX_AST_STRING_LENGTH)
        else if decide (key ∈ seen_keys) then
          Err (StructuralIntegrity ("Duplicate key in object: '" ++ key ++ "'"))
        else _ <-? f value ;; go (key :: seen_keys) entries
    end.

Fixpoint validate_leaf_bounds (a : AstNode) : result unit PayloadViolation :=
  match a with
  | Null | Bool _ => Ok tt
  | Integer v =>
      if decide (MAX_NUMERIC_VALUE < Z.abs v)
      then Err (NumericOverflow (Z.abs v) MAX_NUMERIC_VALUE) else Ok tt
  | Float v =>
      if is_finite v && f64_gt (f64_abs v) (f64_of_Z MAX_NUMERIC_VALUE) then
        Err (NumericOverflow (f64_as_u64 (f64_abs v)) MAX_NUMERIC_VALUE)
      else if negb (is_finite v) then
        Err (ProofFailure ("Non-finite float value: " ++ f64_display v))
      else Ok tt
  | Str s =>
      if decide (MAX_AST_STRING_LENGTH < len s)
      then Err (MemoryBounds 0 (len s) MAX_AST_STRING_LENGTH) else Ok tt
  | Array items => all_ok validate_leaf_bounds items
  | Object entries => entries_ok validate_leaf_bounds [] entries
  end.

Fixpoint json_value_to_ast (value : @Value Number) : result AstNode PayloadViolation :=
  match value with
  | JNull => Ok Null
  | JBool b => Ok (Bool b)
  | JNumber n =>
      match as_i64 n with
      | Some i => Ok (Integer i)
      | None => match as_f64 n with Some f => Ok (Float f) | None => Ok (Integer 0) end
      end
  | JString s => Ok (Str s)
  | JArray arr => nodes <-? collect json_value_to_ast arr ;; Ok (Array nodes)
  | JObject obj =>
      entries <-? collect (fun e => ast <-? json_value_to_ast e.2 ;; Ok (e.1, ast)) obj ;;
      Ok (Object entries)
  end.

Definition parse_to_ast (json : string) : result AstNode PayloadViolation :=
  match from_str json with
  | Err e => Err (JsonParseError e)
  | Ok value => json_value_to_ast value
  end.

Definition field_error (field_name message : string) : result unit PayloadViolation :=
  Err (SchemaConstraintViolated ("Field '" ++ field_name ++ "' " ++ message)).

Definition prove_field_constraint (field_name : string) (value : AstNode) (constraint : FieldType)
    : result unit PayloadViolation :=
  match constraint with
  | StringExactLen expected_len =>
      match value with
      | Str s =>
          if negb (bool_decide (len s = expected_len)) then
            field_error field_name ("must be exactly " ++ pretty expected_len ++
              " characters, got " ++ pretty (len s))
          else if negb (is_ascii_uppercase s) then
            field_error field_name "must contain only uppercase ASCII letters"
          else Ok tt
      | _ => field_error field_name "must be a string"
      end
  | StringRange min max =>
      match value with
      | Str s =>
          if decide (len s < min \/ max < len s) then
            field_error field_name ("length must be in range [" ++ pretty min ++ ", " ++
              pretty max ++ "], got " ++ pretty (len s))
          else Ok tt
      | _ => field_error field_name "must be a string"
      end
  | StringPrefix prefix =>
      match value with
      | Str s =>
          if negb (starts_with prefix s) then
            field_error field_name ("must start with '" ++ prefix ++ "'")
          else Ok tt
      | _ => field_error field_name "must be a string"
      end
  | IntegerRange min max =>
      let range_error v := field_error field_name ("must be in range [" ++ pretty min ++ ", " ++
        pretty max ++ "], got " ++ pretty v) in
      match value with
      | Integer v => if decide (v < min \/ max < v) then range_error v else Ok tt
      | Float f =>
          let as_int := f64_as_i64 f in
          if f64_gt (f64_abs (f64_sub f (f64_of_Z as_int))) f64_epsilon then
            field_error field_name "must be an integer"
          else if decide (as_int < min \/ max < as_int) then range_error as_int
          else Ok tt
      | _ => field_error field_name "must be an integer"
      end
  | FloatRange min max =>
      let check f_val :=
        if f64_lt f_val min || f64_gt f_val max then
          field_error field_name ("must be in range [" ++ f64_display min ++ ", " ++
            f64_display max ++ "], got " ++ f64_display f_val)
        else Ok tt in
      match value with
      | Integer v => check (f64_of_Z v)
      | Float v => check v
      | _ => field_error field_name "must be a number"
      end
  | FloatMinThreshold threshold =>
      let check f_val :=
        if f64_lt f_val threshold then
          field_error field_name ("value " ++ f64_display f_val ++ " below minimum threshold " ++
            f64_display threshold)
        else Ok tt in
      match value with
      | Integer v => check (f64_of_Z v)
      | Float v => check v
      | _ => field_error field_name "must be a number"
      end
  end.

Definition suspicious_key (key : string) : bool :=
  contains "__" key || starts_with "_" key || starts_with "$" key.

Definition check_key (key : string) : result unit PayloadViolation :=
  if suspicious_key key
  then Err (SchemaConstraintViolated ("Suspicious key pattern: '" ++ key ++ "'")) else Ok tt.

Definition names_field (c : FieldConstraint) (key : string) : bool :=
  bool_decide (key = f_name c) || bool_decide (key ∈ aliases c).

Definition check_field (obj : list (string * AstNode)) (c : FieldConstraint)
    : result unit PayloadViolation :=
  match List.find (fun e => names_field c e.1) obj with
  | Some (_, value) => prove_field_constraint (f_name c) value (field_type c)
  | None =>
      if required c then
        Err (SchemaConstraintViolated ("Missing required field: '" ++ f_name c ++ "' (aliases: " ++
          strings_debug (aliases c) ++ ")"))
      else Ok tt
  end.

Definition prove_schema_constraints (ast : AstNode) (schema : list FieldConstraint)
    : result unit PayloadViolation :=
  match ast with
  | Object obj =>
      if decide (MAX_OBJECT_KEYS < Z.of_nat (length obj)) then
        Err (StructuralIntegrity ("Object has " ++ pretty (Z.of_nat (length obj)) ++
          " keys, exceeds maximum of " ++ pretty MAX_OBJECT_KEYS))
      else
        _ <-? all_ok (fun e => check_key e.1) obj ;;
        all_ok (check_field obj) schema
  | _ => Err (StructuralIntegrity "Payload must be a JSON object")
  end.

(** ** The validator *)

Record Z3FormalValidator := mkValidator {
  v_enabled : bool;
  validation_count : Z;
  rejection_count : Z;
  max_memory_region : Z;
  max_fuel_budget : Z }.

Definition validator_new (enabled : bool) : Z3FormalValidator :=
  mkValidator enabled 0 0 (256 * 1024 * 1024) SIS_FUEL_QUOTA.
Definition with_bounds (max_memory max_fuel : Z) (v : Z3FormalValidator) : Z3FormalValidator :=
  mkValidator (v_enabled v) (validation_count v) (rejection_count v) max_memory max_fuel.
Definition validator_default : Z3FormalValidator := validator_new false.

Definition count_validation (v : Z3FormalValidator) : Z3FormalValidator :=
  mkValidator (v_enabled v) (wrapping_add U64_MAX (validation_count v) 1) (rejection_count v)
    (max_memory_region v) (max_fuel_budget v).
Definition count_rejection (v : Z3FormalValidator) : Z3FormalValidator :=
  mkValidator (v_enabled v) (validation_count v) (wrapping_add U64_MAX (rejection_count v) 1)
    (max_memory_region v) (max_fuel_budget v).

(** The checks up to the leaves; every error path counts one rejection. *)
Definition prove_bounds (v : Z3FormalValidator) (output : string)
    : result AstNode PayloadViolation :=
  if negb (utf8_valid output) then Err InvalidUtf8
  else if decide (MAX_STRING_LENGTH * 10 < len output) then
    Err (MemoryBounds 0 (len output) (MAX_STRING_LENGTH * 10))
  else
    ast <-? parse_to_ast output ;;
    if decide (MAX_AST_NODES < node_count ast) then
      Err (AstNodeCountExceeded (node_count ast) MAX_AST_NODES)
    else if decide (MAX_JSON_DEPTH < depth ast) then
      Err (DepthExplosion (depth ast) MAX_JSON_DEPTH)
    else if decide (max_memory_region v < memory_footprint ast) then
      Err (MemoryBounds 0 (memory_footprint ast) (max_memory_region v))
    else _ <-? validate_leaf_bounds ast ;; Ok ast.

Definition counted (v : Z3FormalValidator) (r : result unit PayloadViolation)
    : Z3FormalValidator * result unit PayloadViolation :=
  (match r with Ok _ => v | Err _ => count_rejection v end, r).

Definition prove_safety (output : string) (v : Z3FormalValidator)
    : Z3FormalValidator * result unit PayloadViolation :=
  if negb (v_enabled v) then (v, Ok tt)
  else
    let v := count_validation v in
    counted v (ast <-? prove_bounds v output ;;
               prove_schema_constraints ast execution_payload_schema).

Definition prove_json_safety (output : string) (v : Z3FormalValidator)
    : Z3FormalValidator * result unit PayloadViolation :=
  if negb (v_enabled v) then (v, Ok tt)
  else
    let v := count_validation v in
    counted v (_ <-? prove_bounds v output ;; Ok tt).

(** ** Leaves

    What a single node of an accepted payload satisfies, and the nodes of a tree. *)
Definition node_ok (a : AstNode) : Prop :=
  match a with
  | Integer v => Z.abs v <= MAX_NUMERIC_VALUE
  | Float v => is_finite v = true /\ f64_gt (f64_abs v) (f64_of_Z MAX_NUMERIC_VALUE) = false
  | Str s => len s <= MAX_AST_STRING_LENGTH
  | Object entries =>
      NoDup (List.map fst entries) /\ Forall (fun e => len e.1 <= MAX_AST_STRING_LENGTH) entries
  | _ => True
  end.

Inductive subnode : AstNode -> AstNode -> Prop :=
  | sub_refl a : subnode a a
  | sub_item n a items : In a items -> subnode n a -> subnode n (Array items)
  | sub_entry n a k entries : In (k, a) entries -> subnode n a -> subnode n (Object entries).

Lemma entries_ok_spec f seen entries :
  entries_ok f seen entries = Ok tt <->
  (forall k, k ∈ List.map fst entries -> k ∉ seen) /\ NoDup (List.map fst entries) /\
  Forall (fun e => len e.1 <= MAX_AST_STRING_LENGTH) entries /\
  Forall (fun e => f e.2 = Ok tt) entries.
Proof.
  revert seen. induction entries as [|[k a] entries IH]; intros seen; simpl.
  { split; [|done]. intros _. split_and!; [set_solver|constructor..]. }
  rewrite NoDup_cons, !Forall_cons. simpl.
  case_decide; [split; [done|]; naive_solver lia|].
  case_decide as Hin; [split; [done|]; set_solver|].
  destruct (f a) as [[]|e]; simpl; [rewrite IH|naive_solver].
  split.
  - intros (Hs & Hn & Hk & Hf). split_and!; try done; try lia; set_solver.
  - intros (Hs & [Hka Hn] & [_ Hk] & [_ Hf]). split_and!; try done. set_solver.
Qed.

Lemma validate_leaf_bounds_spec a :
  validate_leaf_bounds a = Ok tt <-> forall n, subnode n a -> node_ok n.
Proof.
  induction a as [|b|v|v|s|items IH|entries IH] using AstNode_nested_ind; simpl.
  - split; [|done]. intros _ n Hn. by inversion Hn.
  - split; [|done]. intros _ n Hn. by inversion Hn.
  - case_decide; split; try done.
    + intros Hn. specialize (Hn _ (sub_refl _)). simpl in Hn. lia.
    + intros _ n Hn. inversion Hn; subst. simpl. lia.
  - split.
    + intros Hv n Hn. inversion Hn; subst. simpl. destruct (is_finite v); [|done].
      by destruct (f64_gt _ _).
    + intros Hn. specialize (Hn _ (sub_refl _)). simpl in Hn. destruct Hn as [-> ->]. done.
  - case_decide; split; try done.
    + intros Hn. specialize (Hn _ (sub_refl _)). simpl in Hn. lia.
    + intros _ n Hn. inversion Hn; subst. simpl. lia.
  - rewrite all_ok_Forall, List.Forall_forall. rewrite List.Forall_forall in IH. split.
    + intros Hall n Hn. inversion Hn as [|? a ? Hin Hsub|]; subst; [done|].
      by apply (IH a Hin); [apply Hall|].
    + intros Hn a Hin. apply IH; [done|]. intros n Hsub. by apply Hn, (sub_item _ a).
  - rewrite entries_ok_spec, (List.Forall_forall (fun e => validate_leaf_bounds _ = _)).
    rewrite List.Forall_forall in IH. split.
    + intros (_ & Hnd & Hlen & Hall) n Hn.
      inversion Hn as [| |? a k ? Hin Hsub]; subst; [done|].
      by apply (IH (k, a) Hin); [apply (Hall (k, a))|].
    + intros Hn. destruct (Hn _ (sub_refl _)) as [Hnd Hlen].
      split_and!; [set_solver|done|done|]. intros [k a] Hin. apply IH; [done|].
      intros n Hsub. by apply Hn, (sub_entry _ a k).
Qed.

(** ** The schema *)

Lemma prove_schema_constraints_spec ast schema :
  prove_schema_constraints ast schema = Ok tt <->
  exists obj, ast = Object obj /\ Z.of_nat (length obj) <= MAX_OBJECT_KEYS /\
    Forall (fun e => suspicious_key e.1 = false) obj /\
    Forall (fun c => match List.find (fun e => names_field c e.1) obj with
      | Some e => prove_field_constraint (f_name c) e.2 (field_type c) = Ok tt
      | None => required c = false end) schema.
Proof.
  unfold prove_schema_constraints. destruct ast as [| | | | | |obj]; try naive_solver.
  case_decide; [naive_solver lia|].
  assert (Hk : all_ok (fun e : string * AstNode => check_key e.1) obj = Ok tt <->
    Forall (fun e => suspicious_key e.1 = false) obj).
  { rewrite all_ok_Forall. apply Forall_iff. intros [k a]. unfold check_key. simpl.
    by destruct (suspicious_key k). }
  assert (Hf : all_ok (check_field obj) schema = Ok tt <->
    Forall (fun c => match List.find (fun e => names_field c e.1) obj with
      | Some e => prove_field_constraint (f_name c) e.2 (field_type c) = Ok tt
      | None => required c = false end) schema).
  { rewrite all_ok_Forall. apply Forall_iff. intros c. unfold check_field.
    destruct (List.find _ obj) as [[k a]|]; [done|]. by destruct (required c). }
  destruct (all_ok (fun e => check_key e.1) obj) as [[]|e]; simpl.
  - rewrite Hf. split; [intros; exists obj; split_and!; [done|lia|by apply Hk|done]|].
    intros (o & [=<-] & _ & _ & Hall). done.
  - split; [done|]. intros (o & [=<-] & _ & Hs & _). by apply Hk in Hs.
Qed.

(** What a field type demands of a value. *)
Definition field_ok (t : FieldType) (a : AstNode) : Prop :=
  match t, a with
  | StringExactLen n, Str s => len s = n /\ is_ascii_uppercase s = true
  | StringRange min max, Str s => min <= len s <= max
  | StringPrefix p, Str s => starts_with p s = true
  | IntegerRange min max, Integer v => min <= v <= max
  | IntegerRange min max, Float f =>
      min <= f64_as_i64 f <= max /\
      f64_gt (f64_abs (f64_sub f (f64_of_Z (f64_as_i64 f)))) f64_epsilon = false
  | FloatRange min max, Integer v =>
      f64_lt (f64_of_Z v) min = false /\ f64_gt (f64_of_Z v) max = false
  | FloatRange min max, Float v => f64_lt v min = false /\ f64_gt v max = false
  | FloatMinThreshold m, Integer v => f64_lt (f64_of_Z v) m = false
  | FloatMinThreshold m, Float v => f64_lt v m = false
  | _, _ => False
  end.

Lemma prove_field_constraint_spec name a t :
  prove_field_constraint name a t = Ok tt <-> field_ok t a.
Proof.
  destruct t, a; simpl; try done;
    repeat (case_match || case_decide || case_bool_decide); simplify_eq/=;
    try rewrite ?negb_true_iff, ?negb_false_iff, ?orb_true_iff, ?orb_false_iff in *;
    naive_solver (lia || congruence).
Qed.

Lemma prove_bounds_spec v output ast :
  prove_bounds v output = Ok ast <->
  utf8_valid output = true /\ len output <= MAX_STRING_LENGTH * 10 /\
  parse_to_ast output = Ok ast /\
  node_count ast <= MAX_AST_NODES /\ depth ast <= MAX_JSON_DEPTH /\
  memory_footprint ast <= max_memory_region v /\ (forall n, subnode n ast -> node_ok n).
Proof.
  unfold prove_bounds. destruct (utf8_valid output); simpl; [|split; [done|by intros [? _]]].
  case_decide; [split; [done|intros (_ & ? & _); lia]|].
  destruct (parse_to_ast output) as [a|e]; simpl; [|split; [done|by intros (_ & _ & ? & _)]].
  split.
  - intros H0. repeat case_decide; try done.
    destruct (validate_leaf_bounds a) as [[]|e] eqn:E; simplify_eq/=.
    rewrite validate_leaf_bounds_spec in E. split_and!; done || lia.
  - intros (_ & _ & [= ->] & ? & ? & ? & Hn). rewrite !decide_False by lia.
    apply validate_leaf_bounds_spec in Hn. by rewrite Hn.
Qed.

(** C26: an enabled validator accepts a payload exactly when it is UTF-8 of at
    most 640 KiB whose syntax tree is an object within the bounds on nodes, depth
    and memory, every node of which is in range (no number beyond a u32 in
    magnitude or not finite, no long string, no duplicate key), that has no
    suspicious key and satisfies the execution schema; every run is counted,
    and every rejection, of whatever kind, once. *)
Theorem prove_safety_spec v output :
  v_enabled v = true ->
  let '(v', r) := prove_safety output v in
  validation_count v' = wrapping_add U64_MAX (validation_count v) 1 /\
  rejection_count v' =
    (if is_ok r then rejection_count v else wrapping_add U64_MAX (rejection_count v) 1) /\
  (r = Ok tt <->
   utf8_valid output = true /\ len output <= MAX_STRING_LENGTH * 10 /\
   exists obj, parse_to_ast output = Ok (Object obj) /\
     node_count (Object obj) <= MAX_AST_NODES /\ depth (Object obj) <= MAX_JSON_DEPTH /\
     memory_footprint (Object obj) <= max_memory_region v /\
     (forall n, subnode n (Object obj) -> node_ok n) /\
     Z.of_nat (length obj) <= MAX_OBJECT_KEYS /\
     Forall (fun e => suspicious_key e.1 = false) obj /\
     Forall (fun c => match List.find (fun e => names_field c e.1) obj with
       | Some e => field_ok (field_type c) e.2
       | None => required c = false end) execution_payload_schema).
Proof.
  intros He. unfold prove_safety. rewrite He. simpl negb. cbv iota zeta.
  set (r := ast <-? _ ;; _). unfold counted.
  split_and!; [by destruct r|by destruct r|].
  assert (Hr : r = Ok tt <-> exists ast, prove_bounds (count_validation v) output = Ok ast /\
    prove_schema_constraints ast execution_payload_schema = Ok tt).
  { unfold r. destruct (prove_bounds _ output); simpl; naive_solver. }
  rewrite Hr. setoid_rewrite prove_bounds_spec. setoid_rewrite prove_schema_constraints_spec.
  assert (Hf : forall obj c,
    (match List.find (fun e => names_field c e.1) obj with
     | Some e => prove_field_constraint (f_name c) e.2 (field_type c) = Ok tt
     | None => required c = false end) <->
    (match List.find (fun e => names_field c e.1) obj with
     | Some e => field_ok (field_type c) e.2
     | None => required c = false end)).
  { intros obj c. destruct (List.find _ obj); [apply prove_field_constraint_spec|done]. }
  setoid_rewrite Hf. clear Hf Hr. split.
  - intros (ast & (? & ? & ? & ? & ? & ? & ?) & obj & -> & ? & ? & ?).
    split_and!; [done|done|]. exists obj. by split_and!.
  - intros (? & ? & obj & ? & ? & ? & ? & ? & ? & ? & ?).
    exists (Object obj). split; [by split_and!|]. exists obj. by split_and!.
Qed.
End validator.

(** ** Witness *)

Definition demo_payload : @Value Z :=
  JObject [("networkId", JString "mantle"); ("task_type", JString "price");
           ("confidenceScore", JNumber 1); ("maxGasLimit", JNumber 21000)].
Definition demo_parse (s : string) : result (@Value Z) string :=
  if bool_decide (s = "payload") then Ok demo_payload else Err "syntax error".
Definition demo_validate :=
  prove_safety Some (fun _ => None) demo_parse (fun _ => "") (fun _ => "").

Lemma prove_safety_spec_witness :
  let '(v', r) := demo_validate "payload" (validator_new true) in
  r = Ok tt /\ validation_count v' = 1 /\ rejection_count v' = 0.
Proof.
  pose proof (prove_safety_spec Some (fun _ => None) demo_parse (fun _ => "") (fun _ => "")
    (validator_new true) "payload" eq_refl) as H.
  unfold demo_validate.
  assert (E : prove_safety Some (fun _ => None) demo_parse (fun _ => "") (fun _ => "")
    "payload" (validator_new true) = (count_validation (validator_new true), Ok tt))
    by (by vm_compute).
  rewrite E in *. destruct H as (Hv & Hr & _). split_and!; [done|exact Hv|exact Hr].
Defined.
