(* ===== verification/FuelMonitor.v ===== *)
(** * crates/core/src/engine/fuel_monitor.rs: energy sensing and emergency shutdown

    [FuelMonitor] adds consumption to an atomic counter, classifies the total
    against the quota and stores the state.  Two atomic accesses: their
    interleavings by concurrent callers are a transition system. *)
From S2P Require Import Prelude F64 PayloadValidator.

Definition JOULES_PER_FUEL : f64 := f64_lit 1 10.
Definition DEFAULT_FUEL_QUOTA : Z := SIS_FUEL_QUOTA.
Definition PRE_SHUTDOWN_THRESHOLD : f64 := f64_lit 90 2.
Definition CRITICAL_THRESHOLD : f64 := f64_lit 95 2.

Inductive EsdState : Type := Normal | Warning | Critical | EmergencyShutdown.
#[export] Instance EsdState_eq_dec : EqDecision EsdState.
Proof. solve_decision. Defined.
Definition EsdState_as_u8 (s : EsdState) : Z :=
  match s with Normal => 0 | Warning => 1 | Critical => 2 | EmergencyShutdown => 3 end.

(** [wasmtime::Trap], of which the monitor raises one. *)
Inductive Trap : Type := Interrupt.

Record FuelMonitor := mkMonitor {
  fuel_consumed : Z;
  fuel_quota : Z;
  state : Z;
  start_time : Z;
  esd_callback : bool }.

Definition monitor_new (now fuel_quota : Z) : FuelMonitor :=
  mkMonitor 0 fuel_quota (EsdState_as_u8 Normal) now false.
Definition monitor_default (now : Z) : FuelMonitor := monitor_new now DEFAULT_FUEL_QUOTA.
Definition with_esd_callback (m : FuelMonitor) : FuelMonitor :=
  mkMonitor (fuel_consumed m) (fuel_quota m) (state m) (start_time m) true.
Definition set_consumed (n : Z) (m : FuelMonitor) : FuelMonitor :=
  mkMonitor n (fuel_quota m) (state m) (start_time m) (esd_callback m).
Definition set_state (s : EsdState) (m : FuelMonitor) : FuelMonitor :=
  mkMonitor (fuel_consumed m) (fuel_quota m) (EsdState_as_u8 s) (start_time m) (esd_callback m).

Definition compute_state (consumed : Z) (m : FuelMonitor) : EsdState :=
  let utilization := f64_div (f64_of_Z consumed) (f64_of_Z (fuel_quota m)) in
  if f64_ge utilization f64_one then EmergencyShutdown
  else if f64_ge utilization CRITICAL_THRESHOLD then Critical
  else if f64_ge utilization PRE_SHUTDOWN_THRESHOLD then Warning
  else Normal.

(** The result, and whether the callback was called. *)
Definition consume_result (m : FuelMonitor) (new_state : EsdState) : result unit Trap * bool :=
  match new_state with
  | EmergencyShutdown => (Err Interrupt, esd_callback m)
  | _ => (Ok tt, false)
  end.

Definition consume (fuel : Z) (m : FuelMonitor) : FuelMonitor * (result unit Trap * bool) :=
  let total := fuel_consumed m in
  let m := set_consumed (wrapping_add U64_MAX total fuel) m in
  let new_total := saturating_add U64_MAX total fuel in
  let new_state := compute_state new_total m in
  (set_state new_state m, consume_result m new_state).

Definition current_state (m : FuelMonitor) : EsdState :=
  match state m with
  | 0 => Normal | 1 => Warning | 2 => Critical | 3 => EmergencyShutdown | _ => Normal
  end.
Definition fuel_remaining (m : FuelMonitor) : Z := saturating_sub (fuel_quota m) (fuel_consumed m).
Definition joules_consumed (m : FuelMonitor) : f64 :=
  f64_mul (f64_of_Z (fuel_consumed m)) JOULES_PER_FUEL.

Record EnergyMetrics := mkEnergy {
  e_fuel_consumed : Z; e_fuel_remaining : Z; e_joules_consumed : f64;
  utilization_percent : f64; e_state : EsdState; uptime : Z }.
Definition metrics (now : Z) (m : FuelMonitor) : EnergyMetrics :=
  mkEnergy (fuel_consumed m) (fuel_remaining m) (joules_consumed m)
    (f64_mul (f64_div (f64_of_Z (fuel_consumed m)) (f64_of_Z (fuel_quota m))) (f64_of_Z 100))
    (current_state m) (elapsed_since (start_time m) now).

Definition monitor_reset (m : FuelMonitor) : FuelMonitor := set_state Normal (set_consumed 0 m).
Definition is_esd_active (m : FuelMonitor) : bool :=
  bool_decide (current_state m = EmergencyShutdown).

(** ** Concurrent callers

    A caller first adds its fuel and classifies the total it got, then stores
    the state and returns. *)
Inductive Consumer : Type :=
  | AtFetch (fuel : Z)
  | AtStore (new_state : EsdState)
  | Returned (r : result unit Trap).

Inductive consumer_step : FuelMonitor * Consumer -> FuelMonitor * Consumer -> Prop :=
  | cs_fetch m fuel :
      consumer_step (m, AtFetch fuel)
        (set_consumed (wrapping_add U64_MAX (fuel_consumed m) fuel) m,
         AtStore (compute_state (saturating_add U64_MAX (fuel_consumed m) fuel) m))
  | cs_store m s :
      consumer_step (m, AtStore s) (set_state s m, Returned (consume_result m s).1).

Inductive fuel_step : FuelMonitor * list Consumer -> FuelMonitor * list Consumer -> Prop :=
  | fuel_step_at m cs i c m' c' :
      cs !! i = Some c -> consumer_step (m, c) (m', c') ->
      fuel_step (m, cs) (m', <[i := c']> cs).

(** ** Classification *)

Lemma compute_state_esd consumed m :
  0 <= consumed < 2 ^ 53 -> 0 < fuel_quota m < 2 ^ 53 ->
  compute_state consumed m = EmergencyShutdown <-> fuel_quota m <= consumed.
Proof.
  intros Hc Hq. unfold compute_state, f64_ge.
  change (SpecFloat.SFleb f64_one ?x) with (f64_le f64_one x). rewrite f64_ratio_full by done.
  destruct (Z.leb_spec (fuel_quota m) consumed); [split; done|].
  split; [|lia]. repeat case_match; done.
Qed.

(** The fuel a caller has still to add. *)
Definition pending (c : Consumer) : Z := match c with AtFetch fuel => fuel | _ => 0 end.
Definition interrupted (c : Consumer) : bool :=
  match c with
  | AtStore EmergencyShutdown | Returned (Err Interrupt) => true
  | _ => false
  end.

Lemma interrupted_store s : interrupted (AtStore s) = true <-> s = EmergencyShutdown.
Proof. by destruct s. Qed.

Record fuel_inv (quota total : Z) (s : FuelMonitor * list Consumer) : Prop := {
  fi_quota : fuel_quota s.1 = quota;
  fi_pending : Forall (fun c => 0 <= pending c) s.2;
  fi_consumed : 0 <= fuel_consumed s.1;
  fi_sum : fuel_consumed s.1 + sum (List.map pending s.2) = total;
  fi_interrupted : existsb interrupted s.2 = true <-> quota <= fuel_consumed s.1 }.

Lemma sum_insert (l : list Consumer) i c c' :
  l !! i = Some c ->
  sum (List.map pending (<[i := c']> l)) = sum (List.map pending l) - pending c + pending c'.
Proof.
  unfold sum. revert i. induction l as [|x l IH]; intros [|i] Hi; simplify_eq/=; [lia|].
  rewrite (IH i Hi). lia.
Qed.

Lemma sum_nonneg (l : list Consumer) i c :
  Forall (fun c => 0 <= pending c) l -> l !! i = Some c ->
  0 <= pending c <= sum (List.map pending l).
Proof.
  unfold sum. intros Hl. revert i. induction Hl as [|x l Hx Hl IH]; intros i Hi; [done|].
  assert (0 <= fold_right Z.add 0 (List.map pending l)) by (clear -Hl; induction Hl; simpl; lia).
  destruct i as [|i]; simplify_eq/=; [lia|]. specialize (IH i Hi). lia.
Qed.

Lemma existsb_insert (p : Consumer -> bool) (l : list Consumer) i c c' :
  l !! i = Some c -> p c = false ->
  existsb p (<[i := c']> l) = p c' || existsb p l.
Proof.
  revert i. induction l as [|x l IH]; intros [|i] Hi Hp; simplify_eq/=.
  - by rewrite Hp.
  - rewrite (IH i Hi Hp). by destruct (p x), (p c').
Qed.

Lemma existsb_insert_same (p : Consumer -> bool) (l : list Consumer) i c c' :
  l !! i = Some c -> p c = p c' -> existsb p (<[i := c']> l) = existsb p l.
Proof.
  revert i. induction l as [|x l IH]; intros [|i] Hi Hp; simplify_eq/=; [by rewrite Hp|].
  by rewrite (IH i Hi Hp).
Qed.

Lemma fuel_step_inv quota total s s' :
  0 < quota < 2 ^ 53 -> total < 2 ^ 53 ->
  fuel_inv quota total s -> fuel_step s s' -> fuel_inv quota total s'.
Proof.
  intros Hq Ht [H1 H2 H3 H4 H5] Hs. destruct Hs as [m cs i c m' c' Hi Hs]. simpl in *.
  pose proof (sum_nonneg cs i c H2 Hi) as Hp.
  inversion Hs as [? fuel|? s]; subst; simpl in *.
  - unfold saturating_add. rewrite Z.min_l by ulia. rewrite wrapping_add_small by ulia.
    pose proof (compute_state_esd (fuel_consumed m + fuel) m ltac:(lia) Hq) as Hc.
    constructor; simpl; rewrite ?wrapping_add_small by ulia.
    + done.
    + by apply Forall_insert; [|simpl; lia].
    + lia.
    + rewrite (sum_insert _ _ _ _ Hi). simpl. lia.
    + rewrite (existsb_insert _ _ _ _ _ Hi eq_refl), orb_true_iff, H5, interrupted_store, Hc. lia.
  - constructor; simpl; try done.
    + by apply Forall_insert; [|simpl; lia].
    + rewrite (sum_insert _ _ _ _ Hi). simpl. lia.
    + rewrite (existsb_insert_same _ _ _ _ _ Hi); [done|]. by destruct s.
Qed.

(** Exhaustion is never missed: however concurrent consumers interleave,
    once all have returned the counter holds the sum of their fuel and some
    consumer got the interrupt exactly when that sum reaches the quota (below
    2^53, where the ratio is classified exactly at 100%). *)
Theorem exhaustion_interrupts now quota fuels m cs :
  0 < quota < 2 ^ 53 -> Forall (fun f => 0 <= f) fuels -> sum fuels < 2 ^ 53 ->
  rtc fuel_step (monitor_new now quota, List.map AtFetch fuels) (m, cs) ->
  Forall (fun c => exists r, c = Returned r) cs ->
  fuel_consumed m = sum fuels /\
  (existsb interrupted cs = true <-> quota <= sum fuels).
Proof.
  intros Hq Hf Ht Hr Hd.
  assert (Hi : fuel_inv quota (sum fuels) (m, cs)).
  { revert Hr. apply (rtc_ind_r _ (monitor_new now quota, List.map AtFetch fuels)).
    - constructor; simpl.
      + done.
      + by apply Forall_map.
      + done.
      + by rewrite List.map_map, List.map_id.
      + split; [|lia]. clear. by induction fuels.
    - intros. eauto using fuel_step_inv. }
  destruct Hi as [_ _ _ Hsum Hint]. simpl in *.
  assert (Hz : sum (List.map pending cs) = 0).
  { clear -Hd. unfold sum. by induction Hd as [|c cs [r ->] Hd IH]. }
  rewrite Hint. split; [lia|]. by replace (fuel_consumed m) with (sum fuels) by lia.
Qed.

(** The stored state is not reliable under concurrency: for every quota
    there is an interleaving of two consumers that exhausts it, interrupts the one
    that crosses it, and leaves a state other than [EmergencyShutdown], because the
    other consumer, which read an earlier total, stores its state last. *)
Theorem esd_state_lost now quota :
  1 < quota < 2 ^ 53 ->
  exists m cs, rtc fuel_step (monitor_new now quota, [AtFetch 1; AtFetch (quota - 1)]) (m, cs) /\
    cs = [Returned (Ok tt); Returned (Err Interrupt)] /\
    fuel_consumed m = quota /\ is_esd_active m = false.
Proof.
  intros Hq. set (m0 := monitor_new now quota).
  set (s1 := compute_state 1 m0). set (m1 := set_consumed 1 m0).
  set (m2 := set_consumed quota m1).
  assert (Hs1 : s1 <> EmergencyShutdown).
  { intros He. apply compute_state_esd in He; simpl in *; lia. }
  assert (Hs2 : compute_state quota m1 = EmergencyShutdown).
  { apply compute_state_esd; simpl; lia. }
  exists (set_state s1 (set_state EmergencyShutdown m2)),
    [Returned (consume_result m2 s1).1; Returned (Err Interrupt)].
  split_and!; [|by destruct s1|done|].
  - eapply rtc_l; [apply (fuel_step_at _ _ 0 (AtFetch 1)); [done|constructor]|].
    change (wrapping_add U64_MAX (fuel_consumed m0) 1) with 1.
    change (saturating_add U64_MAX (fuel_consumed m0) 1) with 1.
    eapply rtc_l; [apply (fuel_step_at _ _ 1 (AtFetch (quota - 1))); [done|constructor]|].
    fold m1. replace (wrapping_add U64_MAX (fuel_consumed m1) (quota - 1)) with quota
      by (rewrite wrapping_add_small; simpl; ulia).
    replace (saturating_add U64_MAX (fuel_consumed m1) (quota - 1)) with quota
      by (unfold saturating_add; simpl; ulia).
    rewrite Hs2.
    eapply rtc_l; [apply (fuel_step_at _ _ 1 (AtStore EmergencyShutdown)); [done|constructor]|].
    eapply rtc_l; [apply (fuel_step_at _ _ 0 (AtStore s1)); [done|constructor]|]. apply rtc_refl.
  - unfold is_esd_active. apply bool_decide_false. unfold current_state. simpl.
    by destruct s1.
Qed.

(** ** Witnesses *)

Lemma exhaustion_interrupts_witness :
  exists m cs, fuel_consumed m = 10 /\ (existsb interrupted cs = true <-> 10 <= 10).
Proof.
  set (m := set_state EmergencyShutdown (set_consumed 10 (monitor_new 0 10))).
  exists m, [Returned (Err Interrupt)].
  apply (exhaustion_interrupts 0 10 [10] m [Returned (Err Interrupt)]); simpl; [lia|by repeat constructor|lia| |].
  - eapply rtc_l; [apply (fuel_step_at _ _ 0 (AtFetch 10)); [reflexivity|constructor]|].
    eapply rtc_l; [apply (fuel_step_at _ _ 0 (AtStore EmergencyShutdown)); [reflexivity|constructor]|].
    apply rtc_refl.
  - repeat constructor. by eexists.
Defined.

Lemma esd_state_lost_witness :
  exists m cs, rtc fuel_step (monitor_new 0 100, [AtFetch 1; AtFetch (100 - 1)]) (m, cs) /\
    cs = [Returned (Ok tt); Returned (Err Interrupt)] /\
    fuel_consumed m = 100 /\ is_esd_active m = false.
Proof. apply (esd_state_lost 0 100). lia. Defined.
