(* ===== verification/HotSwap.v ===== *)
(** * crates/core/src/engine/hot_swap.rs

    The hot-swap container (an atomically swapped module and a swap counter) and
    the safety interlock that accounts fuel against a limit. *)
From S2P Require Import Prelude PayloadValidator.

Definition GLOBAL_FUEL_QUOTA : Z := SIS_FUEL_QUOTA.

(** ** HotSwapContainer *)

Section container.
Context {T : Type}.

Record HotSwapContainer := mkContainer {
  inner : T; module_name : string; swap_count : Z }.

Definition container_new (initial : T) (module_name : string) : HotSwapContainer :=
  mkContainer initial module_name 0.
Definition load (c : HotSwapContainer) : T := inner c.

(** The module is swapped and counted before [count + 1] may overflow. *)
Definition swap (new_module : T) (c : HotSwapContainer) : outcome (HotSwapContainer * T) :=
  let old := inner c in
  let c' := mkContainer new_module (module_name c) (wrapping_add U64_MAX (swap_count c) 1) in
  _ ← add_u U64_MAX (swap_count c) 1; Ret (c', old).

Definition swap_and_forget (new_module : T) (c : HotSwapContainer) : outcome HotSwapContainer :=
  '(c, _) ← swap new_module c; Ret c.

(** Swaps in sequence, with the modules they return. *)
Fixpoint swaps (modules : list T) (c : HotSwapContainer) : outcome (HotSwapContainer * list T) :=
  match modules with
  | [] => Ret (c, [])
  | m :: modules =>
      '(c, old) ← swap m c; '(c, olds) ← swaps modules c; Ret (c, old :: olds)
  end.

(** No module is lost or duplicated by swapping: the modules that swaps
    return, followed by the one left installed, are the initial module followed by
    those that were passed in, in order; and the counter is their number. *)
Theorem swap_chain initial name modules :
  Z.of_nat (length modules) <= U64_MAX ->
  exists c olds, swaps modules (container_new initial name) = Ret (c, olds) /\
    (olds ++ [load c])%list = initial :: modules /\
    swap_count c = Z.of_nat (length modules) /\ module_name c = name.
Proof.
  unfold container_new. intros Hl.
  assert (Hgen : forall n, 0 <= n -> n + Z.of_nat (length modules) <= U64_MAX ->
    exists c olds, swaps modules (mkContainer initial name n) = Ret (c, olds) /\
      (olds ++ [load c])%list = initial :: modules /\
      swap_count c = n + Z.of_nat (length modules) /\ module_name c = name).
  { clear Hl. revert initial. induction modules as [|m modules IH]; intros initial n Hn Hl; simpl in *.
    - eexists _, []. split_and!; [done|done|simpl; lia|done].
    - unfold swap. simpl. unfold add_u. rewrite decide_True by lia. simpl.
      rewrite wrapping_add_small by lia.
      destruct (IH m (n + 1)) as (c & olds & -> & Hc & Hn' & Hname); [lia|lia|].
      simpl. eexists _, _. split_and!; [done|simpl; by f_equal|lia|done]. }
  by apply (Hgen 0).
Qed.
End container.

(** ** TypeErasedContainer

    [dyn Any] values: [Plain t v] is a value of the type named [t], [Boxed a] a
    [Box<dyn Any + Send + Sync>] around one, which is itself a value of a type. *)

Section erased.
Context {V : Type}.

Inductive any : Type := Plain (t : string) (v : V) | Boxed (a : any).
(** [TypeId]; [None] is the box's. *)
Definition type_id (a : any) : option string := match a with Plain t _ => Some t | Boxed _ => None end.

Record TypeErasedContainer := mkErased { erased : any; erased_name : string }.
Inductive AbiError : Type := TypeMismatch (container expected found : string).

Definition erased_new (t : string) (initial : V) (module_name : string) : TypeErasedContainer :=
  mkErased (Boxed (Plain t initial)) module_name.
Definition erased_load (c : TypeErasedContainer) : any := erased c.

(** [type_name_of_val] of a [&dyn Any] names the trait object.  [t] is a type that
    implements [Clone], which the box does not. *)
Definition downcast (t : string) (c : TypeErasedContainer) : result V AbiError :=
  let any := erased c in
  if decide (type_id any = Some t) then
    match any with
    | Plain _ v => Ok v
    | Boxed _ => Err (TypeMismatch (erased_name c) t "<unknown>")
    end
  else Err (TypeMismatch (erased_name c) t "dyn core::any::Any").

Definition erased_swap (t : string) (new_module : V) (c : TypeErasedContainer) : TypeErasedContainer * any :=
  (mkErased (Boxed (Plain t new_module)) (erased_name c), erased c).

Fixpoint erased_swaps (modules : list (string * V)) (c : TypeErasedContainer) : TypeErasedContainer * list any :=
  match modules with
  | [] => (c, [])
  | (t, m) :: modules =>
      let '(c, old) := erased_swap t m c in
      let '(c, olds) := erased_swaps modules c in (c, old :: olds)
  end.

(** The container never gives back what was stored: after any sequence of swaps the
    downcast to every type, the stored one included, is refused, because the box is
    asked for its type and not the value in it; the swaps themselves lose nothing. *)
Theorem downcast_always_refused t initial name modules t' :
  let '(c, olds) := erased_swaps modules (erased_new t initial name) in
  (olds ++ [erased_load c])%list =
    Boxed (Plain t initial) :: ((fun m => Boxed (Plain m.1 m.2)) <$> modules) /\
  downcast t' c = Err (TypeMismatch name t' "dyn core::any::Any").
Proof.
  revert t initial. induction modules as [|[t1 m] modules IH]; intros t initial; [done|].
  specialize (IH t1 m). cbn [erased_swaps erased_swap erased_new erased_name]. unfold erased_new in IH.
  destruct (erased_swaps modules _) as [c olds]. destruct IH as [IH Hd]. split; [|done].
  cbn [app]. rewrite IH. done.
Qed.
End erased.

(** ** SisInterlock *)

Inductive SisInterlockState : Type := Normal | PreShutdown | EmergencyShutdown | Locked.
#[export] Instance SisInterlockState_eq_dec : EqDecision SisInterlockState.
Proof. solve_decision. Defined.
Definition SisInterlockState_as_u8 (s : SisInterlockState) : Z :=
  match s with Normal => 0 | PreShutdown => 1 | EmergencyShutdown => 2 | Locked => 3 end.

Record SisInterlock := mkInterlock { sis_state : Z; fuel_consumed : Z; fuel_limit : Z }.

Definition interlock_new (fuel_limit : Z) : SisInterlock :=
  mkInterlock (SisInterlockState_as_u8 Normal) 0 fuel_limit.
Definition interlock_default : SisInterlock := interlock_new GLOBAL_FUEL_QUOTA.

Definition transition_to (new_state : SisInterlockState) (s : SisInterlock) : SisInterlock :=
  mkInterlock (SisInterlockState_as_u8 new_state) (fuel_consumed s) (fuel_limit s).
Definition trigger_esd (s : SisInterlock) : SisInterlock := transition_to EmergencyShutdown s.

Definition consume_fuel (amount : Z) (s : SisInterlock) : outcome (SisInterlock * SisInterlockState) :=
  let total := fuel_consumed s in
  let s := mkInterlock (sis_state s) (wrapping_add U64_MAX total amount) (fuel_limit s) in
  new_total ← add_u U64_MAX total amount;
  if decide (fuel_limit s <= new_total) then Ret (trigger_esd s, EmergencyShutdown)
  else
    nine ← mul_u U64_MAX (fuel_limit s) 9;
    if decide (nine / 10 <= new_total) then Ret (transition_to PreShutdown s, PreShutdown)
    else Ret (s, Normal).

Definition current_state (s : SisInterlock) : SisInterlockState :=
  match sis_state s with
  | 0 => Normal | 1 => PreShutdown | 2 => EmergencyShutdown | 3 => Locked | _ => Normal
  end.
Definition fuel_remaining (s : SisInterlock) : Z := saturating_sub (fuel_limit s) (fuel_consumed s).
Definition interlock_reset (s : SisInterlock) : SisInterlock :=
  transition_to Normal (mkInterlock (sis_state s) 0 (fuel_limit s)).

(** ** Specification *)

Definition classify (limit total : Z) : SisInterlockState :=
  if decide (limit <= total) then EmergencyShutdown
  else if decide (limit * 9 / 10 <= total) then PreShutdown else Normal.

Fixpoint consumes (amounts : list Z) (s : SisInterlock)
    : outcome (SisInterlock * list SisInterlockState) :=
  match amounts with
  | [] => Ret (s, [])
  | a :: amounts =>
      '(s, r) ← consume_fuel a s; '(s, rs) ← consumes amounts s; Ret (s, r :: rs)
  end.

(** The running totals of the amounts. *)
Fixpoint running (n : Z) (amounts : list Z) : list Z :=
  match amounts with [] => [] | a :: amounts => (n + a) :: running (n + a) amounts end.

(** The interlock shows the class of the fuel consumed so far. *)
Definition tracks (s : SisInterlock) : Prop :=
  0 <= fuel_consumed s /\ 0 < fuel_limit s /\ fuel_limit s * 9 <= U64_MAX /\
  current_state s = classify (fuel_limit s) (fuel_consumed s).

Lemma current_state_transition new_state s : current_state (transition_to new_state s) = new_state.
Proof. by destruct new_state. Qed.

Lemma consume_fuel_tracks amount s :
  tracks s -> 0 <= amount -> fuel_consumed s + amount <= U64_MAX ->
  exists s', consume_fuel amount s = Ret (s', classify (fuel_limit s) (fuel_consumed s + amount)) /\
    tracks s' /\ fuel_consumed s' = fuel_consumed s + amount /\ fuel_limit s' = fuel_limit s.
Proof.
  intros (H0 & Hl & H9 & Hc) Ha Hfit. unfold consume_fuel.
  rewrite add_u_small by done. simpl. rewrite wrapping_add_small, mul_u_small by lia. simpl.
  assert (Hmono : fuel_limit s * 9 / 10 <= fuel_limit s) by (apply Z.div_le_upper_bound; lia).
  unfold classify. destruct (decide (fuel_limit s <= fuel_consumed s + amount)) as [Hd|Hd].
  - eexists. split; [done|]. split_and!; [|done|done]. unfold tracks, trigger_esd.
    rewrite current_state_transition. simpl. unfold classify. rewrite decide_True by done.
    split_and!; done || lia.
  - destruct (decide (fuel_limit s * 9 / 10 <= fuel_consumed s + amount)) as [Hd'|Hd'].
    + eexists. split; [done|]. split_and!; [|done|done]. unfold tracks.
      rewrite current_state_transition. simpl. unfold classify.
      rewrite decide_False, decide_True by done. split_and!; done || lia.
    + eexists. split; [done|]. split_and!; [|done|done]. unfold tracks, current_state in *. simpl.
      unfold classify in *. rewrite !decide_False in Hc by lia. rewrite !decide_False by lia.
      split_and!; done || lia.
Qed.

(** The interlock tracks its quota: each consumption returns, and the
    interlock then shows, the class of the fuel consumed so far, pre-shutdown from
    90% of the limit and emergency shutdown from 100% on, so that consumption
    alone never leaves the emergency shutdown; the remaining fuel is what is left. *)
Theorem interlock_tracks_quota limit amounts :
  2 <= limit -> limit * 9 <= U64_MAX -> Forall (fun a => 0 <= a) amounts ->
  sum amounts <= U64_MAX ->
  exists s, consumes amounts (interlock_new limit) =
      Ret (s, List.map (classify limit) (running 0 amounts)) /\
    current_state s = classify limit (sum amounts) /\
    fuel_remaining s = Z.max 0 (limit - sum amounts).
Proof.
  intros Hl H9 Ha Hs.
  assert (Ht : tracks (interlock_new limit)).
  { unfold tracks, classify. simpl. rewrite decide_False by lia. split_and!; try done; [lia|].
    case_decide; [|done]. exfalso.
    assert (1 <= limit * 9 / 10) by (apply Z.div_le_lower_bound; lia). lia. }
  assert (Hgen : forall s, tracks s -> fuel_limit s = limit -> fuel_consumed s + sum amounts <= U64_MAX ->
    exists s', consumes amounts s =
      Ret (s', List.map (classify limit) (running (fuel_consumed s) amounts)) /\
      tracks s' /\ fuel_limit s' = limit /\ fuel_consumed s' = fuel_consumed s + sum amounts).
  { clear Ht Hs. unfold sum. induction Ha as [|a amounts Ha Has IH]; intros s Ht Hlim Hs; simpl in *.
    - exists s. split_and!; try done; lia.
    - assert (0 <= fold_right Z.add 0 amounts) by (clear -Has; induction Has; simpl; lia).
      destruct (consume_fuel_tracks a s Ht Ha) as (s1 & -> & Ht1 & Hc1 & Hl1); [lia|].
      simpl. destruct (IH s1) as (s' & -> & Ht' & Hl' & Hc'); [done|congruence|lia|].
      simpl. exists s'. rewrite Hc1, Hlim. split_and!; done || lia. }
  destruct (Hgen _ Ht eq_refl Hs) as (s & Hr & (_ & _ & _ & Hc) & Hl' & Hc').
  exists s. simpl in Hc'. unfold fuel_remaining, saturating_sub. rewrite Hc, Hl', Hc'. done.
Qed.

(** An operator's emergency shutdown is revoked by consumption: after
    [trigger_esd], a consumption that leaves the total between 90% and 100% of
    the limit puts the interlock back to pre-shutdown, and one that stays below
    90% reports [Normal] (the documentation calls the shutdown irreversible). *)
Theorem esd_revoked amount s :
  0 <= fuel_consumed s -> 0 <= amount -> fuel_consumed s + amount < fuel_limit s ->
  fuel_limit s * 9 <= U64_MAX ->
  current_state (trigger_esd s) = EmergencyShutdown /\
  exists s', consume_fuel amount (trigger_esd s) =
      Ret (s', if decide (fuel_limit s * 9 / 10 <= fuel_consumed s + amount)
               then PreShutdown else Normal) /\
    current_state s' = if decide (fuel_limit s * 9 / 10 <= fuel_consumed s + amount)
                       then PreShutdown else EmergencyShutdown.
Proof.
  intros H0 Ha Hlt H9. split; [done|]. unfold consume_fuel. simpl.
  rewrite add_u_small by ulia. simpl. rewrite (decide_False (P := fuel_limit s <= _)) by lia.
  rewrite mul_u_small by done. simpl. case_decide; by eexists.
Qed.

(** ** Witnesses *)

Lemma swap_chain_witness :
  exists c olds, swaps [7; 8] (container_new 42 "test"%string) = Ret (c, olds) /\
    (olds ++ [load c])%list = [42; 7; 8] /\ swap_count c = 2 /\ module_name c = "test"%string.
Proof. apply (swap_chain 42 "test"%string [7; 8]). simpl. ulia. Defined.

Lemma interlock_tracks_quota_witness :
  exists s, consumes [100; 850; 60] (interlock_new 1000) =
      Ret (s, [Normal; PreShutdown; EmergencyShutdown]) /\
    current_state s = EmergencyShutdown /\ fuel_remaining s = 0.
Proof.
  apply (interlock_tracks_quota 1000 [100; 850; 60]);
    [lia|ulia|repeat (constructor; [lia|]); constructor|simpl; ulia].
Defined.

Lemma esd_revoked_witness :
  let s := mkInterlock 0 920 1000 in
  current_state (trigger_esd s) = EmergencyShutdown /\
  exists s', consume_fuel 10 (trigger_esd s) = Ret (s', PreShutdown) /\
    current_state s' = PreShutdown.
Proof. apply (esd_revoked 10 (mkInterlock 0 920 1000)); simpl; [lia..|ulia]. Defined.
