(* ===== verification/Allocator.v ===== *)
(** * crates/core/src/allocator.rs

    The accounting of [TlsfPool] over the system allocator, and [CapabilityPtr],
    a bounds-checked pointer to values of a type [T].  The system allocator's
    answer is an argument; memory is an abstract store of values of [T]. *)
From S2P Require Import Prelude F64.

Definition MIN_BLOCK_SIZE : Z := 16.
Definition DEFAULT_POOL_SIZE : Z := 256 * 1024 * 1024.
Definition ISIZE_MAX : Z := I64_MAX.

Record CapabilityMetadata := mkMetadata {
  base : Z; length : Z; permissions : Z; seal : bool }.

Definition READ : Z := 1.
Definition WRITE : Z := 2.
Definition EXECUTE : Z := 4.
Definition SEAL : Z := 8.

Inductive TlsfError : Type :=
  | OutOfMemory | InvalidLayout | BoundsViolation | BoundsOverflow | PermissionDenied
  | DoubleFree | InvalidPointer.

(** [std::alloc::Layout]: a size and a power of two. *)
Record Layout := mkLayout { l_size : Z; l_align : Z }.
(** The size rounded up to the alignment must not exceed [isize::MAX]. *)
Definition from_size_align (size align : Z) : option Layout :=
  if decide (size <= ISIZE_MAX - (align - 1)) then Some (mkLayout size align) else None.

Record TlsfPool := mkPool {
  total_size : Z; used_size : Z; free_size : Z;
  allocation_count : Z; deallocation_count : Z; fragmentation_count : Z }.

Definition pool_new (size : Z) : TlsfPool := mkPool size 0 size 0 0 0.
Definition pool_default : TlsfPool := pool_new DEFAULT_POOL_SIZE.

Definition block_size (layout : Layout) : Z := Z.max (l_size layout) MIN_BLOCK_SIZE.

(** [alloc] is the system allocator: the address of the block, 0 on failure. *)
Definition allocate (alloc : Layout -> Z) (layout : Layout) (p : TlsfPool)
    : TlsfPool * result Z TlsfError :=
  let size := block_size layout in
  if decide (free_size p < size) then (p, Err OutOfMemory)
  else
    match from_size_align size (l_align layout) with
    | None => (p, Err InvalidLayout)
    | Some l =>
        let ptr := alloc l in
        if decide (ptr = 0) then (p, Err OutOfMemory)
        else (mkPool (total_size p) (wrapping_add USIZE_MAX (used_size p) size)
                (wrapping_sub USIZE_MAX (free_size p) size)
                (wrapping_add U64_MAX (allocation_count p) 1) (deallocation_count p)
                (fragmentation_count p), Ok ptr)
    end.

(** The block is handed back to the system allocator, and the counters updated. *)
Definition deallocate (ptr : Z) (layout : Layout) (p : TlsfPool) : TlsfPool * result unit TlsfError :=
  let size := block_size layout in
  (mkPool (total_size p) (wrapping_sub USIZE_MAX (used_size p) size)
     (wrapping_add USIZE_MAX (free_size p) size) (allocation_count p)
     (wrapping_add U64_MAX (deallocation_count p) 1) (fragmentation_count p), Ok tt).

Definition fragmentation_ratio (p : TlsfPool) : f64 :=
  if decide (total_size p = 0) then f64_zero
  else f64_sub f64_one (f64_div (f64_of_Z (used_size p)) (f64_of_Z (total_size p))).

(** ** CapabilityPtr

    [size_of] is the size of [T]; [get] and [put] read and write a [T] at an
    address of the store. *)
Section capability_ptr.
Context {T Mem : Type} (size_of : Z) (get : Mem -> Z -> T) (put : Mem -> Z -> T -> Mem).

Record CapabilityPtr := mkPtr { ptr : Z; capability : CapabilityMetadata }.

Definition ptr_new (p length permissions : Z) : CapabilityPtr :=
  mkPtr p (mkMetadata p length permissions false).

Definition can_read (c : CapabilityPtr) : bool :=
  negb (Z.land (permissions (capability c)) READ =? 0).
Definition can_write (c : CapabilityPtr) : bool :=
  negb (Z.land (permissions (capability c)) WRITE =? 0).
Definition can_execute (c : CapabilityPtr) : bool :=
  negb (Z.land (permissions (capability c)) EXECUTE =? 0).

Definition verify_bounds (offset access_size : Z) (c : CapabilityPtr) : result unit TlsfError :=
  match checked_add USIZE_MAX offset access_size with
  | None => Err BoundsOverflow
  | Some access_end =>
      if decide (length (capability c) <= offset \/ length (capability c) < access_end)
      then Err BoundsViolation else Ok tt
  end.

(** [ptr.add(offset)] of a pointer to [T] moves by [offset] elements. *)
Definition element_address (offset : Z) (c : CapabilityPtr) : Z := ptr c + offset * size_of.

Definition read (offset : Z) (m : Mem) (c : CapabilityPtr) : result T TlsfError :=
  _ <-? verify_bounds offset size_of c ;;
  if negb (can_read c) then Err PermissionDenied
  else Ok (get m (element_address offset c)).

Definition write (offset : Z) (value : T) (m : Mem) (c : CapabilityPtr)
    : Mem * result unit TlsfError :=
  match verify_bounds offset size_of c with
  | Err e => (m, Err e)
  | Ok _ =>
      if negb (can_write c) then (m, Err PermissionDenied)
      else (put m (element_address offset c) value, Ok tt)
  end.

(** The access lies in the region of the capability. *)
Definition in_region (address : Z) (c : CapabilityPtr) : Prop :=
  base (capability c) <= address /\
  address + size_of <= base (capability c) + length (capability c).

Lemma verify_bounds_Ok offset c :
  verify_bounds offset size_of c = Ok tt <->
  offset < length (capability c) /\ offset + size_of <= length (capability c) /\
  offset + size_of <= USIZE_MAX.
Proof.
  unfold verify_bounds, checked_add. repeat case_decide; split; try done; intros; lia.
Qed.
End capability_ptr.
Arguments CapabilityPtr : clear implicits.

(** ** Accounting *)

(** The pool together with the layouts of the live blocks. *)
Inductive pool_step : TlsfPool * list Layout -> TlsfPool * list Layout -> Prop :=
  | ps_allocate alloc layout p p' r live :
      0 <= l_size layout -> allocate alloc layout p = (p', r) ->
      pool_step (p, live) (p', if is_ok r then layout :: live else live)
  | ps_deallocate ptr layout p p' r live1 live2 :
      deallocate ptr layout p = (p', r) ->
      pool_step (p, (live1 ++ layout :: live2)%list) (p', (live1 ++ live2)%list).

Definition live_bytes (live : list Layout) : Z := fold_right (fun l n => block_size l + n) 0 live.

Lemma live_bytes_app l1 l2 : live_bytes (l1 ++ l2) = live_bytes l1 + live_bytes l2.
Proof. induction l1 as [|x l1 IH]; simpl; [done|]. unfold live_bytes in *. simpl. lia. Qed.

Lemma live_bytes_nonneg l : 0 <= live_bytes l.
Proof.
  unfold live_bytes, block_size, MIN_BLOCK_SIZE. induction l; simpl; [done|]. lia.
Qed.

Definition pool_inv (size : Z) (s : TlsfPool * list Layout) : Prop :=
  total_size s.1 = size /\ used_size s.1 = live_bytes s.2 /\
  free_size s.1 = size - live_bytes s.2 /\ 0 <= free_size s.1.

Lemma pool_step_inv size s s' :
  0 <= size <= USIZE_MAX -> pool_inv size s -> pool_step s s' -> pool_inv size s'.
Proof.
  intros Hs (Ht & Hu & Hf & H0) Hst.
  destruct Hst as [alloc layout p p' r live Hl Ha|ptr layout p p' r l1 l2 Hd]; simpl in *.
  - unfold allocate in Ha. pose proof (live_bytes_nonneg live).
    assert (0 < block_size layout) by (unfold block_size, MIN_BLOCK_SIZE; lia).
    destruct (decide (free_size p < block_size layout)); [by simplify_eq|].
    destruct (from_size_align _ _) as [l|]; [|by simplify_eq].
    destruct (decide (alloc l = 0)); simplify_eq/=; [done|].
    fold (live_bytes live). unfold pool_inv. simpl.
    rewrite wrapping_add_small, wrapping_sub_small by ulia.
    change (live_bytes (layout :: live)) with (block_size layout + live_bytes live).
    split_and!; lia.
  - unfold deallocate in Hd. simplify_eq. rewrite live_bytes_app in *. simpl in *.
    change (live_bytes (layout :: l2)) with (block_size layout + live_bytes l2) in *.
    pose proof (live_bytes_nonneg l1). pose proof (live_bytes_nonneg l2).
    assert (0 < block_size layout) by (unfold block_size, MIN_BLOCK_SIZE; lia).
    unfold pool_inv. simpl. rewrite live_bytes_app.
    rewrite wrapping_add_small, wrapping_sub_small by ulia. split_and!; lia.
Qed.

(** The pool's accounting is exact: after any allocations, failed or not,
    and any frees of live blocks with the layout they were allocated with, the used
    and free sizes are those of the live blocks (each at least 16 bytes), add up to
    the pool's size, and an allocation is refused for lack of space exactly when
    its block exceeds what is left. *)
Theorem pool_accounting size p live :
  0 <= size <= USIZE_MAX -> rtc pool_step (pool_new size, []) (p, live) ->
  used_size p = live_bytes live /\ used_size p + free_size p = size /\ 0 <= free_size p /\
  forall alloc layout, (forall l, alloc l <> 0) -> l_size layout <= ISIZE_MAX - l_align layout ->
    1 <= l_align layout <= ISIZE_MAX - 16 ->
    is_ok (allocate alloc layout p).2 = bool_decide (block_size layout <= free_size p).
Proof.
  intros Hs Hr. assert (Hi : pool_inv size (p, live)).
  { revert Hr. apply (rtc_ind_r _ (pool_new size, [])).
    - unfold pool_inv, pool_new. simpl. split_and!; lia.
    - intros. eauto using pool_step_inv. }
  destruct Hi as (Ht & Hu & Hf & H0). simpl in *. split_and!; try done; [lia|].
  intros alloc layout Halloc Hsz Hal. unfold allocate.
  destruct (decide (free_size p < block_size layout)).
  - by rewrite bool_decide_false by lia.
  - rewrite bool_decide_true by lia. unfold from_size_align.
    rewrite decide_True by (unfold block_size, MIN_BLOCK_SIZE; lia).
    by rewrite decide_False by apply Halloc.
Qed.

(** The bounds of a capability pointer are bytes but its accesses are
    counted in elements: for one-byte values every access let through lies inside
    the region of the capability, and for larger ones there is, for every base,
    an access that passes the check and reads past the end of the region. *)
Theorem capability_read_region {T Mem : Type} (get : Mem -> Z -> T) (m : Mem) size_of :
  1 <= size_of -> 2 * size_of <= USIZE_MAX ->
  (forall c offset v, size_of = 1 -> 0 <= offset -> ptr c = base (capability c) ->
     read size_of get offset m c = Ok v -> in_region size_of (element_address size_of offset c) c) /\
  (2 <= size_of -> forall p,
     let c := ptr_new p (2 * size_of) READ in
     read size_of get size_of m c = Ok (get m (p + size_of * size_of)) /\
     ~ in_region size_of (p + size_of * size_of) c).
Proof.
  intros H1 Hmax. split.
  - intros c offset v -> Ho Hp Hr. unfold read in Hr.
    destruct (verify_bounds offset 1 c) as [[]|e] eqn:E; [|done].
    apply verify_bounds_Ok in E. unfold in_region, element_address. lia.
  - intros H2 p c. split.
    + unfold read. rewrite (proj2 (verify_bounds_Ok size_of size_of c)) by (simpl; lia). done.
    + unfold in_region. simpl. nia.
Qed.

(** ** Witnesses *)

Lemma pool_accounting_witness :
  let p := (allocate (fun _ => 4096) (mkLayout 8 8) (pool_new 64)).1 in
  used_size p = 16 /\ used_size p + free_size p = 64 /\ 0 <= free_size p /\
  forall alloc layout, (forall l, alloc l <> 0) -> l_size layout <= ISIZE_MAX - l_align layout ->
    1 <= l_align layout <= ISIZE_MAX - 16 ->
    is_ok (allocate alloc layout p).2 = bool_decide (block_size layout <= free_size p).
Proof.
  apply (pool_accounting 64 (allocate (fun _ => 4096) (mkLayout 8 8) (pool_new 64)).1 [mkLayout 8 8]);
    [ulia|].
  eapply rtc_l; [|apply rtc_refl].
  apply (ps_allocate (fun _ => 4096) (mkLayout 8 8) _ _ (Ok 4096)); [simpl; lia|reflexivity].
Defined.

Lemma capability_read_region_witness :
  (forall c offset v, 8 = 1 -> 0 <= offset -> ptr c = base (capability c) ->
     read 8 (fun (m : Z) a => m + a) offset 0 c = Ok v -> in_region 8 (element_address 8 offset c) c) /\
  (2 <= 8 -> forall p,
     let c := ptr_new p (2 * 8) READ in
     read 8 (fun (m : Z) a => m + a) 8 0 c = Ok (0 + (p + 8 * 8)) /\
     ~ in_region 8 (p + 8 * 8) c).
Proof. apply (capability_read_region (fun (m : Z) a => m + a) 0 8); [lia|ulia]. Defined.
