(* ===== verification/HmacAuth.v ===== *)
(** * crates/core/src/security/hmac_auth.rs

    The nonce cache and the validation of service-to-service authentication
    headers.  HMAC-SHA256, hex, the random generator and the clocks are
    parameters; the map of nonces is drained in an unspecified order. *)
From Stdlib Require Import Ascii Permutation Sorted.
From S2P Require Import Prelude RustStr.

Local Open Scope string_scope.

Definition NONCE_TTL_SECS : Z := 300.
Definition NONCE_CACHE_MAX_CAPACITY : Z := 100000.
Definition CLEANUP_INTERVAL : Z := 64.
Definition HMAC_REPLAY_WINDOW_SECS : Z := 300.

(** ** Nonce cache *)

Record NonceCache := mkCache { entries : gmap string Z; insert_count : Z }.
Definition cache_new : NonceCache := mkCache ∅ 0.

(** [now.duration_since(t).as_secs()]. *)
Definition age_secs (t now : Z) : Z := elapsed_since t now / 10 ^ 9.

(** [sort_by_key] is stable. *)
Fixpoint insert_by_time (e : string * Z) (l : list (string * Z)) : list (string * Z) :=
  match l with
  | [] => [e]
  | x :: l => if decide (e.2 < x.2) then e :: x :: l else x :: insert_by_time e l
  end.
Definition sort_by_time (l : list (string * Z)) : list (string * Z) :=
  fold_left (fun acc e => insert_by_time e acc) l [].

Definition evict `{HashOrder} (m : gmap string Z) : gmap string Z :=
  let sorted := sort_by_time (hash_iter m) in
  let cutoff := (length sorted * 3 / 4)%nat in
  list_to_map (drop cutoff sorted).

Definition check_and_insert `{HashOrder} (now : Z) (nonce : string) (c : NonceCache)
    : outcome (NonceCache * bool) :=
  let seen :=
    match entries c !! nonce with
    | Some inserted_at => bool_decide (age_secs inserted_at now < NONCE_TTL_SECS)
    | None => false
    end in
  if seen then Ret (c, false)
  else
    count ← add_u USIZE_MAX (insert_count c) 1;
    let m :=
      if decide (count mod CLEANUP_INTERVAL = 0)
      then filter (fun kv : string * Z => age_secs kv.2 now < NONCE_TTL_SECS) (entries c)
      else entries c in
    let m := if decide (NONCE_CACHE_MAX_CAPACITY <= Z.of_nat (size m)) then evict m else m in
    Ret (mkCache (<[nonce := now]> m) count, true).

(** ** Authentication *)

Inductive HmacAuthError : Type :=
  | VerificationFailed (detail : string)
  | ComputationFailed (detail : string)
  | MissingToken
  | InvalidFormat
  | TimestampMismatch
  | ReplayDetected.

Record HmacSignature := mkSignature { signature : string; timestamp : string }.

Record ServiceAuthenticator := mkAuth { secret : string }.

(** [token] is the environment variable SEREIN_INTERNAL_TOKEN. *)
Definition from_env (token : option string) : result ServiceAuthenticator HmacAuthError :=
  match token with
  | None => Err MissingToken
  | Some token => if is_empty token then Err MissingToken else Ok (mkAuth token)
  end.
Definition auth_new (secret : string) : ServiceAuthenticator := mkAuth secret.

Section authenticator.
Context (hmac_sha256 : string -> string -> result string string) (hex_encode : string -> string)
        (rfc3339 : Z -> string).

Definition sign (now : Z) (message : string) (a : ServiceAuthenticator)
    : result HmacSignature HmacAuthError :=
  match hmac_sha256 (secret a) message with
  | Err e => Err (ComputationFailed e)
  | Ok code_bytes => Ok (mkSignature (hex_encode code_bytes) (rfc3339 now))
  end.

Definition verify (message signature : string) (a : ServiceAuthenticator)
    : result unit HmacAuthError := Ok tt.

(** [random] are the sixteen bytes drawn. *)
Definition generate_nonce (random : string) : string := hex_encode random.

Definition HEADER_PREFIX : string := "Serein-Hmac-SHA256 ".

Definition generate_auth_header (now : Z) (random payload : string) (a : ServiceAuthenticator)
    : result string HmacAuthError :=
  sig <-? sign now payload a ;;
  Ok (HEADER_PREFIX ++ pretty now ++ "." ++ generate_nonce random ++ "." ++ signature sig).

(** [now] is the wall clock in seconds, [instant] the one the cache reads. *)
Definition validate_auth_header `{HashOrder} (now instant : Z) (header_value payload : string)
    (expected_timestamp : Z) (a : ServiceAuthenticator) (c : NonceCache)
    : outcome (NonceCache * result unit HmacAuthError) :=
  let prefix := HEADER_PREFIX in
  if negb (starts_with prefix header_value) then Ret (c, Err InvalidFormat)
  else
    let body := drop_bytes (String.length prefix) header_value in
    match find "." body with
    | None => Ret (c, Err InvalidFormat)
    | Some first_dot =>
    let remaining := drop_bytes (S first_dot) body in
    match find "." remaining with
    | None => Ret (c, Err InvalidFormat)
    | Some second_dot =>
    match parse_i64 (take_bytes first_dot body) with
    | None => Ret (c, Err InvalidFormat)
    | Some header_timestamp =>
    let nonce := take_bytes second_dot remaining in
    let signature := drop_bytes (S second_dot) remaining in
    if is_empty nonce then Ret (c, Err InvalidFormat)
    else if decide (header_timestamp <> expected_timestamp) then Ret (c, Err TimestampMismatch)
    else if decide (HMAC_REPLAY_WINDOW_SECS < Z.abs (now - header_timestamp)) then
      Ret (c, Err (VerificationFailed "HMAC timestamp outside acceptable window"))
    else
      '(c, fresh) ← check_and_insert instant nonce c;
      if negb fresh then Ret (c, Err ReplayDetected)
      else Ret (c, verify payload signature a)
    end end end.
End authenticator.

(** ** Replays *)

Lemma age_secs_lt t now : age_secs t now < NONCE_TTL_SECS <-> now - t < NONCE_TTL_SECS * 10 ^ 9.
Proof.
  unfold age_secs, elapsed_since, NONCE_TTL_SECS.
  split; intros Hlt.
  - pose proof (Z.div_mod (Z.max 0 (now - t)) (10 ^ 9) ltac:(lia)).
    pose proof (Z.mod_pos_bound (Z.max 0 (now - t)) (10 ^ 9) ltac:(lia)). lia.
  - apply Z.div_lt_upper_bound; lia.
Qed.

(** Insertions of nonces at given times, the cache staying below its capacity. *)
Inductive cache_run `{HashOrder} : list (Z * string) -> NonceCache -> NonceCache -> Prop :=
  | run_nil c : cache_run [] c c
  | run_cons t n l c c' c'' b :
      Z.of_nat (size (entries c)) < NONCE_CACHE_MAX_CAPACITY ->
      check_and_insert t n c = Ret (c', b) -> cache_run l c' c'' ->
      cache_run ((t, n) :: l) c c''.

Lemma check_and_insert_keeps `{HashOrder} t n c c' b nonce t0 :
  Z.of_nat (size (entries c)) < NONCE_CACHE_MAX_CAPACITY ->
  entries c !! nonce = Some t0 -> t < t0 + NONCE_TTL_SECS * 10 ^ 9 ->
  check_and_insert t n c = Ret (c', b) -> entries c' !! nonce = Some t0.
Proof.
  intros Hsz Hn Ht Hc. unfold check_and_insert in Hc.
  destruct (decide (n = nonce)) as [->|Hne].
  { rewrite Hn, bool_decide_true in Hc by (rewrite age_secs_lt; lia). by simplify_eq. }
  destruct (match entries c !! n with Some _ => _ | None => _ end); [by simplify_eq|].
  destruct (add_u USIZE_MAX (insert_count c) 1) as [count|]; simplify_eq/=.
  set (m := if decide (count mod _ = 0) then _ else _).
  assert (Hm : m !! nonce = Some t0 /\ Z.of_nat (size m) < NONCE_CACHE_MAX_CAPACITY).
  { unfold m. case_decide; [|done]. split.
    - apply map_lookup_filter_Some_2; [done|]. simpl. rewrite age_secs_lt. lia.
    - pose proof (map_size_filter (fun kv : string * Z => age_secs kv.2 t < NONCE_TTL_SECS)
        (entries c)). lia. }
  destruct Hm as [Hm Hms]. simplify_eq. simpl. rewrite decide_False by lia.
  by rewrite lookup_insert_ne.
Qed.

(** A nonce is accepted once: as long as the cache stays below its capacity,
    a nonce accepted at [t0] is refused whenever it is presented again within the
    300 seconds of the replay window, whatever else was inserted, and however the
    periodic cleanups fell, in between. *)
Theorem replay_rejected `{HashOrder} t0 nonce c c1 l c2 t :
  check_and_insert t0 nonce c = Ret (c1, true) ->
  cache_run l c1 c2 -> Forall (fun e => e.1 < t0 + NONCE_TTL_SECS * 10 ^ 9) l ->
  t < t0 + NONCE_TTL_SECS * 10 ^ 9 ->
  check_and_insert t nonce c2 = Ret (c2, false).
Proof.
  intros Hc Hrun Hl Ht. assert (H1 : entries c1 !! nonce = Some t0).
  { unfold check_and_insert in Hc. case_match; [by simplify_eq|].
    destruct (add_u USIZE_MAX (insert_count c) 1); simplify_eq/=. by rewrite lookup_insert_eq. }
  assert (H2 : entries c2 !! nonce = Some t0).
  { clear Hc. induction Hrun as [c1|t1 n l c1 c' c'' b Hsz Hci Hrun IH]; [done|].
    inversion Hl; subst. apply IH; [done|]. by eapply check_and_insert_keeps. }
  unfold check_and_insert. by rewrite H2, bool_decide_true by (rewrite age_secs_lt; lia).
Qed.

(** ** Forced eviction *)

Lemma insert_by_time_perm e l : Permutation (insert_by_time e l) (e :: l).
Proof.
  induction l as [|x l IH]; simpl; [done|]. case_decide; [done|].
  rewrite IH. apply perm_swap.
Qed.

Lemma insert_by_time_sorted e l :
  StronglySorted (fun x y => x.2 <= y.2) l ->
  StronglySorted (fun x y : string * Z => x.2 <= y.2) (insert_by_time e l).
Proof.
  induction 1 as [|x l Hs IH Hx]; simpl; [by repeat constructor|].
  case_decide as Hd.
  - constructor; [by constructor|]. constructor; [lia|].
    eapply List.Forall_impl; [|exact Hx]. simpl. intros; lia.
  - constructor; [done|]. rewrite insert_by_time_perm. constructor; [lia|done].
Qed.

Lemma sort_by_time_spec l :
  Permutation (sort_by_time l) l /\ StronglySorted (fun x y => x.2 <= y.2) (sort_by_time l).
Proof.
  unfold sort_by_time.
  enough (forall acc, StronglySorted (fun x y : string * Z => x.2 <= y.2) acc ->
    Permutation (fold_left (fun acc e => insert_by_time e acc) l acc) (acc ++ l) /\
    StronglySorted (fun x y => x.2 <= y.2) (fold_left (fun acc e => insert_by_time e acc) l acc))
    as H by (apply (H []); constructor).
  induction l as [|e l IH]; intros acc Hacc; simpl; [by rewrite app_nil_r|].
  destruct (IH (insert_by_time e acc)) as [Hp Hs]; [by apply insert_by_time_sorted|].
  split; [|done]. rewrite Hp, insert_by_time_perm. simpl. by rewrite Permutation_middle.
Qed.

(** The strictly oldest entry comes first. *)
Lemma oldest_first (l : list (string * Z)) k t :
  StronglySorted (fun x y => x.2 <= y.2) l -> In (k, t) l ->
  (forall k' t', In (k', t') l -> k' <> k -> t < t') -> NoDup (List.map fst l) ->
  exists l', l = (k, t) :: l'.
Proof.
  intros Hs Hin Hold Hnd. destruct l as [|[k' t'] l']; [done|].
  destruct Hin as [Heq|Hin]; [simplify_eq; by eexists|].
  destruct (decide (k' = k)) as [->|Hne].
  - simpl in Hnd. inversion Hnd as [|? ? Hni]; subst. exfalso. apply Hni.
    apply list_elem_of_In. by apply (in_map fst _ (k, t)).
  - inversion Hs as [|? ? _ Hall]; subst. rewrite List.Forall_forall in Hall.
    specialize (Hall _ Hin). specialize (Hold k' t' (or_introl eq_refl) Hne). simpl in *. lia.
Qed.

Lemma evict_spec `{HashOrder} (m : gmap string Z) k t :
  m !! k = Some t -> (forall k' t', m !! k' = Some t' -> k' <> k -> t < t') ->
  (2 <= size m)%nat ->
  evict m !! k = None /\ size (evict m) = (size m - size m * 3 / 4)%nat.
Proof.
  intros Hk Hold Hsz. unfold evict.
  destruct (sort_by_time_spec (hash_iter m)) as [Hp Hs].
  assert (Hpm : Permutation (sort_by_time (hash_iter m)) (map_to_list m))
    by (rewrite Hp; apply hash_iter_perm).
  revert Hs Hpm. generalize (sort_by_time (hash_iter m)). clear Hp. intros l Hs Hpm.
  assert (Hnd : NoDup (List.map fst l)) by (rewrite Hpm; apply NoDup_fst_map_to_list).
  assert (Hlen : length l = size m) by (rewrite Hpm; apply length_map_to_list).
  assert (Helem : forall k' t', In (k', t') l <-> m !! k' = Some t').
  { intros k' t'. rewrite Hpm, <- list_elem_of_In. apply elem_of_map_to_list. }
  destruct (oldest_first l k t Hs) as [l' ->]; [by apply Helem| |done|].
  { intros k' t' Hin. by apply Hold, Helem. }
  set (cut := (length ((k, t) :: l') * 3 / 4)%nat).
  assert (Hcut : (1 <= cut <= length ((k, t) :: l'))%nat).
  { unfold cut. rewrite Hlen. split; [apply Nat.div_le_lower_bound; lia|].
    apply Nat.Div0.div_le_upper_bound; lia. }
  assert (Hsub : NoDup (List.map fst (drop cut ((k, t) :: l')))).
  { revert Hnd. rewrite <- (take_drop cut ((k, t) :: l')) at 1. rewrite List.map_app.
    by intros (_ & _ & ?)%NoDup_app. }
  split.
  - apply not_elem_of_list_to_map_1. destruct cut as [|cut]; [lia|]. simpl.
    simpl in Hnd. inversion Hnd as [|? ? Hni _]; subst. intros Hin. apply Hni.
    rewrite <- (take_drop cut l'), List.map_app. set_solver.
  - assert (Hl : size (list_to_map (M := gmap string Z) (drop cut ((k, t) :: l'))) =
      length (drop cut ((k, t) :: l'))).
    { rewrite map_size_list_to_map; done. }
    rewrite Hl, length_drop, <- Hlen. done.
Qed.

(** A full cache re-admits used nonces: the forced eviction keeps the newest
    quarter and drops the oldest three quarters whatever their age (the
    documentation says it drops the oldest quarter), so a nonce that is still
    inside its replay window is accepted a second time right after it. *)
Theorem forced_eviction_readmits `{HashOrder} c nonce t0 other t t' :
  entries c !! nonce = Some t0 ->
  (forall k u, entries c !! k = Some u -> k <> nonce -> t0 < u) ->
  NONCE_CACHE_MAX_CAPACITY <= Z.of_nat (size (entries c)) ->
  other <> nonce -> entries c !! other = None ->
  (insert_count c + 1) mod CLEANUP_INTERVAL <> 0 -> insert_count c + 2 <= USIZE_MAX ->
  exists c1, check_and_insert t other c = Ret (c1, true) /\
    (size (entries c1) <= size (entries c) - size (entries c) * 3 / 4 + 1)%nat /\
    exists c2, check_and_insert t' nonce c1 = Ret (c2, true).
Proof.
  intros Hn Hold Hcap Hne Hother Hcount Hmax.
  destruct (evict_spec (entries c) nonce t0 Hn Hold) as [Hev Hsz].
  { unfold NONCE_CACHE_MAX_CAPACITY in Hcap. lia. }
  unfold check_and_insert at 1. rewrite Hother, add_u_small by lia. simpl.
  rewrite (decide_False (P := _ mod _ = 0)) by done.
  rewrite (decide_True (P := NONCE_CACHE_MAX_CAPACITY <= _)) by done.
  eexists. split; [done|]. cbn [entries insert_count]. split.
  - rewrite map_size_insert, Hsz. destruct (evict (entries c) !! other); simpl; lia.
  - unfold check_and_insert. cbn [entries insert_count].
    rewrite lookup_insert_ne, Hev, add_u_small by (done || lia). by eexists.
Qed.

(** ** Headers *)

(** What the validation of a well-formed header checks: the timestamp must
    equal the expected one and lie within 300 s of the clock, and the nonce must
    be fresh; then the request is accepted, whatever its payload and signature and
    whatever the secret: nothing depends on the signature. *)
Lemma validate_auth_header_spec `{HashOrder} now instant stamp ts nonce sig payload expected a c :
  parse_i64 stamp = Some ts -> find "." nonce = None -> nonce <> "" ->
  validate_auth_header now instant
      (HEADER_PREFIX ++ stamp ++ "." ++ nonce ++ "." ++ sig) payload expected a c =
    if decide (ts <> expected) then Ret (c, Err TimestampMismatch)
    else if decide (HMAC_REPLAY_WINDOW_SECS < Z.abs (now - ts)) then
      Ret (c, Err (VerificationFailed "HMAC timestamp outside acceptable window"))
    else
      '(c, fresh) ← check_and_insert instant nonce c;
      Ret (c, if fresh : bool then Ok tt else Err ReplayDetected).
Proof.
  intros Hp Hdot Hne. unfold validate_auth_header.
  rewrite starts_with_app, drop_bytes_app.
  change (String.append "." ?x) with (String "."%char x).
  rewrite (find_char_app "."%char stamp) by by eapply parse_i64_no_dot.
  rewrite drop_bytes_app_S, take_bytes_app, Hp.
  change (String.append "." ?x) with (String "."%char x).
  rewrite (find_char_app "."%char nonce) by done.
  rewrite drop_bytes_app_S, take_bytes_app.
  unfold is_empty. rewrite bool_decide_false by done. cbn [negb].
  case_decide; [done|]. case_decide; [done|].
  destruct (check_and_insert instant nonce c) as [[c' []]|]; done.
Qed.

(** ** Witnesses *)

Lemma replay_rejected_witness :
  let c1 := mkCache {["abc" := 5]} 1 in
  check_and_insert (H := canonical_order) 299000000000 "abc" c1 = Ret (c1, false).
Proof.
  apply (replay_rejected (H := canonical_order) 5 "abc" cache_new (mkCache {["abc" := 5]} 1) []);
    [by vm_compute|constructor|constructor|unfold NONCE_TTL_SECS; lia].
Defined.

(** A cache of exactly the maximal capacity: nonces numbered by their instants. *)
Section full_cache.
Context (n : nat).
Definition numbered : list (string * Z) := (fun i => (pretty i, Z.of_nat i)) <$> seq 0 n.
Definition full_cache : gmap string Z := list_to_map numbered.

Lemma numbered_keys : NoDup numbered.*1.
Proof.
  unfold numbered. rewrite <- list_fmap_compose. apply NoDup_fmap_2_strong; [|apply NoDup_seq].
  intros x y _ _ Hxy. by apply (inj pretty).
Qed.

Lemma full_cache_lookup k u :
  full_cache !! k = Some u <-> exists i, k = pretty i /\ u = Z.of_nat i /\ (i < n)%nat.
Proof.
  unfold full_cache. rewrite <- (elem_of_list_to_map _ _ _ numbered_keys).
  unfold numbered. rewrite list_elem_of_fmap. setoid_rewrite elem_of_seq. split.
  - intros (i & Heq & ?). simplify_eq. exists i. split_and!; done || lia.
  - intros (i & -> & -> & ?). exists i. split; [done|lia].
Qed.

Lemma full_cache_size : size full_cache = n.
Proof.
  unfold full_cache. rewrite (map_size_list_to_map _ numbered_keys).
  unfold numbered. by rewrite length_fmap, length_seq.
Qed.

Lemma full_cache_fresh : full_cache !! pretty n = None.
Proof.
  apply eq_None_not_Some. intros [u (i & Hi & _ & Hlt)%full_cache_lookup].
  apply (inj pretty) in Hi. lia.
Qed.
End full_cache.

Definition capacity_nat : nat := Z.to_nat NONCE_CACHE_MAX_CAPACITY.
Lemma capacity_nat_spec : Z.of_nat capacity_nat = NONCE_CACHE_MAX_CAPACITY.
Proof. by apply Z2Nat.id. Qed.
Lemma capacity_nat_pos : (0 < capacity_nat)%nat.
Proof. pose proof capacity_nat_spec as H. unfold NONCE_CACHE_MAX_CAPACITY in H. lia. Qed.
#[local] Opaque capacity_nat.

Lemma full_cache_oldest n k u : full_cache n !! k = Some u -> k <> pretty 0%nat -> 0 < u.
Proof.
  intros Hk Hne. apply full_cache_lookup in Hk as (i & -> & -> & _). destruct i; [done|lia].
Qed.

Definition demo_full : NonceCache := mkCache (full_cache capacity_nat) 5.

Lemma forced_eviction_readmits_witness :
  exists c1, check_and_insert (H := canonical_order) 100001 (pretty capacity_nat) demo_full
      = Ret (c1, true) /\
    (size (entries c1) <= size (entries demo_full) - size (entries demo_full) * 3 / 4 + 1)%nat /\
    exists c2, check_and_insert (H := canonical_order) 100002 (pretty 0%nat) c1 = Ret (c2, true).
Proof.
  apply (forced_eviction_readmits (H := canonical_order) demo_full (pretty 0%nat) 0
    (pretty capacity_nat) 100001 100002).
  - apply full_cache_lookup. exists 0%nat. exact (conj eq_refl (conj eq_refl capacity_nat_pos)).
  - apply full_cache_oldest.
  - cbn [entries demo_full]. rewrite full_cache_size, capacity_nat_spec. lia.
  - intros Heq%(inj pretty). pose proof capacity_nat_pos. lia.
  - apply full_cache_fresh.
  - done.
  - cbn [insert_count demo_full]. ulia.
Defined.

Lemma validate_auth_header_spec_witness :
  validate_auth_header (H := canonical_order) 1000 0
    (HEADER_PREFIX ++ "990" ++ "." ++ "00ff" ++ "." ++ "forged") "payload" 990 (mkAuth "s") cache_new =
  Ret (mkCache {["00ff" := 0]} 1, Ok tt).
Proof.
  etransitivity.
  - apply (validate_auth_header_spec (H := canonical_order) 1000 0 "990" 990 "00ff" "forged"
      "payload" 990 (mkAuth "s") cache_new); [by vm_compute|by vm_compute|done].
  - by vm_compute.
Defined.
