(* ===== verification/EgressGuard.v ===== *)
(** * crates/llm-router/src/egress_guard.rs

    The outbound firewall: domain allowlist, reserved address ranges and the two
    guarded API calls.  URL parsing, DNS, the HTTP client and the display of
    addresses are parameters; a call returns, with its result, the network events
    it caused, in order. *)
From S2P Require Import Prelude RustStr.

Local Open Scope string_scope.

(** ** Addresses *)

Record Ipv4Addr := mkV4 { octet_a : Z; octet_b : Z; octet_c : Z; octet_d : Z }.
#[export] Instance Ipv4Addr_eq_dec : EqDecision Ipv4Addr.
Proof. solve_decision. Defined.

Definition octet (n : Z) : Prop := 0 <= n < 256.
Definition ipv4_wf (ip : Ipv4Addr) : Prop :=
  octet (octet_a ip) /\ octet (octet_b ip) /\ octet (octet_c ip) /\ octet (octet_d ip).

(** [u32::from_be_bytes(octets)]. *)
Definition from_be_bytes (ip : Ipv4Addr) : Z :=
  ((octet_a ip * 256 + octet_b ip) * 256 + octet_c ip) * 256 + octet_d ip.

(** Eight 16-bit segments. *)
Record Ipv6Addr := mkV6 {
  seg0 : Z; seg1 : Z; seg2 : Z; seg3 : Z; seg4 : Z; seg5 : Z; seg6 : Z; seg7 : Z }.
#[export] Instance Ipv6Addr_eq_dec : EqDecision Ipv6Addr.
Proof. solve_decision. Defined.

Inductive IpAddr : Type := V4 (ip : Ipv4Addr) | V6 (ip : Ipv6Addr).
#[export] Instance IpAddr_eq_dec : EqDecision IpAddr.
Proof. solve_decision. Defined.
#[export] Program Instance IpAddr_countable : Countable IpAddr :=
  inj_countable' (fun ip => match ip with
    | V4 v => inl (octet_a v, octet_b v, octet_c v, octet_d v)
    | V6 v => inr (seg0 v, seg1 v, seg2 v, seg3 v, (seg4 v, seg5 v, seg6 v, seg7 v))
    end) (fun x => match x with
    | inl (a, b, c, d) => V4 (mkV4 a b c d)
    | inr (a, b, c, d, (e, f, g, h)) => V6 (mkV6 a b c d e f g h)
    end) _.
Next Obligation. by intros [[]|[]]. Qed.

Definition RESERVED_IPV4_PREFIXES : list (Z * Z) :=
  [(0x00000000, 8); (0x0a000000, 8); (0x64400000, 10); (0x7f000000, 8);
   (0xa9fe0000, 16); (0xac100000, 12); (0xc0a80000, 16); (0xc6120000, 15)].

Definition prefix_mask (mask_len : Z) : Z :=
  if decide (mask_len = 0) then 0 else Z.land (Z.shiftl U32_MAX (32 - mask_len)) U32_MAX.

Definition is_reserved_ipv4 (ipv4 : Ipv4Addr) : bool :=
  let addr := from_be_bytes ipv4 in
  existsb (fun '(prefix, mask_len) =>
    (Z.land (Z.lxor addr prefix) (prefix_mask mask_len) =? 0)%Z) RESERVED_IPV4_PREFIXES.

Definition is_loopback (ip : Ipv6Addr) : bool := bool_decide (ip = mkV6 0 0 0 0 0 0 0 1).
Definition is_unspecified (ip : Ipv6Addr) : bool := bool_decide (ip = mkV6 0 0 0 0 0 0 0 0).
Definition to_ipv4_mapped (ip : Ipv6Addr) : option Ipv4Addr :=
  if decide (ip = mkV6 0 0 0 0 0 0xffff (seg6 ip) (seg7 ip)) then
    Some (mkV4 (seg6 ip / 256) (seg6 ip mod 256) (seg7 ip / 256) (seg7 ip mod 256))
  else None.

Definition is_reserved_ip (ip : IpAddr) : bool :=
  match ip with
  | V4 v4 => is_reserved_ipv4 v4
  | V6 v6 =>
      if is_loopback v6 || is_unspecified v6 then true
      else
        let high_bytes := Z.lor (Z.shiftl (seg0 v6) 16) (seg1 v6) in
        if (Z.land high_bytes 0xfe000000 =? 0xfc000000)%Z then true
        else if (Z.land high_bytes 0xffc00000 =? 0xfe800000)%Z then true
        else match to_ipv4_mapped v6 with
             | Some mapped_v4 => is_reserved_ipv4 mapped_v4
             | None => false
             end
  end.

(** ** Calls *)

Inductive SecurityError : Type :=
  | EgressViolation (endpoint : string)
  | SsrfDetected (ip : string)
  | InvalidEndpoint (reason : string)
  | TransportFailure (detail : string).

Definition get_allowlist : list string :=
  ["api.deepseek.com"; "api.anthropic.com"; "api.openai.com";
   "generativelanguage.googleapis.com"; "cdn.openai.com"; "storage.googleapis.com";
   "api.groq.com"].

Definition Headers : Type := list (string * string).

(** A name is looked up; the client is asked to send; the client, to do so, turns to a URL. *)
Inductive Event : Type :=
  | Lookup (host : string) (port : Z)
  | Post (endpoint : string) (headers : Headers) (body : string)
  | Contact (url : string).

(** [eq_ignore_ascii_case]. *)
Definition to_ascii_lowercase (c : Ascii.ascii) : Ascii.ascii :=
  if in_range 65 90 c then Ascii.ascii_of_nat (Ascii.nat_of_ascii c + 32) else c.
Fixpoint eq_ignore_ascii_case (s t : string) : bool :=
  match s, t with
  | EmptyString, EmptyString => true
  | String.String a s, String.String b t =>
      Ascii.eqb (to_ascii_lowercase a) (to_ascii_lowercase b) && eq_ignore_ascii_case s t
  | _, _ => false
  end.

Section guard.
Context {Url : Type}.
Context (url_parse : string -> result Url string)
        (host_str : Url -> option string) (url_port : Url -> option Z)
        (lookup_host : string -> Z -> result (list IpAddr) string)
        (ip_display : IpAddr -> string).
(** reqwest's exchange: the URLs that it turns to (none, for a scheme or a header that it
    does not accept; the endpoint and then the targets of redirects, which it follows when
    it has no policy of its own), and the last status code with the outcome of reading the
    body. *)
Context (http_post : string -> Headers -> string ->
          list string * result (Z * result string string) string)
        (status_display : Z -> string).

Definition validate_endpoint (endpoint : string) : result unit SecurityError :=
  match url_parse endpoint with
  | Err e => Err (InvalidEndpoint ("failed to parse URL: " ++ e))
  | Ok url =>
      match host_str url with
      | None => Err (InvalidEndpoint "URL has no host component")
      | Some host =>
          if decide (host ∉ get_allowlist) then Err (EgressViolation endpoint) else Ok tt
      end
  end.

Fixpoint check_addresses (addrs : list IpAddr) : result unit SecurityError :=
  match addrs with
  | [] => Ok tt
  | addr :: addrs =>
      if is_reserved_ip addr then Err (SsrfDetected (ip_display addr)) else check_addresses addrs
  end.

(** [StatusCode::is_success]. *)
Definition is_success (status : Z) : bool := bool_decide (200 <= status < 300).

Definition exchange (endpoint : string) (headers : Headers) (payload : string)
    : result string SecurityError :=
  match (http_post endpoint headers payload).2 with
  | Err e => Err (TransportFailure ("HTTP request failed: " ++ e))
  | Ok (status, text) =>
      match text with
      | Err e => Err (TransportFailure ("response body read failed: " ++ e))
      | Ok body =>
          if negb (is_success status)
          then Err (TransportFailure ("remote server returned status " ++ status_display status))
          else Ok body
      end
  end.

(** The steps the two calls share: validation, lookup, address check, request. *)
Definition guarded_call (endpoint : string) (headers : Headers) (payload : string)
    : list Event * result string SecurityError :=
  match validate_endpoint endpoint with
  | Err e => ([], Err e)
  | Ok _ =>
      match url_parse endpoint with
      | Err e => ([], Err (InvalidEndpoint ("failed to parse URL after allowlist check: " ++ e)))
      | Ok url =>
          let host := default "" (host_str url) in
          let port := default 443 (url_port url) in
          match lookup_host host port with
          | Err e => ([Lookup host port], Err (TransportFailure ("DNS lookup failed: " ++ e)))
          | Ok addrs =>
              match check_addresses addrs with
              | Err e => ([Lookup host port], Err e)
              | Ok _ => (Lookup host port :: Post endpoint headers payload ::
                           List.map Contact (http_post endpoint headers payload).1,
                         exchange endpoint headers payload)
              end
          end
      end
  end.

Definition secure_cloud_api_call (endpoint payload : string)
    : list Event * result string SecurityError :=
  guarded_call endpoint [("Content-Type", "application/json"); ("Cache-Control", "ephemeral")]
    payload.

Definition has_header (name : string) (headers : Headers) : bool :=
  existsb (fun h => eq_ignore_ascii_case h.1 name) headers.
Definition with_defaults (extra_headers : Headers) : Headers :=
  (extra_headers
   ++ (if has_header "content-type" extra_headers then [] else [("Content-Type", "application/json")])
   ++ (if has_header "cache-control" extra_headers then [] else [("Cache-Control", "ephemeral")]))%list.

Definition secure_cloud_api_call_with_headers (endpoint payload : string) (extra_headers : Headers)
    : list Event * result string SecurityError :=
  guarded_call endpoint (with_defaults extra_headers) payload.

(** ** Calls leave only through the guard *)

Lemma check_addresses_Ok addrs :
  check_addresses addrs = Ok tt <-> Forall (fun a => is_reserved_ip a = false) addrs.
Proof.
  induction addrs as [|a addrs IH]; simpl; [by split; constructor|].
  rewrite Forall_cons, <- IH. destruct (is_reserved_ip a); naive_solver.
Qed.

Lemma validate_endpoint_Ok endpoint :
  validate_endpoint endpoint = Ok tt <->
  exists url host, url_parse endpoint = Ok url /\ host_str url = Some host /\ host ∈ get_allowlist.
Proof.
  unfold validate_endpoint. destruct (url_parse endpoint) as [url|e]; [|naive_solver].
  destruct (host_str url) as [host|] eqn:Hh; [|naive_solver]. case_decide as Hd.
  - split; [done|]. intros (u & h & [= <-] & Hh' & ?). rewrite Hh in Hh'. by simplify_eq.
  - split; [|done]. intros _. exists url, host. split_and!; [done|done|].
    by destruct (decide (host ∈ get_allowlist)).
Qed.

(** The endpoint is a URL of an allowed host. *)
Definition allowed (endpoint host : string) (port : Z) : Prop :=
  exists url, url_parse endpoint = Ok url /\ host_str url = Some host /\
    host ∈ get_allowlist /\ port = default 443 (url_port url).
Definition public (ip : IpAddr) : Prop := is_reserved_ip ip = false.

Lemma exchange_Ok endpoint headers payload body :
  exchange endpoint headers payload = Ok body <->
  exists status, (http_post endpoint headers payload).2 = Ok (status, Ok body) /\ 200 <= status < 300.
Proof.
  unfold exchange, is_success. destruct (http_post endpoint headers payload).2 as [[st [text|e]]|e].
  - case_bool_decide as Hst; cbn; split.
    + intros [= <-]. by exists st.
    + by intros (st' & [= <- <-] & _).
    + done.
    + intros (st' & [= <- <-] & ?). done.
  - split; [done|]. by intros (? & [=] & _).
  - split; [done|]. by intros (? & [=] & _).
Qed.

Lemma exchange_Err endpoint headers payload e :
  exchange endpoint headers payload = Err e -> exists detail, e = TransportFailure detail.
Proof. unfold exchange. intros He. repeat case_match; simplify_eq; by eexists. Qed.

Lemma check_addresses_first l1 a l2 :
  Forall public l1 -> is_reserved_ip a = true ->
  check_addresses (l1 ++ a :: l2) = Err (SsrfDetected (ip_display a)).
Proof. intros Hl Ha. induction Hl as [|x l1 Hx _ IH]; simpl; [by rewrite Ha|by rewrite Hx]. Qed.

Lemma guarded_call_allowed endpoint headers payload host port :
  allowed endpoint host port ->
  guarded_call endpoint headers payload =
  match lookup_host host port with
  | Err e => ([Lookup host port], Err (TransportFailure ("DNS lookup failed: " ++ e)))
  | Ok addrs =>
      match check_addresses addrs with
      | Err e => ([Lookup host port], Err e)
      | Ok _ => (Lookup host port :: Post endpoint headers payload ::
                   List.map Contact (http_post endpoint headers payload).1,
                 exchange endpoint headers payload)
      end
  end.
Proof.
  intros (url & Hu & Hh & Hin & ->). unfold guarded_call.
  assert (validate_endpoint endpoint = Ok tt) as -> by (apply validate_endpoint_Ok; by exists url, host).
  by rewrite Hu, Hh.
Qed.

(** C27: nothing is sent past the firewall: what a call does is determined by what it finds.
    An endpoint that is no URL of an allowed host ends it without any event, as
    [EgressViolation] if it is a URL of another host and as [InvalidEndpoint] otherwise.
    Else its host is looked up, and nothing else happens if that fails; if one of the
    addresses is reserved, nothing else happens either and the call ends with
    [SsrfDetected] for the first of them; and only if all are public the client is asked,
    once, to send this request to this endpoint, turns to the URLs that reqwest turns to,
    and a body is returned exactly when the last answer had a 2xx status and was read
    whole, [TransportFailure] in all other cases. *)
Theorem guarded_call_spec endpoint headers payload :
  let '(events, r) := guarded_call endpoint headers payload in
  ((forall host port, ~ allowed endpoint host port) ->
     events = [] /\
     (r = Err (EgressViolation endpoint) /\ (exists url host, url_parse endpoint = Ok url /\ host_str url = Some host) \/
      (exists reason, r = Err (InvalidEndpoint reason)) /\
        forall url, url_parse endpoint = Ok url -> host_str url = None)) /\
  (forall host port, allowed endpoint host port ->
     (forall e, lookup_host host port = Err e ->
        events = [Lookup host port] /\ r = Err (TransportFailure ("DNS lookup failed: " ++ e))) /\
     (forall l1 a l2, lookup_host host port = Ok (l1 ++ a :: l2)%list -> Forall public l1 ->
        is_reserved_ip a = true ->
        events = [Lookup host port] /\ r = Err (SsrfDetected (ip_display a))) /\
     (forall addrs, lookup_host host port = Ok addrs -> Forall public addrs ->
        events = Lookup host port :: Post endpoint headers payload ::
                   List.map Contact (http_post endpoint headers payload).1 /\
        (forall body, r = Ok body <-> exists status,
           (http_post endpoint headers payload).2 = Ok (status, Ok body) /\ 200 <= status < 300) /\
        forall e, r = Err e -> exists detail, e = TransportFailure detail)).
Proof.
  destruct (guarded_call endpoint headers payload) as [events r] eqn:Hg. split.
  - intros Hno. unfold guarded_call, validate_endpoint in Hg.
    destruct (url_parse endpoint) as [url|e] eqn:Hu; [|injection Hg as <- <-; split; [done|right; split; [by eexists|by intros ? [=]]]].
    destruct (host_str url) as [host|] eqn:Hh.
    + case_decide as Hd.
      * injection Hg as <- <-. split; [done|]. left. eauto.
      * exfalso. apply (Hno host (default 443 (url_port url))). exists url. split_and!; try done.
    + injection Hg as <- <-. split; [done|]. right. split; [eauto|]. by intros ? [= <-].
  - intros host port Ha. rewrite (guarded_call_allowed _ _ _ _ _ Ha) in Hg. split_and!.
    + intros e He. rewrite He in Hg. by injection Hg as <- <-.
    + intros l1 a l2 Hl Hl1 Hres. rewrite Hl, check_addresses_first in Hg by done. by injection Hg as <- <-.
    + intros addrs Hl Hall. rewrite Hl, (proj2 (check_addresses_Ok addrs) Hall) in Hg. injection Hg as <- <-.
      split_and!; [done|apply exchange_Ok|apply exchange_Err].
Qed.

(** Redirects are outside its reach: where the server of an allowed host sends the client,
    the client goes, whatever host or address that is. *)
Theorem redirects_followed endpoint headers payload host port addrs target :
  allowed endpoint host port -> lookup_host host port = Ok addrs -> Forall public addrs ->
  target ∈ (http_post endpoint headers payload).1 ->
  Contact target ∈ (guarded_call endpoint headers payload).1.
Proof.
  intros Ha Hl Hall%check_addresses_Ok Ht. rewrite (guarded_call_allowed _ _ _ _ _ Ha), Hl, Hall. cbn.
  do 2 right. by apply list_elem_of_fmap_2.
Qed.
End guard.

(** ** The reserved ranges *)

Lemma land_prefix_mask x len : 0 <= x < 2 ^ 32 -> 0 < len <= 32 ->
  Z.land x (prefix_mask len) = x / 2 ^ (32 - len) * 2 ^ (32 - len).
Proof.
  intros Hx Hl. unfold prefix_mask. rewrite decide_False by lia.
  change U32_MAX with (Z.ones 32).
  rewrite <- Z.shiftr_div_pow2, <- Z.shiftl_mul_pow2 by lia.
  apply Z.bits_inj'. intros n Hn. rewrite !Z.land_spec, Z.testbit_ones_nonneg by lia.
  destruct (decide (32 <= n)) as [H32|H32].
  - assert (Z.testbit x n = false) as Hx32.
    { destruct (decide (x = 0)) as [->|]; [apply Z.bits_0|]. apply Z.bits_above_log2; [lia|].
      apply Z.log2_lt_pow2; [lia|]. apply Z.lt_le_trans with (2 ^ 32); [lia|].
      apply Z.pow_le_mono_r; lia. }
    rewrite Hx32, andb_false_l. destruct (decide (n < 32 - len)) as [Hlo|Hlo].
    + by rewrite Z.shiftl_spec_low by lia.
    + rewrite Z.shiftl_spec_high, Z.shiftr_spec by lia.
      replace (n - (32 - len) + (32 - len)) with n by lia. by rewrite Hx32.
  - replace (n <? 32)%Z with true by lia. rewrite andb_true_r.
    destruct (decide (n < 32 - len)) as [Hlo|Hlo].
    + rewrite !Z.shiftl_spec_low by lia. by rewrite andb_false_r.
    + rewrite !Z.shiftl_spec_high, Z.shiftr_spec, Z.testbit_ones_nonneg by lia.
      replace (n - (32 - len) + (32 - len)) with n by lia.
      replace (n - (32 - len) <? 32)%Z with true by lia. by rewrite andb_true_r.
Qed.

(** An address and a prefix agree under the mask when their high bits do. *)
Lemma prefix_match addr prefix len :
  0 <= addr < 2 ^ 32 -> 0 <= prefix < 2 ^ 32 -> 0 < len <= 32 ->
  (Z.land (Z.lxor addr prefix) (prefix_mask len) =? 0)%Z = true <->
  addr / 2 ^ (32 - len) = prefix / 2 ^ (32 - len).
Proof.
  intros Ha Hp Hl. rewrite Z.eqb_eq.
  assert (Hx : 0 <= Z.lxor addr prefix < 2 ^ 32).
  { split; [apply Z.lxor_nonneg; lia|].
    destruct (decide (Z.lxor addr prefix = 0)) as [->|]; [lia|].
    assert (0 <= Z.lxor addr prefix) by (apply Z.lxor_nonneg; lia).
    apply Z.log2_lt_pow2; [lia|]. pose proof (Z.log2_lxor addr prefix ltac:(lia) ltac:(lia)).
    assert (forall x, 0 <= x < 2 ^ 32 -> Z.log2 x < 32) as Hlog.
    { intros x Hx. destruct (decide (x = 0)) as [->|]; [done|]. apply Z.log2_lt_pow2; lia. }
    pose proof (Hlog addr Ha). pose proof (Hlog prefix Hp). lia. }
  rewrite land_prefix_mask by lia. rewrite <- !Z.shiftr_div_pow2 by lia.
  rewrite Z.shiftr_lxor. pose proof (Z.pow_pos_nonneg 2 (32 - len)).
  rewrite Z.mul_eq_0, Z.lxor_eq_0_iff. lia.
Qed.

(** The reserved IPv4 ranges, octet by octet. *)
Definition reserved_v4 (ip : Ipv4Addr) : Prop :=
  let '(a, b) := (octet_a ip, octet_b ip) in
  a = 0 \/ a = 10 \/ a = 127 \/ (a = 100 /\ 64 <= b < 128) \/ (a = 169 /\ b = 254) \/
  (a = 172 /\ 16 <= b < 32) \/ (a = 192 /\ b = 168) \/ (a = 198 /\ 18 <= b < 20).

Lemma is_reserved_ipv4_spec ip : ipv4_wf ip -> is_reserved_ipv4 ip = true <-> reserved_v4 ip.
Proof.
  destruct ip as [a b c d]. unfold ipv4_wf, octet, is_reserved_ipv4, reserved_v4. simpl.
  intros (Ha & Hb & Hc & Hd). unfold from_be_bytes. simpl.
  rewrite !orb_true_iff, !prefix_match by lia. simpl.
  change (2 ^ (32 - 8)) with 16777216. change (2 ^ (32 - 10)) with 4194304.
  change (2 ^ (32 - 16)) with 65536. change (2 ^ (32 - 12)) with 1048576.
  change (2 ^ (32 - 15)) with 131072.
  set (x := ((a * 256 + b) * 256 + c) * 256 + d).
  replace (x / 16777216) with a by (unfold x; dlia).
  replace (x / 65536) with (a * 256 + b) by (unfold x; dlia).
  replace (x / 4194304) with (a * 4 + b / 64) by (unfold x; dlia).
  replace (x / 1048576) with (a * 16 + b / 16) by (unfold x; dlia).
  replace (x / 131072) with (a * 128 + b / 2) by (unfold x; dlia). clear x.
  repeat match goal with |- context [Zpos ?p / Zpos ?q] =>
    let v := eval vm_compute in (Zpos p / Zpos q) in change (Zpos p / Zpos q) with v end.
  rewrite Z.div_0_l by done. assert (Hf : false = true <-> False) by done. rewrite Hf.
  split; intros Hx; repeat (destruct Hx as [Hx|Hx]); done || dlia.
Qed.

Definition segment (n : Z) : Prop := 0 <= n < 65536.
Definition ipv6_wf (ip : Ipv6Addr) : Prop :=
  segment (seg0 ip) /\ segment (seg1 ip) /\ segment (seg6 ip) /\ segment (seg7 ip).

Lemma high_bytes_sum a b : segment a -> segment b -> Z.lor (Z.shiftl a 16) b = a * 65536 + b.
Proof.
  unfold segment. intros Ha Hb. rewrite Z.shiftl_mul_pow2 by lia. change (2 ^ 16) with 65536.
  symmetry. rewrite <- Z.lxor_lor, Z.add_nocarry_lxor; try done.
  all: apply Z.bits_inj'; intros n Hn; rewrite Z.land_spec, Z.bits_0.
  all: change 65536 with (2 ^ 16); destruct (decide (n < 16));
    [rewrite Z.mul_pow2_bits_low by lia; done|].
  all: rewrite andb_comm; rewrite (Z.bits_above_log2 b n); [done|lia|].
  all: destruct (decide (b = 0)) as [->|]; [simpl; lia|];
    apply Z.lt_le_trans with 16; [apply Z.log2_lt_pow2; lia|lia].
Qed.

(** C28: the bit masks compute the ranges they are documented to be: an IPv4
    address is reserved exactly in 0/8, 10/8, 127/8, 100.64/10, 169.254/16,
    172.16/12, 192.168/16 and 198.18/15; an IPv6 address exactly when it is the
    loopback or unspecified address, in fc00::/7 or fe80::/10, or maps a reserved
    IPv4 address. *)
Theorem is_reserved_ip_spec ip :
  match ip with V4 v4 => ipv4_wf v4 | V6 v6 => ipv6_wf v6 end ->
  is_reserved_ip ip = true <->
  match ip with
  | V4 v4 => reserved_v4 v4
  | V6 v6 =>
      v6 = mkV6 0 0 0 0 0 0 0 1 \/ v6 = mkV6 0 0 0 0 0 0 0 0 \/
      0xfc00 <= seg0 v6 <= 0xfdff \/ 0xfe80 <= seg0 v6 <= 0xfebf \/
      exists v4, to_ipv4_mapped v6 = Some v4 /\ reserved_v4 v4
  end.
Proof.
  destruct ip as [v4|v6]; intros Hwf; [by apply is_reserved_ipv4_spec|].
  destruct Hwf as (H0 & H1 & H6 & H7). unfold is_reserved_ip, is_loopback, is_unspecified.
  case_bool_decide as Hlb; [naive_solver|]. case_bool_decide as Hun; [naive_solver|]. simpl orb.
  cbv iota zeta. rewrite high_bytes_sum by done. unfold segment in *.
  change 0xfe000000 with (prefix_mask 7). change 0xffc00000 with (prefix_mask 10).
  rewrite !land_prefix_mask by lia.
  change (2 ^ (32 - 7)) with 33554432. change (2 ^ (32 - 10)) with 4194304.
  destruct (Z.eqb_spec ((seg0 v6 * 65536 + seg1 v6) / 33554432 * 33554432) 0xfc000000).
  { split; [intros _; right; right; left; dlia|done]. }
  destruct (Z.eqb_spec ((seg0 v6 * 65536 + seg1 v6) / 4194304 * 4194304) 0xfe800000).
  { split; [intros _; do 3 right; left; dlia|done]. }
  assert (Hwf4 : forall v4, to_ipv4_mapped v6 = Some v4 -> ipv4_wf v4).
  { unfold to_ipv4_mapped. intros v4. case_decide; [|done]. intros [= <-].
    unfold ipv4_wf, octet. simpl. dlia. }
  destruct (to_ipv4_mapped v6) as [v4|].
  - rewrite is_reserved_ipv4_spec by by apply Hwf4. split.
    + intros Hr. do 4 right. by exists v4.
    + intros [?|[?|[?|[?|(v & [= <-] & ?)]]]]; done || dlia.
  - split; [done|]. intros [?|[?|[?|[?|(v & [=] & ?)]]]]; done || dlia.
Qed.

(** ** Witnesses *)

Lemma is_reserved_ip_spec_witness :
  is_reserved_ip (V4 (mkV4 172 31 0 9)) = true <-> reserved_v4 (mkV4 172 31 0 9).
Proof.
  apply (is_reserved_ip_spec (V4 (mkV4 172 31 0 9))). unfold ipv4_wf, octet. simpl. lia.
Defined.

(** A URL is its host; [rebound] names a public address and the link-local one of a cloud's
    metadata service; every server redirects to that service. *)
Definition demo_url (s : string) : result string string :=
  if starts_with "https://" s then Ok (drop_bytes 8 s) else Err "relative URL without a base".
Definition metadata_service : IpAddr := V4 (mkV4 169 254 169 254).
Definition demo_lookup (rebound : string) (host : string) (port : Z) : result (list IpAddr) string :=
  Ok (V4 (mkV4 104 18 6 192) :: if bool_decide (host = rebound) then [metadata_service] else []).
Definition demo_post (endpoint : string) (headers : Headers) (body : string)
    : list string * result (Z * result string string) string :=
  ([endpoint; "http://169.254.169.254/"], Ok (200, Ok "secret")).
Definition demo_call : string -> string -> list Event * result string SecurityError :=
  secure_cloud_api_call demo_url Some (fun _ => None) (demo_lookup "api.openai.com") (fun _ => "169.254.169.254")
    demo_post pretty.

Lemma guarded_call_spec_witness :
  demo_call "https://api.openai.com" "{}" = ([Lookup "api.openai.com" 443], Err (SsrfDetected "169.254.169.254")) /\
  demo_call "https://example.org" "{}" = ([], Err (EgressViolation "https://example.org")) /\
  (demo_call "https://api.groq.com" "{}").2 = Ok "secret".
Proof.
  pose proof (fun e => guarded_call_spec demo_url Some (fun _ => None) (demo_lookup "api.openai.com")
    (fun _ => "169.254.169.254") demo_post pretty e
    [("Content-Type", "application/json"); ("Cache-Control", "ephemeral")] "{}") as Hs.
  unfold demo_call, secure_cloud_api_call. split_and!.
  - specialize (Hs "https://api.openai.com"). destruct (guarded_call _ _ _ _ _ _ _ _ _ _) as [ev r].
    destruct Hs as [_ Hs]. destruct (Hs "api.openai.com" 443) as (_ & Hres & _).
    + exists "api.openai.com". split_and!; [reflexivity..|in_list|reflexivity].
    + destruct (Hres [V4 (mkV4 104 18 6 192)] metadata_service []) as [-> ->];
        [reflexivity|by repeat constructor|reflexivity|reflexivity].
  - specialize (Hs "https://example.org"). destruct (guarded_call _ _ _ _ _ _ _ _ _ _) as [ev r].
    destruct Hs as [Hs _]. destruct Hs as [-> [[-> _]|[_ Hno]]]; [|reflexivity|].
    + intros host port (url & [= <-] & [= <-] & Hin & _). apply list_elem_of_In in Hin. by repeat destruct Hin as [Hin|Hin].
    + by specialize (Hno "example.org" eq_refl).
  - specialize (Hs "https://api.groq.com"). destruct (guarded_call _ _ _ _ _ _ _ _ _ _) as [ev r].
    destruct Hs as [_ Hs]. destruct (Hs "api.groq.com" 443) as (_ & _ & Hok).
    + exists "api.groq.com". split_and!; [reflexivity..|in_list|reflexivity].
    + destruct (Hok [V4 (mkV4 104 18 6 192)]) as (_ & Hb & _); [reflexivity|by repeat constructor|].
      cbn. apply Hb. exists 200. split; [reflexivity|lia].
Defined.
