(* ===== verification/SingleFlight.v ===== *)
(** * crates/llm-router/src/coordinator.rs: single-flight deduplication

    Requests that miss the cache for the same key share one dispatch: the first
    leads, the others watch its entry.  The model interleaves the critical sections
    of [CacheSingleFlight::dedup] and of the guard's [Drop]: each step below is one
    of them, run under the lock of the table or of one entry.  A [tokio::sync::Notify]
    is the number of [notify_waiters] calls so far: a [Notified] future is woken by
    the calls made after its creation. *)
From S2P Require Import Prelude.

Section single_flight.
(** The result that [f] computes, and [TmrConsensusResult::default()]. *)
Context {Result : Type} (default_result : Result).

Record SingleFlightEntry := mkEntry {
  result : option Result;
  notified : nat;
  cancelled : bool }.
Definition entry_new : SingleFlightEntry := mkEntry None 0 false.

(** Where a request stands in [dedup]; entries are named by their index in the heap. *)
Inductive Request : Type :=
  | AtGet
  | AtCheck (e : nat)
  | AtCheckAgain (e : nat)
  | AtNotified (e : nat)
  | Waiting (e : nat) (since : nat)
  | AtWoken (e : nat)
  | Watched (r : Result)
  | AtInsert
  | Leading (e : nat)
  | AtPublish (e : nat) (r : Result)
  | AtGuardDrop (r : option Result)
  | Led (r : Result)
  | Dropped.

(** [inflight] is the shared table; the heap lists the entries in order of
    creation, each with the key of the request that created it. *)
Record CacheSingleFlight := mkFlight {
  heap : list (string * SingleFlightEntry);
  inflight : gmap string nat }.
Definition flight_new : CacheSingleFlight := mkFlight [] ∅.

Definition set_entry (e : nat) (k : string) (x : SingleFlightEntry) (s : CacheSingleFlight) :=
  mkFlight (<[e := (k, x)]> (heap s)) (inflight s).

(** What a watcher returns at once: the result, or the default after a cancellation. *)
Definition settled (x : SingleFlightEntry) : option Result :=
  match result x with
  | Some r => Some r
  | None => if cancelled x then Some default_result else None
  end.
(** What a woken watcher returns. *)
Definition woken_result (x : SingleFlightEntry) : Result :=
  if cancelled x then default_result else default default_result (result x).

Definition publish (r : Result) (x : SingleFlightEntry) : SingleFlightEntry :=
  mkEntry (Some r) (S (notified x)) (cancelled x).
Definition cancel (x : SingleFlightEntry) : SingleFlightEntry :=
  match result x with
  | Some _ => x
  | None => if cancelled x then x else mkEntry None (S (notified x)) true
  end.

(** [SingleFlightGuard::drop] of a leader. *)
Definition guard_drop (key : string) (s : CacheSingleFlight) : CacheSingleFlight :=
  match inflight s !! key with
  | None => s
  | Some e =>
      let s := mkFlight (heap s) (delete key (inflight s)) in
      match heap s !! e with Some (k, x) => set_entry e k (cancel x) s | None => s end
  end.

(** Why a step is taken: the request runs, its 15 s are over, or its task is
    dropped because the client has gone (at an [await]). *)
Inductive Cause : Type := Runs | TimesOut | ClientGone.

Inductive dedup_step (key : string)
    : Cause -> CacheSingleFlight * Request -> CacheSingleFlight * Request -> Prop :=
  | sf_get s :
      dedup_step key Runs (s, AtGet)
        (s, match inflight s !! key with Some e => AtCheck e | None => AtInsert end)
  | sf_check s e k x : heap s !! e = Some (k, x) ->
      dedup_step key Runs (s, AtCheck e)
        (s, match settled x with Some r => Watched r | None => AtCheckAgain e end)
  | sf_check_again s e k x : heap s !! e = Some (k, x) ->
      dedup_step key Runs (s, AtCheckAgain e)
        (s, match settled x with Some r => Watched r | None => AtNotified e end)
  | sf_notified s e k x : heap s !! e = Some (k, x) ->
      dedup_step key Runs (s, AtNotified e) (s, Waiting e (notified x))
  | sf_wake s e since k x : heap s !! e = Some (k, x) -> (since < notified x)%nat ->
      dedup_step key Runs (s, Waiting e since) (s, AtWoken e)
  | sf_timeout s e since :
      dedup_step key TimesOut (s, Waiting e since) (s, Watched default_result)
  | sf_watcher_gone s e since :
      dedup_step key ClientGone (s, Waiting e since) (s, Dropped)
  | sf_woken s e k x : heap s !! e = Some (k, x) ->
      dedup_step key Runs (s, AtWoken e) (s, Watched (woken_result x))
  | sf_insert s :
      let e := length (heap s) in
      dedup_step key Runs (s, AtInsert)
        (mkFlight (heap s ++ [(key, entry_new)]) (<[key := e]> (inflight s)), Leading e)
  | sf_dispatched s e r : dedup_step key Runs (s, Leading e) (s, AtPublish e r)
  | sf_leader_gone s e : dedup_step key ClientGone (s, Leading e) (s, AtGuardDrop None)
  | sf_publish s e k x r : heap s !! e = Some (k, x) ->
      dedup_step key Runs (s, AtPublish e r) (set_entry e k (publish r x) s, AtGuardDrop (Some r))
  | sf_guard_drop s r :
      dedup_step key Runs (s, AtGuardDrop r)
        (guard_drop key s, match r with Some r => Led r | None => Dropped end).

(** The process: requests arrive and take their steps in any order. *)
Record System := mkSystem {
  flight : CacheSingleFlight;
  requests : list (string * Request) }.
Definition system_new : System := mkSystem flight_new [].

Inductive sf_step (allowed : Cause -> Prop) : System -> System -> Prop :=
  | sf_arrive s key :
      sf_step allowed s (mkSystem (flight s) (requests s ++ [(key, AtGet)]))
  | sf_at s i key c a b f' :
      allowed c -> requests s !! i = Some (key, a) ->
      dedup_step key c (flight s, a) (f', b) ->
      sf_step allowed s (mkSystem f' (<[i := (key, b)]> (requests s))).

Definition any_cause (c : Cause) : Prop := True.
Definition running (c : Cause) : Prop := c = Runs.

(** ** Invariant *)

(** The entry a request holds. *)
Definition names (a : Request) : option nat :=
  match a with
  | AtCheck e | AtCheckAgain e | AtNotified e | Waiting e _ | AtWoken e
  | Leading e | AtPublish e _ => Some e
  | _ => None
  end.
Definition leads (a : Request) : bool :=
  match a with Leading _ | AtPublish _ _ | AtGuardDrop _ => true | _ => false end.
Definition finished (a : Request) : bool :=
  match a with Watched _ | Led _ | Dropped => true | _ => false end.
(** The result that a leader has computed. *)
Definition computed_by (a : Request) : option Result :=
  match a with AtPublish _ r | Led r => Some r | AtGuardDrop r => r | _ => None end.
Definition computed (k : string) (r : Result) (s : System) : Prop :=
  exists i a, requests s !! i = Some (k, a) /\ computed_by a = Some r.

Record sf_inv (s : System) : Prop := {
  inv_table : forall k e, inflight (flight s) !! k = Some e ->
    exists x, heap (flight s) !! e = Some (k, x);
  inv_names : forall i k a e, requests s !! i = Some (k, a) -> names a = Some e ->
    exists x, heap (flight s) !! e = Some (k, x);
  inv_result : forall e k x r, heap (flight s) !! e = Some (k, x) -> result x = Some r ->
    computed k r s;
  inv_watched : forall i k r, requests s !! i = Some (k, Watched r) ->
    r = default_result \/ computed k r s;
  inv_leader : forall k e, inflight (flight s) !! k = Some e ->
    exists i a, requests s !! i = Some (k, a) /\ leads a = true }.

Lemma result_cancel x : result (cancel x) = result x.
Proof. unfold cancel. destruct (result x) eqn:E; [done|]. by destruct (cancelled x). Qed.

Lemma lookup_set_entry e k x s e' k' x' :
  heap (set_entry e k x s) !! e' = Some (k', x') ->
  (e' = e /\ k' = k /\ x' = x) \/ heap s !! e' = Some (k', x').
Proof. simpl. intros [(-> & ? & _)|[_ ?]]%list_lookup_insert_Some; [left; naive_solver|by right]. Qed.

(** Entries keep their keys, and a new result is the published one. *)
Lemma dedup_step_heap key c s a s' b :
  dedup_step key c (s, a) (s', b) ->
  (forall e k x, heap s !! e = Some (k, x) -> exists x', heap s' !! e = Some (k, x')) /\
  (forall e k x r, heap s' !! e = Some (k, x) -> result x = Some r ->
     (exists x0, heap s !! e = Some (k, x0) /\ (result x0 = Some r \/ a = AtPublish e r))).
Proof.
  assert (Hset : forall e k x x' (t : CacheSingleFlight), heap t !! e = Some (k, x) ->
    forall e' k' y, heap t !! e' = Some (k', y) ->
    exists y', heap (set_entry e k x' t) !! e' = Some (k', y')).
  { intros e k x x' t He e' k' y He'. simpl. destruct (decide (e = e')) as [->|].
    - exists x'. rewrite list_lookup_insert_eq by by apply lookup_lt_Some in He. naive_solver.
    - exists y. by rewrite list_lookup_insert_ne. }
  inversion 1; subst; split; intros e' k' y; intros; eauto.
  - simpl. exists y. by apply lookup_app_l_Some.
  - simpl in *. apply lookup_app_Some in H0 as [?|[? ?]]; [by eauto|].
    destruct (e' - length (heap s))%nat; simplify_eq/=.
  - apply lookup_set_entry in H0 as [(-> & -> & ->)|?]; [|by eauto].
    simpl in *. simplify_eq. eauto.
  - unfold guard_drop. repeat case_match; simplify_eq/=; eauto.
  - revert H0. unfold guard_drop. repeat case_match; simplify_eq/=; eauto;
      intros [(-> & ? & _)|[_ ?]]%list_lookup_insert_Some; simplify_eq; eauto;
      rewrite result_cancel in *; eauto.
Qed.

Lemma dedup_step_table key c s a s' b k :
  dedup_step key c (s, a) (s', b) ->
  (k <> key -> inflight s' !! k = inflight s !! k) /\
  (inflight s' !! key = inflight s !! key \/ inflight s' !! key = None \/
   (inflight s' !! key = Some (length (heap s)) /\ b = Leading (length (heap s)) /\
    heap s' !! length (heap s) = Some (key, entry_new))).
Proof.
  inversion 1; subst; try by auto.
  - cbn. split; [intros; by rewrite lookup_insert_ne|]. right; right.
    split_and!; [by rewrite lookup_insert_eq|done|by apply list_lookup_middle].
  - unfold guard_drop. destruct (inflight s !! key) as [e|] eqn:He; [|by auto].
    cbn. destruct (heap s !! e) as [[]|]; simpl; rewrite lookup_delete_eq;
      (split; [intros; by rewrite lookup_delete_ne|by auto]).
Qed.

Lemma computed_step key a b i c s s' :
  requests s !! i = Some (key, a) -> dedup_step key c (flight s, a) (s', b) ->
  forall k r, computed k r s -> computed k r (mkSystem s' (<[i := (key, b)]> (requests s))).
Proof.
  intros Hi Hstep k r (j & d & Hj & Hd). destruct (decide (j = i)) as [->|].
  - exists i, b. simpl. rewrite list_lookup_insert_eq by by apply lookup_lt_Some in Hi.
    simplify_eq. split; [done|]. inversion Hstep; subst; simplify_eq/=; done.
  - exists j, d. simpl. by rewrite list_lookup_insert_ne.
Qed.

Lemma dedup_step_names key c s a s' b e :
  dedup_step key c (s, a) (s', b) -> names b = Some e ->
  names a = Some e \/ inflight s !! key = Some e \/ heap s' !! e = Some (key, entry_new).
Proof.
  inversion 1; subst; simpl; repeat case_match; intros; simplify_eq/=; auto.
  right; right. by apply list_lookup_middle.
Qed.

Lemma dedup_step_watched key c s a s' r :
  dedup_step key c (s, a) (s', Watched r) ->
  r = default_result \/
  exists e k x, names a = Some e /\ heap s !! e = Some (k, x) /\ result x = Some r.
Proof.
  intros H. remember (Watched r) as b eqn:Hb. revert Hb.
  inversion H; subst; simpl; unfold settled, woken_result; repeat case_match; intros;
    simplify_eq/=; auto; try (right; by eauto 6).
  destruct (result x) eqn:E; simpl; [right; by eauto 6|by left].
Qed.

Lemma dedup_step_leads key c s a s' b :
  dedup_step key c (s, a) (s', b) -> leads a = true ->
  leads b = true \/ inflight s' !! key = None.
Proof.
  inversion 1; subst; simpl; try done; auto. intros _. right. unfold guard_drop.
  destruct (inflight s !! key) eqn:E; [|done]. cbn.
  destruct (heap s !! n) as [[]|]; simpl; by rewrite lookup_delete_eq.
Qed.

Lemma sf_inv_new : sf_inv system_new.
Proof. by split. Qed.

Lemma sf_inv_arrive s key :
  sf_inv s -> sf_inv (mkSystem (flight s) (requests s ++ [(key, AtGet)])).
Proof.
  intros [It In Ir Iw Il].
  assert (Hold : forall i x, requests s !! i = Some x ->
    (requests s ++ [(key, AtGet)]) !! i = Some x) by (intros; by apply lookup_app_l_Some).
  assert (Hc : forall k r, computed k r s ->
    computed k r (mkSystem (flight s) (requests s ++ [(key, AtGet)]))).
  { intros k r (j & d & ? & ?). exists j, d. split; [by apply Hold|done]. }
  split; simpl; [done| |by eauto| |].
  - intros j k d e [?|[_ Hj]]%lookup_app_Some; [by eauto|].
    destruct (j - _)%nat; simplify_eq/=; done.
  - intros j k r [?|[_ Hj]]%lookup_app_Some; [|by destruct (j - _)%nat; simplify_eq/=].
    destruct (Iw j k r) as [|]; eauto.
  - intros k e He. destruct (Il k e He) as (j & d & ? & ?). eauto.
Qed.

Lemma sf_inv_step allowed s s' : sf_inv s -> sf_step allowed s s' -> sf_inv s'.
Proof.
  intros I Hstep. destruct Hstep as [s key|s i key c a b f' _ Hi Hstep].
  { by apply sf_inv_arrive. }
  destruct I as [It In Ir Iw Il].
  destruct (dedup_step_heap _ _ _ _ _ _ Hstep) as [Hkeep Hnew].
  pose proof (computed_step _ _ _ _ _ _ _ Hi Hstep) as Hc.
  assert (Hat : forall j x, <[i := (key, b)]> (requests s) !! j = Some x ->
    (j = i /\ x = (key, b)) \/ requests s !! j = Some x).
  { intros j x [(-> & <- & _)|[_ ?]]%list_lookup_insert_Some; auto. }
  assert (Hi' : <[i := (key, b)]> (requests s) !! i = Some (key, b))
    by by apply list_lookup_insert_eq, (lookup_lt_Some _ _ _ Hi).
  split; simpl.
  - intros k e He. destruct (dedup_step_table _ _ _ _ _ _ k Hstep) as [Hk Hkey].
    destruct (decide (k = key)) as [->|].
    + destruct Hkey as [Heq|[Heq|(Heq & _ & ?)]]; rewrite He in Heq; simplify_eq; [|by eauto].
      destruct (It key e) as [x Hx]; [done|by eapply Hkeep].
    + rewrite Hk in He by done. destruct (It k e He) as [x Hx]. by eapply Hkeep.
  - intros j k d e [[-> [= -> ->]]|Hj]%Hat Hd.
    + destruct (dedup_step_names _ _ _ _ _ _ _ Hstep Hd) as [Ha|[He|?]]; [| |by eauto].
      * destruct (In _ _ _ _ Hi Ha) as [x Hx]. by eapply Hkeep.
      * destruct (It _ _ He) as [x Hx]. by eapply Hkeep.
    + destruct (In _ _ _ _ Hj Hd) as [x Hx]. by eapply Hkeep.
  - intros e k x r He Hr. destruct (Hnew e k x r He Hr) as (x0 & Hx0 & [Hr0| ->]).
    + by apply Hc, (Ir e k x0).
    + destruct (In i key _ e Hi eq_refl) as [x1 Hx1]. simplify_eq.
      apply Hc. by exists i, (AtPublish e r).
  - intros j k r [[-> [= -> <-]]|Hj]%Hat.
    + destruct (dedup_step_watched _ _ _ _ _ _ Hstep) as [|(e & k & x & Ha & Hx & Hr)]; [by auto|].
      destruct (In _ _ _ _ Hi Ha) as [x1 Hx1]. simplify_eq. right. by apply Hc, (Ir e _ x).
    + destruct (Iw _ _ _ Hj); auto.
  - intros k e He. destruct (dedup_step_table _ _ _ _ _ _ k Hstep) as [Hk Hkey].
    assert (Hother : inflight (flight s) !! k = Some e -> exists j d,
      <[i := (key, b)]> (requests s) !! j = Some (k, d) /\ leads d = true).
    { intros H0. destruct (Il k e H0) as (j & d & Hj & Hd). destruct (decide (j = i)) as [->|].
      - simplify_eq. exists i, b. split; [done|].
        by destruct (dedup_step_leads _ _ _ _ _ _ Hstep Hd); [|congruence].
      - exists j, d. by rewrite list_lookup_insert_ne. }
    destruct (decide (k = key)) as [->|]; [|by rewrite Hk in He; auto].
    destruct Hkey as [Heq|[Heq|(_ & -> & _)]]; [|congruence|by eauto].
    apply Hother. congruence.
Qed.

(** The systems reached from the empty one. *)
Definition sf_reachable (allowed : Cause -> Prop) (s : System) : Prop :=
  rtc (sf_step allowed) system_new s.

Lemma sf_reachable_inv allowed s : sf_reachable allowed s -> sf_inv s.
Proof.
  unfold sf_reachable. generalize sf_inv_new. generalize system_new.
  induction 2; [done|]. eauto using sf_inv_step.
Qed.

(** C21: single flight never mixes keys and never leaks entries: whatever the
    interleaving, timeouts and disconnections, a watcher returns the default result
    or one that a leader of its own key has computed; the table holds an entry at every
    moment only for keys that a request is leading at that moment, one made by a request
    of that key, and so it is empty when all have returned. *)
Theorem singleflight_confined allowed s :
  sf_reachable allowed s ->
  (forall i k r, requests s !! i = Some (k, Watched r) -> r = default_result \/ computed k r s) /\
  (forall k e, inflight (flight s) !! k = Some e ->
     (exists i a, requests s !! i = Some (k, a) /\ leads a = true) /\
     exists x, heap (flight s) !! e = Some (k, x)) /\
  (Forall (fun kr => finished kr.2 = true) (requests s) -> inflight (flight s) = ∅).
Proof.
  intros [It _ _ Iw Il]%sf_reachable_inv. split_and!; [done|by eauto|]. intros Hf. apply map_eq. intros k.
  rewrite lookup_empty. destruct (inflight (flight s) !! k) as [e|] eqn:E; [|done].
  destruct (Il k e E) as (i & a & Hi & Ha).
  pose proof (Forall_lookup_1 _ _ _ _ Hf Hi). by destruct a.
Qed.

(** Runs request [i] for one step. *)
Ltac run i := eapply rtc_l;
  [eapply (sf_at _ _ i); [reflexivity|reflexivity|econstructor; (reflexivity || (simpl; lia))]|];
  unfold guard_drop, set_entry; simpl;
  rewrite ?lookup_insert_eq, ?lookup_delete_eq, ?lookup_empty; simpl.
Ltac arrive k := eapply rtc_l; [apply (sf_arrive _ _ k)|]; simpl.

(** Two requests that both look the key up before either has inserted its
    entry both lead, and the one that finishes first removes and cancels the
    other's entry: a watcher of that entry is told at once that its leader was
    cancelled, though the leader goes on and publishes its result.  (No timeout or
    disconnection is involved; the documentation promises a single dispatch.) *)
Theorem singleflight_race k r0 r1 :
  exists s, sf_reachable running s /\
    requests s = [(k, Led r0); (k, Led r1); (k, Watched default_result)] /\
    heap (flight s) !! 1%nat = Some (k, mkEntry (Some r1) 2 true).
Proof.
  eexists. split; [unfold sf_reachable|].
  - arrive k. arrive k. run 0%nat. run 1%nat. run 0%nat. run 1%nat.
    arrive k. run 2%nat. run 2%nat. run 2%nat. run 2%nat.
    run 0%nat. run 0%nat. run 0%nat. run 2%nat. run 2%nat. run 1%nat. run 1%nat. run 1%nat.
    apply rtc_refl.
  - done.
Qed.

Lemma guard_drop_settled key s e k x r :
  heap s !! e = Some (k, x) -> result x = Some r -> heap (guard_drop key s) !! e = Some (k, x).
Proof.
  intros He Hr. unfold guard_drop. repeat case_match; simpl in *; simplify_eq; try done.
  destruct (decide (n = e)) as [->|]; [|by rewrite list_lookup_insert_ne].
  simplify_eq. rewrite list_lookup_insert_eq by by apply lookup_lt_Some in He.
  unfold cancel. by rewrite Hr.
Qed.

Lemma settled_entry_stays key c s a s' b e k x r :
  dedup_step key c (s, a) (s', b) -> heap s !! e = Some (k, x) -> result x = Some r ->
  a <> Leading e -> (forall r, a <> AtPublish e r) ->
  heap s' !! e = Some (k, x) /\ b <> Leading e /\ forall r, b <> AtPublish e r.
Proof.
  intros Hstep He Hr Hl Hp. pose proof (lookup_lt_Some _ _ _ He).
  inversion Hstep; subst; simpl; repeat case_match; try (by split_and!; try congruence).
  - split_and!; [by apply lookup_app_l_Some|intros [=]; lia|done].
  - rewrite list_lookup_insert_ne by congruence. done.
  - by split_and!; [eapply guard_drop_settled|..].
  - by split_and!; [eapply guard_drop_settled|..].
Qed.

(** Entry 0 holds its result, was notified once, and has no leader at work. *)
Record missed (k : string) (r : Result) (s : System) : Prop := {
  m_waits : requests s !! 1%nat = Some (k, Waiting 0 1);
  m_entry : heap (flight s) !! 0%nat = Some (k, mkEntry (Some r) 1 false);
  m_quiet : forall i k' a, requests s !! i = Some (k', a) ->
    a <> Leading 0 /\ forall r, a <> AtPublish 0 r }.

Lemma missed_step k r s s' : missed k r s -> sf_step running s s' -> missed k r s'.
Proof.
  intros [Hw He Hq] Hstep. destruct Hstep as [s key|s i key c a b f' Hc Hi Hstep].
  - split; simpl; [by apply lookup_app_l_Some|done|].
    intros i k' a [?|[_ Hj]]%lookup_app_Some; [by eapply Hq|].
    destruct (i - _)%nat; simplify_eq/=. split; [done|by intros].
  - destruct (Hq _ _ _ Hi) as [Hl Hp].
    destruct (settled_entry_stays _ _ _ _ _ _ _ _ _ _ Hstep He eq_refl Hl Hp) as (He' & Hb).
    split; simpl; [|done|].
    + rewrite list_lookup_insert_ne; [done|]. intros ->. simplify_eq. hnf in Hc. subst c.
      inversion Hstep; subst; simplify_eq/=; lia.
    + intros j k' d [(-> & [= <- <-] & _)|[_ ?]]%list_lookup_insert_Some; [done|by eapply Hq].
Qed.

(** A wake-up can be lost: a watcher whose leader publishes between the
    watcher's last look at the entry and its call of [notified] waits for a
    notification that has gone by; as long as no time runs out and no client
    leaves, it stays there, whatever other requests do, although the
    result is in the entry it watches. *)
Theorem singleflight_lost_wakeup k r :
  exists s, sf_reachable running s /\
    requests s = [(k, Led r); (k, Waiting 0 1)] /\
    heap (flight s) !! 0%nat = Some (k, mkEntry (Some r) 1 false) /\
    forall s', rtc (sf_step running) s s' -> requests s' !! 1%nat = Some (k, Waiting 0 1).
Proof.
  eexists. split; [unfold sf_reachable|].
  - arrive k. run 0%nat. run 0%nat. arrive k. run 1%nat. run 1%nat. run 1%nat.
    run 0%nat. run 0%nat. run 1%nat. run 0%nat. apply rtc_refl.
  - split_and!; [done|done|]. intros s' Hs.
    assert (Hm : missed k r s'); [|by apply Hm].
    revert Hs. match goal with |- rtc _ ?s _ -> _ => assert (H0 : missed k r s) end.
    { split; [done|done|]. intros [|[|?]] k' a Ha; simplify_eq/=; split; intros; congruence. }
    revert H0. induction 2; eauto using missed_step.
Qed.

(** The intended course: one dispatch serves both requests. *)
Lemma shared_dispatch k r :
  exists s, sf_reachable running s /\ requests s = [(k, Led r); (k, Watched r)].
Proof.
  eexists. split; [unfold sf_reachable|].
  - arrive k. run 0%nat. run 0%nat. arrive k. run 1%nat. run 1%nat. run 1%nat. run 1%nat.
    run 0%nat. run 0%nat. run 1%nat. run 1%nat. run 0%nat. apply rtc_refl.
  - done.
Qed.
End single_flight.

Lemma singleflight_confined_witness :
  exists s, requests s = [("k", Led 7%nat); ("k", Watched 7%nat)] /\
  (forall i k r, requests s !! i = Some (k, Watched r) -> r = 0%nat \/ computed k r s) /\
  inflight (flight s) = ∅.
Proof.
  destruct (shared_dispatch 0%nat "k" 7%nat) as (s & Hs & Hr).
  destruct (singleflight_confined 0%nat running s Hs) as (Hw & _ & He).
  exists s. split_and!; [exact Hr|exact Hw|apply He]. rewrite Hr. by repeat constructor.
Defined.
