(* ===== verification/PiiMask.v ===== *)
(** * crates/worker/src/lib.rs: PII masking and the compliance bus

    Prompts are masked before they leave and answers are restored.  The regular
    expressions belong to the regex crate: the class [PiiRegex] states what the code
    relies on, that the matches of [PII_PATTERN] are pieces of the text in
    order. *)
From Stdlib Require Import Ascii String.
From S2P Require Import Prelude RustStr.

Local Open Scope string_scope.

(** [find_iter t] is the list of the matches in [t], each with the text between it
    and the one before, and the text after the last. *)
Fixpoint joined (l : list (string * string)) (tail : string) : string :=
  match l with [] => tail | (lit, m) :: l => lit ++ m ++ joined l tail end.
Class PiiRegex := {
  find_iter : string -> list (string * string) * string;
  EMAIL_PATTERN : string -> bool;
  PHONE_PATTERN : string -> bool;
  IDENTITY_PATTERN : string -> bool;
  FINANCIAL_PATTERN : string -> bool;
  find_iter_joined : forall t, let '(l, tail) := find_iter t in joined l tail = t }.

Inductive PiiType : Type := Email | Phone | Identity | Financial.
Definition placeholder_tag (p : PiiType) : string :=
  match p with
  | Email => "MASKED_EMAIL" | Phone => "MASKED_PHONE"
  | Identity => "MASKED_IDENTITY" | Financial => "MASKED_FINANCIAL"
  end.

(** [MaskingMap]: placeholder to original. *)
Abbreviation MaskingMap := (gmap string string).

Section masking.
Context `{PiiRegex}.

Definition classify_pii (matched : string) : PiiType :=
  if EMAIL_PATTERN matched then Email
  else if FINANCIAL_PATTERN matched then Financial
  else if IDENTITY_PATTERN matched then Identity
  else if PHONE_PATTERN matched then Phone
  else Phone.

Definition placeholder (idx : Z) (matched : string) : string :=
  "[" ++ placeholder_tag (classify_pii matched) ++ "_" ++ pretty idx ++ "]".

(** [replace_all] with the closure of [redact_pii], whose counter is local. *)
Fixpoint redact_from (counter : Z) (l : list (string * string)) (tail : string) : outcome string :=
  match l with
  | [] => Ret tail
  | (lit, matched) :: l =>
      next ← add_u U64_MAX counter 1;
      rest ← redact_from next l tail;
      Ret (lit ++ placeholder counter matched ++ rest)
  end.
Definition redact_pii (text : string) : outcome string :=
  let '(l, tail) := find_iter text in redact_from 0 l tail.

(** ** [PIIProtector] *)

Record PIIProtector := mkProtector { counter : Z }.
Definition protector_new : PIIProtector := mkProtector 0.

(** The counter is shared and advanced atomically: overlapping calls would leave gaps
    between the numbers one of them draws, here they are consecutive. *)
Fixpoint mask_from (p : PIIProtector) (map : MaskingMap) (l : list (string * string))
    (tail : string) : PIIProtector * (string * MaskingMap) :=
  match l with
  | [] => (p, (tail, map))
  | (lit, matched) :: l =>
      let idx := counter p in
      let p := mkProtector (wrapping_add U64_MAX idx 1) in
      let ph := placeholder idx matched in
      let '(p, (rest, map)) := mask_from p (<[ph := matched]> map) l tail in
      (p, (lit ++ ph ++ rest, map))
  end.
Definition mask (text : string) (p : PIIProtector) : PIIProtector * (string * MaskingMap) :=
  let '(l, tail) := find_iter text in mask_from p ∅ l tail.
End masking.

Definition restore `{HashOrder} (text : string) (map : MaskingMap) : string :=
  fold_left (fun result e => replace e.1 e.2 result) (hash_iter map) text.

(** ** Restoring, on texts with holes

    A text in which some pieces stand replaced by placeholders. *)
Inductive Piece : Type :=
  | Plain (s : string)
  | Hole (ph original : string).
Definition shown (x : Piece) : string := match x with Plain s => s | Hole ph _ => ph end.
Definition meant (x : Piece) : string := match x with Plain s => s | Hole _ o => o end.
Fixpoint render (l : list Piece) : string := match l with [] => "" | x :: l => shown x ++ render l end.
Fixpoint filled (l : list Piece) : string := match l with [] => "" | x :: l => meant x ++ filled l end.

Definition fill (ph original : string) (x : Piece) : Piece :=
  match x with Hole ph' _ => if decide (ph' = ph) then Plain original else x | Plain _ => x end.

Definition is_placeholder (s : string) : Prop :=
  exists w, s = "[MASKED_" ++ w ++ "]" /\ lacks "[" w = true /\ lacks "]" w = true.

(** Every hole is one of [map]'s. *)
Definition holes_in (map : MaskingMap) (l : list Piece) : Prop :=
  Forall (fun x => match x with Plain _ => True | Hole ph o => map !! ph = Some o end) l.
Definition well_keyed (map : MaskingMap) : Prop :=
  forall ph o, map !! ph = Some o -> is_placeholder ph.

(** A word without brackets at the start of the rendered text is also there in the
    text that is meant, since placeholders begin with one. *)
Lemma starts_with_render w a l map :
  holes_in map l -> well_keyed map -> lacks "[" w = true ->
  starts_with w (a ++ render l) = true -> starts_with w (a ++ filled l) = true.
Proof.
  intros Hl Hm. revert w a. induction Hl as [|x l Hx Hl IH]; intros w a Hw; [done|].
  revert w Hw. induction a as [|c a IHa]; intros [|d w] Hw; try done.
  - destruct x as [s|ph o]; simpl (_ ++ _); [apply IH, Hw|].
    destruct (Hm _ _ Hx) as (v & -> & _ & _). simpl.
    apply andb_true_iff in Hw as [Hd _]. by destruct (Ascii.eqb d "[").
  - simpl. destruct (Ascii.eqb d c); [|done]. apply IHa. by apply andb_true_iff in Hw as [_ ?].
Qed.

Lemma starts_with_bracket c s v :
  starts_with (String "[" v) (String c s) = true -> c = "["%char /\ starts_with v s = true.
Proof. cbn [starts_with]. by destruct (Ascii.eqb_spec "[" c) as [<-|]. Qed.

(** The text that is meant spells none of the placeholders. *)
Definition spells_none (map : MaskingMap) (text : string) : Prop :=
  forall ph o, map !! ph = Some o -> find ph text = None.

(** No placeholder starts inside a plain piece: its only opening bracket is its first
    character, so it does not reach into a hole. *)
Lemma no_placeholder_here map w c s l :
  holes_in map l -> well_keyed map -> lacks "[" w = true ->
  find ("[MASKED_" ++ w ++ "]") (String c (s ++ filled l)) = None ->
  starts_with ("[MASKED_" ++ w ++ "]") (String c (s ++ render l)) = false.
Proof.
  intros Hl Hm Hw Hf. apply not_true_is_false. intros [-> Hs]%starts_with_bracket.
  apply (starts_with_render _ _ _ map) in Hs; [|done|done|cbn; by rewrite lacks_app, Hw].
  apply find_None_cons in Hf as [Hf _].
  change (starts_with ("MASKED_" ++ w ++ "]") (s ++ filled l) = false) in Hf.
  change (starts_with ("MASKED_" ++ w ++ "]") (s ++ filled l) = true) in Hs. congruence.
Qed.

Lemma replace_other_placeholder w w' r s :
  w <> w' -> lacks "]" w = true -> lacks "]" w' = true -> lacks "[" w' = true ->
  replace ("[MASKED_" ++ w ++ "]") r ("[MASKED_" ++ w' ++ "]" ++ s) =
    "[MASKED_" ++ w' ++ "]" ++ replace ("[MASKED_" ++ w ++ "]") r s.
Proof.
  intros Hne Hw Hw' Hb. set (p := "[MASKED_" ++ w ++ "]").
  change ("[MASKED_" ++ w' ++ "]" ++ s) with (String "[" ("MASKED_" ++ w' ++ "]" ++ s)).
  rewrite replace_skip.
  - change ("[MASKED_" ++ w' ++ "]" ++ replace p r s)
      with (String "[" ("MASKED_" ++ w' ++ "]" ++ replace p r s)). f_equal.
    rewrite !(string_app_assoc w'), !(string_app_assoc "MASKED_"). apply (replace_lacks "[").
    by rewrite !lacks_app, Hb.
  - apply not_true_is_false. intros Hs. by apply Hne, (starts_with_delimited "]" w w' s).
Qed.

Lemma replace_fill map ph o l :
  holes_in map l -> well_keyed map -> map !! ph = Some o ->
  find ph (filled l) = None ->
  replace ph o (render l) = render (List.map (fill ph o) l).
Proof.
  intros Hl Hm Hph. destruct (Hm _ _ Hph) as (w & -> & Hw1 & Hw2).
  induction Hl as [|[s|ph' o'] l Hx Hl IH]; cbn [render shown filled meant List.map fill]; intros Hf;
    [done| |].
  - induction s as [|c s IHs]; [by apply IH|]. rewrite !string_app_cons in *.
    rewrite replace_skip; [|by eapply no_placeholder_here].
    rewrite IHs; [done|]. exact (proj2 (find_None_cons _ _ _ Hf)).
  - specialize (IH (find_None_suffix _ _ _ Hf)). destruct (Hm _ _ Hx) as (w' & -> & Hw1' & Hw2').
    case_decide as Heq; cbn [render shown].
    + rewrite Heq, <- IH. by apply replace_match.
    + rewrite <- IH, <- !(string_app_assoc "[MASKED_"), <- !(string_app_assoc w').
      apply replace_other_placeholder; [congruence|done..].
Qed.

Lemma fill_meant map ph o l :
  holes_in map l -> map !! ph = Some o ->
  filled (List.map (fill ph o) l) = filled l /\ holes_in map (List.map (fill ph o) l).
Proof.
  intros Hl Hph. induction Hl as [|[s|ph' o'] l Hx Hl [IH1 IH2]]; simpl; [split; [done|by apply Forall_nil]| |].
  - rewrite IH1. split; [done|by apply Forall_cons].
  - case_decide; simpl; rewrite IH1; simplify_eq; (split; [done|by apply Forall_cons]).
Qed.

(** What is still hidden after the entries [es] have been replaced. *)
Lemma fill_holes es l ph o :
  In (Hole ph o) (fold_left (fun l (e : string * string) => List.map (fill e.1 e.2) l) es l) ->
  In (Hole ph o) l /\ ~ In ph (List.map fst es).
Proof.
  revert l. induction es as [|e es IH]; intros l; simpl; [by auto|]. intros Hin.
  destruct (IH _ Hin) as [([s|ph' o'] & Hf & Hl)%in_map_iff Hn]; simpl in Hf; [done|].
  case_decide; [done|]. simplify_eq. split; [done|]. naive_solver.
Qed.

Lemma restore_from map es l :
  holes_in map l -> well_keyed map -> spells_none map (filled l) ->
  (forall e, In e es -> map !! e.1 = Some e.2) ->
  let l' := fold_left (fun l (e : string * string) => List.map (fill e.1 e.2) l) es l in
  fold_left (fun result e => replace e.1 e.2 result) es (render l) = render l' /\
  filled l' = filled l /\ holes_in map l'.
Proof.
  revert l. induction es as [|e es IH]; intros l Hl Hm Hf He; [done|]. simpl.
  assert (Hd : map !! e.1 = Some e.2) by (apply He; by left).
  destruct (fill_meant _ _ _ _ Hl Hd) as [Hfill Hl'].
  rewrite (replace_fill map), <- Hfill by eauto.
  apply IH; [done|done|by rewrite Hfill|]. intros; apply He. by right.
Qed.

Lemma restore_render `{HashOrder} map l :
  holes_in map l -> well_keyed map -> spells_none map (filled l) ->
  restore (render l) map = filled l.
Proof.
  intros Hl Hm Hf. unfold restore.
  assert (Hin : forall e, In e (hash_iter map) <-> map !! e.1 = Some e.2).
  { intros [ph o]. rewrite (hash_iter_perm map), <- list_elem_of_In. apply elem_of_map_to_list. }
  destruct (restore_from map (hash_iter map) l Hl Hm Hf) as (-> & <- & Hl'); [by intros e; apply Hin|].
  pose proof (fill_holes (hash_iter map) l) as Hh. revert Hh Hl'.
  generalize (fold_left (fun l (e : string * string) => List.map (fill e.1 e.2) l) (hash_iter map) l).
  intros l'. induction l' as [|[s|ph o] l' IH]; intros Hh Hl'; [done| |];
    apply Forall_cons in Hl' as [Hx Hl']; simpl.
  - f_equal. apply IH; [|done]. intros; apply Hh. by right.
  - exfalso. apply (Hh ph o); [by left|]. apply in_map_iff. exists (ph, o). by rewrite Hin.
Qed.

Section mask_facts.
Context `{PiiRegex}.

Lemma placeholder_shape idx m : 0 <= idx ->
  exists kind, placeholder idx m = "[MASKED_" ++ (kind ++ pretty idx) ++ "]" /\
    In kind ["EMAIL_"; "PHONE_"; "IDENTITY_"; "FINANCIAL_"].
Proof.
  intros Hi. unfold placeholder. destruct (classify_pii m); simpl.
  - exists "EMAIL_". by split; [|auto].
  - exists "PHONE_". by split; [|auto].
  - exists "IDENTITY_". by split; [|auto].
  - exists "FINANCIAL_". by split; [|auto 10].
Qed.

Lemma placeholder_ok idx m : 0 <= idx -> is_placeholder (placeholder idx m).
Proof.
  intros Hi. destruct (placeholder_shape idx m Hi) as (kind & -> & Hk).
  exists (kind ++ pretty idx). rewrite !lacks_app, !pretty_Z_lacks by done.
  repeat destruct Hk as [<-|Hk]; done.
Qed.

Lemma placeholder_inj i j m m' :
  0 <= i -> 0 <= j -> placeholder i m = placeholder j m' -> i = j.
Proof.
  intros Hi Hj Heq.
  destruct (placeholder_shape i m Hi) as (k & Hpi & Hk).
  destruct (placeholder_shape j m' Hj) as (k' & Hpj & Hk'). rewrite Hpi, Hpj in Heq.
  assert (Hw : k ++ pretty i = k' ++ pretty j).
  { apply (starts_with_delimited "]" _ _ "").
    - rewrite lacks_app, pretty_Z_lacks by done. repeat destruct Hk as [<-|Hk]; done.
    - rewrite lacks_app, pretty_Z_lacks by done. repeat destruct Hk' as [<-|Hk']; done.
    - simplify_eq. rewrite Heq.
      pose proof (starts_with_app ((k' ++ pretty j) ++ "]") "") as Hs.
      by rewrite string_app_nil_r in Hs. }
  repeat destruct Hk as [<-|Hk]; repeat destruct Hk' as [<-|Hk']; simplify_eq; try done.
Qed.

(** The masked text, as pieces. *)
Fixpoint masked_pieces (c : Z) (l : list (string * string)) (tail : string) : list Piece :=
  match l with
  | [] => [Plain tail]
  | (lit, m) :: l =>
      Plain lit :: Hole (placeholder c m) m :: masked_pieces (wrapping_add U64_MAX c 1) l tail
  end.

(** The map holds placeholders of the last [k] indices. *)
Definition recent (c : Z) (k : nat) (map : MaskingMap) : Prop :=
  forall ph o, map !! ph = Some o ->
    exists j, 1 <= j <= Z.of_nat k /\ ph = placeholder (wrapping_sub U64_MAX c j) o.

Lemma recent_fresh c k map m :
  recent c k map -> fits U64_MAX c -> Z.of_nat k <= U64_MAX -> map !! placeholder c m = None.
Proof.
  intros Hr Hc Hk. destruct (map !! placeholder c m) as [o|] eqn:E; [|done]. exfalso.
  destruct (Hr _ _ E) as (j & Hj & Heq). apply placeholder_inj in Heq; [|ulia|].
  - revert Heq. unfold wrapping_sub. uint. destruct (Z_lt_le_dec c j).
    + rewrite <- (Z.mod_add (c - j) 1) by lia. rewrite Z.mod_small; lia.
    + rewrite Z.mod_small; lia.
  - apply (wrapping_sub_fits U64_MAX c j). ulia.
Qed.

Lemma recent_insert c k map m :
  recent c k map -> fits U64_MAX c ->
  recent (wrapping_add U64_MAX c 1) (S k) (<[placeholder c m := m]> map).
Proof.
  intros Hr Hc ph o. unfold wrapping_sub, wrapping_add.
  intros [[<- <-]|[_ Hph]]%lookup_insert_Some.
  - exists 1. split; [lia|]. f_equal. rewrite Zminus_mod_idemp_l, Z.mod_small; ulia.
  - destruct (Hr _ _ Hph) as (j & Hj & ->). exists (j + 1). split; [lia|]. f_equal.
    unfold wrapping_sub. rewrite Zminus_mod_idemp_l. f_equal. lia.
Qed.

Lemma mask_from_spec l : forall p map k tail,
  fits U64_MAX (counter p) -> recent (counter p) k map ->
  Z.of_nat (k + length l) <= U64_MAX ->
  let '(p', (masked, map')) := mask_from p map l tail in
  let pieces := masked_pieces (counter p) l tail in
  masked = render pieces /\ filled pieces = joined l tail /\
  holes_in map' pieces /\ map ⊆ map' /\ well_keyed map'.
Proof.
  induction l as [|[lit m] l IH]; intros p map k tail Hp Hr Hk; simpl.
  - split_and!; [by rewrite string_app_nil_r..| |done|].
    + by apply Forall_cons.
    + intros ph o (j & _ & ->)%Hr. apply placeholder_ok.
      apply (wrapping_sub_fits U64_MAX _ j). ulia.
  - specialize (IH (mkProtector (wrapping_add U64_MAX (counter p) 1))
      (<[placeholder (counter p) m := m]> map) (S k) tail).
    destruct (mask_from _ _ l tail) as [p' [rest map']]. simpl in *.
    destruct IH as (-> & -> & Hh & Hsub & Hm).
    { apply wrapping_add_fits. ulia. }
    { by apply recent_insert. }
    { lia. }
    split_and!; [done|done| | |done].
    + repeat apply Forall_cons_2; [done| |done]. eapply lookup_weaken; [|done].
      by rewrite lookup_insert_eq.
    + etransitivity; [|done]. apply insert_subseteq. apply (recent_fresh _ k); [done..|lia].
Qed.

Lemma mask_spec text p :
  fits U64_MAX (counter p) -> Z.of_nat (length (find_iter text).1) <= U64_MAX ->
  let '(p', (masked, map)) := mask text p in
  exists l, masked = render l /\ filled l = text /\ holes_in map l /\ well_keyed map.
Proof.
  intros Hp Hn. pose proof (find_iter_joined text) as Hj. unfold mask.
  destruct (find_iter text) as [l tail]. simpl in Hn.
  pose proof (mask_from_spec l p ∅ 0 tail Hp) as Hs.
  destruct (mask_from p ∅ l tail) as [p' [masked map]].
  destruct Hs as (-> & Hf & Hh & _ & Hm); [intros ph o; by rewrite lookup_empty|done|].
  eexists. split_and!; [done|by rewrite Hf|done|done].
Qed.
End mask_facts.

(** C22: masking is reversible, whatever the order in which the map is iterated.  Take any
    text that quotes some of the prompt's placeholders, between pieces of any content,
    placeholders of other prompts included: restoring it puts the original of each in its
    place and leaves the rest as it is, as long as the restored text does not itself spell
    one of the prompt's placeholders.  The masked prompt is such a text: it is restored to
    the prompt, if the prompt did not spell one of the placeholders it was given.  (The
    counter and the number of matches are 64-bit values.) *)
Theorem restore_masked `{PiiRegex, HashOrder} text p :
  fits U64_MAX (counter p) -> Z.of_nat (length (find_iter text).1) <= U64_MAX ->
  let '(_, (masked, map)) := mask text p in
  (spells_none map text -> restore masked map = text) /\
  (forall answer, holes_in map answer -> spells_none map (filled answer) ->
     restore (render answer) map = filled answer).
Proof.
  intros Hp Hn. pose proof (mask_spec text p Hp Hn) as Hs.
  destruct (mask text p) as [p' [masked map]]. destruct Hs as (l & -> & <- & Hl & Hm).
  split; intros; by apply restore_render.
Qed.

(** ** A concrete matcher: every ['@'] is an address *)

Fixpoint at_signs (acc : string) (s : string) : list (string * string) * string :=
  match s with
  | EmptyString => ([], acc)
  | String c s =>
      if Ascii.eqb c "@" then let '(l, t) := at_signs "" s in ((acc, "@") :: l, t)
      else at_signs (acc ++ String c "") s
  end.
Lemma at_signs_joined s acc : let '(l, t) := at_signs acc s in joined l t = acc ++ s.
Proof.
  revert acc. induction s as [|c s IH]; intros acc; simpl; [by rewrite string_app_nil_r|].
  destruct (Ascii.eqb_spec c "@") as [->|].
  - specialize (IH ""). destruct (at_signs "" s) as [l t]. simpl. by rewrite IH.
  - specialize (IH (acc ++ String c "")). destruct (at_signs _ s) as [l t].
    by rewrite IH, <- string_app_assoc.
Qed.
Definition AtSigns : PiiRegex := {|
  find_iter := at_signs "";
  EMAIL_PATTERN := fun s => String.eqb s "@";
  PHONE_PATTERN := fun _ => false;
  IDENTITY_PATTERN := fun _ => false;
  FINANCIAL_PATTERN := fun _ => false;
  find_iter_joined := fun t => at_signs_joined t "" |}.

(** An answer that quotes one of the prompt's placeholders and one of another prompt. *)
Definition demo_answer : list Piece :=
  [Plain "send [MASKED_EMAIL_7] to "; Hole "[MASKED_EMAIL_42]" "@"; Plain "!"].

Lemma restore_masked_witness :
  (mask (H := AtSigns) "to @ and @" (mkProtector 41)).2.1 = "to [MASKED_EMAIL_41] and [MASKED_EMAIL_42]" /\
  let map := (mask (H := AtSigns) "to @ and @" (mkProtector 41)).2.2 in
  restore (H := canonical_order) "to [MASKED_EMAIL_41] and [MASKED_EMAIL_42]" map = "to @ and @" /\
  restore (H := canonical_order) "send [MASKED_EMAIL_7] to [MASKED_EMAIL_42]!" map =
    "send [MASKED_EMAIL_7] to @!".
Proof.
  split; [reflexivity|].
  set (mask_map := (mask (H := AtSigns) "to @ and @" (mkProtector 41)).2.2).
  assert (Hmap : mask_map =
    <["[MASKED_EMAIL_41]" := "@"]> {["[MASKED_EMAIL_42]" := "@"]}) by (vm_compute; reflexivity).
  destruct (restore_masked (H := AtSigns) (H0 := canonical_order) "to @ and @" (mkProtector 41)) as [Hp Ha];
    [vm_compute; split; discriminate|vm_compute; discriminate|].
  split.
  - apply Hp. intros ph o Ho. change (mask_map !! ph = Some o) in Ho. rewrite Hmap in Ho. revert Ho.
    by intros [[<- <-]|[_ [<- <-]%lookup_singleton_Some]]%lookup_insert_Some.
  - apply (Ha demo_answer).
    + repeat constructor.
    + intros ph o Ho. change (mask_map !! ph = Some o) in Ho. rewrite Hmap in Ho. revert Ho.
      by intros [[<- <-]|[_ [<- <-]%lookup_singleton_Some]]%lookup_insert_Some.
Defined.
