(* ===== verification/ComplianceBus.v ===== *)
(** * crates/worker/src/lib.rs: the compliance event bus

    A bounded channel of audit events between the request path and one worker that
    redacts them.  The channel is tokio's: a queue of at most [CAPACITY] events that
    refuses events once its receiver is gone. *)
From S2P Require Import Prelude RustStr PiiMask.

Local Open Scope string_scope.

Inductive AuditAction : Type :=
  | ALLOWED | BLOCKED_BY_WASM | MODIFIED | BLOCKED_BY_ORACLE | BLOCKED_BY_SIS
  | BLOCKED_BY_AUTH | BLOCKED_BY_REPLAY.
Definition AuditAction_as_str (a : AuditAction) : string :=
  match a with
  | ALLOWED => "ALLOWED" | BLOCKED_BY_WASM => "BLOCKED_BY_WASM" | MODIFIED => "MODIFIED"
  | BLOCKED_BY_ORACLE => "BLOCKED_BY_ORACLE" | BLOCKED_BY_SIS => "BLOCKED_BY_SIS"
  | BLOCKED_BY_AUTH => "BLOCKED_BY_AUTH" | BLOCKED_BY_REPLAY => "BLOCKED_BY_REPLAY"
  end.

Record AuditEvent := mkEvent {
  timestamp : Z; tenant_id : string; end_user_id : string;
  raw_payload : string; action_taken : string }.
(** [now] is the clock in milliseconds, a signed integer cast to [u64]. *)
Definition event_new (now : Z) (tenant user payload : string) (a : AuditAction) : AuditEvent :=
  mkEvent (now mod (U64_MAX + 1)) tenant user payload (AuditAction_as_str a).

Definition CAPACITY : Z := 10000.

Record ComplianceBus := mkBus {
  queue : list AuditEvent;
  receiver_alive : bool;
  dropped_events : Z }.
Definition bus_new : ComplianceBus := mkBus [] true 0.

Definition emit (event : AuditEvent) (b : ComplianceBus) : ComplianceBus * result unit AuditEvent :=
  if negb (receiver_alive b) then (b, Err event)
  else if decide (CAPACITY <= Z.of_nat (length (queue b))) then
    (mkBus (queue b) true (wrapping_add U64_MAX (dropped_events b) 1), Ok tt)
  else (mkBus (queue b ++ [event])%list true (dropped_events b), Ok tt).

Definition get_drop_count (b : ComplianceBus) : Z := dropped_events b.

(** One turn of the worker's loop: the event it takes, sanitized. *)
Definition sanitize `{PiiRegex} (event : AuditEvent) : outcome AuditEvent :=
  redacted_payload ← redact_pii (raw_payload event);
  Ret (mkEvent (timestamp event) (tenant_id event) (end_user_id event) redacted_payload
         (action_taken event)).
Definition worker_turn `{PiiRegex} (b : ComplianceBus) : outcome (option (ComplianceBus * AuditEvent)) :=
  match queue b with
  | [] => Ret None
  | event :: rest =>
      sanitized ← sanitize event;
      Ret (Some (mkBus rest (receiver_alive b) (dropped_events b), sanitized))
  end.

(** ** Accounting *)

(** The bus with the events offered to it, those it accepted and those the worker
    has persisted, oldest first. *)
Record History := mkHistory {
  bus : ComplianceBus; offered : nat; accepted : list AuditEvent; persisted : list AuditEvent }.
Definition history_new : History := mkHistory bus_new 0 [] [].

Inductive bus_step `{PiiRegex} : History -> History -> Prop :=
  | bus_emit h event b r :
      emit event (bus h) = (b, r) ->
      bus_step h (mkHistory b (S (offered h))
        (accepted h ++ drop (length (queue (bus h))) (queue b))%list (persisted h))
  | bus_work h b e :
      worker_turn (bus h) = Ret (Some (b, e)) ->
      bus_step h (mkHistory b (offered h) (accepted h) (persisted h ++ [e])%list).

Record bus_inv `{PiiRegex} (h : History) : Prop := {
  bi_alive : receiver_alive (bus h) = true;
  bi_bound : Z.of_nat (length (queue (bus h))) <= CAPACITY;
  bi_order : exists handled, accepted h = (handled ++ queue (bus h))%list /\
    Forall2 (fun e e' => sanitize e = Ret e') handled (persisted h);
  bi_dropped : 0 <= dropped_events (bus h);
  bi_count : Z.of_nat (offered h) <= U64_MAX ->
    Z.of_nat (offered h) = Z.of_nat (length (accepted h)) + dropped_events (bus h) }.

Lemma bus_step_inv `{PiiRegex} h h' : bus_inv h -> bus_step h h' -> bus_inv h'.
Proof.
  intros [Ha Hb (handled & Ho & Hf) Hd Hc] Hstep.
  destruct Hstep as [h event b r He|h b e He]; unfold emit, worker_turn in He.
  - rewrite Ha in He. simpl in He. case_decide; simplify_eq/=.
    + rewrite drop_all, app_nil_r. split; simpl; [done|done|by eauto| |].
      * apply wrapping_add_fits. ulia.
      * intros. specialize (Hc ltac:(lia)). rewrite wrapping_add_small; lia.
    + rewrite drop_app_length. split; simpl; [done| | |done|].
      * rewrite length_app. simpl. unfold CAPACITY in *. lia.
      * exists handled. by rewrite Ho, (assoc app).
      * intros. rewrite length_app. simpl. specialize (Hc ltac:(lia)). lia.
  - destruct (queue (bus h)) as [|x q] eqn:Hq; [done|].
    destruct (sanitize x) as [x'|] eqn:Hs; [|done]. simpl in He. simplify_eq.
    split; simpl in *; [done|lia| |done..].
    exists (handled ++ [x])%list. split; [by rewrite Ho, <- (assoc app)|].
    by apply Forall2_app; [|repeat constructor].
Qed.

(** The audit trail is accounted for: however emissions and turns of the worker
    interleave, each event offered was either accepted or counted as dropped, at most
    10000 are waiting, and what has been persisted are exactly the accepted events
    that no longer wait, in order, each with nothing changed but its payload,
    which is redacted. *)
Theorem bus_accounting `{PiiRegex} h :
  rtc bus_step history_new h -> Z.of_nat (offered h) <= U64_MAX ->
  Z.of_nat (offered h) = Z.of_nat (length (accepted h)) + get_drop_count (bus h) /\
  Z.of_nat (length (queue (bus h))) <= CAPACITY /\
  exists handled, accepted h = (handled ++ queue (bus h))%list /\
    Forall2 (fun e e' => redact_pii (raw_payload e) = Ret (raw_payload e') /\
      timestamp e' = timestamp e /\ tenant_id e' = tenant_id e /\
      end_user_id e' = end_user_id e /\ action_taken e' = action_taken e) handled (persisted h).
Proof.
  intros Hr Hn. assert (Hi : bus_inv h).
  { clear Hn. revert Hr. apply (rtc_ind_r _ history_new); [|eauto using bus_step_inv].
    split; simpl; [done|done| |done..]. exists []. by split. }
  destruct Hi as [_ Hb (handled & Ho & Hf) _ Hc]. split_and!; [by apply Hc|done|].
  exists handled. split; [done|]. eapply Forall2_impl; [exact Hf|]. intros e e'. unfold sanitize.
  destruct (redact_pii (raw_payload e)); simpl; [|done]. by intros [= <-].
Qed.

Definition demo_event : AuditEvent := event_new 5 "tenant" "user" "mail @" ALLOWED.
Definition demo_history : History :=
  mkHistory bus_new 1 [demo_event]
    [mkEvent 5 "tenant" "user" "mail [MASKED_EMAIL_0]" "ALLOWED"].

Lemma bus_accounting_witness :
  Z.of_nat (offered demo_history) = Z.of_nat (length (accepted demo_history)) +
    get_drop_count (bus demo_history) /\
  Z.of_nat (length (queue (bus demo_history))) <= CAPACITY /\
  exists handled, accepted demo_history = (handled ++ queue (bus demo_history))%list /\
    Forall2 (fun e e' => redact_pii (H := AtSigns) (raw_payload e) = Ret (raw_payload e') /\
      timestamp e' = timestamp e /\ tenant_id e' = tenant_id e /\
      end_user_id e' = end_user_id e /\ action_taken e' = action_taken e)
      handled (persisted demo_history).
Proof.
  apply (bus_accounting (H := AtSigns)); [|vm_compute; discriminate].
  eapply rtc_l; [eapply (bus_emit (H := AtSigns) _ demo_event); reflexivity|].
  eapply rtc_l; [eapply (bus_work (H := AtSigns)); reflexivity|]. apply rtc_refl.
Defined.
