(* ===== verification/Coordinator.v ===== *)
(** * crates/llm-router/src/coordinator.rs: the orchestrator

    A request is masked, sent to every provider, adjudicated by the consensus engine
    and answered by the local fallback node when there is no quorum; what was agreed
    is cached.  The single-flight layer is in [SingleFlight]; here one dispatch runs
    at a time, except that other requests may use the circuit breakers while
    a provider is being asked.  The parsing of answers, SHA-256, serde_json and
    Redis are parameters. *)
From Stdlib Require Import Ascii String SpecFloat.
From S2P Require Import Prelude.
From S2P Require Import F64.
From S2P Require Import RustStr.
From S2P Require Import FinOps.
From S2P Require Import CircuitBreaker.
From S2P Require Import TmrConsensus.
From S2P Require Import PiiMask.

Local Open Scope string_scope.

(** ** Constants *)

Definition TMR_MIN_AGREEMENT : Z := 2.
(** [f32] values: 0.0, and the nearest to 0.05 and to 0.1. *)
Abbreviation f32 := spec_float.
Definition f32_add (x y : f32) : f32 := SFadd 24 128 x y.
Definition TMR_TEMPERATURE_JITTER : list f32 :=
  [S754_zero false; S754_finite false 13421773 (-28); S754_finite false 13421773 (-27)].
Definition CACHE_KEY_PREFIX : string := "serein:cache:ast".
Definition CACHE_TTL_SECS : Z := 3600.

(** ** Payloads and keys (interfaces/src/lib.rs, coordinator.rs) *)

Inductive TmrCanonicalStrategy : Type := Strict | Fuzzy.
Record IntermediatePayload := mkPayload {
  network_id : string; task_type : string; max_gas_limit : Z;
  confidence_score : f64; source_url : string }.

(** [from_llm_output] is built on regex, simd-json and serde_json; [to_lowercase]
    is [str::to_lowercase] with its Unicode tables, which leaves no ASCII capital;
    digests are printed in hexadecimal. *)
Class LlmText := {
  from_llm_output : string -> result IntermediatePayload string;
  to_lowercase : string -> string;
  sha256_hex : string -> string;
  to_lowercase_lower : forall c s, in_range 65 90 c = true -> lacks c (to_lowercase s) = true;
  sha256_hex_digits : forall s, lacks ":" (sha256_hex s) = true }.

(** Redis strings with an expiry, as GET and SET EX treat them. *)
Class RedisStrings := {
  sdb : Type;
  GET : Z -> sdb -> string -> option string;
  SET_EX : Z -> string -> string -> Z -> sdb -> sdb;
  get_set : forall t t' k v ttl d, t <= t' ->
    GET t' (SET_EX t k v ttl d) k = if decide (t' < t + ttl * 10 ^ 9) then Some v else None;
  get_set_ne : forall t t' k k' v ttl d, k' <> k ->
    GET t' (SET_EX t k v ttl d) k' = GET t' d k' }.

(** ** Provider requests and errors (provider.rs) *)

Record ProviderRequest := mkRequest {
  prompt : string; req_tenant : string; images : option (list string); temperature : f32 }.
Definition request_new (prompt : string) : ProviderRequest :=
  mkRequest prompt "" None (S754_zero false).
Definition with_tenant (tenant : string) (r : ProviderRequest) : ProviderRequest :=
  mkRequest (prompt r) tenant (images r) (temperature r).

Inductive TmrNodeError : Type :=
  | HttpForbidden | HttpRateLimited | NodeTimeout | CircuitBreakerOpen
  | NodeServerError (code : Z) | ParseError (detail : string) | NodeNetworkError (detail : string).
Definition should_trigger_fallback (e : TmrNodeError) : bool :=
  match e with
  | HttpForbidden | HttpRateLimited | NodeTimeout | CircuitBreakerOpen => true
  | _ => false
  end.
Definition from_http_status (status : Z) : option TmrNodeError :=
  if decide (status = 403) then Some HttpForbidden
  else if decide (status = 429) then Some HttpRateLimited
  else if decide (500 <= status <= 599) then Some (NodeServerError status)
  else None.

(** ** Results *)

Record TmrNodeResult := mkNodeResult {
  provider_id : string; provider_name : string; n_output : option string;
  n_error : option TmrNodeError; n_duration_ms : Z; fallback_triggered : bool }.
Record FallbackNodeResult := mkFallbackResult {
  f_output : option string; f_error : option string; f_duration_ms : Z; f_model_id : string }.
Record TmrConsensusResult := mkConsensus {
  majority_output : option string; agreement_count : nat; total_nodes : nat;
  fallback_activated : bool; node_results : list TmrNodeResult;
  fallback_result : option FallbackNodeResult; consensus_achieved : bool;
  total_duration_ms : Z; cache_hit : bool }.
Definition TmrConsensusResult_default : TmrConsensusResult :=
  mkConsensus None 0 0 false [] None false 0 false.

Definition set_output (out : option string) (r : TmrConsensusResult) : TmrConsensusResult :=
  mkConsensus out (agreement_count r) (total_nodes r) (fallback_activated r) (node_results r)
    (fallback_result r) (consensus_achieved r) (total_duration_ms r) (cache_hit r).
Definition set_cache_hit (hit : bool) (r : TmrConsensusResult) : TmrConsensusResult :=
  mkConsensus (majority_output r) (agreement_count r) (total_nodes r) (fallback_activated r)
    (node_results r) (fallback_result r) (consensus_achieved r) (total_duration_ms r) hit.

(** ** The local fallback node *)

Inductive SlmExecutionMode : Type := Active | Lazy.
Record SlmNodeConfig := mkSlm { model_id : string; model_path : string; execution_mode : SlmExecutionMode }.
Record WasiNnEndpoint := mkEndpoint {
  e_model_id : string; e_model_path : string; encoding : string;
  inference_timeout_ms : Z; max_input_tokens : Z; max_output_tokens : Z; enabled : bool }.
Definition endpoint_new (model_id model_path : string) : WasiNnEndpoint :=
  mkEndpoint model_id model_path "Ggml" 30000 4096 2048 true.
Definition endpoint_disabled (e : WasiNnEndpoint) : WasiNnEndpoint :=
  mkEndpoint (e_model_id e) (e_model_path e) (encoding e) (inference_timeout_ms e)
    (max_input_tokens e) (max_output_tokens e) false.
Definition is_active (m : SlmExecutionMode) : bool := match m with Active => true | Lazy => false end.
Definition to_wasi_nn_endpoint (c : SlmNodeConfig) : WasiNnEndpoint :=
  let endpoint := endpoint_new (model_id c) (model_path c) in
  if negb (is_active (execution_mode c)) then endpoint_disabled endpoint else endpoint.

Record PhysicalFallbackNode := mkFallback {
  endpoint : WasiNnEndpoint; invocation_count : Z; error_count : Z;
  last_invocation : option Z; force_disabled : bool }.
Definition fallback_new (e : WasiNnEndpoint) : PhysicalFallbackNode := mkFallback e 0 0 None false.
Definition is_available (n : PhysicalFallbackNode) : bool :=
  enabled (endpoint n) && negb (force_disabled n).
Definition set_disabled (b : bool) (n : PhysicalFallbackNode) : PhysicalFallbackNode :=
  mkFallback (endpoint n) (invocation_count n) (error_count n) (last_invocation n) b.
Definition disable : PhysicalFallbackNode -> PhysicalFallbackNode := set_disabled true.
Definition enable : PhysicalFallbackNode -> PhysicalFallbackNode := set_disabled false.

(** What the bounded wait for one of the four permits gives. *)
Inductive Permit : Type := Permitted | SemaphoreClosed | Overloaded.

Definition mock_output : string :=
  "{" ++ quoted "networkId" ++ ":" ++ quoted "FALLBACK" ++ "," ++ quoted "taskType" ++ ":" ++
  quoted "Unknown" ++ "," ++ quoted "maxGasLimit" ++ ":0," ++ quoted "confidenceScore" ++
  ":0.50," ++ quoted "sourceUrl" ++ ":" ++ quoted "local://wasi-nn-slm" ++ "}".

Definition count_invocation (now : Z) (n : PhysicalFallbackNode) : PhysicalFallbackNode :=
  mkFallback (endpoint n) (wrapping_add U64_MAX (invocation_count n) 1) (error_count n) (Some now)
    (force_disabled n).
Definition count_error (n : PhysicalFallbackNode) : PhysicalFallbackNode :=
  mkFallback (endpoint n) (invocation_count n) (wrapping_add U64_MAX (error_count n) 1)
    (last_invocation n) (force_disabled n).

(** Up to the inference, which is [run]; [ms] is what [elapsed] shows. *)
Definition invoke_gated (permit : Permit) (now ms : Z) (prompt : string)
    (run : PhysicalFallbackNode -> PhysicalFallbackNode * FallbackNodeResult) (n : PhysicalFallbackNode)
    : outcome (PhysicalFallbackNode * FallbackNodeResult) :=
  let failed error := mkFallbackResult None (Some error) in
  let model := e_model_id (endpoint n) in
  match permit with
  | SemaphoreClosed => Ret (n, failed "Node D semaphore closed" 0 model)
  | Overloaded =>
      Ret (n, failed "Node D overloaded: Concurrency limit reached after bounded wait" 0 model)
  | Permitted =>
      let n := count_invocation now n in
      if negb (enabled (endpoint n)) then
        Ret (count_error n, failed "Physical fallback node is disabled" ms model)
      else
        limit ← mul_u USIZE_MAX (max_input_tokens (endpoint n)) 4;
        if decide (limit < len prompt) then
          Ret (count_error n, failed ("Prompt exceeds max input tokens: " ++ pretty (len prompt) ++
            " chars (max " ++ pretty (max_input_tokens (endpoint n)) ++ " tokens)") ms model)
        else Ret (run n)
  end.
(** As built by default, without the [wasi-nn] feature. *)
Definition fallback_invoke (permit : Permit) (now ms : Z) (prompt : string) (n : PhysicalFallbackNode)
    : outcome (PhysicalFallbackNode * FallbackNodeResult) :=
  invoke_gated permit now ms prompt
    (fun n => (n, mkFallbackResult (Some mock_output) None ms (e_model_id (endpoint n)))) n.

Section coordinator.
Context `{PiiRegex, HashOrder, Redis, LlmText}.

Definition TmrCanonicalStrategy_from_str_lossy (s : string) : TmrCanonicalStrategy :=
  if decide (to_lowercase s = "fuzzy") then Fuzzy else Strict.
Definition SlmExecutionMode_from_str_lossy (s : string) : SlmExecutionMode :=
  if decide (to_lowercase s = "lazy") then Lazy else Active.

Definition canonical_key (p : IntermediatePayload) : string :=
  "NETWORK:" ++ trim (to_lowercase (network_id p)) ++ ":TASK:" ++
  trim (to_lowercase (task_type p)) ++ ":GAS:" ++ pretty (max_gas_limit p).

Definition compute_request_canonical_key (tenant_id prompt : string) : string :=
  let tenant_prefix := "tenant:" ++ tenant_id ++ ":" in
  match from_llm_output prompt with
  | Ok payload => tenant_prefix ++ canonical_key payload
  | Err _ => tenant_prefix ++ "sha256:" ++ sha256_hex prompt
  end.

(** [env] is the environment of the process. *)
Definition slm_config_from_env (env : string -> option string) : result SlmNodeConfig string :=
  let model_id := default "serein-slm-v1" (env "SLM_MODEL_ID") in
  let model_path := default "./serein-models/fallback-slm.gguf" (env "SLM_MODEL_PATH") in
  if is_empty model_path then
    Err "SLM_MODEL_PATH must not be empty - Physical Fallback Node requires a valid model path"
  else Ok (mkSlm model_id model_path
    (SlmExecutionMode_from_str_lossy (default "active" (env "SLM_EXECUTION_MODE")))).
Definition slm_config_default (env : string -> option string) : SlmNodeConfig :=
  match slm_config_from_env env with
  | Ok c => c
  | Err _ => mkSlm "serein-slm-v1" "./serein-models/fallback-slm.gguf" Lazy
  end.

(** ** The orchestrator *)

(** A provider is what it says of itself; what it answers is an argument of a
    dispatch. *)
Record LlmProvider := mkProvider { p_id : string; display_name : string; timeout_ms : Z }.
Record ProviderAdapter := mkAdapter {
  node : ProviderNode; llm : LlmProvider; circuit_breaker : CircuitBreaker.CircuitBreaker }.

Record TmrOrchestrator := mkOrchestrator {
  fallback_node : PhysicalFallbackNode;
  fallback_trigger_count : Z;
  adapters : list ProviderAdapter;
  tmr_engine : TmrConsensusEngine;
  canonical_strategy : TmrCanonicalStrategy;
  o_min_agreement : Z;
  cache : option Z;
  pii_protector : PIIProtector;
  masking_maps : gmap string MaskingMap;
  finops : option FinOpsBudgetManager }.

Definition adapter_new (p : LlmProvider) : ProviderAdapter :=
  mkAdapter (Custom (p_id p)) p
    (breaker_new ("provider-" ++ p_id p) CircuitBreakerConfig_default).

Definition parse_var (env : string -> option string) (name : string) (otherwise : Z) : Z :=
  default otherwise (s ← env name; parse_u64 s).

Definition with_providers (env : string -> option string) (providers : list LlmProvider)
    (slm : SlmNodeConfig) : TmrOrchestrator :=
  let strategy := TmrCanonicalStrategy_from_str_lossy (default "strict" (env "TMR_CANONICAL_STRATEGY")) in
  let min_agreement := Z.max (parse_var env "TMR_MIN_AGREEMENT" TMR_MIN_AGREEMENT) 2 in
  let config := TmrConsensus.mkConfig
    (match strategy with Strict => true | Fuzzy => false end)
    (parse_var env "TMR_QUERY_TIMEOUT_MS" 30000) (parse_var env "TMR_CONSENSUS_TIMEOUT_MS" 60000)
    (Z.to_nat min_agreement) in
  let adapters := List.map adapter_new providers in
  mkOrchestrator (fallback_new (to_wasi_nn_endpoint slm)) 0 adapters
    (engine_with_config_and_nodes config (List.map node adapters)) strategy min_agreement
    None protector_new ∅ None.

(** [cache] holds the time to live in seconds. *)
Definition with_cache (ttl_secs : Z) (o : TmrOrchestrator) : TmrOrchestrator :=
  mkOrchestrator (fallback_node o) (fallback_trigger_count o) (adapters o) (tmr_engine o)
    (canonical_strategy o) (o_min_agreement o) (Some ttl_secs) (pii_protector o)
    (masking_maps o) (finops o).
Definition with_finops (m : FinOpsBudgetManager) (o : TmrOrchestrator) : TmrOrchestrator :=
  mkOrchestrator (fallback_node o) (fallback_trigger_count o) (adapters o) (tmr_engine o)
    (canonical_strategy o) (o_min_agreement o) (cache o) (pii_protector o)
    (masking_maps o) (Some m).

Definition set_fallback (n : PhysicalFallbackNode) (count : Z) (o : TmrOrchestrator) :=
  mkOrchestrator n count (adapters o) (tmr_engine o) (canonical_strategy o) (o_min_agreement o)
    (cache o) (pii_protector o) (masking_maps o) (finops o).
Definition set_masking (p : PIIProtector) (maps : gmap string MaskingMap) (o : TmrOrchestrator) :=
  mkOrchestrator (fallback_node o) (fallback_trigger_count o) (adapters o) (tmr_engine o)
    (canonical_strategy o) (o_min_agreement o) (cache o) p maps (finops o).
Definition set_adapters (l : list ProviderAdapter) (o : TmrOrchestrator) :=
  mkOrchestrator (fallback_node o) (fallback_trigger_count o) l (tmr_engine o)
    (canonical_strategy o) (o_min_agreement o) (cache o) (pii_protector o) (masking_maps o)
    (finops o).

(** ** Asking one provider *)

(** What a dispatch sends out, in order; the last three run in spawned tasks. *)
Inductive Effect : Type :=
  | Invoked (i : nat) (req : ProviderRequest)
  | CacheSet (key json : string)
  | ProofSubmitted (output : string) (agreement : nat)
  | InferenceDeducted (tenant_id : string) (tokens : Z).

(** The course of one provider's future: when it starts, what the provider
    answers ([None]: not within its timeout), what other requests do to its breaker
    meanwhile, when it is over and what [elapsed] shows then. *)
Record Run := mkRun {
  starts_at : Z;
  answer : ProviderRequest -> option (result string TmrNodeError);
  meanwhile : CircuitBreaker.CircuitBreaker -> CircuitBreaker.CircuitBreaker;
  ends_at : Z;
  took_ms : Z }.

Definition response_status (e : TmrNodeError) : ResponseStatus :=
  match e with
  | HttpRateLimited => RateLimited
  | NodeServerError _ => ServerError
  | NodeNetworkError _ => NetworkError
  | NodeTimeout => Timeout
  | _ => ServerError
  end.
Definition http_status (e : TmrNodeError) : option Z :=
  match e with
  | HttpForbidden => Some 403
  | HttpRateLimited => Some 429
  | NodeServerError code => Some code
  | _ => None
  end.
Definition semantic_key_of (content : string) : string :=
  match from_llm_output content with Ok p => canonical_key p | Err _ => "" end.

Definition ask_provider (i : nat) (req : ProviderRequest) (a : ProviderAdapter) (x : Run)
    : outcome (ProviderAdapter * (TmrNodeResult * ProviderResponse * list Effect)) :=
  let id := p_id (llm a) in
  let name := display_name (llm a) in
  let '(cb, r) := allow_request (starts_at x) (circuit_breaker a) in
  match r with
  | Err _ =>
      Ret (mkAdapter (node a) (llm a) cb,
        (mkNodeResult id name None (Some CircuitBreakerOpen) 0 true,
         mkResponse (node a) "" "" 0 0 ServerError, []))
  | Ok _ =>
      let cb := meanwhile x cb in
      match answer x req with
      | Some (Ok content) =>
          Ret (mkAdapter (node a) (llm a) (record_success cb),
            (mkNodeResult id name (Some content) None (took_ms x) false,
             mkResponse (node a) content (semantic_key_of content) (took_ms x) 0 Success,
             [Invoked i req]))
      | Some (Err err) =>
          cb ← record_failure (ends_at x) (http_status err) cb;
          Ret (mkAdapter (node a) (llm a) cb,
            (mkNodeResult id name None (Some err) (took_ms x) (should_trigger_fallback err),
             mkResponse (node a) "" "" (took_ms x) 0 (response_status err), [Invoked i req]))
      | None =>
          cb ← record_failure (ends_at x) (Some 408) cb;
          Ret (mkAdapter (node a) (llm a) cb,
            (mkNodeResult id name None (Some NodeTimeout) (timeout_ms (llm a)) true,
             mkResponse (node a) "" "" (timeout_ms (llm a)) 0 Timeout, [Invoked i req]))
      end
  end.

Definition jittered (i : nat) (req : ProviderRequest) : ProviderRequest :=
  mkRequest (prompt req) (req_tenant req) (images req)
    (f32_add (temperature req)
      (nth (Nat.min i (length TMR_TEMPERATURE_JITTER - 1)) TMR_TEMPERATURE_JITTER (S754_zero false))).

(** [join_all]: the responses in the order of the adapters. *)
Fixpoint ask_all (i : nat) (req : ProviderRequest) (l : list ProviderAdapter) (runs : nat -> Run)
    : outcome (list ProviderAdapter * (list TmrNodeResult * list ProviderResponse * list Effect)) :=
  match l with
  | [] => Ret ([], ([], [], []))
  | a :: l =>
      '(a, (nr, resp, sent)) ← ask_provider i (jittered i req) a (runs i);
      '(l, (nrs, resps, sents)) ← ask_all (S i) req l runs;
      Ret (a :: l, (nr :: nrs, resp :: resps, (sent ++ sents)%list))
  end.

(** ** Adjudication and fallback *)

(** What the environment decides in one dispatch: the providers, the order in which
    their futures complete, the fallback node's permit and clock, the time the
    request has taken, and what becomes of the refund. *)
Record Circumstances := mkCircumstances {
  runs : nat -> Run;
  completion : list nat;
  permit : Permit;
  fallback_at : Z;
  fallback_ms : Z;
  total_ms : Z;
  refund_net : Network;
  refund_at : Z }.

Definition handle_consensus_success (c : Circumstances) (r : ConsensusResult)
    (results : list TmrNodeResult) (o : TmrOrchestrator) : TmrConsensusResult :=
  mkConsensus (Some (r_content r)) (length (winning_providers r)) (length (adapters o)) false
    results None true (total_ms c) false.

Definition handle_consensus_failure_stasis (c : Circumstances) (req : ProviderRequest)
    (results : list TmrNodeResult) (o : TmrOrchestrator)
    : outcome (TmrOrchestrator * TmrConsensusResult) :=
  '(n, fb) ← fallback_invoke (permit c) (fallback_at c) (fallback_ms c) (prompt req) (fallback_node o);
  let o := set_fallback n (wrapping_add U64_MAX (fallback_trigger_count o) 1) o in
  Ret (o, match f_output fb with
    | Some fb_output =>
        mkConsensus (Some fb_output) 1 (length (adapters o) + 1) true results (Some fb) true
          (total_ms c) false
    | None =>
        mkConsensus None 0 (length (adapters o)) true results (Some fb) false (total_ms c) false
    end).

Definition sum_ms (l : list Z) : outcome Z :=
  fold_left (fun acc n => t ← acc; add_u U64_MAX t n) l (Ret 0).

(** The statements both exits end with: refund, restoration, caching, billing. *)
Definition finish (to_json : TmrConsensusResult -> option string) (c : Circumstances)
    (req : ProviderRequest) (key : string) (result : TmrConsensusResult) (o : TmrOrchestrator) (d : db)
    : outcome (TmrOrchestrator * db * (TmrConsensusResult * list Effect)) :=
  let d :=
    if consensus_achieved result then d
    else match finops o with
         | Some _ => (refund_tokens (refund_net c) (refund_at c) (req_tenant req)
                        (Z.of_nat (length (adapters o))) key d).1
         | None => d
         end in
  let result :=
    match masking_maps o !! key, majority_output result with
    | Some map, Some output => set_output (Some (restore output map)) result
    | _, _ => result
    end in
  let o := set_masking (pii_protector o) (delete key (masking_maps o)) o in
  let result := set_cache_hit false result in
  let cached :=
    match cache o, consensus_achieved result, majority_output result, to_json result with
    | Some _, true, Some _, Some json => [CacheSet key json]
    | _, _, _, _ => []
    end in
  match consensus_achieved result, majority_output result with
  | true, Some output =>
      ms ← sum_ms (List.map n_duration_ms (node_results result));
      Ret (o, d, (result, (cached ++ [ProofSubmitted output (agreement_count result);
                                      InferenceDeducted (req_tenant req) (ms / 100)])%list))
  | _, _ => Ret (o, d, (result, cached))
  end.

Definition succeeded (r : ProviderResponse) : bool :=
  bool_decide (status r = Success) && negb (is_empty (content r)).

(** The verdict on the responses, or the fallback. *)
Definition adjudicate (c : Circumstances) (req : ProviderRequest) (responses : list ProviderResponse)
    (results : list TmrNodeResult) (o : TmrOrchestrator) : outcome (TmrOrchestrator * TmrConsensusResult) :=
  if decide (Z.of_nat (length (List.filter succeeded responses)) < o_min_agreement o)
  then handle_consensus_failure_stasis c req results o
  else
    verdict ← evaluate (tmr_engine o) responses;
    match verdict with
    | Ok consensus => Ret (o, handle_consensus_success c consensus results o)
    | Err _ => handle_consensus_failure_stasis c req results o
    end.

Definition masked_request (req : ProviderRequest) (o : TmrOrchestrator) : ProviderRequest :=
  mkRequest (mask (prompt req) (pii_protector o)).2.1 (req_tenant req) (images req) (temperature req).

Definition dispatch_consensus_inner (to_json : TmrConsensusResult -> option string)
    (c : Circumstances) (req : ProviderRequest) (key : string) (o : TmrOrchestrator) (d : db)
    : outcome (TmrOrchestrator * db * (TmrConsensusResult * list Effect)) :=
  let '(pii, (_, masking_map)) := mask (prompt req) (pii_protector o) in
  let masked_req := masked_request req o in
  let o := set_masking pii (<[key := masking_map]> (masking_maps o)) o in
  '(l, (nrs, responses, sent)) ← ask_all 0 masked_req (adapters o) (runs c);
  let o := set_adapters l o in
  let results := omap (fun i => nrs !! i) (completion c) in
  '(o, result) ← adjudicate c req responses results o;
  '(o, d, (result, effects)) ← finish to_json c req key result o d;
  Ret (o, d, (result, (sent ++ effects)%list)).

(** ** The semantic cache *)

Inductive CacheLookup : Type := Hit (cached : string) | Miss.

(** [up]: Redis is reachable. *)
Definition cache_get `{RedisStrings} (up : bool) (t : Z) (canonical_key : string) (s : sdb) : CacheLookup :=
  let redis_key := CACHE_KEY_PREFIX ++ ":" ++ canonical_key in
  if up then match GET t s redis_key with Some cached => Hit cached | None => Miss end else Miss.
Definition cache_set `{RedisStrings} (up : bool) (t : Z) (ttl_secs : Z) (canonical_key value : string)
    (s : sdb) : sdb :=
  let redis_key := CACHE_KEY_PREFIX ++ ":" ++ canonical_key in
  if up then SET_EX t redis_key value ttl_secs s else s.

(** The spawned cache writes of a dispatch, run at [t]. *)
Definition write_back `{RedisStrings} (up : bool) (t : Z) (ttl_secs : Z) (effects : list Effect)
    (s : sdb) : sdb :=
  fold_left (fun s e =>
    match e with CacheSet key json => cache_set up t ttl_secs key json s | _ => s end) effects s.

(** A request that finds no other in flight for its key. *)
Definition execute_consensus_providers `{RedisStrings}
    (to_json : TmrConsensusResult -> option string)
    (from_json : string -> result TmrConsensusResult string)
    (up : bool) (t : Z) (c : Circumstances) (req : ProviderRequest) (o : TmrOrchestrator) (d : db)
    (s : sdb) : outcome (TmrOrchestrator * db * (TmrConsensusResult * list Effect)) :=
  let key := compute_request_canonical_key (req_tenant req) (prompt req) in
  let cached :=
    match cache o with
    | None => None
    | Some _ =>
        match cache_get up t key s with
        | Hit cached_json =>
            match from_json cached_json with
            | Ok cached_result => Some (set_cache_hit true cached_result)
            | Err _ => None
            end
        | Miss => None
        end
    end in
  match cached with
  | Some r => Ret (o, d, (r, []))
  | None => dispatch_consensus_inner to_json c req key o d
  end.
End coordinator.

(** ** Keys *)

(** What a key stands for besides the tenant: a normalised payload or a digest. *)
Inductive Subject : Type :=
  | Payload (network task : string) (gas : Z)
  | Digest (hex : string).
Definition subject `{LlmText} (prompt : string) : Subject :=
  match from_llm_output prompt with
  | Ok p => Payload (trim (to_lowercase (network_id p))) (trim (to_lowercase (task_type p)))
              (max_gas_limit p)
  | Err _ => Digest (sha256_hex prompt)
  end.
Definition subject_text (x : Subject) : string :=
  match x with
  | Payload n t g => "NETWORK:" ++ n ++ ":TASK:" ++ t ++ ":GAS:" ++ pretty g
  | Digest hex => "sha256:" ++ hex
  end.
Definition subject_ok (x : Subject) : Prop :=
  match x with
  | Payload n t g => lacks "N" n = true /\ lacks "T" t = true /\ 0 <= g
  | Digest hex => lacks ":" hex = true
  end.

Lemma key_text `{LlmText} tenant prompt :
  compute_request_canonical_key tenant prompt = "tenant:" ++ tenant ++ ":" ++ subject_text (subject prompt).
Proof.
  unfold compute_request_canonical_key, subject. destruct (from_llm_output prompt); simpl;
    by rewrite <- !string_app_assoc.
Qed.

(** A key ends in [":GAS:"] or [":sha256:"] and its last field, and is read off from
    its end: no field but the tenant's contains the capital that opens the one before. *)
Lemma payload_key_split t n k g :
  t ++ ":" ++ subject_text (Payload n k g) =
    (t ++ ":NETWORK:" ++ n ++ ":TASK:" ++ k ++ ":") ++ String "G" ("AS:" ++ pretty g).
Proof. unfold subject_text. by rewrite <- !string_app_assoc. Qed.

Lemma payload_key_last t n k g :
  t ++ ":" ++ subject_text (Payload n k g) =
    ((t ++ ":NETWORK:" ++ n ++ ":TASK:" ++ k) ++ String ":" "GAS") ++ String ":" (pretty g).
Proof. unfold subject_text. by rewrite <- !string_app_assoc. Qed.

Lemma digest_key_last t h :
  t ++ ":" ++ subject_text (Digest h) = (t ++ String ":" "sha256") ++ String ":" h.
Proof. unfold subject_text. by rewrite <- !string_app_assoc. Qed.

Lemma payload_digest_apart t n k g t' h :
  0 <= g -> lacks ":" h = true ->
  t ++ ":" ++ subject_text (Payload n k g) <> t' ++ ":" ++ subject_text (Digest h).
Proof.
  rewrite payload_key_last, digest_key_last. intros Hg Hh Heq.
  apply app_last_char in Heq as [Heq _]; [|by apply pretty_Z_lacks|done].
  by apply app_last_char in Heq as [_ Heq].
Qed.

Lemma subject_key_inj t x t' x' :
  subject_ok x -> subject_ok x' ->
  t ++ ":" ++ subject_text x = t' ++ ":" ++ subject_text x' -> t = t' /\ x = x'.
Proof.
  destruct x as [n k g|h], x' as [n' k' g'|h'].
  - intros (Hn & Hk & Hg) (Hn' & Hk' & Hg'). rewrite !payload_key_split. intros Heq.
    apply app_last_char in Heq as [Heq Hgas];
      [|by apply (pretty_Z_lacks "G")|by apply (pretty_Z_lacks "G")].
    assert (Ht : forall t n k, t ++ ":NETWORK:" ++ n ++ ":TASK:" ++ k ++ ":" =
      (t ++ ":NETWORK:" ++ n ++ ":") ++ String "T" ("ASK:" ++ k ++ ":"))
      by (intros; by rewrite <- !string_app_assoc).
    assert (Hw : forall t n, t ++ ":NETWORK:" ++ n ++ ":" =
      (t ++ ":") ++ String "N" ("ETWORK:" ++ n ++ ":")) by (intros; by rewrite <- !string_app_assoc).
    rewrite !Ht in Heq.
    apply app_last_char in Heq as [Heq Htask]; [|by rewrite !lacks_app, ?Hk, ?Hk'..].
    rewrite !Hw in Heq.
    apply app_last_char in Heq as [Heq Hnet]; [|by rewrite !lacks_app, ?Hn, ?Hn'..].
    apply app_last_char in Heq as [-> _]; [|done..]. split; [done|].
    assert (Hcolon : forall a b, a ++ ":" = b ++ ":" -> a = b).
    { intros a b Hab. by apply (app_last_char ":" a "" b "") in Hab as [-> _]. }
    apply (inj (String.append "AS:")), (inj pretty) in Hgas as ->.
    apply (inj (String.append "ASK:")), Hcolon in Htask as ->.
    by apply (inj (String.append "ETWORK:")), Hcolon in Hnet as ->.
  - intros (_ & _ & Hg) Hh Heq. by apply payload_digest_apart in Heq.
  - intros Hh (_ & _ & Hg) Heq. symmetry in Heq. by apply payload_digest_apart in Heq.
  - intros Hh Hh'. rewrite !digest_key_last. intros Heq.
    apply app_last_char in Heq as [Heq ->]; [|done..].
    by apply app_last_char in Heq as [-> _].
Qed.

(** Keys separate tenants: two requests share a cache entry or a dispatch only
    if they come from the same tenant and carry the same normalised payload (or, for
    prompts that are no payload, the same digest), whatever characters the
    tenants' names and the payloads contain; and two prompts of one tenant with
    the same subject do share one. *)
Theorem canonical_keys_separate `{LlmText} tenant prompt tenant' prompt' :
  (forall p, from_llm_output prompt = Ok p -> 0 <= max_gas_limit p) ->
  (forall p, from_llm_output prompt' = Ok p -> 0 <= max_gas_limit p) ->
  compute_request_canonical_key tenant prompt = compute_request_canonical_key tenant' prompt' <->
  tenant = tenant' /\ subject prompt = subject prompt'.
Proof.
  intros Hp Hp'. rewrite !key_text. split; [|by intros [-> ->]]. intros Heq.
  assert (Hok : forall q, (forall p, from_llm_output q = Ok p -> 0 <= max_gas_limit p) ->
    subject_ok (subject q)).
  { intros q Hq. unfold subject. destruct (from_llm_output q) as [p|]; simpl.
    - split_and!; [apply trim_lacks; by apply to_lowercase_lower..|by apply Hq].
    - apply sha256_hex_digits. }
  apply (inj (String.append "tenant:")) in Heq.
  by apply subject_key_inj; [apply Hok..|].
Qed.

(** ** What a dispatch sends and collects *)

Section dispatch_facts.
Context `{PiiRegex, HashOrder, Redis, LlmText}.

Definition admitted_at (x : Run) (a : ProviderAdapter) : bool :=
  is_ok (allow_request (starts_at x) (circuit_breaker a)).2.

(** A successful response of provider [i] to [req]. *)
Definition answered (x : Run) (req : ProviderRequest) (r : ProviderResponse) : Prop :=
  answer x req = Some (Ok (content r)) /\ semantic_key r = semantic_key_of (content r).

Lemma ask_provider_spec i req a x a' nr resp sent :
  ask_provider i req a x = Ret (a', (nr, resp, sent)) ->
  sent = (if admitted_at x a then [Invoked i req] else []) /\ tokens_used resp = 0 /\
  (status resp = Success -> admitted_at x a = true /\ answered x req resp).
Proof.
  unfold ask_provider, admitted_at, answered. destruct (allow_request _ _) as [cb [[]|]]; simpl.
  - destruct (answer x req) as [[content|err]|] eqn:E.
    + intros [= <- <- <- <-]. done.
    + destruct (record_failure _ _ _); simpl; [|done]. intros [= <- <- <- <-].
      split_and!; [done..|]. by destruct err.
    + destruct (record_failure _ _ _); simpl; [|done]. intros [= <- <- <- <-]. done.
  - intros [= <- <- <- <-]. done.
Qed.

Lemma ask_all_spec req l runs : forall n l' nrs resps sent,
  ask_all n req l runs = Ret (l', (nrs, resps, sent)) ->
  length resps = length l /\ length l' = length l /\ Forall (fun r => tokens_used r = 0) resps /\
  (forall e, e ∈ sent <-> exists i a, l !! i = Some a /\ admitted_at (runs (n + i)%nat) a = true /\
     e = Invoked (n + i) (jittered (n + i) req)) /\
  (forall i r, resps !! i = Some r -> status r = Success ->
     answered (runs (n + i)%nat) (jittered (n + i) req) r /\
     Invoked (n + i) (jittered (n + i) req) ∈ sent).
Proof.
  induction l as [|a l IH]; intros n l' nrs resps sent; simpl.
  { intros [= <- <- <- <-]. split_and!; [done..| |done]. intros e. split; [by intros ?%elem_of_nil|].
    by intros (? & ? & ? & _). }
  destruct (ask_provider n (jittered n req) a (runs n)) as [[a' [[nr resp] s]]|] eqn:Ha; [|done]. simpl.
  destruct (ask_all (S n) req l runs) as [[l1 [[nrs1 resps1] s1]]|] eqn:Hl; [|done]. simpl.
  intros [= <- <- <- <-]. apply ask_provider_spec in Ha as (-> & Ht & Hs).
  destruct (IH _ _ _ _ _ Hl) as (Hlen & Hlen' & Ht' & Hsent & Hresp).
  split_and!; [by simpl; rewrite Hlen|by simpl; rewrite Hlen'|by constructor| |].
  - intros e. rewrite elem_of_app, Hsent. split.
    + intros [Hin|(i & b & Hb & Hadm & ->)].
      * exists 0%nat, a. destruct (admitted_at (runs n) a) eqn:E; [|by apply elem_of_nil in Hin].
        apply list_elem_of_singleton in Hin as ->. by rewrite Nat.add_0_r.
      * exists (S i), b. by rewrite Nat.add_succ_r.
    + intros ([|i] & b & Hb & Hadm & ->); simplify_eq/=.
      * left. rewrite Nat.add_0_r in *. rewrite Hadm. by apply list_elem_of_singleton.
      * right. exists i, b. by rewrite Nat.add_succ_r in *.
  - intros [|i] r Hr Hst; simplify_eq/=.
    + rewrite Nat.add_0_r. destruct (Hs Hst) as [Hadm Hans]. rewrite Hadm. split; [done|].
      apply elem_of_app. left. by apply list_elem_of_singleton.
    + rewrite Nat.add_succ_r. destruct (Hresp i r Hr Hst) as [??]. split; [done|].
      apply elem_of_app. by right.
Qed.

(** No provider is asked twice. *)
Lemma ask_all_once req l runs : forall n l' nrs resps sent,
  ask_all n req l runs = Ret (l', (nrs, resps, sent)) -> NoDup sent.
Proof.
  induction l as [|a l IH]; intros n l' nrs resps sent; simpl; [intros [= _ _ _ <-]; constructor|].
  destruct (ask_provider n (jittered n req) a (runs n)) as [[a' [[nr resp] s]]|] eqn:Ha; [|done]. simpl.
  destruct (ask_all (S n) req l runs) as [[l1 [[nrs1 resps1] s1]]|] eqn:Hl; [|done]. simpl.
  intros [= _ _ _ <-]. apply ask_provider_spec in Ha as (-> & _ & _).
  pose proof (IH _ _ _ _ _ Hl) as Hnd. apply ask_all_spec in Hl as (_ & _ & _ & Hsent & _).
  destruct (admitted_at _ _); [|done]. constructor; [|done].
  intros (i & b & _ & _ & Heq)%Hsent. injection Heq as Hn _. lia.
Qed.

Lemma stasis_spec c req results o o1 r :
  handle_consensus_failure_stasis c req results o = Ret (o1, r) ->
  (exists n k, o1 = set_fallback n k o) /\ fallback_activated r = true /\
  (exists n fb, fallback_invoke (permit c) (fallback_at c) (fallback_ms c) (prompt req)
      (fallback_node o) = Ret (n, fb) /\ majority_output r = f_output fb /\
    consensus_achieved r = bool_decide (is_Some (f_output fb)) /\
    agreement_count r = (if decide (is_Some (f_output fb)) then 1%nat else 0%nat)).
Proof.
  unfold handle_consensus_failure_stasis. destruct (fallback_invoke _ _ _ _ _) as [[n fb]|]; simpl; [|done].
  intros [= <- <-]. destruct (f_output fb) eqn:E; simpl; rewrite ?E;
    (split_and!; [by eauto|done|by exists n, fb; rewrite E]).
Qed.

Lemma adjudicate_spec c req responses results o o1 r :
  adjudicate c req responses results o = Ret (o1, r) ->
  (exists n k, o1 = set_fallback n k o) /\
  ((exists v, evaluate (tmr_engine o) responses = Ret (Ok v) /\
      fallback_activated r = false /\ consensus_achieved r = true /\
      majority_output r = Some (r_content v) /\
      agreement_count r = length (winning_providers v)) \/
   (fallback_activated r = true /\ handle_consensus_failure_stasis c req results o = Ret (o1, r))).
Proof.
  unfold adjudicate. case_decide.
  { intros Hs. pose proof (stasis_spec _ _ _ _ _ _ Hs) as (? & ? & _). auto. }
  destruct (evaluate _ _) as [[v|e]|]; simpl; [| |done].
  - intros [= <- <-]. split; [|left; by exists v].
    exists (fallback_node o), (fallback_trigger_count o). by destruct o.
  - intros Hs. pose proof (stasis_spec _ _ _ _ _ _ Hs) as (? & ? & _). auto.
Qed.

(** The result as it leaves: the originals restored, and not a cache hit. *)
Definition restored (map : option MaskingMap) (r : TmrConsensusResult) : TmrConsensusResult :=
  set_cache_hit false
    match map, majority_output r with
    | Some map, Some output => set_output (Some (restore output map)) r
    | _, _ => r
    end.

Lemma restored_spec map r :
  consensus_achieved (restored map r) = consensus_achieved r /\
  fallback_activated (restored map r) = fallback_activated r /\
  agreement_count (restored map r) = agreement_count r /\
  majority_output (restored map r) =
    match map with Some map => (fun out => restore out map) <$> majority_output r
                 | None => majority_output r end.
Proof. unfold restored. destruct map, (majority_output r) eqn:E; simpl; by rewrite ?E. Qed.

(** What a dispatch that ends with [r] does to the budgets: nothing when it claims
    consensus or the orchestrator has no budget manager; otherwise only the balance of
    the request's tenant may change, by one token for each provider, which arrive exactly
    when Redis runs the refund and has no earlier one of this key on record. *)
Definition settled (c : Circumstances) (req : ProviderRequest) (key : string)
    (r : TmrConsensusResult) (o : TmrOrchestrator) (d d' : db) : Prop :=
  (consensus_achieved r = true \/ finops o = None -> d' = d) /\
  (forall other, other <> req_tenant req -> balance d' (balance_key other) = balance d (balance_key other)) /\
  (executed (refund_net c) = false \/ live (refund_at c) d (idempotency_key key) = true -> d' = d) /\
  (consensus_achieved r = false -> is_Some (finops o) ->
   executed (refund_net c) = true -> live (refund_at c) d (idempotency_key key) = false ->
   forall v, balance d (balance_key (req_tenant req)) = Some v ->
     I64_MIN <= v -> v + Z.of_nat (length (adapters o)) <= I64_MAX ->
     balance d' (balance_key (req_tenant req)) = Some (v + Z.of_nat (length (adapters o)))).

Lemma settle_unchanged c req key r o d :
  consensus_achieved r = true \/ finops o = None -> settled c req key r o d d.
Proof. intros Hr. split_and!; [done..|]. intros Ha [m Hm]. destruct Hr; congruence. Qed.

Lemma settle_refund c req key r o d : is_Some (finops o) -> consensus_achieved r = false ->
  settled c req key r o d (refund_tokens (refund_net c) (refund_at c) (req_tenant req)
    (Z.of_nat (length (adapters o))) key d).1.
Proof.
  intros [m Hm] Ha. split_and!.
  - intros [?|?]; congruence.
  - intros other Ho. by apply refund_frame.
  - intros [Hn|Hl]; apply refund_idle; auto.
  - intros _ _ Hx Hl v Hv Hlow Hhigh. destruct (decide (Z.of_nat (length (adapters o)) <= 0)) as [Hz|Hz].
    + rewrite refund_idle by auto. rewrite Hv. f_equal. lia.
    + pose proof (refund_fresh (refund_net c) (refund_at c) (req_tenant req)
        (Z.of_nat (length (adapters o))) key d v ltac:(lia) Hv ltac:(lia) Hl) as Hf.
      destruct (refund_tokens _ _ _ _ _ _) as [d' x]. rewrite Hx in Hf. by destruct Hf.
Qed.

(** What follows the providers' answers, in order. *)
Definition epilogue (to_json : TmrConsensusResult -> option string) (req : ProviderRequest) (key : string)
    (r : TmrConsensusResult) (o : TmrOrchestrator) (eff : list Effect) : Prop :=
  NoDup eff /\ (forall i q, Invoked i q ∉ eff) /\
  (forall k json, CacheSet k json ∈ eff <->
     k = key /\ is_Some (cache o) /\ consensus_achieved r = true /\ is_Some (majority_output r) /\
     to_json r = Some json) /\
  (forall out n, ProofSubmitted out n ∈ eff <->
     consensus_achieved r = true /\ majority_output r = Some out /\ n = agreement_count r) /\
  (forall t k, InferenceDeducted t k ∈ eff <->
     consensus_achieved r = true /\ is_Some (majority_output r) /\ t = req_tenant req /\
     k = fold_right Z.add 0 (List.map n_duration_ms (node_results r)) / 100).

Lemma sum_ms_Ret l : forall s, sum_ms l = Ret s -> s = fold_right Z.add 0 l.
Proof.
  unfold sum_ms. induction l as [|x l IH] using List.rev_ind; intros s; [by intros [= <-]|].
  rewrite fold_left_app, fold_right_app. cbn [fold_left fold_right].
  destruct (fold_left _ l (Ret 0)) as [t|]; [|done]. cbn [mbind outcome_bind].
  intros [-> _]%add_u_Ret. rewrite (IH t eq_refl). clear. generalize (x + 0) as z, (Z.add_0_r x).
  intros z ->. induction l as [|y l IH]; simpl; lia.
Qed.

Lemma finish_spec to_json c req key result o d o' d' r eff :
  finish to_json c req key result o d = Ret (o', d', (r, eff)) ->
  o' = set_masking (pii_protector o) (delete key (masking_maps o)) o /\
  settled c req key r o d d' /\
  r = restored (masking_maps o !! key) result /\
  epilogue to_json req key r o eff.
Proof.
  unfold finish. set (d1 := if consensus_achieved result then d else _).
  assert (settled c req key (restored (masking_maps o !! key) result) o d d1) as Hd.
  { destruct (restored_spec (masking_maps o !! key) result) as (Ha & _). subst d1.
    destruct (consensus_achieved result) eqn:Hc; [apply settle_unchanged; auto|].
    destruct (finops o) eqn:Hf; [apply settle_refund; eauto|apply settle_unchanged; auto]. }
  revert Hd. fold (restored (masking_maps o !! key) result). clearbody d1.
  remember (restored (masking_maps o !! key) result) as r1 eqn:Hr1. clear Hr1.
  cbn [cache set_masking]. unfold epilogue.
  destruct (consensus_achieved r1) eqn:Ha, (majority_output r1) as [out|] eqn:Hm, (cache o), (to_json r1) as [j|] eqn:Hj;
    try (destruct (sum_ms _) as [ms|] eqn:Hms; [apply sum_ms_Ret in Hms|done]);
    simpl; intros Hd [= <- <- <- <-];
    rewrite ?Ha, ?Hm, ?Hj, <- ?Hms; (split_and!; [done|done|done|..]);
    try (repeat constructor; set_solver); intros; set_solver by eauto.
Qed.

(** The verdict leaves all of the orchestrator but the fallback node and its counter. *)
Lemma adjudicate_frame c req responses results o o' r :
  adjudicate c req responses results o = Ret (o', r) -> o' = o \/ exists n k, o' = set_fallback n k o.
Proof.
  assert (forall x y, handle_consensus_failure_stasis c req results o = Ret (x, y) ->
    x = o \/ exists n k, x = set_fallback n k o) as Hs.
  { intros x y. unfold handle_consensus_failure_stasis.
    destruct (fallback_invoke _ _ _ _ _) as [[n fb]|]; cbn; [|done]. intros [= <- _]. by eauto. }
  unfold adjudicate. case_decide; [by apply Hs|].
  destruct (TmrConsensus.evaluate _ _) as [[consensus|e]|]; cbn [mbind outcome_bind]; [|by apply Hs|done].
  intros [= <- _]. by left.
Qed.

(** The steps of a dispatch that returns. *)
Lemma dispatch_steps to_json c req key o d o' d' r sent :
  dispatch_consensus_inner to_json c req key o d = Ret (o', d', (r, sent)) ->
  exists l nrs resps asked o1 r1 eff,
    ask_all 0 (masked_request req o) (adapters o) (runs c) = Ret (l, (nrs, resps, asked)) /\
    adjudicate c req resps (omap (fun i => nrs !! i) (completion c)) (set_adapters l (set_masking
      (mask (prompt req) (pii_protector o)).1
      (<[key := (mask (prompt req) (pii_protector o)).2.2]> (masking_maps o)) o)) = Ret (o1, r1) /\
    finish to_json c req key r1 o1 d = Ret (o', d', (r, eff)) /\ sent = (asked ++ eff)%list.
Proof.
  unfold dispatch_consensus_inner. destruct (mask _ _) as [pii [masked map]]. simpl.
  destruct (ask_all 0 _ _ _) as [[l [[nrs resps] asked]]|]; simpl; [|done].
  destruct (adjudicate _ _ _ _ _) as [[o1 r1]|] eqn:E; simpl; [|done].
  destruct (finish _ _ _ _ _ _ _) as [[[o2 d2] [r2 eff]]|] eqn:F; simpl; [|done].
  intros [= <- <- <- <-]. do 7 eexists. by split_and!.
Qed.

(** Positions that satisfy a test, and the elements there. *)
Definition positions {A} (p : A -> bool) (l : list A) : list nat :=
  List.filter (fun i => match l !! i with Some x => p x | None => false end) (seq 0 (length l)).

Lemma positions_spec {A} (p : A -> bool) (l : list A) i :
  In i (positions p l) <-> exists x, l !! i = Some x /\ p x = true.
Proof.
  unfold positions. rewrite filter_In, in_seq. split.
  - intros [_ Hi]. destruct (l !! i) eqn:E; [by eauto|done].
  - intros (x & Hx & Hp). rewrite Hx. apply lookup_lt_Some in Hx. split; [lia|done].
Qed.

Lemma positions_NoDup {A} (p : A -> bool) (l : list A) : List.NoDup (positions p l).
Proof. apply List.NoDup_filter, seq_NoDup. Qed.

Lemma positions_length {A} (p : A -> bool) (l : list A) :
  length (positions p l) = length (List.filter p l).
Proof.
  induction l as [|x l IH] using List.rev_ind; [done|]. unfold positions in *.
  rewrite length_app, seq_app, !List.filter_app, !length_app, <- IH. simpl.
  rewrite lookup_app_r, Nat.sub_diag by done. simpl. f_equal; [|by destruct (p x)].
  f_equal. apply List.filter_ext_in. intros i Hi%in_seq. by rewrite lookup_app_l by lia.
Qed.
End dispatch_facts.

Section quorum_facts.
Context `{PiiRegex, HashOrder, Redis, LlmText}.

Lemma token_total_zero rs : Forall (fun r => tokens_used r = 0) rs -> token_total rs = 0.
Proof. induction 1 as [|r rs Hr _ IH]; simpl; [done|]. by rewrite Hr, IH. Qed.

(** A verdict on responses that report no tokens names the voters of one key. *)
Lemma evaluate_voters e rs v :
  evaluate e rs = Ret (Ok v) -> Forall (fun r => tokens_used r = 0) rs ->
  exists k resp, k <> "" /\ (required (TmrConsensus.config e) (quorum_base e rs) <= length (votes k rs))%nat /\
    length (winning_providers v) = length (votes k rs) /\ In resp (votes k rs) /\
    r_content v = content resp.
Proof.
  intros He Ht. destruct (decide (rs = [])) as [->|Hne]; [done|].
  destruct (evaluate_unfold e rs 0 Hne) as [(_ & _ & Hv)|(k & n & txt & ps & _ & Hk & _ & Hv)].
  - rewrite sum_tokens_fits; rewrite ?token_total_zero by done; [done| |ulia].
    eapply Forall_impl; [exact Ht|]. simpl. lia.
  - rewrite He in Hv. done.
  - rewrite He in Hv. destruct (_ <=? n)%nat eqn:Hn; [|done]. simplify_eq.
    apply entry_of_Some in Hk as (-> & -> & resp & Hlast & ->). apply Nat.leb_le in Hn.
    exists k, resp. split_and!; [|done|by simpl; rewrite length_fmap| |done].
    + intros ->. by rewrite votes_empty_key in Hlast.
    + apply last_Some in Hlast as [l ->]. apply in_app_iff. right. by left.
Qed.

(** The number of nodes the engine counts for its quorum. *)
Definition node_count (o : TmrOrchestrator) : nat :=
  match healthy_nodes (tmr_engine o) with
  | [] => length (adapters o)
  | l => length l
  end.

Lemma semantic_key_of_Some text k :
  semantic_key_of text = k -> k <> "" ->
  exists p, from_llm_output text = Ok p /\ canonical_key p = k.
Proof. unfold semantic_key_of. destruct (from_llm_output text); naive_solver. Qed.
End quorum_facts.

(** C19: an answer that is not the fallback's is backed by a quorum: as many distinct
    providers as the engine's rule requires were asked (with the masked prompt) and
    gave answers whose payloads have one canonical key; the output is the answer of
    one of them, with the originals restored; and [agreement_count] is their
    number. *)
Theorem dispatch_quorum `{PiiRegex, HashOrder, Redis, LlmText} to_json c req key o d o' d' r sent :
  dispatch_consensus_inner to_json c req key o d = Ret (o', d', (r, sent)) ->
  consensus_achieved r = true -> fallback_activated r = false ->
  let asked i := jittered i (masked_request req o) in
  exists voters k,
    List.NoDup voters /\ agreement_count r = length voters /\
    (required (TmrConsensus.config (tmr_engine o)) (node_count o) <= length voters)%nat /\
    (forall i, In i voters -> Invoked i (asked i) ∈ sent /\ exists text p,
       answer (runs c i) (asked i) = Some (Ok text) /\ from_llm_output text = Ok p /\
       canonical_key p = k) /\
    exists i text, In i voters /\ answer (runs c i) (asked i) = Some (Ok text) /\
      majority_output r = Some (restore text (mask (prompt req) (pii_protector o)).2.2).
Proof.
  intros (l & nrs & resps & sent0 & o1 & r1 & eff & Hask & Hadj & Hfin & ->)%dispatch_steps Hach Hfb asked.
  apply ask_all_spec in Hask as (Hlen & _ & Htok & _ & Hresp).
  apply adjudicate_spec in Hadj as [(n & k & ->) Hv].
  apply finish_spec in Hfin as (-> & _ & -> & _).
  destruct (restored_spec (masking_maps (set_fallback n k (set_adapters l (set_masking
    (mask (prompt req) (pii_protector o)).1
    (<[key:=(mask (prompt req) (pii_protector o)).2.2]> (masking_maps o)) o))) !! key) r1)
    as (_ & Hfb' & -> & ->). rewrite Hfb' in Hfb.
  destruct Hv as [(v & He & _ & _ & -> & ->)|[? _]]; [|congruence]. simpl in *.
  rewrite lookup_insert_eq. simpl.
  destruct (evaluate_voters _ _ _ He Htok) as (key' & resp & Hk & Hreq & -> & Hin & ->).
  set (p := fun r => votes_for r && bool_decide (semantic_key r = key')).
  assert (Hat : forall i x, resps !! i = Some x -> p x = true ->
    answered (runs c i) (asked i) x /\ Invoked i (asked i) ∈ sent0 /\ semantic_key x = key').
  { intros i x Hx [Hp Hkey%bool_decide_eq_true]%andb_true_iff.
    unfold votes_for in Hp. apply andb_true_iff in Hp as [Hst%bool_decide_eq_true _].
    by destruct (Hresp i x Hx Hst) as [??]. }
  exists (positions p resps), key'. split_and!.
  - apply positions_NoDup.
  - symmetry. apply positions_length.
  - rewrite positions_length. unfold node_count. unfold quorum_base in Hreq. rewrite <- Hlen.
    by destruct (healthy_nodes (tmr_engine o)).
  - intros i (x & Hx & Hp)%positions_spec. destruct (Hat i x Hx Hp) as ((Ha & Hs) & Hsent & Hkey).
    split; [apply elem_of_app; by left|].
    destruct (semantic_key_of_Some (content x) key') as (pl & ? & ?); [congruence|done|].
    by exists (content x), pl.
  - apply filter_In in Hin as [[i Hi]%list_elem_of_In%list_elem_of_lookup Hp].
    destruct (Hat i resp Hi Hp) as ((Ha & _) & _).
    exists i, (content resp). split; [|done]. apply positions_spec. by exists resp.
Qed.

(** C20: what leaves the gateway: in a dispatch every provider whose breaker admits the
    call is asked exactly once, with the masked prompt and its own temperature offset,
    and no other request is sent; the result is written to the cache, once and under the
    request's key, exactly when it claims consensus with an output, a cache is configured
    and it serialises; exactly when it claims consensus with an output its proof is
    submitted, once, and the inference charged, once, one token for each hundred
    milliseconds of the answers it lists.  A result that claims consensus, and an
    orchestrator without a budget manager, leave the budgets as they were; otherwise
    the tenant's balance (one that exists, and has room for them) grows by one token for
    each provider when Redis runs the refund and has none of this key on record, nothing
    changes when it does not, and nobody else's balance ever changes.  The masking map is
    forgotten. *)
Theorem dispatch_effects `{PiiRegex, HashOrder, Redis, LlmText} to_json c req key o d o' d' r sent :
  dispatch_consensus_inner to_json c req key o d = Ret (o', d', (r, sent)) ->
  NoDup sent /\
  (forall i q, Invoked i q ∈ sent <->
     exists a, adapters o !! i = Some a /\ admitted_at (runs c i) a = true /\
       q = jittered i (masked_request req o)) /\
  (forall k json, CacheSet k json ∈ sent <->
     k = key /\ is_Some (cache o) /\ consensus_achieved r = true /\ is_Some (majority_output r) /\
     to_json r = Some json) /\
  (forall out n, ProofSubmitted out n ∈ sent <->
     consensus_achieved r = true /\ majority_output r = Some out /\ n = agreement_count r) /\
  (forall t k, InferenceDeducted t k ∈ sent <->
     consensus_achieved r = true /\ is_Some (majority_output r) /\ t = req_tenant req /\
     k = fold_right Z.add 0 (List.map n_duration_ms (node_results r)) / 100) /\
  settled c req key r o d d' /\
  masking_maps o' = delete key (masking_maps o).
Proof.
  intros (l & nrs & resps & asked & o1 & r1 & eff & Hask & Hadj & Hfin & ->)%dispatch_steps.
  pose proof (ask_all_once _ _ _ _ _ _ _ _ Hask) as Honce.
  apply ask_all_spec in Hask as (_ & Hlen & _ & Hasked & _).
  apply adjudicate_spec in Hadj as [(n & k & ->) _].
  apply finish_spec in Hfin as (-> & Hd & _ & Hnd & Hinv & Hcache & Hproof & Hinf). simpl in *.
  assert (forall e, e ∈ asked -> exists i q, e = Invoked i q) as Hkind.
  { intros e (i & a & _ & _ & ->)%Hasked. eauto. }
  split_and!.
  - apply NoDup_app. split_and!; [done| |done]. intros e (i & q & ->)%Hkind. apply Hinv.
  - intros i q. rewrite elem_of_app, Hasked. split.
    + intros [(j & a & ? & ? & [= -> ->])|[]%Hinv]. by exists a.
    + intros (a & ? & ? & ->). left. by exists i, a.
  - intros k' json. rewrite elem_of_app, Hcache. split; [|by right]. by intros [(? & ? & [=])%Hkind|?].
  - intros out m. rewrite elem_of_app, Hproof. split; [|by right]. by intros [(? & ? & [=])%Hkind|?].
  - intros t m. rewrite elem_of_app, Hinf. split; [|by right]. by intros [(? & ? & [=])%Hkind|?].
  - unfold settled in *. simpl in Hd. by rewrite Hlen in Hd.
  - by rewrite delete_insert_eq.
Qed.

(** ** Outages and the cache *)

Section cache_facts.
Context `{PiiRegex, HashOrder, Redis, LlmText, RedisStrings}.

Lemma write_back_get t1 t2 ttl key json effects s :
  t1 <= t2 < t1 + ttl * 10 ^ 9 ->
  (forall k j, CacheSet k j ∈ effects -> k = key /\ j = json) -> CacheSet key json ∈ effects ->
  cache_get true t2 key (write_back true t1 ttl effects s) = Hit json.
Proof.
  intros Ht. induction effects as [|e l IH] using List.rev_ind; intros Hall Hin.
  { by apply elem_of_nil in Hin. }
  unfold write_back. rewrite fold_left_app. fold (write_back true t1 ttl l s). simpl.
  assert (Hl : CacheSet key json ∈ l -> cache_get true t2 key (write_back true t1 ttl l s) = Hit json).
  { intros. apply IH; [|done]. intros k j Hk. apply Hall, elem_of_app. by left. }
  apply elem_of_app in Hin as [Hin|Hin%list_elem_of_singleton].
  - destruct e as [|k j| |]; try by apply Hl.
    destruct (Hall k j) as [-> ->]; [apply elem_of_app; right; by apply list_elem_of_singleton|].
    unfold cache_get, cache_set. by rewrite get_set, decide_True by lia.
  - subst e. unfold cache_get, cache_set. by rewrite get_set, decide_True by lia.
Qed.

(** Without a successful provider the fallback node decides. *)
Lemma no_success_adjudicate c req responses results o :
  Forall (fun r => status r <> Success) responses -> 0 < o_min_agreement o ->
  adjudicate c req responses results o = handle_consensus_failure_stasis c req results o.
Proof.
  intros Hr Ho. unfold adjudicate. rewrite decide_True; [done|].
  replace (List.filter succeeded responses) with (@nil ProviderResponse); [done|].
  induction Hr as [|r l Hr Hl IH]; [done|]. simpl. unfold succeeded at 1.
  by rewrite bool_decide_false.
Qed.

Lemma fallback_answers now ms p n :
  enabled (endpoint n) = true -> len p <= max_input_tokens (endpoint n) * 4 <= USIZE_MAX ->
  fallback_invoke Permitted now ms p n =
    Ret (count_invocation now n, mkFallbackResult (Some mock_output) None ms (e_model_id (endpoint n))).
Proof.
  intros He Hp. unfold fallback_invoke, invoke_gated. simpl. rewrite He, mul_u_small by lia. simpl.
  by rewrite decide_False by lia.
Qed.
End cache_facts.

(** An outage outlives itself: when no provider answers, the fallback node's fixed
    answer is returned as an achieved consensus of one, the tenant is not refunded,
    and the answer is cached; for the cache's time to live the same request is
    answered with it, without asking any provider, whatever state they and the
    gateway are in by then. *)
Theorem outage_is_cached `{PiiRegex, HashOrder, Redis, LlmText, RedisStrings}
    to_json from_json t1 ttl c req o d s o' d' r sent json :
  let key := compute_request_canonical_key (req_tenant req) (prompt req) in
  cache o = Some ttl -> 0 < o_min_agreement o ->
  (forall i q text, answer (runs c i) q <> Some (Ok text)) ->
  permit c = Permitted -> enabled (endpoint (fallback_node o)) = true ->
  len (prompt req) <= max_input_tokens (endpoint (fallback_node o)) * 4 <= USIZE_MAX ->
  cache_get true t1 key s = Miss ->
  execute_consensus_providers to_json from_json true t1 c req o d s = Ret (o', d', (r, sent)) ->
  to_json r = Some json -> from_json json = Ok r ->
  (consensus_achieved r = true /\ fallback_activated r = true /\ agreement_count r = 1%nat /\
   majority_output r = Some (restore mock_output (mask (prompt req) (pii_protector o)).2.2) /\
   d' = d) /\
  forall t2 c2 o2 d2, t1 <= t2 < t1 + ttl * 10 ^ 9 -> is_Some (cache o2) ->
    execute_consensus_providers to_json from_json true t2 c2 req o2 d2
      (write_back true t1 ttl sent s) = Ret (o2, d2, (set_cache_hit true r, [])).
Proof.
  intros key Hc Hmin Hnone Hpermit Hen Hlen Hmiss Hex Hto Hfrom.
  unfold execute_consensus_providers in Hex. fold key in Hex. rewrite Hc, Hmiss in Hex.
  apply dispatch_steps in Hex as (l & nrs & resps & sent0 & o1 & r1 & eff & Hask & Hadj & Hfin & ->).
  apply ask_all_spec in Hask as (_ & _ & _ & Hsent & Hresp).
  rewrite no_success_adjudicate in Hadj; [| |done].
  2: { apply Forall_lookup. intros i x Hx Hst. destruct (Hresp i x Hx Hst) as [[Ha _] _].
       by apply Hnone in Ha. }
  pose proof (stasis_spec _ _ _ _ _ _ Hadj) as ((n & k & ->) & Hf & n' & fb & Hfb & Hout & Hach & Hagr).
  rewrite Hpermit in Hfb.
  cbn [fallback_node set_adapters set_masking] in Hfb. rewrite fallback_answers in Hfb by done. simplify_eq. simpl in *.
  apply finish_spec in Hfin as (-> & (Hd & _) & Hr & _ & Hinv & Hcache & _). simpl in *.
  destruct (restored_spec (<[key:=(mask (prompt req) (pii_protector o)).2.2]> (masking_maps o) !! key) r1)
    as (Ha' & Hf' & Hn' & Ho'). rewrite <- Hr in Ha', Hf', Hn', Ho'.
  rewrite lookup_insert_eq, Hout in Ho'. simpl in Ho'. split.
  - rewrite Ha', Hf', Hn', Ho', Hach, Hagr, Hd by (left; by rewrite Ha', Hach). done.
  - intros t2 c2 o2 d2 Ht [ttl2 Ho2]. unfold execute_consensus_providers. fold key. rewrite Ho2.
    rewrite (write_back_get _ _ _ _ json); [by rewrite Hfrom|done| |].
    + intros k' j [(? & ? & _ & _ & [=])%Hsent|(-> & _ & _ & _ & Hj)%Hcache]%elem_of_app.
      split; [done|congruence].
    + apply elem_of_app. right. apply Hcache. rewrite Ha', Ho', Hach, Hc. by split_and!; eauto.
Qed.

(** ** Concrete instances and witnesses *)

Fixpoint ascii_lowercase (s : string) : string :=
  match s with
  | EmptyString => ""
  | String c s => String (if in_range 65 90 c then ascii_of_nat (nat_of_ascii c + 32) else c) (ascii_lowercase s)
  end.
Lemma ascii_lowercase_lower c s : in_range 65 90 c = true -> lacks c (ascii_lowercase s) = true.
Proof.
  intros Hc. induction s as [|d s IH]; [done|]. cbn [ascii_lowercase lacks]. rewrite IH, andb_true_r.
  apply negb_true_iff, Ascii.eqb_neq. intros Heq. revert Hc. rewrite <- Heq.
  destruct (in_range 65 90 d) eqn:E; [|by rewrite E].
  destruct d as [[] [] [] [] [] [] [] []]; vm_compute in E |- *; discriminate.
Qed.

(** Texts are their own network identifiers. *)
Definition PlainText : LlmText.
Proof.
  refine {| from_llm_output := fun s => if is_empty s then Err "empty" else Ok (mkPayload s "Swap" 21000 (S754_zero false) "");
    to_lowercase := ascii_lowercase; sha256_hex := fun _ => "00" |}.
  - intros c s. apply ascii_lowercase_lower.
  - done.
Defined.

Definition StringMap : RedisStrings.
Proof.
  refine {| sdb := gmap string (string * Z);
    GET t d k := match d !! k with Some (v, e) => if decide (t < e) then Some v else None | None => None end;
    SET_EX t k v ttl d := <[k := (v, t + ttl * 10 ^ 9)]> d |}.
  - intros. cbv beta. by rewrite lookup_insert_eq.
  - intros. cbv beta. by rewrite lookup_insert_ne.
Defined.

Definition demo_providers : list LlmProvider :=
  [mkProvider "a" "A" 5000; mkProvider "b" "B" 5000; mkProvider "c" "C" 5000].
Definition demo_orchestrator : TmrOrchestrator :=
  with_finops (mkManager false) (with_cache CACHE_TTL_SECS (with_providers (H2 := PlainText) (fun _ => None)
    demo_providers (mkSlm "slm" "path" Active))).
Definition demo_request : ProviderRequest := with_tenant "acme" (request_new "write to @").

(** Two of three agree, one with the placeholder of the prompt. *)
Definition demo_agreement : Circumstances :=
  mkCircumstances (fun i => mkRun 0 (fun q =>
      match i with
      | 0%nat => Some (Ok "ok [MASKED_EMAIL_0]")
      | 1%nat => Some (Err HttpRateLimited)
      | _ => Some (Ok " OK [MASKED_EMAIL_0]")
      end) (fun b => b) 9 7) [2; 0; 1]%nat Permitted 0 0 9 Delivered 0.
Definition demo_outage : Circumstances :=
  mkCircumstances (fun i => mkRun 0 (fun _ => None) (fun b => b) 9 7) [0; 1; 2]%nat Permitted 0 50 9
    Delivered 0.

Abbreviation demo_dispatch c :=
  (dispatch_consensus_inner (H := AtSigns) (H0 := canonical_order) (H1 := RedisMap) (H2 := PlainText)
    (fun _ => Some "json") c demo_request "key" demo_orchestrator demo_db).

(** The outcome of a dispatch that returns. *)
Definition demo_out (c : Circumstances) : TmrOrchestrator * @db RedisMap * (TmrConsensusResult * list Effect) :=
  match demo_dispatch c with
  | Ret x => x
  | Panic => (demo_orchestrator, demo_db, (TmrConsensusResult_default, []))
  end.
Lemma demo_returns c :
  (match demo_dispatch c with Ret _ => true | Panic => false end) = true ->
  demo_dispatch c = Ret ((demo_out c).1.1, (demo_out c).1.2, ((demo_out c).2.1, (demo_out c).2.2)).
Proof. unfold demo_out. by destruct (demo_dispatch c) as [[[? ?] [? ?]]|]. Qed.

Lemma dispatch_quorum_witness :
  let r := (demo_out demo_agreement).2.1 in
  let asked i := jittered i (masked_request (H := AtSigns) demo_request demo_orchestrator) in
  (majority_output r = Some " OK @" /\ agreement_count r = 2%nat) /\
  exists voters k,
    List.NoDup voters /\ agreement_count r = length voters /\
    (required (TmrConsensus.config (tmr_engine demo_orchestrator))
       (node_count (H0 := canonical_order) demo_orchestrator) <= length voters)%nat /\
    (forall i, In i voters -> Invoked i (asked i) ∈ (demo_out demo_agreement).2.2 /\ exists text p,
       answer (runs demo_agreement i) (asked i) = Some (Ok text) /\
       from_llm_output (LlmText := PlainText) text = Ok p /\
       canonical_key (H2 := PlainText) p = k) /\
    exists i text, In i voters /\ answer (runs demo_agreement i) (asked i) = Some (Ok text) /\
      majority_output r = Some (restore (H := canonical_order) text
        (mask (H := AtSigns) (prompt demo_request) (pii_protector demo_orchestrator)).2.2).
Proof.
  intros r asked. split; [split; vm_compute; reflexivity|].
  apply (dispatch_quorum (H := AtSigns) (H0 := canonical_order) (H1 := RedisMap) (H2 := PlainText)
    _ _ _ _ _ _ _ _ _ _ (demo_returns demo_agreement ltac:(vm_compute; reflexivity)));
    vm_compute; reflexivity.
Defined.

(** The fallback node is switched off too: nothing is cached and the tenant's balance of
    10 becomes 13. *)
Definition demo_nothing : TmrOrchestrator :=
  set_fallback (disable (fallback_new (endpoint_disabled (endpoint (fallback_node demo_orchestrator))))) 0
    demo_orchestrator.
Definition demo_failed : TmrOrchestrator * @db RedisMap * (TmrConsensusResult * list Effect) :=
  match dispatch_consensus_inner (H := AtSigns) (H0 := canonical_order) (H1 := RedisMap) (H2 := PlainText)
    (fun _ => Some "json") demo_outage demo_request "key" demo_nothing demo_db with
  | Ret x => x
  | Panic => (demo_nothing, demo_db, (TmrConsensusResult_default, []))
  end.

Lemma dispatch_effects_witness :
  let sent := demo_failed.2.2 in
  NoDup sent /\
  (forall i q, Invoked i q ∈ sent <->
     exists a, adapters demo_nothing !! i = Some a /\ admitted_at (runs demo_outage i) a = true /\
       q = jittered i (masked_request (H := AtSigns) demo_request demo_nothing)) /\
  (forall k json, CacheSet k json ∉ sent) /\
  balance demo_failed.1.2 (balance_key "acme") = Some 13.
Proof.
  assert (dispatch_consensus_inner (H := AtSigns) (H0 := canonical_order) (H1 := RedisMap) (H2 := PlainText)
    (fun _ => Some "json") demo_outage demo_request "key" demo_nothing demo_db =
    Ret (demo_failed.1.1, demo_failed.1.2, (demo_failed.2.1, demo_failed.2.2))) as Hd by (vm_compute; reflexivity).
  destruct (dispatch_effects (H := AtSigns) (H0 := canonical_order) (H1 := RedisMap) (H2 := PlainText)
    _ _ _ _ _ _ _ _ _ _ Hd) as (Hnd & Hinv & Hcache & _ & _ & (_ & _ & _ & Hrefund) & _).
  split_and!; [exact Hnd|exact Hinv| |].
  - intros k json (_ & _ & Ha & _)%Hcache. vm_compute in Ha. discriminate Ha.
  - apply (Hrefund eq_refl ltac:(by eexists) eq_refl eq_refl 10); [reflexivity|ulia|vm_compute; discriminate].
Defined.

Lemma canonical_keys_separate_witness :
  (forall p, from_llm_output (LlmText := PlainText) "x" = Ok p -> 0 <= max_gas_limit p) /\
  (compute_request_canonical_key (H2 := PlainText) "a:b" "x" =
     compute_request_canonical_key (H2 := PlainText) "a" "b:x" <->
   "a:b" = "a" /\ subject (H := PlainText) "x" = subject (H := PlainText) "b:x").
Proof.
  split; [intros p [= <-]; discriminate|].
  apply (canonical_keys_separate (H := PlainText)); intros p [= <-]; discriminate.
Defined.

(** The request of the outage, with the cache empty. *)
Definition demo_key : string := compute_request_canonical_key (H2 := PlainText) "acme" "write to @".
Definition demo_execution (from_json : string -> result TmrConsensusResult string) t c o d s :=
  execute_consensus_providers (H := AtSigns) (H0 := canonical_order) (H1 := RedisMap) (H2 := PlainText)
    (H3 := StringMap) (fun _ => Some "json") from_json true t c demo_request o d s.
Definition demo_first : TmrOrchestrator * @db RedisMap * (TmrConsensusResult * list Effect) :=
  match demo_execution (fun _ => Err "") 0 demo_outage demo_orchestrator demo_db ∅ with
  | Ret x => x
  | Panic => (demo_orchestrator, demo_db, (TmrConsensusResult_default, []))
  end.

Lemma outage_is_cached_witness :
  let r := demo_first.2.1 in
  (consensus_achieved r = true /\ fallback_activated r = true /\ agreement_count r = 1%nat /\
   majority_output r = Some (restore (H := canonical_order) mock_output
     (mask (H := AtSigns) (prompt demo_request) (pii_protector demo_orchestrator)).2.2) /\
   demo_first.1.2 = demo_db) /\
  forall t2 c2 o2 d2, 0 <= t2 < 0 + CACHE_TTL_SECS * 10 ^ 9 -> is_Some (cache o2) ->
    demo_execution (fun _ => Ok r) t2 c2 o2 d2
      (write_back (H3 := StringMap) true 0 CACHE_TTL_SECS demo_first.2.2 ∅) =
      Ret (o2, d2, (set_cache_hit true r, [])).
Proof.
  intros r.
  apply (outage_is_cached (H := AtSigns) (H0 := canonical_order) (H1 := RedisMap) (H2 := PlainText)
    (H3 := StringMap) (fun _ => Some "json") (fun _ => Ok r) 0 CACHE_TTL_SECS
    demo_outage demo_request demo_orchestrator demo_db ∅ demo_first.1.1 _ _ _ "json").
  - reflexivity.
  - reflexivity.
  - intros i q text. discriminate.
  - reflexivity.
  - reflexivity.
  - vm_compute. split; discriminate.
  - reflexivity.
  - vm_compute. reflexivity.
  - reflexivity.
  - reflexivity.
Defined.
