(* ===== verification/Payload.v ===== *)
(** * crates/interfaces/src/lib.rs: payloads as the providers write them

    What [Coordinator] knows as [LlmText]: an answer is taken out of its code fence and
    read as JSON under either style of field names.  [llm_text] is the instance of
    [LlmText] that this code is; the regex engine, the two JSON parsers, the Unicode
    tables and SHA-256 are parameters. *)
From Stdlib Require Import Ascii SpecFloat.
From S2P Require Import Prelude F64 RustStr Json Coordinator.

Local Open Scope string_scope.

(** ** Fences *)

Definition FENCE : string := "```".

(** The group of the pattern [```(?:json)?\s*([\s\S]*?)\s*```] in its leftmost match: the
    text between the first fence, with the tag that may follow it, and the next one,
    without the white space at its ends. *)
Definition fence_group (s : string) : option string :=
  i ← find FENCE s;
  let rest := drop_bytes (i + String.length FENCE) s in
  let rest := default rest (strip_prefix "json" rest) in
  j ← find FENCE rest;
  Some (trim (take_bytes j rest)).

(** The regex crate's search for that pattern. *)
Class FenceRegex := {
  captures : string -> option string;
  captures_spec : forall s, captures s = fence_group s }.

Section sanitize.
Context `{FenceRegex}.

Definition sanitize_llm_response (response : string) : string :=
  let extracted := default response (captures response) in
  let trimmed := trim extracted in
  match captures trimmed with
  | Some m => trim m
  | None => trimmed
  end.

(** ** What the second search adds *)

Definition two_fences (s : string) : Prop := exists x y z, s = x ++ FENCE ++ y ++ FENCE ++ z.

Lemma find_skip p c s : starts_with p (String c s) = false -> find p (String c s) = S <$> find p s.
Proof. intros Hs. cbn [find]. by rewrite Hs. Qed.

Lemma contains_skip p c s : starts_with p (String c s) = false -> contains p (String c s) = contains p s.
Proof.
  intros Hs. unfold contains. apply bool_decide_ext. rewrite (find_skip _ _ _ Hs).
  destruct (find p s) as [m|]; cbn; split; intros [n Hn]; (done || by eexists).
Qed.

Lemma tag_keeps_fences s : contains FENCE (default s (strip_prefix "json" s)) = contains FENCE s.
Proof.
  unfold strip_prefix. destruct (starts_with "json" s) eqn:E; [|reflexivity].
  apply starts_with_split in E. cbn [default from_option id]. revert E.
  generalize (drop_bytes (String.length "json") s). intros t ->.
  change ("json" ++ t) with (String "j" (String "s" (String "o" (String "n" t)))). by rewrite !contains_skip.
Qed.

Lemma fence_group_none s : fence_group s = None <-> ~ two_fences s.
Proof.
  unfold fence_group. split.
  - intros Hn (x & y & z & Hs). destruct (find FENCE s) as [i|] eqn:Hi; cbn in Hn.
    + set (rest := drop_bytes _ s) in Hn.
      assert (contains FENCE rest = true) as Hrest.
      { unfold rest. rewrite Hs, string_app_assoc, drop_bytes_le, string_app_assoc, contains_app; [done|].
        rewrite Hs in Hi. apply find_le in Hi. rewrite length_string_app. cbn [FENCE String.length]. lia. }
      rewrite <- tag_keeps_fences in Hrest. destruct (find FENCE _) eqn:Hj in Hn; [done|].
      apply contains_none in Hj. congruence.
    + apply contains_none in Hi. rewrite Hs, contains_app in Hi. done.
  - intros Hn. destruct (find FENCE s) as [i|] eqn:Hi; [|done]. cbn.
    destruct (find FENCE (default _ _)) as [j|] eqn:Hj; [|done]. destruct Hn.
    assert (contains FENCE (drop_bytes (i + 3) s) = true) as Hc.
    { rewrite <- tag_keeps_fences. unfold contains. apply bool_decide_true. by eexists. }
    apply contains_iff in Hc as (y & z & Hc). apply find_split in Hi. cbn [FENCE String.length] in Hi.
    rewrite Hc in Hi. by exists (take_bytes i s), y, z.
Qed.

Lemma fence_group_solid s g : fence_group s = Some g -> contains FENCE g = false.
Proof.
  unfold fence_group. destruct (find FENCE s) as [i|]; cbn; [|done].
  set (rest := default _ _). destruct (find FENCE rest) as [j|] eqn:Hj; cbn; [|done]. intros [= <-].
  apply find_first in Hj; [|done]. destruct (contains FENCE (trim _)) eqn:Hc; [|done].
  destruct (trim_infix (take_bytes j rest)) as (a & b & Hab). rewrite Hab, contains_infix in Hj; done.
Qed.

Lemma solid_no_group s : contains FENCE s = false -> fence_group s = None.
Proof. intros Hs. unfold fence_group. by apply contains_none in Hs as ->. Qed.

(** The search for a fence inside the fence never finds one: one search and one trimming
    are all that [sanitize_llm_response] does. *)
Theorem nested_search_idle response :
  sanitize_llm_response response = trim (default response (fence_group response)).
Proof.
  unfold sanitize_llm_response. rewrite !captures_spec.
  enough (fence_group (trim (default response (fence_group response))) = None) as -> by done.
  destruct (fence_group response) as [g|] eqn:Hg; cbn [default from_option id].
  - apply solid_no_group. destruct (contains FENCE (trim g)) eqn:Hc; [|done].
    destruct (trim_infix g) as (a & b & Hab). apply fence_group_solid in Hg. by rewrite Hab, contains_infix in Hg.
  - apply fence_group_none in Hg. apply fence_group_none. intros (x & y & z & Hx). apply Hg.
    destruct (trim_infix response) as (a & b & Hab). rewrite Hx in Hab. exists (a ++ x), y, (z ++ b).
    by rewrite Hab, <- !string_app_assoc.
Qed.

(** An answer that is sanitized has no pair of fences, and sanitizing again leaves it. *)
Theorem sanitize_idempotent response :
  sanitize_llm_response (sanitize_llm_response response) = sanitize_llm_response response.
Proof.
  rewrite (nested_search_idle (sanitize_llm_response response)).
  enough (fence_group (sanitize_llm_response response) = None) as ->.
  { cbn. rewrite nested_search_idle. apply trim_idempotent. }
  unfold sanitize_llm_response. rewrite !captures_spec.
  pose proof (nested_search_idle response) as Hn. unfold sanitize_llm_response in Hn. rewrite !captures_spec in Hn.
  destruct (fence_group (trim (default response (fence_group response)))) as [m|] eqn:Hm; [|done].
  apply solid_no_group. apply fence_group_solid in Hm. destruct (contains FENCE (trim m)) eqn:Hc; [|done].
  destruct (trim_infix m) as (a & b & Hab). by rewrite Hab, contains_infix in Hm.
Qed.





End sanitize.

(** ** Payloads

    A number is an integer or a binary64, as both parsers keep them. *)
Inductive Number : Type := Int (n : Z) | Float (f : f64).
Local Abbreviation value := (Value Number).

(** The names a field is known by: its own and its alias. *)
Definition payload_names : list (list string) :=
  [["network_id"; "networkId"]; ["task_type"; "taskType"]; ["max_gas_limit"; "maxGasLimit"];
   ["confidence_score"; "confidenceScore"]; ["source_url"; "sourceUrl"]].

(** The fields of a derived reader: of an object, whose other keys are ignored and which
    names no field twice; or of an array, in order, as far as its parser lets it
    ([elements]). *)
Definition named (keys : list string) (m : list (string * value)) : list value :=
  snd <$> filter (fun e => e.1 ∈ keys) m.
Definition aliased_fields (elements : list value -> option (list value)) (names : list (list string)) (v : value) : option (list (option value)) :=
  match v with
  | JObject m =>
      let fields := List.map (fun keys => named keys m) names in
      if decide (Forall (fun l => length l <= 1)%nat fields) then Some (List.map head fields) else None
  | JArray l => List.map Some <$> elements l
  | _ => None
  end.

Definition as_u32 (v : value) : option Z :=
  match v with JNumber (Int n) => if decide (fits U32_MAX n) then Some n else None | _ => None end.
Definition as_f64 (v : value) : option f64 :=
  match v with JNumber (Int n) => Some (f64_of_Z n) | JNumber (Float f) => Some f | _ => None end.

Definition payload_de (elements : list value -> option (list value)) (v : value) : option IntermediatePayload :=
  fs ← aliased_fields elements payload_names v;
  match fs with
  | [a; b; c; d; e] =>
      a ← a ≫= as_str; b ← b ≫= as_str; c ← c ≫= as_u32; d ← d ≫= as_f64; e ← e ≫= as_str;
      Some (mkPayload a b c d e)
  | _ => None
  end.

(** The derived writer, under the given names; serde_json writes [null] for what is not a
    finite number. *)
Definition payload_ser_as (names : list string) (p : IntermediatePayload) : value :=
  JObject (zip names
    [JString (network_id p); JString (task_type p); JNumber (Int (max_gas_limit p));
     (if is_finite (confidence_score p) then JNumber (Float (confidence_score p)) else JNull);
     JString (source_url p)]).
Definition rust_names : list string := ["network_id"; "task_type"; "max_gas_limit"; "confidence_score"; "source_url"].
Definition llm_names : list string := ["networkId"; "taskType"; "maxGasLimit"; "confidenceScore"; "sourceUrl"].
Definition payload_ser : IntermediatePayload -> value := payload_ser_as rust_names.

(** simd-json parses a buffer in place and leaves it changed; serde_json then gets what is
    left of it, as far as that is text. *)
Class JsonText := {
  simd_from_slice : string -> string * result value string;
  simd_elements : list value -> option (list value);
  serde_from_str : string -> result value string;
  serde_elements : list value -> option (list value);
  shape_error : value -> string;
  from_utf8_lossy : string -> string }.

Section parse.
Context `{FenceRegex, JsonText}.

Definition decoded (elements : list value -> option (list value)) (r : result value string) : result IntermediatePayload string :=
  match r with
  | Ok v => match payload_de elements v with Some p => Ok p | None => Err (shape_error v) end
  | Err e => Err e
  end.

Definition payload_from_llm_output (raw : string) : result IntermediatePayload string :=
  let '(bytes, r) := simd_from_slice (sanitize_llm_response raw) in
  match decoded simd_elements r with
  | Ok p => Ok p
  | Err _ =>
      match decoded serde_elements (serde_from_str (from_utf8_lossy bytes)) with
      | Ok p => Ok p
      | Err e => Err ("Failed to parse payload: " ++ e)
      end
  end.

(** ** What is read *)

Lemma payload_de_bounds el v p : payload_de el v = Some p -> fits U32_MAX (max_gas_limit p).
Proof.
  unfold payload_de. destruct (aliased_fields _ _ _) as [[|a [|b [|c [|d [|e [|]]]]]]|]; cbn; try done.
  destruct (a ≫= as_str); cbn; [|done]. destruct (b ≫= as_str); cbn; [|done].
  destruct (c ≫= as_u32) as [n|] eqn:Hc; cbn; [|done]. destruct (d ≫= as_f64); cbn; [|done].
  destruct (e ≫= as_str); cbn; [|done]. intros [= <-]. cbn. destruct c as [c|]; [|done]. cbn in Hc.
  unfold as_u32 in Hc. repeat case_match; by simplify_eq.
Qed.

Lemma decoded_bounds el r p : decoded el r = Ok p -> fits U32_MAX (max_gas_limit p).
Proof.
  destruct r as [v|e]; cbn; [|done]. destruct (payload_de el v) eqn:Hv; [|done]. intros [= <-].
  by eapply payload_de_bounds.
Qed.

Lemma from_llm_output_bounds raw p : payload_from_llm_output raw = Ok p -> fits U32_MAX (max_gas_limit p).
Proof.
  unfold payload_from_llm_output. destruct (simd_from_slice _) as [bytes r].
  destruct (decoded _ r) eqn:E1; [intros [= <-]; by eapply decoded_bounds|].
  destruct (decoded _ (serde_from_str _)) eqn:E2; [intros [= <-]; by eapply decoded_bounds|done].
Qed.

(** ** What is written is read *)

Definition representable (p : IntermediatePayload) : Prop :=
  fits U32_MAX (max_gas_limit p) /\ is_finite (confidence_score p) = true.
(** Each field under one of its names. *)
Definition style (names : list string) : Prop := Forall2 (fun n keys => n ∈ keys) names payload_names.
Definition foreign (extra : list (string * value)) : Prop :=
  Forall (fun e => e.1 ∉ mjoin payload_names) extra.
Definition with_entries (extra : list (string * value)) (v : value) : value :=
  match v with JObject m => JObject (m ++ extra) | _ => v end.

Lemma named_app keys m m' : named keys (m ++ m') = (named keys m ++ named keys m')%list.
Proof. unfold named. by rewrite filter_app, fmap_app. Qed.

Lemma named_foreign keys extra : keys ∈ payload_names -> foreign extra -> named keys extra = [].
Proof.
  intros Hk He. unfold named. induction He as [|[k v] extra Hx _ IH]; [done|]. rewrite filter_cons_False; [done|].
  intros Hin. apply Hx. apply list_elem_of_join. eauto.
Qed.

Lemma payload_de_fields el a b c d e extra names : style names -> foreign extra ->
  payload_de el (JObject (zip names [a; b; c; d; e] ++ extra)) =
    (a ← as_str a; b ← as_str b; c ← as_u32 c; d ← as_f64 d; e ← as_str e; Some (mkPayload a b c d e)).
Proof.
  intros Hn He. unfold payload_de, aliased_fields.
  enough (List.map (fun keys => named keys (zip names [a; b; c; d; e] ++ extra)) payload_names =
    [[a]; [b]; [c]; [d]; [e]]) as ->.
  { rewrite decide_True by (repeat constructor). done. }
  rewrite (map_ext_in _ (fun keys => named keys (zip names [a; b; c; d; e]))).
  - unfold style, payload_names in Hn. repeat (apply Forall2_cons_inv_r in Hn as (? & ? & ? & Hn & ->)).
    apply Forall2_nil_inv_r in Hn as ->.
    repeat match goal with Hin : _ ∈ [_; _] |- _ =>
      apply list_elem_of_In in Hin; destruct Hin as [<-|[<-|[]]] end; reflexivity.
  - intros keys Hk%list_elem_of_In. rewrite named_app, (named_foreign _ _ Hk He). apply app_nil_r.
Qed.

(** Whatever the style of its names and whatever fields stand behind them, a payload is
    read back; what names a field twice is no payload. *)
Theorem payload_round_trip el names extra p : representable p -> style names -> foreign extra ->
  payload_de el (with_entries extra (payload_ser_as names p)) = Some p.
Proof.
  intros [Hg Hc] Hn He. unfold payload_ser_as, with_entries. rewrite payload_de_fields by done. cbn.
  unfold as_u32. rewrite Hc, decide_True by done. by destruct p.
Qed.

End parse.

(** ** The interface of the orchestrator *)

Section interface.
Context `{FenceRegex, JsonText}.
Context (lower : string -> string) (sha : string -> string)
  (Hlower : forall c s, in_range 65 90 c = true -> lacks c (lower s) = true)
  (Hsha : forall s, lacks ":" (sha s) = true).

Definition llm_text : LlmText :=
  {| from_llm_output := payload_from_llm_output; to_lowercase := lower; sha256_hex := sha;
     to_lowercase_lower := Hlower; sha256_hex_digits := Hsha |}.

(** C25: with the payloads that the code reads, a cache entry or a dispatch is shared by two
    requests exactly when they come from the same tenant and carry the same normalised
    payload, or prompts with the same digest, whatever the tenants are called and whatever
    the prompts contain. *)
Theorem keys_separate tenant prompt tenant' prompt' :
  compute_request_canonical_key (H2 := llm_text) tenant prompt =
    compute_request_canonical_key (H2 := llm_text) tenant' prompt' <->
  tenant = tenant' /\ subject (H := llm_text) prompt = subject (H := llm_text) prompt'.
Proof.
  apply (canonical_keys_separate (H := llm_text)); intros p Hp; by apply from_llm_output_bounds in Hp as [? _].
Qed.

End interface.

(** ** Concrete inputs *)

#[local] Instance demo_fences : FenceRegex := {| captures := fence_group; captures_spec := fun s => eq_refl |}.
Definition demo_payload : IntermediatePayload := mkPayload "Base" "swap" 21000 f64_one "https://example.org".
(** One document is known. *)
#[local] Instance demo_json : JsonText := {|
  simd_from_slice s := (s, if bool_decide (s = "{document}")
    then Ok (with_entries [("note", JNull)] (payload_ser_as llm_names demo_payload)) else Err "EOF");
  simd_elements l := Some l; serde_from_str _ := Err "EOF"; serde_elements l := Some l;
  shape_error _ := "missing field"; from_utf8_lossy s := s |}.

Example sanitize_ex :
  sanitize_llm_response ("Sure: ```json" ++ newline ++ "{document}" ++ newline ++ "``` or ```") = "{document}".
Proof. vm_compute. reflexivity. Qed.

(** A field that comes under both of its names. *)
Example both_names_refused el :
  payload_de el (with_entries [("networkId", JString "Base")] (payload_ser demo_payload)) = None.
Proof. reflexivity. Qed.

Lemma payload_round_trip_witness :
  payload_de (fun _ => None) (with_entries [("note", JNull)] (payload_ser_as llm_names demo_payload)) = Some demo_payload.
Proof.
  apply payload_round_trip.
  - split; [unfold fits; cbn; ulia|reflexivity].
  - repeat constructor; in_list.
  - repeat constructor; in_list.
Defined.


(** A tenant's name that looks like the beginning of a key does not reach another's entry. *)
Lemma keys_separate_witness :
  let key := compute_request_canonical_key
    (H2 := llm_text ascii_lowercase (fun _ => "00") ascii_lowercase_lower (fun _ => eq_refl)) in
  key "a:tenant" "x" <> key "a" "tenant:x" /\ key "a" "```json {document}```" = key "a" "``` {document} ```".
Proof.
  pose proof (keys_separate ascii_lowercase (fun _ => "00") ascii_lowercase_lower (fun _ => eq_refl)) as Hk.
  split; [intros [Ht _]%Hk; discriminate Ht|]. apply Hk. split; [reflexivity|vm_compute; reflexivity].
Defined.
