(* ===== verification/CachedResults.v ===== *)
(** * crates/llm-router/src/coordinator.rs and provider.rs: what the semantic cache holds

    A result is cached as the JSON of its derived [Serialize] and read back by its derived
    [Deserialize]; so are the configuration of the local model and the strategies.  The
    text of a JSON value is serde_json's. *)
From Stdlib Require Import Ascii.
From stdpp Require Import countable.
From S2P Require Import Prelude F64 RustStr Json FinOps TmrConsensus PiiMask Coordinator Serde.

Local Open Scope string_scope.
Local Abbreviation value := (Value Z).

Definition U16_MAX : Z := 65535.

(** ** Errors of a node *)

Definition error_ser (e : TmrNodeError) : value :=
  match e with
  | HttpForbidden => JString "HttpForbidden"
  | HttpRateLimited => JString "HttpRateLimited"
  | NodeTimeout => JString "Timeout"
  | CircuitBreakerOpen => JString "CircuitBreakerOpen"
  | NodeServerError code => JObject [("ServerError", JNumber code)]
  | ParseError detail => JObject [("ParseError", JString detail)]
  | NodeNetworkError detail => JObject [("NetworkError", JString detail)]
  end.
Definition error_variant (name : string) (o : option value) : option TmrNodeError :=
  let unit_variant e := if unit_content o then Some e else None in
  if String.eqb name "HttpForbidden" then unit_variant HttpForbidden
  else if String.eqb name "HttpRateLimited" then unit_variant HttpRateLimited
  else if String.eqb name "Timeout" then unit_variant NodeTimeout
  else if String.eqb name "CircuitBreakerOpen" then unit_variant CircuitBreakerOpen
  else if String.eqb name "ServerError" then v ← o; NodeServerError <$> as_uint U16_MAX v
  else if String.eqb name "ParseError" then v ← o; ParseError <$> as_str v
  else if String.eqb name "NetworkError" then v ← o; NodeNetworkError <$> as_str v
  else None.
Definition error_de (v : value) : option TmrNodeError := '(name, o) ← tagged v; error_variant name o.
Definition error_fits (e : TmrNodeError) : Prop :=
  match e with NodeServerError code => fits U16_MAX code | _ => True end.

Lemma error_round_trip e : error_fits e -> error_de (error_ser e) = Some e.
Proof. destruct e; cbn -[as_uint]; intros He; try done. by rewrite uint_round_trip. Qed.
Definition error_codec : codec TmrNodeError := mkCodec error_ser error_de error_fits error_round_trip.

(** ** Results *)

Definition node_fields : list string :=
  ["provider_id"; "provider_name"; "output"; "error"; "duration_ms"; "fallback_triggered"].
Definition node_ser (r : TmrNodeResult) : value :=
  struct_ser node_fields [JString (provider_id r); JString (provider_name r); option_ser JString (n_output r);
    option_ser error_ser (n_error r); JNumber (n_duration_ms r); JBool (fallback_triggered r)].
Definition node_de (v : value) : option TmrNodeResult :=
  fs ← field_values node_fields v;
  match fs with
  | [a; b; c; d; e; f] =>
      a ← required str_codec a; b ← required str_codec b; c ← optional str_codec c;
      d ← optional error_codec d; e ← required (uint_codec U64_MAX) e; f ← required bool_codec f;
      Some (mkNodeResult a b c d e f)
  | _ => None
  end.
Definition node_fits (r : TmrNodeResult) : Prop :=
  fits U64_MAX (n_duration_ms r) /\ forall e, n_error r = Some e -> error_fits e.

Lemma str_not_null s : ser str_codec s <> JNull.
Proof. done. Qed.
Lemma error_not_null e : ser error_codec e <> JNull.
Proof. by destruct e. Qed.
Lemma optional_str o : optional str_codec (Some (option_ser JString o)) = Some o.
Proof. apply (optional_round_trip str_codec); [apply str_not_null|done]. Qed.
Lemma optional_error o : (forall e, o = Some e -> error_fits e) ->
  optional error_codec (Some (option_ser error_ser o)) = Some o.
Proof. apply (optional_round_trip error_codec), error_not_null. Qed.

Lemma node_round_trip r : node_fits r -> node_de (node_ser r) = Some r.
Proof.
  intros [Hd He]. unfold node_de, node_ser. read_fields. rewrite optional_str, optional_error by done. by destruct r.
Qed.
Definition node_codec : codec TmrNodeResult := mkCodec node_ser node_de node_fits node_round_trip.

Definition fallback_fields : list string := ["output"; "error"; "duration_ms"; "model_id"].
Definition fallback_ser (r : FallbackNodeResult) : value :=
  struct_ser fallback_fields [option_ser JString (f_output r); option_ser JString (f_error r);
    JNumber (f_duration_ms r); JString (f_model_id r)].
Definition fallback_de (v : value) : option FallbackNodeResult :=
  fs ← field_values fallback_fields v;
  match fs with
  | [a; b; c; d] =>
      a ← optional str_codec a; b ← optional str_codec b; c ← required (uint_codec U64_MAX) c;
      d ← required str_codec d; Some (mkFallbackResult a b c d)
  | _ => None
  end.
Definition fallback_fits (r : FallbackNodeResult) : Prop := fits U64_MAX (f_duration_ms r).

Lemma fallback_round_trip r : fallback_fits r -> fallback_de (fallback_ser r) = Some r.
Proof.
  unfold fallback_fits. intros Hd. unfold fallback_de, fallback_ser. read_fields. rewrite !optional_str. by destruct r.
Qed.
Definition fallback_codec : codec FallbackNodeResult :=
  mkCodec fallback_ser fallback_de fallback_fits fallback_round_trip.

Definition consensus_fields : list string :=
  ["majority_output"; "agreement_count"; "total_nodes"; "fallback_activated"; "node_results"; "fallback_result";
   "consensus_achieved"; "total_duration_ms"; "cache_hit"].
Definition consensus_ser (r : TmrConsensusResult) : value :=
  struct_ser consensus_fields [option_ser JString (majority_output r); JNumber (Z.of_nat (agreement_count r));
    JNumber (Z.of_nat (total_nodes r)); JBool (fallback_activated r); vec_ser node_codec (node_results r);
    option_ser fallback_ser (fallback_result r); JBool (consensus_achieved r);
    JNumber (total_duration_ms r); JBool (cache_hit r)].
Definition consensus_de (v : value) : option TmrConsensusResult :=
  fs ← field_values consensus_fields v;
  match fs with
  | [a; b; c; d; e; f; g; h; i] =>
      a ← optional str_codec a; b ← required (uint_codec USIZE_MAX) b; c ← required (uint_codec USIZE_MAX) c;
      d ← required bool_codec d; e ← required (vec_codec node_codec) e; f ← optional fallback_codec f;
      g ← required bool_codec g; h ← required (uint_codec U64_MAX) h; i ← required bool_codec i;
      Some (mkConsensus a (Z.to_nat b) (Z.to_nat c) d e f g h i)
  | _ => None
  end.
(** The integers are those of their types. *)
Record consensus_fits (r : TmrConsensusResult) : Prop := {
  cf_agreement : fits USIZE_MAX (Z.of_nat (agreement_count r));
  cf_total : fits USIZE_MAX (Z.of_nat (total_nodes r));
  cf_nodes : Forall node_fits (node_results r);
  cf_fallback : forall f, fallback_result r = Some f -> fallback_fits f;
  cf_duration : fits U64_MAX (total_duration_ms r) }.

Lemma consensus_round_trip r : consensus_fits r -> consensus_de (consensus_ser r) = Some r.
Proof.
  intros [Ha Ht Hn Hf Hd].
  pose proof (required_round_trip (vec_codec node_codec) _ Hn : required _ (Some (vec_ser _ _)) = _) as Hv.
  pose proof (optional_round_trip fallback_codec _ ltac:(done) Hf : optional _ (Some (option_ser fallback_ser _)) = _) as Ho.
  unfold consensus_de, consensus_ser. read_fields. rewrite optional_str, Hv, Ho. cbn [mbind option_bind].
  rewrite !Nat2Z.id. by destruct r.
Qed.
Definition consensus_codec : codec TmrConsensusResult :=
  mkCodec consensus_ser consensus_de consensus_fits consensus_round_trip.

(** ** The text of the cache *)

(** serde_json: the text of a value is read back as that value, as long as its integers are
    those of 64 bits (its strings are Rust's, so valid UTF-8). *)
Fixpoint small (v : value) : bool :=
  match v with
  | JNumber n => (I64_MIN <=? n)%Z && (n <=? U64_MAX)%Z
  | JArray l => forallb small l
  | JObject m => forallb (fun e => small e.2) m
  | _ => true
  end.
Class SerdeJson := {
  to_text : value -> string;
  from_text : string -> result value string;
  shape_error : value -> string;
  text_round_trip : forall v, small v = true -> from_text (to_text v) = Ok v }.

Section cached.
Context `{PiiRegex, HashOrder, Redis, LlmText, RedisStrings, SerdeJson}.

Definition result_to_json (r : TmrConsensusResult) : option string := Some (to_text (consensus_ser r)).
Definition result_from_json (s : string) : result TmrConsensusResult string :=
  match from_text s with
  | Ok v => match consensus_de v with Some r => Ok r | None => Err (shape_error v) end
  | Err e => Err e
  end.

Lemma fits_small max n : max <= U64_MAX -> fits max n -> (I64_MIN <=? n)%Z && (n <=? U64_MAX)%Z = true.
Proof. intros. apply andb_true_iff. unfold fits in *. rewrite !Z.leb_le. ulia. Qed.

Lemma node_small r : node_fits r -> small (node_ser r) = true.
Proof.
  intros [Hd He]. assert (forall o, (forall e, o = Some e -> error_fits e) -> small (option_ser error_ser o) = true) as Hs.
  { intros [e|] Ho; [|done]. specialize (Ho e eq_refl). destruct e; try done. cbn -[Z.leb] in *. rewrite andb_true_r.
    by eapply (fits_small U16_MAX). }
  specialize (Hs _ He). unfold node_ser, struct_ser. cbn -[Z.leb]. rewrite Hs, (fits_small U64_MAX) by done.
  by destruct (n_output r).
Qed.

Lemma consensus_small r : consensus_fits r -> small (consensus_ser r) = true.
Proof.
  intros [Ha Ht Hn Hf Hd]. unfold consensus_ser, struct_ser. cbn -[Z.leb vec_ser].
  rewrite (fits_small USIZE_MAX) by done. rewrite (fits_small USIZE_MAX) by done.
  rewrite (fits_small U64_MAX) by done.
  assert (small (vec_ser node_codec (node_results r)) = true) as ->.
  { cbn. induction Hn as [|x l Hx _ IH]; [done|]. cbn -[small node_ser]. by rewrite (node_small _ Hx). }
  assert (small (option_ser fallback_ser (fallback_result r)) = true) as ->.
  { destruct (fallback_result r) as [f|] eqn:Hr; [|done]. specialize (Hf f eq_refl). cbn -[Z.leb].
    rewrite (fits_small U64_MAX) by done. by destruct (f_output f), (f_error f). }
  by destruct (majority_output r).
Qed.

Lemma result_round_trip r json : consensus_fits r -> result_to_json r = Some json -> result_from_json json = Ok r.
Proof.
  intros Hr [= <-]. unfold result_from_json. rewrite text_round_trip by by apply consensus_small.
  by rewrite consensus_round_trip.
Qed.

(** C38: what is agreed once is the answer until it expires: after a dispatch that reached a
    consensus, with its cache entry written, every request with the same key, from whatever
    orchestrator that has a cache, gets that result back within the time to live, down to
    the results of the single nodes, marked as a cache hit; no provider is asked and
    neither the budgets nor the orchestrator change. *)
Theorem cached_answer_returned t1 ttl c req o d s o' d' r sent :
  let key := compute_request_canonical_key (req_tenant req) (prompt req) in
  cache o = Some ttl -> cache_get true t1 key s = Miss ->
  execute_consensus_providers result_to_json result_from_json true t1 c req o d s = Ret (o', d', (r, sent)) ->
  consensus_achieved r = true -> is_Some (majority_output r) -> consensus_fits r ->
  forall t2 c2 req2 o2 d2, t1 <= t2 < t1 + ttl * 10 ^ 9 -> is_Some (cache o2) ->
    compute_request_canonical_key (req_tenant req2) (prompt req2) = key ->
    execute_consensus_providers result_to_json result_from_json true t2 c2 req2 o2 d2
      (write_back true t1 ttl sent s) = Ret (o2, d2, (set_cache_hit true r, [])).
Proof.
  intros key Hc Hmiss Hex Hach Hout Hfits t2 c2 req2 o2 d2 Ht [ttl2 Ho2] Hkey.
  unfold execute_consensus_providers in Hex. fold key in Hex. rewrite Hc, Hmiss in Hex.
  apply dispatch_steps in Hex as (l & nrs & resps & sent0 & o1 & r1 & eff & Hask & Hadj & Hfin & ->).
  apply ask_all_spec in Hask as (_ & _ & _ & Hsent & _).
  assert (cache o1 = Some ttl) as Hc1 by (apply adjudicate_frame in Hadj as [->|(n & k & ->)]; exact Hc).
  apply finish_spec in Hfin as (_ & _ & _ & _ & Hinv & Hcache & _).
  unfold execute_consensus_providers. rewrite Hkey, Ho2.
  rewrite (write_back_get _ _ _ _ (to_text (consensus_ser r))); [|done| |].
  - by rewrite (result_round_trip r _ Hfits eq_refl).
  - intros k' j [(? & ? & _ & _ & [=])%Hsent|(-> & _ & _ & _ & Hj)%Hcache]%elem_of_app.
    split; [done|]. by injection Hj as <-.
  - apply elem_of_app. right. apply Hcache. by rewrite Hc1; split_and!.
Qed.
End cached.

(** ** Configuration of the local model *)

Definition mode_display (m : SlmExecutionMode) : string := match m with Active => "active" | Lazy => "lazy" end.
Definition strategy_display (s : TmrCanonicalStrategy) : string :=
  match s with Strict => "strict" | Fuzzy => "fuzzy" end.

Definition mode_de (v : value) : option SlmExecutionMode :=
  '(name, o) ← tagged v;
  if negb (unit_content o) then None
  else if String.eqb name "active" then Some Active
  else if String.eqb name "lazy" then Some Lazy else None.
Definition mode_codec : codec SlmExecutionMode.
Proof. refine (mkCodec (fun m => JString (mode_display m)) mode_de (fun _ => True) _). by intros [] _. Defined.
Definition strategy_de (v : value) : option TmrCanonicalStrategy :=
  '(name, o) ← tagged v;
  if negb (unit_content o) then None
  else if String.eqb name "strict" then Some Strict
  else if String.eqb name "fuzzy" then Some Fuzzy else None.
Definition strategy_codec : codec TmrCanonicalStrategy.
Proof. refine (mkCodec (fun s => JString (strategy_display s)) strategy_de (fun _ => True) _). by intros [] _. Defined.

(** [to_string_lossy] leaves a path that is valid UTF-8 as it is. *)
Section paths.
Context (to_string_lossy : string -> string)
  (Hlossy : forall path, utf8_valid path = true -> to_string_lossy path = path).

Definition slm_fields : list string := ["model_id"; "model_path"; "execution_mode"].
Definition path_serialize (path : string) : value := JString (to_string_lossy path).
Definition path_deserialize (o : option value) : option string := required str_codec o.
Definition slm_ser (c : SlmNodeConfig) : value :=
  struct_ser slm_fields [JString (model_id c); path_serialize (model_path c); ser mode_codec (execution_mode c)].
Definition slm_de (v : value) : option SlmNodeConfig :=
  fs ← field_values slm_fields v;
  match fs with
  | [a; b; c] =>
      a ← required str_codec a; b ← path_deserialize b; c ← required mode_codec c; Some (mkSlm a b c)
  | _ => None
  end.

Theorem slm_round_trip c : utf8_valid (model_path c) = true -> slm_de (slm_ser c) = Some c.
Proof using Hlossy.
  intros Hp. unfold slm_de, slm_ser, path_serialize. rewrite (Hlossy _ Hp). unfold path_deserialize. read_fields.
  rewrite (required_round_trip mode_codec _ I). by destruct c.
Qed.
End paths.

(** ** Builders *)

Definition endpoint_with_timeouts (ms : Z) (e : WasiNnEndpoint) : WasiNnEndpoint :=
  mkEndpoint (e_model_id e) (e_model_path e) (encoding e) ms (max_input_tokens e) (max_output_tokens e) (enabled e).
Definition endpoint_with_token_limits (max_input max_output : Z) (e : WasiNnEndpoint) : WasiNnEndpoint :=
  mkEndpoint (e_model_id e) (e_model_path e) (encoding e) (inference_timeout_ms e) max_input max_output (enabled e).
Definition endpoint_default : WasiNnEndpoint := endpoint_new "serein-slm-v1" "./serein-models/base_model.gguf".

(** [SemanticCache], as far as it is not Redis: the seconds its entries live. *)
Definition semantic_cache_new : Z := CACHE_TTL_SECS.
Definition semantic_cache_with_ttl (ttl_secs _old : Z) : Z := ttl_secs.

(** The token limit that a builder sets is multiplied when it is used: beyond a quarter of
    the range of [usize] the multiplication overflows and every invocation that gets its
    permit panics; below it none does. *)
Theorem token_limit_panics max_input max_output now ms prompt n :
  0 <= max_input -> enabled (endpoint n) = true ->
  endpoint n = endpoint_with_token_limits max_input max_output (endpoint n) ->
  fallback_invoke Permitted now ms prompt n = Panic <-> USIZE_MAX < max_input * 4.
Proof.
  intros Hlow Hon He. unfold fallback_invoke, invoke_gated. cbn [endpoint count_invocation]. rewrite Hon. cbn [negb].
  replace (max_input_tokens (endpoint n)) with max_input by by rewrite He.
  destruct (decide (max_input * 4 <= USIZE_MAX)) as [Hle|Hgt].
  - rewrite mul_u_small by lia. cbn [mbind outcome_bind]. case_decide; (split; [discriminate|lia]).
  - unfold mul_u. rewrite decide_False by lia. cbn. split; [lia|done].
Qed.

(** ** Concrete inputs

    A value is encoded as a tree, the tree as a number, and its text is the number's bits. *)
Local Abbreviation tree := (gen_tree (bool + Z + string)).
Fixpoint to_tree (v : value) : tree :=
  match v with
  | JNull => GenNode 0 []
  | JBool b => GenNode 1 [GenLeaf (inl (inl b))]
  | JNumber n => GenNode 1 [GenLeaf (inl (inr n))]
  | JString s => GenNode 1 [GenLeaf (inr s)]
  | JArray l => GenNode 2 (List.map to_tree l)
  | JObject m => GenNode 3 (List.map (fun e => GenNode 4 [GenLeaf (inr e.1); to_tree e.2]) m)
  end.
Fixpoint of_tree (t : tree) : value :=
  match t with
  | GenNode 1 [GenLeaf (inl (inl b))] => JBool b
  | GenNode 1 [GenLeaf (inl (inr n))] => JNumber n
  | GenNode 1 [GenLeaf (inr s)] => JString s
  | GenNode 2 l => JArray (List.map of_tree l)
  | GenNode 3 l =>
      JObject (List.map (fun t => match t with GenNode _ [GenLeaf (inr k); v] => (k, of_tree v) | _ => ("", JNull) end) l)
  | _ => JNull
  end.
Lemma of_to_tree v : of_tree (to_tree v) = v.
Proof.
  induction v as [| | | |l IH|m IH] using Value_nested_ind; try done; cbn; f_equal; rewrite List.map_map.
  - induction IH as [|v l Hv _ IH]; [done|]. cbn. by rewrite Hv, IH.
  - induction IH as [|[k v] m Hv _ IH]; [done|]. cbn in *. by rewrite Hv, IH.
Qed.

Fixpoint bits (p : positive) : string :=
  match p with xH => "" | xO p => String "0" (bits p) | xI p => String "1" (bits p) end.
Fixpoint of_bits (s : string) : positive :=
  match s with EmptyString => xH | String c s => if Ascii.eqb c "0" then xO (of_bits s) else xI (of_bits s) end.
Lemma of_to_bits p : of_bits (bits p) = p.
Proof. induction p as [p IH|p IH|]; cbn; by rewrite ?IH. Qed.

Definition BitText : SerdeJson.
Proof.
  refine {| to_text v := bits (encode (to_tree v));
    from_text s := match decode (of_bits s) with Some t => Ok (of_tree t) | None => Err "EOF" end;
    shape_error _ := "missing field" |}.
  intros v _. by rewrite of_to_bits, decode_encode, of_to_tree.
Defined.

(** A dispatch in which two of three providers agree, and another request of the tenant. *)
Definition demo_orchestrator2 : TmrOrchestrator :=
  with_cache CACHE_TTL_SECS (with_providers (H2 := PlainText) (fun _ => None) demo_providers (mkSlm "slm" "path" Active)).
Local Abbreviation demo_execute t c req o d s :=
  (execute_consensus_providers (H := AtSigns) (H0 := canonical_order) (H1 := RedisMap) (H2 := PlainText)
    (H3 := StringMap) (result_to_json (H4 := BitText)) (result_from_json (H4 := BitText)) true t c req o d s).
Definition demo_once : TmrOrchestrator * @db RedisMap * (TmrConsensusResult * list Effect) :=
  match demo_execute 0 demo_agreement demo_request demo_orchestrator2 demo_db ∅ with
  | Ret x => x
  | Panic => (demo_orchestrator2, demo_db, (TmrConsensusResult_default, []))
  end.

Lemma demo_missed : @cache_get StringMap true 0 demo_key ∅ = Miss.
Proof. vm_compute. reflexivity. Qed.

Lemma demo_executed :
  demo_execute 0 demo_agreement demo_request demo_orchestrator2 demo_db ∅ =
    Ret (demo_once.1.1, demo_once.1.2, (demo_once.2.1, demo_once.2.2)).
Proof.
  assert ((match demo_execute 0 demo_agreement demo_request demo_orchestrator2 demo_db ∅ with
    Ret _ => true | Panic => false end) = true) as Hr by (vm_compute; reflexivity).
  unfold demo_once. destruct (demo_execute 0 _ _ _ _ _) as [[[? ?] [? ?]]|]; done.
Qed.

Lemma demo_fits : consensus_fits demo_once.2.1.
Proof.
  assert (demo_once.2.1 = mkConsensus (Some " OK @") 2 3 false
    [mkNodeResult "c" "C" (Some " OK [MASKED_EMAIL_0]") None 7 false;
     mkNodeResult "a" "A" (Some "ok [MASKED_EMAIL_0]") None 7 false;
     mkNodeResult "b" "B" None (Some HttpRateLimited) 7 true] None true 9 false) as -> by (vm_compute; reflexivity).
  constructor; [cbn; ulia|cbn; ulia| |done|cbn; ulia].
  repeat (constructor; [split; [cbn; ulia|by intros e [= <-]]|]). constructor.
Qed.

(** An hour later but one minute, when the providers would not answer. *)
Lemma cached_answer_returned_witness :
  demo_execute (3540 * 10 ^ 9) demo_outage demo_request demo_orchestrator2 demo_db
    (write_back (H3 := StringMap) true 0 CACHE_TTL_SECS demo_once.2.2 ∅) =
    Ret (demo_orchestrator2, demo_db, (set_cache_hit true demo_once.2.1, [])).
Proof.
  apply (cached_answer_returned (H := AtSigns) (H0 := canonical_order) (H1 := RedisMap) (H2 := PlainText)
    (H3 := StringMap) (H4 := BitText) 0 CACHE_TTL_SECS demo_agreement demo_request demo_orchestrator2 demo_db ∅ _ _ _ _
    eq_refl demo_missed demo_executed).
  - vm_compute. reflexivity.
  - vm_compute. by eexists.
  - exact demo_fits.
  - split; vm_compute; (discriminate || reflexivity).
  - by eexists.
  - reflexivity.
Defined.
