(* ===== verification/Arbitrator.v ===== *)
(** * crates/traffic-control/src/lib.rs: the edge gateway and its arbitrator

    [TmrArbitrator] takes answers as they arrive and stops at the first one that
    agrees with an earlier one; JSON answers agree up to a relative difference of
    1e-6 in their numbers.  serde_json is a parameter, as is what it reports of a
    number. *)
From Stdlib Require Import SpecFloat Permutation.
From S2P Require Import Prelude F64 RustStr Json TmrConsensus.

Local Open Scope string_scope.

Inductive NexusError : Type :=
  | RouteNotFound (endpoint : string)
  | MalformedPayload (detail : string)
  | NexusInternal (detail : string)
  | TmrConsensusFailure (detail : string).

Record BackendResult := mkBackend { node_id : string; payload : string }.

(** The same text as in the consensus crate. *)
Definition strip_markdown_fences (response : string) : string :=
  TmrConsensus.strip_markdown_fences response.

Definition FUZZY_DELTA : f64 := f64_lit 1 6.

Section arbitrator.
Context {Number : Type} (as_f64 : Number -> option f64) (number_eqb : Number -> Number -> bool)
        (from_str : string -> result (Value Number) string).

Definition fuzzy_number_eq (na nb : Number) : bool :=
  match as_f64 na, as_f64 nb with
  | Some fa, Some fb =>
      if is_nan fa && is_nan fb then true
      else if is_infinite fa && is_infinite fb && Bool.eqb (sign_bit fa) (sign_bit fb) then true
      else
        let diff := f64_abs (f64_sub fa fb) in
        let max_abs := f64_max (f64_abs fa) (f64_abs fb) in
        if f64_gt max_abs f64_zero then f64_le (f64_div diff max_abs) FUZZY_DELTA
        else f64_le diff FUZZY_DELTA
  | _, _ => number_eqb na nb
  end.

Definition get (key : string) (m : list (string * Value Number)) : option (Value Number) :=
  snd <$> List.find (fun e => String.eqb e.1 key) m.

Fixpoint fuzzy_json_eq (a b : Value Number) : bool :=
  match a, b with
  | JNumber na, JNumber nb => fuzzy_number_eq na nb
  | JArray arr_a, JArray arr_b =>
      (length arr_a =? length arr_b)%nat &&
      (fix all l l' : bool :=
         match l, l' with va :: l, vb :: l' => fuzzy_json_eq va vb && all l l' | _, _ => true end)
        arr_a arr_b
  | JObject obj_a, JObject obj_b =>
      (length obj_a =? length obj_b)%nat &&
      forallb (fun e => match get e.1 obj_b with Some vb => fuzzy_json_eq e.2 vb | None => false end)
        obj_a
  | JString sa, JString sb => String.eqb sa sb
  | JBool ba, JBool bb => Bool.eqb ba bb
  | JNull, JNull => true
  | _, _ => false
  end.

(** A payload that does not parse stands for itself. *)
Definition parsed (r : BackendResult) : Value Number :=
  match from_str (strip_markdown_fences (payload r)) with
  | Ok v => v
  | Err _ => JString (payload r)
  end.

(** [i] runs over the answers and [j] over those after it. *)
Fixpoint some_pair (l : list (Value Number)) : bool :=
  match l with
  | [] => false
  | v :: l => (2 <=? 1 + length (List.filter (fuzzy_json_eq v) l))%nat || some_pair l
  end.
Definition has_consensus (results : list BackendResult) : bool :=
  if (length results <? 2)%nat then false else some_pair (List.map parsed results).

(** The loop: what it leaves in [consensus_result] and [results]. *)
Fixpoint collect_answers (results : list BackendResult)
    (completions : list (result BackendResult NexusError))
    : option BackendResult * list BackendResult :=
  match completions with
  | [] => (None, results)
  | Err _ :: completions => collect_answers results completions
  | Ok r :: completions =>
      let results := (results ++ [r])%list in
      if has_consensus results then (Some r, results) else collect_answers results completions
  end.

(** The futures' results, in the order of completion. *)
Definition arbitrate (completions : list (result BackendResult NexusError))
    : result BackendResult NexusError :=
  match collect_answers [] completions with
  | (Some r, _) => Ok r
  | (None, r :: _) => Ok r
  | (None, []) => Err (TmrConsensusFailure "All backends failed - no consensus possible")
  end.

(** ** Routing *)

(** The answer does not depend on the payload, nor on the gateway, whose only field (the
    tenant) is never read; its text is serde_json's ([to_string]). *)
Definition route_response : Value Z :=
  JObject [("status", JString "ok"); ("tenant", JString "agent-execution");
           ("rate_limit", JObject [("remaining", JNumber 999); ("reset_after_secs", JNumber 3600)])].
Definition route_request (to_string : Value Z -> string) (endpoint : string) : result string NexusError :=
  if starts_with "/v1/agent/" endpoint then Ok (to_string route_response)
  else Err (RouteNotFound endpoint).
Definition receive_request (to_string : Value Z -> string) (endpoint payload : string)
    : result string NexusError :=
  match from_str payload with
  | Err e => Err (MalformedPayload e)
  | Ok _ => route_request to_string endpoint
  end.
Definition handle_request (to_string : Value Z -> string) (endpoint payload : string)
    : result string NexusError :=
  receive_request to_string endpoint payload.

(** ** Agreement *)

Definition agree (r r' : BackendResult) : Prop := fuzzy_json_eq (parsed r) (parsed r') = true.
(** Two answers of the list agree, the earlier one on the left. *)
Definition agreeing (l : list BackendResult) : Prop :=
  exists i j r r', (i < j)%nat /\ l !! i = Some r /\ l !! j = Some r' /\ agree r r'.

Lemma some_pair_spec l :
  some_pair (List.map parsed l) = true <-> agreeing l.
Proof.
  induction l as [|r l IH]; simpl.
  { split; [done|]. intros (i & j & ? & ? & _ & Hi & _). by rewrite lookup_nil in Hi. }
  rewrite orb_true_iff, IH. split.
  - intros [Hf|(i & j & a & b & ? & ? & ? & ?)]; [|by exists (S i), (S j), a, b; split_and!; [lia|..]].
    destruct (List.filter _ _) as [|v vs] eqn:E; [done|].
    assert (Hv : In v (List.filter (fuzzy_json_eq (parsed r)) (List.map parsed l))) by (rewrite E; by left).
    apply filter_In in Hv as [(r' & <- & [j Hj]%list_elem_of_In%list_elem_of_lookup)%in_map_iff Heq].
    exists 0%nat, (S j), r, r'. by split_and!; [lia|..].
  - intros ([|i] & [|j] & a & b & Hij & Hi & Hj & Ha); try lia; simplify_eq/=.
    + left. destruct (List.filter _ _) as [|v vs] eqn:E; [|done]. exfalso.
      assert (Hin : In (parsed b) (List.filter (fuzzy_json_eq (parsed a)) (List.map parsed l))).
      { apply filter_In. split; [|done]. apply in_map, list_elem_of_In. by eapply list_elem_of_lookup_2. }
      by rewrite E in Hin.
    + right. exists i, j, a, b. by split_and!; [lia|..].
Qed.

Lemma has_consensus_spec l : has_consensus l = true <-> agreeing l.
Proof.
  unfold has_consensus. rewrite <- some_pair_spec.
  destruct (length l <? 2)%nat eqn:E; [|done]. apply Nat.ltb_lt in E.
  destruct l as [|? [|? ?]]; simpl in *; (done || lia).
Qed.

Lemma agreeing_prefix l l' : agreeing l -> agreeing (l ++ l').
Proof.
  intros (i & j & a & b & ? & ? & ? & ?). exists i, j, a, b.
  by split_and!; [|apply lookup_app_l_Some..|].
Qed.

(** The answers that arrived. *)
Fixpoint answers (completions : list (result BackendResult NexusError)) : list BackendResult :=
  match completions with
  | [] => []
  | Ok r :: l => r :: answers l
  | Err _ :: l => answers l
  end.

Lemma collect_answers_spec completions : forall results, ~ agreeing results ->
  (exists pre r post, answers completions = (pre ++ r :: post)%list /\
     ~ agreeing (results ++ pre) /\ agreeing (results ++ pre ++ [r]) /\
     (collect_answers results completions).1 = Some r) \/
  (~ agreeing (results ++ answers completions) /\
   collect_answers results completions = (None, results ++ answers completions)%list).
Proof.
  induction completions as [|[r|e] l IH]; intros results Hn; simpl.
  - right. by rewrite app_nil_r.
  - destruct (has_consensus (results ++ [r])) eqn:E.
    + left. exists [], r, (answers l). rewrite app_nil_r. by apply has_consensus_spec in E.
    + destruct (IH (results ++ [r])%list) as [(pre & r' & post & -> & ? & ? & ?)|[? ->]].
      * rewrite <- has_consensus_spec. congruence.
      * left. exists (r :: pre), r', post. rewrite <- !(assoc app) in *. by split_and!.
      * right. by rewrite <- !(assoc app) in *.
  - by apply IH.
Qed.
End arbitrator.

(** The arbitrator stops at the first agreement and not before: it returns the
    first answer that agrees with an earlier one; when no two answers agree it
    returns the first answer that arrived, unconfirmed (the documentation announces
    a 2-of-3 consensus), and only when every backend failed an error. *)
Theorem arbitrate_first_agreement {Number} as_f64 number_eqb
    (from_str : string -> result (Value Number) string) completions :
  let agreeing := agreeing as_f64 number_eqb from_str in
  let arbitrate := arbitrate as_f64 number_eqb from_str in
  (exists pre r post, answers completions = (pre ++ r :: post)%list /\
     ~ agreeing pre /\ agreeing (pre ++ [r])%list /\ arbitrate completions = Ok r) \/
  (~ agreeing (answers completions) /\
   arbitrate completions =
     match answers completions with
     | r :: _ => Ok r
     | [] => Err (TmrConsensusFailure "All backends failed - no consensus possible")
     end).
Proof.
  intros ag arb. unfold arb, arbitrate.
  destruct (collect_answers_spec as_f64 number_eqb from_str completions [])
    as [(pre & r & post & -> & ? & ? & Hc)|[? ->]].
  - by intros (? & ? & ? & ? & _ & [=] & _).
  - left. exists pre, r, post. destruct (collect_answers _ _ _ _ _) as [c l]. simpl in Hc. by subst c.
  - by right.
Qed.

(** ** Equal documents agree *)

Lemma f64_sub_diag x : is_finite x = true -> exists s, f64_sub x x = S754_zero s.
Proof.
  destruct x as [[]|[]| |s m e]; try done; intros _; [by exists false..|].
  exists false. unfold f64_sub, SFsub. by rewrite Z.sub_diag.
Qed.

Lemma fuzzy_number_refl {Number} as_f64 number_eqb (n : Number) :
  number_eqb n n = true -> fuzzy_number_eq as_f64 number_eqb n n = true.
Proof.
  intros Hn. unfold fuzzy_number_eq. destruct (as_f64 n) as [x|]; [|done].
  destruct (is_nan x) eqn:Hnan; [done|]. destruct (is_infinite x) eqn:Hinf; [by destruct (sign_bit x)|].
  destruct (f64_sub_diag x) as [s ->]; [by destruct x|].
  destruct x as [[]|[]| |[] m e]; try done; simpl;
    unfold f64_max; simpl; repeat case_match; try done; by destruct s.
Qed.

Lemma get_unique {Number} k (v : Value Number) m :
  List.NoDup (List.map fst m) -> In (k, v) m -> get k m = Some v.
Proof.
  intros Hd Hin. unfold get. induction m as [|[k' v'] m IH]; [done|]. simpl in *.
  apply List.NoDup_cons_iff in Hd as [Hnin Hd]. destruct (String.eqb_spec k' k) as [->|Hne].
  - destruct Hin as [[= ->]|Hin]; [done|]. by destruct Hnin; apply (in_map fst) in Hin.
  - destruct Hin as [[= ? ?]|Hin]; [done|auto].
Qed.

(** Answers that are the same document, up to the order of object keys, always
    agree. *)
Theorem equal_documents_agree {Number} as_f64 number_eqb (v v' : Value Number) :
  (forall n, number_eqb n n = true) -> json_wf v' -> json_equiv v v' ->
  fuzzy_json_eq as_f64 number_eqb v v' = true.
Proof.
  intros Hn. revert v'. induction v as [|b|n|s|l IH|m IH] using Value_nested_ind;
    intros v' Hwf He; inversion He; subst; simpl.
  - done.
  - by destruct b.
  - by apply fuzzy_number_refl.
  - apply String.eqb_refl.
  - apply json_wf_array in Hwf. match goal with H : Forall2 _ _ _ |- _ => rename H into Hf end.
    rewrite (Forall2_length _ _ _ Hf), Nat.eqb_refl. simpl. clear He.
    induction Hf as [|x y l l' Hxy Hf IHf]; [done|].
    apply Forall_cons in IH as [IHx IH]. apply Forall_cons in Hwf as [Hy Hwf].
    by rewrite IHx, IHf.
  - apply json_wf_object in Hwf as [Hd Hwf]. rename m' into m2.
    match goal with H : Permutation _ _ |- _ => rename H into Hp end.
    match goal with H : Forall2 _ _ _ |- _ => rename H into Hf end.
    rewrite (Permutation_length Hp), (Forall2_length _ _ _ Hf), Nat.eqb_refl. simpl.
    apply forallb_forall. intros [k x] Hin. simpl.
    assert (Hin1 : In (k, x) m1) by by rewrite <- Hp.
    apply list_elem_of_In, list_elem_of_lookup in Hin1 as [i Hi].
    destruct (Forall2_lookup_l _ _ _ _ _ Hf Hi) as ([k' y] & Hy & Hk & Hxy). simpl in *. subst k'.
    assert (Hiny : In (k, y) m2) by (apply list_elem_of_In; by eapply list_elem_of_lookup_2).
    rewrite (get_unique k y m2 Hd Hiny).
    rewrite List.Forall_forall in IH. rewrite List.Forall_forall in Hwf.
    by apply (IH (k, x) Hin); [apply (Hwf (k, y))|].
Qed.

Lemma equal_documents_agree_witness :
  let v := JObject [("a", JNumber 3); ("b", JNull)] in
  let v' := JObject [("b", JNull); ("a", JNumber 3)] in
  json_wf v' /\ fuzzy_json_eq (fun n => Some (f64_of_Z n)) Z.eqb v v' = true.
Proof.
  intros v v'. assert (Hw : json_wf v').
  { apply json_wf_object. split; [|by repeat constructor].
    apply List.NoDup_cons; [|by repeat constructor; intros []]. by intros [[=]|[]]. }
  split; [exact Hw|]. apply (equal_documents_agree _ _ v v'); [apply Z.eqb_refl|exact Hw|].
  eapply je_object; [apply perm_swap|]. repeat constructor.
Defined.

(** Agreement is not transitive. *)
Example agreement_not_transitive :
  let eq a b := fuzzy_json_eq (Number := f64) Some (fun _ _ => false) (JNumber (f64_lit a 7)) (JNumber (f64_lit b 7)) in
  eq 10000000%positive 10000007%positive = true /\ eq 10000007%positive 10000014%positive = true /\
  eq 10000000%positive 10000014%positive = false.
Proof. split_and!; reflexivity. Qed.
