(* ===== verification/WriteDiscipline.v ===== *)
(** * crates/llm-router/src/write_discipline.rs: the write gate

    Data is committed only under a status that permits it; other statuses are
    rejected, and retried when they may change.  The clock, the random jitter and the
    statuses recomputed between attempts are arguments, as are serde_json's text and
    SHA-256. *)
From S2P Require Import Prelude RustStr Json.

Local Open Scope string_scope.

Inductive TaskStatus : Type :=
  | Pending | InProgress | VerifiedSuccess | VerifiedFailure | PartialSuccess
  | RetryableError | NonRetryableError | Cancelled.
Definition allows_commit (s : TaskStatus) : bool :=
  match s with VerifiedSuccess | PartialSuccess => true | _ => false end.
Definition allows_retry (s : TaskStatus) : bool :=
  match s with RetryableError | InProgress | Pending => true | _ => false end.
Definition TaskStatus_debug (s : TaskStatus) : string :=
  match s with
  | Pending => "Pending" | InProgress => "InProgress" | VerifiedSuccess => "VerifiedSuccess"
  | VerifiedFailure => "VerifiedFailure" | PartialSuccess => "PartialSuccess"
  | RetryableError => "RetryableError" | NonRetryableError => "NonRetryableError"
  | Cancelled => "Cancelled"
  end.

Inductive WriteDisciplineError : Type :=
  | CommitRejected (status : TaskStatus)
  | IntegrityCheckFailed (detail : string)
  | MaxRetriesExhausted (max : Z)
  | SerializationError (detail : string).

Inductive WriteOutcome : Type := Committed | Rejected | Retried | FailedPermanent.
Record WriteAttempt := mkAttempt {
  attempt_id : string; timestamp : Z; task_status : TaskStatus; outcome : WriteOutcome;
  data_fingerprint : string; error_message : option string }.

Record WriteGate := mkGate { audit_trail : list WriteAttempt; max_retries : nat }.
Definition gate_new (max_retries : nat) : WriteGate := mkGate [] max_retries.
Definition gate_default : WriteGate := gate_new 3.
Definition record_attempt (a : WriteAttempt) (g : WriteGate) : WriteGate :=
  mkGate (audit_trail g ++ [a])%list (max_retries g).

Section gate.
Context {Number : Type} (to_string : Value Number -> option string) (sha256_hex : string -> string).

Definition compute_fingerprint (data : Value Number) : string := sha256_hex (default "" (to_string data)).

Definition validate_integrity (data : Value Number) : result unit WriteDisciplineError :=
  match data with JNull => Err (IntegrityCheckFailed "Data is null") | _ => Ok tt end.

(** [now] is the clock, in milliseconds. *)
Definition commit (now : Z) (task_status : TaskStatus) (data : Value Number) (task_id : string)
    (g : WriteGate) : WriteGate * result unit WriteDisciplineError :=
  let data_fingerprint := compute_fingerprint data in
  let attempt_id := task_id ++ "-" ++ pretty now in
  if negb (allows_commit task_status) then
    (record_attempt (mkAttempt attempt_id now task_status Rejected data_fingerprint
       (Some ("Status " ++ TaskStatus_debug task_status ++ " does not permit commit"))) g,
     Err (CommitRejected task_status))
  else
    match validate_integrity data with
    | Err e => (g, Err e)
    | Ok _ =>
        (record_attempt (mkAttempt attempt_id now task_status Committed data_fingerprint None) g, Ok tt)
    end.

(** [jitter] is drawn from [0..=capped / 2]. *)
Definition capped_ms (attempt : nat) : Z :=
  Z.min (saturating_mul U64_MAX 100 (Z.min (2 ^ Z.of_nat attempt) U64_MAX)) 5000.
Definition jittered_backoff (jitter : Z) (attempt : nat) : Z :=
  saturating_add U64_MAX (capped_ms attempt) jitter.

(** What the environment supplies: the clock at each attempt, the jitter drawn after
    it, and the status that [compute_status] returns then. *)
Record Course := mkCourse { clock : nat -> Z; jitter : nat -> Z; recomputed : nat -> TaskStatus }.

(** [remaining] attempts are left, the next is number [attempt]; the last component lists
    the pauses. *)
Fixpoint write_loop (c : Course) (remaining attempt : nat) (current_status : TaskStatus)
    (data : Value Number) (task_id : string) (g : WriteGate)
    : WriteGate * result unit WriteDisciplineError * list Z :=
  match remaining with
  | O => (g, Err (MaxRetriesExhausted (Z.of_nat (max_retries g))), [])
  | S remaining =>
      match commit (clock c attempt) current_status data task_id g with
      | (g, Ok _) => (g, Ok tt, [])
      | (g, Err e) =>
          match e, allows_retry current_status with
          | CommitRejected _, true =>
              let backoff_ms := jittered_backoff (jitter c attempt) attempt in
              let '(g, r, pauses) := write_loop c remaining (S attempt) (recomputed c attempt) data task_id g in
              (g, r, backoff_ms :: pauses)
          | _, _ => (g, Err e, [])
          end
      end
  end.
Definition self_healing_write (c : Course) (initial_status : TaskStatus) (data : Value Number)
    (task_id : string) (g : WriteGate) : WriteGate * result unit WriteDisciplineError * list Z :=
  write_loop c (S (max_retries g)) 0 initial_status data task_id g.

(** ** Specification *)

(** The status [i] attempts after number [attempt], whose status is [s]. *)
Definition status_at (c : Course) (attempt : nat) (s : TaskStatus) (i : nat) : TaskStatus :=
  match i with O => s | S i => recomputed c (attempt + i) end.

(** The verdict on the first status that does not ask for a retry, or on none. *)
Definition verdict (max : nat) (data : Value Number) (last : option TaskStatus)
    : result unit WriteDisciplineError :=
  match last with
  | None => Err (MaxRetriesExhausted (Z.of_nat max))
  | Some s => if allows_commit s then validate_integrity data else Err (CommitRejected s)
  end.
(** What that status leaves in the audit trail: nothing when the data is null. *)
Definition last_entry (data : Value Number) (last : option TaskStatus) : list (TaskStatus * WriteOutcome) :=
  match last with
  | None => []
  | Some s =>
      if allows_commit s then
        match validate_integrity data with Ok _ => [(s, Committed)] | Err _ => [] end
      else [(s, Rejected)]
  end.
Definition entry (a : WriteAttempt) : TaskStatus * WriteOutcome := (task_status a, outcome a).

Lemma retry_not_commit s : allows_retry s = true -> allows_commit s = false.
Proof. by destruct s. Qed.

Lemma status_at_S c attempt s i :
  status_at c (S attempt) (recomputed c attempt) i = status_at c attempt s (S i).
Proof. destruct i; simpl; f_equal; lia. Qed.

Lemma write_loop_spec c data task_id k : forall remaining attempt s g,
  (k <= remaining)%nat ->
  (forall i, (i < k)%nat -> allows_retry (status_at c attempt s i) = true) ->
  ((k < remaining)%nat -> allows_retry (status_at c attempt s k) = false) ->
  let last := if (k <? remaining)%nat then Some (status_at c attempt s k) else None in
  let '(g', r, pauses) := write_loop c remaining attempt s data task_id g in
  r = verdict (max_retries g) data last /\ max_retries g' = max_retries g /\
  List.map entry (audit_trail g') =
    (List.map entry (audit_trail g) ++
     List.map (fun i => (status_at c attempt s i, Rejected)) (seq 0 k) ++ last_entry data last)%list /\
  pauses = List.map (fun i => jittered_backoff (jitter c (attempt + i)) (attempt + i)) (seq 0 k).
Proof.
  induction k as [|k IH]; intros remaining attempt s g Hk Hretry Hlast last.
  - destruct remaining as [|remaining]; simpl.
    { by rewrite !app_nil_r. }
    specialize (Hlast ltac:(lia)). simpl in Hlast. unfold last, commit. simpl.
    destruct (allows_commit s) eqn:Ec; simpl.
    + destruct data; simpl; rewrite ?List.map_app, ?app_nil_r; done.
    + rewrite Hlast. simpl. by rewrite List.map_app.
  - destruct remaining as [|remaining]; [lia|]. cbn [write_loop].
    pose proof (Hretry 0%nat ltac:(lia)) as Hs. simpl in Hs.
    unfold commit. rewrite (retry_not_commit s) by done. cbn [negb]. rewrite Hs.
    set (g1 := record_attempt _ g).
    specialize (IH remaining (S attempt) (recomputed c attempt) g1 ltac:(lia)).
    destruct (write_loop c remaining _ _ _ _ _) as [[g' r] pauses].
    destruct IH as (-> & Hm & Ht & ->).
    { intros i Hi. rewrite (status_at_S c attempt s). apply Hretry. lia. }
    { intros Hl. rewrite (status_at_S c attempt s). apply Hlast. lia. }
    unfold last. change (S k <? S remaining)%nat with (k <? remaining)%nat.
    rewrite (status_at_S c attempt s) in *. split_and!; [done|done| |].
    + rewrite Ht. simpl. rewrite List.map_app, <- (assoc app). simpl. do 3 f_equal.
      rewrite <- seq_shift, List.map_map. apply List.map_ext. intros i.
      by rewrite (status_at_S c attempt s).
    + simpl. rewrite Nat.add_0_r, <- seq_shift, List.map_map. f_equal. apply List.map_ext.
      intros i. by rewrite <- Nat.add_succ_comm.
Qed.

Lemma jittered_backoff_bounds jitter attempt :
  0 <= jitter <= capped_ms attempt / 2 -> 100 <= jittered_backoff jitter attempt <= 7500.
Proof.
  intros Hj. assert (100 <= capped_ms attempt <= 5000).
  { unfold capped_ms, saturating_mul. pose proof (Z.pow_pos_nonneg 2 (Z.of_nat attempt)). ulia. }
  unfold jittered_backoff, saturating_add. uint. Z.div_mod_to_equations. lia.
Qed.
End gate.

(** The write gate commits only what may be committed: let [k] be the number of
    attempts, out of [max_retries + 1], whose status asks for a retry.  Each of them is
    recorded as rejected and followed by a pause of 0.1 to 7.5 s; the next status,
    if an attempt is left for it, decides: a permitted one with data that is not
    null is recorded as committed and succeeds, a permitted one with null data fails
    without a record, any other is recorded as rejected and fails; and if no attempt
    is left the write fails with [MaxRetriesExhausted]. *)
Theorem self_healing_write_spec {Number} to_string sha256_hex c initial (data : Value Number) task_id g k :
  (k <= S (max_retries g))%nat ->
  (forall i, (i < k)%nat -> allows_retry (status_at c 0 initial i) = true) ->
  ((k <= max_retries g)%nat -> allows_retry (status_at c 0 initial k) = false) ->
  (forall i, 0 <= jitter c i <= capped_ms i / 2) ->
  let last := if (k <=? max_retries g)%nat then Some (status_at c 0 initial k) else None in
  let '(g', r, pauses) := self_healing_write to_string sha256_hex c initial data task_id g in
  r = verdict (max_retries g) data last /\
  (r = Ok tt <-> exists s, last = Some s /\ allows_commit s = true /\ data <> JNull) /\
  List.map entry (audit_trail g') =
    (List.map entry (audit_trail g) ++
     List.map (fun i => (status_at c 0 initial i, Rejected)) (seq 0 k) ++ last_entry data last)%list /\
  length pauses = k /\ Forall (fun ms => 100 <= ms <= 7500) pauses.
Proof.
  intros Hk Hretry Hlast Hj last. unfold self_healing_write.
  pose proof (write_loop_spec to_string sha256_hex c data task_id k (S (max_retries g)) 0 initial g
    Hk Hretry ltac:(intros; apply Hlast; lia)) as Hs.
  replace (k <? S (max_retries g))%nat with (k <=? max_retries g)%nat in Hs
    by (destruct (Nat.leb_spec k (max_retries g)), (Nat.ltb_spec k (S (max_retries g))); lia || done).
  fold last in Hs. destruct (write_loop _ _ _ _ _ _ _ _ _) as [[g' r] pauses].
  destruct Hs as (-> & _ & Ht & ->). split_and!; [done| |done| |].
  - destruct last as [s|]; simpl; [|split; [done|by intros (? & [=] & _)]].
    destruct (allows_commit s) eqn:Ec; [|split; [done|intros (? & [= <-] & ? & _); congruence]].
    destruct data; simpl; split; try done; try (by exists s); by intros (? & _ & _ & []).
  - by rewrite List.length_map, length_seq.
  - apply Forall_map, Forall_forall. intros i _. by apply jittered_backoff_bounds.
Qed.

Definition demo_course : Course :=
  mkCourse (fun i => Z.of_nat i) (fun _ => 7)
    (fun i => match i with 0%nat => InProgress | _ => PartialSuccess end).

Lemma self_healing_write_spec_witness :
  let '(g', r, pauses) := self_healing_write (fun _ => Some "1") (fun _ => "00") demo_course Pending (JNumber 1) "task" gate_default in
  (List.map entry (audit_trail g') = [(Pending, Rejected); (InProgress, Rejected); (PartialSuccess, Committed)] /\
   pauses = [107; 207]) /\
  r = Ok tt /\
  (r = Ok tt <-> exists s, Some PartialSuccess = Some s /\ allows_commit s = true /\ JNumber 1 <> JNull) /\
  List.map entry (audit_trail g') =
    (List.map entry (audit_trail gate_default) ++
     List.map (fun i => (status_at demo_course 0 Pending i, Rejected)) (seq 0 2) ++
     last_entry (JNumber 1) (Some PartialSuccess))%list /\
  length pauses = 2%nat /\ Forall (fun ms => 100 <= ms <= 7500) pauses.
Proof.
  split; [split; reflexivity|].
  apply (self_healing_write_spec (fun _ => Some "1") (fun _ => "00") demo_course Pending (JNumber 1) "task" gate_default 2).
  - simpl. lia.
  - intros [|[|i]] Hi; [reflexivity|reflexivity|lia].
  - intros _. reflexivity.
  - intros i. split; [discriminate|].
    assert (H : 100 <= capped_ms i).
    { unfold capped_ms, saturating_mul. pose proof (Z.pow_pos_nonneg 2 (Z.of_nat i)). ulia. }
    change (jitter demo_course i) with 7. Z.div_mod_to_equations. lia.
Defined.
