(* ===== verification/Backoff.v ===== *)
(** * crates/consensus/src/jittered_backoff.rs: retries with jittered delays

    Durations are nanoseconds; the delays are computed in binary64 seconds as the
    code does.  The random generator is third-party: a class gives its draws and
    their documented ranges.  The retried operation is any function on a state of
    its own; a run returns its result, the state it leaves and the delays slept. *)
From Stdlib Require Import SpecFloat.
From S2P Require Import Prelude F64.

(** ** HTTP statuses *)

Inductive RetryableHttpStatus : Type :=
  | TooManyRequests
  | ServerError (c : Z).

Definition from_status_code (code : Z) : option RetryableHttpStatus :=
  if decide (code = 429) then Some TooManyRequests
  else if decide (500 <= code <= 599) then Some (ServerError code)
  else None.

Definition status_code (s : RetryableHttpStatus) : Z :=
  match s with TooManyRequests => 429 | ServerError c => c end.

(** ** Configuration *)

Inductive JitterStrategy : Type := Full | Decorrelated | Equal.
Definition JitterStrategy_default : JitterStrategy := Full.

Record BackoffConfig := mkConfig {
  base_delay : Z;
  max_delay : Z;
  max_retries : Z;
  jitter_strategy : JitterStrategy;
  multiplier : f64 }.

Definition from_millis (n : Z) : Z := n * 10 ^ 6.
Definition from_secs (n : Z) : Z := n * 10 ^ 9.

Definition BackoffConfig_default : BackoffConfig :=
  mkConfig (from_millis 200) (from_secs 30) 3 JitterStrategy_default (f64_of_Z 2).

(** ** The random generator *)

(** [StdRng]: [gen::<f64>()] is uniform in [0, 1), and [gen_range] draws from a
    range it has checked not to be empty. *)
Class StdRng := {
  rng_state : Type;
  rng_gen : rng_state -> f64 * rng_state;
  rng_sample : f64 -> f64 -> rng_state -> f64 * rng_state;
  rng_gen_unit : forall r, sign_bit (rng_gen r).1 = false /\ f64_below (-53) (rng_gen r).1 }.

Definition gen_range `{StdRng} (lower upper : f64) (r : rng_state) : outcome (f64 * rng_state) :=
  if f64_lt lower upper && is_finite (f64_sub upper lower)
  then Ret (rng_sample lower upper r) else Panic.

(** [u32 as i32]. *)
Definition as_i32 (n : Z) : Z := if decide (n < 2 ^ 31) then n else n - 2 ^ 32.

(** ** The backoff *)

Section backoff.
Context `{StdRng}.

Record JitteredBackoff := mkBackoff {
  config : BackoffConfig;
  current_attempt : Z;
  previous_delay : Z;
  rng : rng_state }.

Definition with_config (seed : rng_state) (c : BackoffConfig) : JitteredBackoff :=
  mkBackoff c 0 (base_delay c) seed.
Definition backoff_new (seed : rng_state) : JitteredBackoff := with_config seed BackoffConfig_default.

(** [min(max_delay, base_delay * multiplier^attempt)] in seconds. *)
Definition backoff_cap (b : JitteredBackoff) : f64 :=
  let exp := powi (multiplier (config b)) (as_i32 (current_attempt b)) in
  let raw := f64_mul (as_secs_f64 (base_delay (config b))) exp in
  f64_min (as_secs_f64 (max_delay (config b))) raw.

Definition full_jitter (b : JitteredBackoff) : outcome (Z * rng_state) :=
  let cap := backoff_cap b in
  let '(u, r) := rng_gen (rng b) in
  let jittered := f64_mul u cap in
  d ← from_secs_f64 (f64_max jittered (f64_lit 1 3)); Ret (d, r).

Definition decorrelated_jitter (b : JitteredBackoff) : outcome (Z * rng_state) :=
  let lower := as_secs_f64 (base_delay (config b)) in
  let upper := f64_mul (f64_of_Z 3) (as_secs_f64 (previous_delay b)) in
  '(jittered, r) ← gen_range lower upper (rng b);
  d ← from_secs_f64 jittered; Ret (d, r).

Definition equal_jitter (b : JitteredBackoff) : outcome (Z * rng_state) :=
  let cap := backoff_cap b in
  let half := f64_div cap (f64_of_Z 2) in
  let '(u, r) := rng_gen (rng b) in
  let jittered := f64_add half (f64_mul u half) in
  d ← from_secs_f64 jittered; Ret (d, r).

Definition next_delay (b : JitteredBackoff) : outcome (option Z * JitteredBackoff) :=
  if decide (max_retries (config b) <= current_attempt b) then Ret (None, b) else
  '(delay, r) ← match jitter_strategy (config b) with
                | Full => full_jitter b
                | Decorrelated => decorrelated_jitter b
                | Equal => equal_jitter b
                end;
  let capped := Z.min delay (max_delay (config b)) in
  attempt ← add_u U32_MAX (current_attempt b) 1;
  Ret (Some capped, mkBackoff (config b) attempt capped r).

Definition reset (b : JitteredBackoff) : JitteredBackoff :=
  mkBackoff (config b) 0 (base_delay (config b)) (rng b).
Definition attempts (b : JitteredBackoff) : Z := current_attempt b.
Definition can_retry (b : JitteredBackoff) : bool :=
  bool_decide (current_attempt b < max_retries (config b)).

(** The delay slept, when there is one. *)
Definition wait_next (b : JitteredBackoff) : outcome (result unit unit * JitteredBackoff * list Z) :=
  '(d, b) ← next_delay b;
  match d with
  | Some delay => Ret (Ok tt, b, [delay])
  | None => Ret (Err tt, b, [])
  end.

(** [next_delay().unwrap()]. *)
Definition next_delay_unwrap (b : JitteredBackoff) : outcome (Z * JitteredBackoff) :=
  '(d, b) ← next_delay b;
  match d with Some delay => Ret (delay, b) | None => Panic end.

(** ** Retry loops

    [None]: the loop has not returned within [fuel] turns. *)
Section retry.
Context {W T E : Type}.

Fixpoint backoff_loop (fuel : nat) (operation : Z -> W -> result T E * W)
    (b : JitteredBackoff) (w : W) (slept : list Z) :
    option (outcome (result T E * W * list Z)) :=
  match fuel with
  | O => None
  | S fuel =>
      let '(r, w) := operation (attempts b) w in
      match r with
      | Ok t => Some (Ret (Ok t, w, slept))
      | Err err =>
          if negb (can_retry b) then Some (Ret (Err err, w, slept)) else
          match next_delay_unwrap b with
          | Panic => Some Panic
          | Ret (delay, b) => backoff_loop fuel operation b w (slept ++ [delay])
          end
      end
  end.

Definition execute_with_backoff (fuel : nat) (operation : Z -> W -> result T E * W)
    (config : option BackoffConfig) (seed : rng_state) (w : W) :
    option (outcome (result T E * W * list Z)) :=
  backoff_loop fuel operation (with_config seed (default BackoffConfig_default config)) w [].

Inductive HttpOutcome : Type :=
  | Success (t : T)
  | RetryableStatus (code : Z).

Inductive HttpBackoffError : Type :=
  | RetryableStatusExhausted (status_code attempts : Z)
  | Transport (e : E).

Fixpoint http_loop (fuel : nat) (operation : Z -> W -> result HttpOutcome E * W)
    (b : JitteredBackoff) (w : W) (slept : list Z) :
    option (outcome (result T HttpBackoffError * W * list Z)) :=
  match fuel with
  | O => None
  | S fuel =>
      let '(r, w) := operation (attempts b) w in
      match r with
      | Ok (Success t) => Some (Ret (Ok t, w, slept))
      | Ok (RetryableStatus code) =>
          if negb (can_retry b)
          then Some (Ret (Err (RetryableStatusExhausted code (attempts b)), w, slept)) else
          match next_delay_unwrap b with
          | Panic => Some Panic
          | Ret (delay, b) => http_loop fuel operation b w (slept ++ [delay])
          end
      | Err err =>
          if negb (can_retry b) then Some (Ret (Err (Transport err), w, slept)) else
          match next_delay_unwrap b with
          | Panic => Some Panic
          | Ret (delay, b) => http_loop fuel operation b w (slept ++ [delay])
          end
      end
  end.

Definition execute_with_http_backoff (fuel : nat) (operation : Z -> W -> result HttpOutcome E * W)
    (config : option BackoffConfig) (seed : rng_state) (w : W) :
    option (outcome (result T HttpBackoffError * W * list Z)) :=
  let config := default (mkConfig (base_delay BackoffConfig_default) (max_delay BackoffConfig_default)
    (max_retries BackoffConfig_default) Full (multiplier BackoffConfig_default)) config in
  http_loop fuel operation (with_config seed config) w [].
End retry.
End backoff.

(** ** Delays under full jitter *)

(** Time spans for which seconds are far from overflowing: 285 million years. *)
Definition BackoffConfig_wf (c : BackoffConfig) : Prop :=
  0 <= max_delay c < 2 ^ 53 * 10 ^ 9 /\ 0 <= max_retries c <= U32_MAX.
#[export] Instance BackoffConfig_wf_dec c : Decision (BackoffConfig_wf c).
Proof. unfold BackoffConfig_wf. apply _. Defined.

Section backoff_lemmas.
Context `{StdRng}.
Implicit Types (b : JitteredBackoff) (c : BackoffConfig).

(** The draw times the cap: negative, NaN, or at most [2^57] seconds. *)
Lemma jittered_bounded b : BackoffConfig_wf (config b) ->
  let jittered := f64_mul (rng_gen (rng b)).1 (backoff_cap b) in
  is_nan jittered = true \/ sign_bit jittered = true \/ f64_below 5 jittered.
Proof.
  intros [Hmax _] jittered. destruct (rng_gen_unit (rng b)) as [Hs Hu].
  destruct (is_nan jittered) eqn:Hn; [by left|right].
  assert (Hsign := f64_mul_sign _ _ Hn). rewrite Hs in Hsign. fold jittered in Hsign.
  pose proof (f64_min_below 2 (as_secs_f64 (max_delay (config b)))
    (f64_mul (as_secs_f64 (base_delay (config b)))
      (powi (multiplier (config b)) (as_i32 (current_attempt b))))
    (as_secs_f64_small _ Hmax) (f64_mul_rounded _ _)) as Hcap.
  fold (backoff_cap b) in Hcap. destruct Hcap as [Hneg|[[_ Hb]|Hneg]].
  - left. by rewrite Hsign, Hneg.
  - right. apply (f64_below_mono 3); [lia|]. apply (f64_mul_below (-53) 2); [done..|lia].
  - exfalso. revert Hneg. by rewrite as_secs_f64_sign.
Qed.

Lemma one_millisecond : exists m e, f64_lit 1 3 = S754_finite false m e.
Proof. vm_compute. by eexists _, _. Qed.

Lemma full_jitter_total b : BackoffConfig_wf (config b) ->
  exists d r, full_jitter b = Ret (d, r) /\ 0 <= d.
Proof.
  intros Hwf. pose proof (jittered_bounded b Hwf) as Hj. unfold full_jitter.
  destruct (rng_gen (rng b)) as [u r] eqn:Hr. simpl in Hj.
  destruct one_millisecond as (m & e & Hlit). pose proof from_secs_ms as Hms. rewrite Hlit in *. clear Hlit.
  assert (Hm : exists d, from_secs_f64 (f64_max (f64_mul u (backoff_cap b)) (S754_finite false m e)) = Ret d /\ 0 <= d).
  { apply or_assoc in Hj. destruct Hj as [Hj|Hj].
    - rewrite f64_max_negative, Hms by done. by exists 1000000.
    - unfold f64_max. case_match; [by rewrite Hms; exists 1000000|].
      destruct (f64_lt _ _) eqn:Hlt; [by rewrite Hms; exists 1000000|].
      apply from_secs_f64_small; [by apply (f64_below_mono 5)|].
      by destruct (f64_mul u (backoff_cap b)) as [[]| | |[] ? ?]. }
  destruct Hm as (d & -> & Hd). by exists d, r.
Qed.

Lemma next_delay_full b :
  BackoffConfig_wf (config b) -> jitter_strategy (config b) = Full ->
  0 <= current_attempt b < max_retries (config b) ->
  exists d r, next_delay_unwrap b =
    Ret (d, mkBackoff (config b) (current_attempt b + 1) d r) /\ 0 <= d <= max_delay (config b).
Proof.
  intros Hwf Hs Ha. destruct (full_jitter_total b Hwf) as (d & r & Hd & Hpos).
  destruct Hwf as [Hmax Hret]. exists (Z.min d (max_delay (config b))), r.
  unfold next_delay_unwrap, next_delay. rewrite decide_False, Hs, Hd by lia. simpl.
  rewrite add_u_small by ulia. simpl. split; [done|lia].
Qed.

(** Any strategy: a delay is capped, and exhausted retries give none. *)
Lemma next_delay_capped b o b' : next_delay b = Ret (o, b') ->
  match o with
  | Some d => d <= max_delay (config b) /\ current_attempt b' = current_attempt b + 1
  | None => max_retries (config b) <= current_attempt b /\ b' = b
  end /\ config b' = config b.
Proof.
  unfold next_delay. case_decide; [by intros [= <- <-]|].
  intros Hd. destruct (match jitter_strategy (config b) with Full => _ | _ => _ end)
    as [[d r]|]; [|done]. simpl in Hd.
  destruct (add_u _ _ _) as [a|] eqn:Ha; simplify_eq/=. apply add_u_Ret in Ha. split; [lia|done].
Qed.

(** Decorrelated jitter draws from an empty range when the base delay is zero. *)
Lemma decorrelated_zero_base b :
  base_delay (config b) = 0 -> previous_delay b = 0 -> jitter_strategy (config b) = Decorrelated ->
  current_attempt b < max_retries (config b) -> next_delay b = Panic.
Proof.
  intros Hb Hp Hs Ha. unfold next_delay. rewrite decide_False, Hs by lia.
  unfold decorrelated_jitter. by rewrite Hb, Hp.
Qed.

(** ** The retry loop against its specification *)

Section retry_lemmas.
Context {W T E : Type}.
Implicit Types (operation : Z -> W -> result T E * W) (w : W).

(** Call the operation with attempt numbers [n], [n + 1], ... until it succeeds or
    [k] retries are used up: the last result, the state and the retries. *)
Fixpoint first_success (k : nat) operation (n : Z) w : result T E * W * nat :=
  let '(r, w) := operation n w in
  match r, k with
  | Err _, S k => let '(r, w, m) := first_success k operation (n + 1) w in (r, w, S m)
  | _, _ => (r, w, O)
  end.

Lemma first_success_retries k operation n w : ((first_success k operation n w).2 <= k)%nat.
Proof.
  revert n w. induction k as [|k IH]; intros n w; simpl;
    destruct (operation n w) as [[t|e] w']; simpl; try lia.
  specialize (IH (n + 1) w'). destruct (first_success _ _ _ _) as [[r w''] m]. simpl in *. lia.
Qed.

Lemma backoff_loop_spec k fuel operation b w slept :
  BackoffConfig_wf (config b) -> jitter_strategy (config b) = Full ->
  0 <= current_attempt b -> current_attempt b + Z.of_nat k = max_retries (config b) ->
  (k < fuel)%nat ->
  exists r w' more, backoff_loop fuel operation b w slept = Some (Ret (r, w', slept ++ more)) /\
    first_success k operation (current_attempt b) w = (r, w', length more) /\
    Forall (fun d => 0 <= d <= max_delay (config b)) more.
Proof.
  revert fuel b w slept. induction k as [|k IH]; intros [|fuel] b w slept Hwf Hs Ha Hk Hf; try lia;
    simpl; unfold attempts; destruct (operation (current_attempt b) w) as [[t|e] w'].
  - exists (Ok t), w', []. by rewrite app_nil_r.
  - unfold can_retry. rewrite bool_decide_false by lia. exists (Err e), w', []. by rewrite app_nil_r.
  - exists (Ok t), w', []. by rewrite app_nil_r.
  - unfold can_retry. rewrite bool_decide_true by lia. simpl.
    destruct (next_delay_full b Hwf Hs ltac:(lia)) as (d & r & -> & Hd).
    destruct (IH fuel (mkBackoff (config b) (current_attempt b + 1) d r) w' (slept ++ [d]))
      as (r' & w'' & more & Hrun & Hfirst & Hmore); simpl in *; [done|done|lia|lia|lia|].
    exists r', w'', (d :: more). rewrite Hfirst, <- app_assoc in *. by split_and!; [| |constructor].
Qed.
End retry_lemmas.
End backoff_lemmas.

(** C33: with full jitter (the default strategy) [execute_with_backoff] terminates,
    whatever the multiplier and the operation: at most [max_retries + 1] turns of the
    loop are enough, no delay panics, every delay slept is at most [max_delay], and the
    result is that of calling the operation with attempts 0, 1, 2, ... until it first
    succeeds or the retries are used up, with one delay per retry. *)
Theorem backoff_terminates `{StdRng} {W T E} (operation : Z -> W -> result T E * W) c seed w fuel :
  BackoffConfig_wf c -> jitter_strategy c = Full -> max_retries c < Z.of_nat fuel ->
  exists r w' slept,
    execute_with_backoff fuel operation (Some c) seed w = Some (Ret (r, w', slept)) /\
    first_success (Z.to_nat (max_retries c)) operation 0 w = (r, w', length slept) /\
    Z.of_nat (length slept) <= max_retries c /\
    Forall (fun d => 0 <= d <= max_delay c) slept.
Proof.
  intros Hwf Hs Hf. destruct Hwf as [Hmax Hret].
  destruct (backoff_loop_spec (Z.to_nat (max_retries c)) fuel operation (with_config seed c) w [])
    as (r & w' & slept & Hrun & Hfirst & Hall); simpl in *; [done|done|lia|lia|lia|].
  pose proof (first_success_retries (Z.to_nat (max_retries c)) operation 0 w) as Hle.
  exists r, w', slept. rewrite Hfirst in *. simpl in Hle. split_and!; [done|done|lia|done].
Qed.

(** The HTTP loop is the plain loop on the operation whose retryable statuses are
    errors, with the retries counted in the final error. *)
Section http.
Context `{StdRng} {W T E : Type}.

Definition status_as_error (operation : Z -> W -> result (@HttpOutcome T) E * W)
    (n : Z) (w : W) : result T (Z + E) * W :=
  let '(r, w) := operation n w in
  (match r with
   | Ok (Success t) => Ok t
   | Ok (RetryableStatus code) => Err (inl code)
   | Err e => Err (inr e)
   end, w).

Definition final_error (n : Z) (r : result T (Z + E)) : result T (@HttpBackoffError E) :=
  match r with
  | Ok t => Ok t
  | Err (inl code) => Err (RetryableStatusExhausted code n)
  | Err (inr e) => Err (Transport e)
  end.

Lemma http_loop_plain fuel operation b w slept :
  0 <= current_attempt b <= max_retries (config b) ->
  http_loop fuel operation b w slept =
  (fmap (M := outcome) (fun o : result T (Z + E) * W * list Z =>
     (final_error (max_retries (config b)) o.1.1, o.1.2, o.2))) <$>
  backoff_loop fuel (status_as_error operation) b w slept.
Proof.
  revert b w slept. induction fuel as [|fuel IH]; intros b w slept Hb; [done|].
  assert (Hnext : forall d b', next_delay_unwrap b = Ret (d, b') -> config b' = config b /\
    (current_attempt b < max_retries (config b) ->
     0 <= current_attempt b' <= max_retries (config b'))).
  { intros d b' Hd. unfold next_delay_unwrap in Hd.
    destruct (next_delay b) as [[[d'|] b'']|] eqn:Hn; simplify_eq/=.
    apply next_delay_capped in Hn as [[_ Ha] Hc]. rewrite Hc, Ha. split; [done|lia]. }
  simpl. unfold status_as_error at 1.
  destruct (operation (attempts b) w) as [[[t|code]|e] w'] eqn:Hop; [done| |];
    unfold can_retry; case_bool_decide; simpl;
    try (by replace (attempts b) with (max_retries (config b)) by (unfold attempts; lia));
    destruct (next_delay_unwrap b) as [[d b']|] eqn:Hn; try done;
    destruct (Hnext d b' eq_refl) as [Hc Ha]; by rewrite IH, Hc by auto.
Qed.
End http.

(** With full jitter the HTTP loop terminates as well. *)
Theorem http_backoff_terminates `{StdRng} {W T E} (operation : Z -> W -> result (@HttpOutcome T) E * W)
    c seed w fuel :
  BackoffConfig_wf c -> jitter_strategy c = Full -> max_retries c < Z.of_nat fuel ->
  exists r w' slept,
    execute_with_http_backoff fuel operation (Some c) seed w =
      Some (Ret (final_error (max_retries c) r, w', slept)) /\
    first_success (Z.to_nat (max_retries c)) (status_as_error operation) 0 w = (r, w', length slept) /\
    Forall (fun d => 0 <= d <= max_delay c) slept.
Proof.
  intros Hwf Hs Hf. destruct Hwf as [Hmax Hret].
  destruct (backoff_loop_spec (Z.to_nat (max_retries c)) fuel (status_as_error operation)
    (with_config seed c) w []) as (r & w' & slept & Hrun & Hfirst & Hall); simpl in *; [done|done|lia|lia|lia|].
  exists r, w', slept. split_and!; [|done|done].
  unfold execute_with_http_backoff. simpl. rewrite http_loop_plain, Hrun by (simpl; lia). done.
Qed.

(** ** A concrete generator, and witnesses *)

Definition half_rng : StdRng.
Proof.
  refine {| rng_state := unit; rng_gen _ := (S754_finite false 4503599627370496 (-53), tt);
    rng_sample lower _ _ := (lower, tt) |}.
  intros r. simpl. by split; [|lia].
Defined.

(** Fails on attempts below [n]; the state counts the calls. *)
Definition flaky (n : Z) (attempt calls : Z) : result Z Z * Z :=
  (if decide (attempt < n) then Err attempt else Ok attempt, calls + 1).

(** The default configuration allows three retries: four calls. *)
Example default_gives_four_calls :
  execute_with_backoff (H := half_rng) 4 (flaky 9) None tt 0 =
  Some (Ret (Err 3, 4, [from_millis 100; from_millis 200; from_millis 400])).
Proof. vm_compute. reflexivity. Qed.

Lemma backoff_terminates_witness :
  exists r w' slept,
    execute_with_backoff (H := half_rng) 4 (flaky 2) (Some BackoffConfig_default) tt 0 =
      Some (Ret (r, w', slept)) /\
    first_success 3 (flaky 2) 0 0 = (r, w', length slept) /\
    Z.of_nat (length slept) <= 3 /\ Forall (fun d => 0 <= d <= from_secs 30) slept.
Proof.
  apply (backoff_terminates (H := half_rng) (flaky 2) BackoffConfig_default tt 0 4).
  - by split.
  - done.
  - simpl. lia.
Defined.
