(* ===== verification/TmrCache.v ===== *)
(** * crates/cache-storage/src/tmr_cache.rs: the consensus result cache

    Redis access is a stub in the code (a miss, and a store without effect), so the
    cache is its in-memory map.  SHA-256 in hexadecimal is a parameter. *)
From S2P Require Import Prelude RustStr.

Open Scope string_scope.

Definition CACHE_KEY_PREFIX : string := "serein:tmr:".
Definition MEMORY_LIMIT : nat := Z.to_nat 10000.

Record CachedConsensusResult := mkResult {
  content : string;
  agreeing_nodes : Z;
  total_nodes : Z;
  adjudication_logic : string;
  cached_at : Z;
  result_ttl_sec : Z }.

Record MemoryCacheEntry := mkEntry {
  entry_result : CachedConsensusResult;
  inserted_at : Z }.

Record TmrResultCache := mkCache {
  redis_url : string;
  ttl_sec : Z;
  memory_cache : gmap string MemoryCacheEntry;
  redis_available : bool }.

(** [inserted_at.elapsed() < Duration::from_secs(ttl_sec)]. *)
Definition entry_live (ttl now : Z) (e : MemoryCacheEntry) : bool :=
  bool_decide (elapsed_since (inserted_at e) now < ttl * 10 ^ 9).

Definition cache_new (redis_url : string) (ttl_sec : Z) : TmrResultCache :=
  mkCache redis_url ttl_sec ∅ (negb (is_empty redis_url)).

(** The environment gives the values of [REDIS_URL] and [CACHE_TTL_SEC]. *)
Definition from_env (env : string -> option string) : TmrResultCache :=
  let url := default "redis://127.0.0.1:6379" (env "REDIS_URL") in
  let ttl := default 3600%Z (env "CACHE_TTL_SEC" ≫= parse_u64) in
  cache_new url ttl.

Section tmr_cache.
Context (sha256_hex : string -> string).

Definition cache_key (prompt : string) : string :=
  CACHE_KEY_PREFIX ++ sha256_hex (trim prompt).

Definition get_from_redis (key : string) : option CachedConsensusResult := None.

Definition get_from_memory (now : Z) (key : string) (c : TmrResultCache) :
    option CachedConsensusResult :=
  entry ← memory_cache c !! key;
  if entry_live (ttl_sec c) now entry then Some (entry_result entry) else None.

Definition cache_get (now : Z) (prompt : string) (c : TmrResultCache) :
    option CachedConsensusResult :=
  let key := cache_key prompt in
  match (if redis_available c then get_from_redis key else None) with
  | Some cached => Some cached
  | None => get_from_memory now key c
  end.

Definition put_to_memory (now : Z) (key : string) (result : CachedConsensusResult)
    (c : TmrResultCache) : TmrResultCache :=
  let cache := <[key := mkEntry result now]> (memory_cache c) in
  let cache :=
    if decide (MEMORY_LIMIT < size cache)%nat
    then filter (fun kv : string * MemoryCacheEntry => entry_live (ttl_sec c) now kv.2) cache
    else cache in
  mkCache (redis_url c) (ttl_sec c) cache (redis_available c).

(** [put_to_redis] has no effect. *)
Definition cache_put (now : Z) (prompt : string) (result : CachedConsensusResult)
    (c : TmrResultCache) : TmrResultCache :=
  put_to_memory now (cache_key prompt) result c.

(** ** Specification: the latest result stored for the prompt, if young enough

    A history lists the stores, the latest first. *)
Definition history : Type := list (string * CachedConsensusResult * Z).

Definition run (h : history) (c : TmrResultCache) : TmrResultCache :=
  foldr (fun '(prompt, result, at_) c => cache_put at_ prompt result c) c h.

Definition latest (prompt : string) (h : history) : option (string * CachedConsensusResult * Z) :=
  List.find (fun '(p, _, _) => bool_decide (trim p = trim prompt)) h.

Definition spec_get (ttl now : Z) (prompt : string) (h : history) : option CachedConsensusResult :=
  '(_, result, at_) ← latest prompt h;
  if bool_decide (elapsed_since at_ now < ttl * 10 ^ 9) then Some result else None.

(** Stores happen in the order of the clock, none after [now]. *)
Fixpoint ordered (now : Z) (h : history) : Prop :=
  match h with
  | [] => True
  | (_, _, at_) :: h => (at_ <= now)%Z /\ ordered at_ h
  end.

(** No two prompts in use collide. *)
Definition collision_free (prompts : list string) : Prop :=
  forall p q, p ∈ prompts -> q ∈ prompts -> sha256_hex (trim p) = sha256_hex (trim q) -> trim p = trim q.

Lemma cache_key_inj ps p q : collision_free ps -> p ∈ ps -> q ∈ ps ->
  cache_key p = cache_key q <-> trim p = trim q.
Proof.
  intros Hc Hp Hq. unfold cache_key. split; [|by intros ->].
  intros [= Heq]. by apply (Hc p q).
Qed.

Lemma run_fields h c : ttl_sec (run h c) = ttl_sec c /\ redis_available (run h c) = redis_available c.
Proof. induction h as [|[[p r] t] h IH]; [done|]. apply IH. Qed.

(** An entry that is not young enough stays so. *)
Lemma entry_live_mono ttl t now e : (t <= now)%Z -> entry_live ttl now e = true -> entry_live ttl t e = true.
Proof.
  intros Hle. unfold entry_live. rewrite !bool_decide_eq_true. unfold elapsed_since. lia.
Qed.

(** A lookup after a store: eviction is not visible, since what expired by the
    time of the store has expired by the time of the lookup. *)
Lemma get_put now t key key' r c : (t <= now)%Z ->
  get_from_memory now key (put_to_memory t key' r c) =
  if decide (key' = key)
  then if bool_decide (elapsed_since t now < ttl_sec c * 10 ^ 9) then Some r else None
  else get_from_memory now key c.
Proof.
  intros Ht. unfold get_from_memory, put_to_memory. simpl.
  set (m := <[key' := mkEntry r t]> (memory_cache c)).
  assert (Hm : (e ← (if decide (MEMORY_LIMIT < size m)%nat
      then filter (fun kv : string * MemoryCacheEntry => entry_live (ttl_sec c) t kv.2) m else m) !! key;
      if entry_live (ttl_sec c) now e then Some (entry_result e) else None) =
    (e ← m !! key; if entry_live (ttl_sec c) now e then Some (entry_result e) else None)).
  { case_decide; [|done]. rewrite map_lookup_filter.
    destruct (m !! key) as [e|]; [|done]. simpl.
    case_guard as Hg; [reflexivity|].
    destruct (entry_live (ttl_sec c) now e) eqn:Hl; [|reflexivity].
    destruct Hg. by rewrite (entry_live_mono _ t now). }
  rewrite Hm. clear Hm. unfold m. case_decide as Hk.
  - by rewrite Hk, lookup_insert_eq.
  - by rewrite lookup_insert_ne.
Qed.

Lemma ordered_mono t now h : (t <= now)%Z -> ordered t h -> ordered now h.
Proof. destruct h as [|[[p r] t'] h]; simpl; [done|]. intros ? [? ?]. split; [lia|done]. Qed.

Lemma run_lookup ps url ttl prompt h now :
  collision_free ps -> prompt ∈ ps -> Forall (fun e => e.1.1 ∈ ps) h -> ordered now h ->
  get_from_memory now (cache_key prompt) (run h (cache_new url ttl)) = spec_get ttl now prompt h.
Proof.
  intros Hc Hp. revert now. induction h as [|[[p r] t] h IH]; intros now Hh Ho; [done|].
  apply Forall_cons in Hh as [Hpin Hh]. destruct Ho as [Ht Ho]. simpl in Hpin.
  change (run ((p, r, t) :: h) ?c) with (put_to_memory t (cache_key p) r (run h c)).
  rewrite get_put, (proj1 (run_fields h _)), IH by eauto using ordered_mono.
  unfold spec_get, latest. simpl. pose proof (cache_key_inj ps p prompt Hc Hpin Hp) as Hk.
  destruct (decide (trim p = trim prompt)) as [He|He].
  - by rewrite (decide_True (P := cache_key p = _)), (bool_decide_true (trim p = _)) by tauto.
  - by rewrite (decide_False (P := cache_key p = _)), (bool_decide_false (trim p = _)) by tauto.
Qed.

(** C34: refinement: whatever the stores before it and however often the map was
    swept, a lookup returns the latest result stored for a prompt that is equal up to
    surrounding white space, exactly while it is younger than the time to live. *)
Theorem tmr_cache_refines ps url ttl h now prompt :
  collision_free ps -> prompt ∈ ps -> Forall (fun e => e.1.1 ∈ ps) h -> ordered now h ->
  cache_get now prompt (run h (cache_new url ttl)) = spec_get ttl now prompt h.
Proof. intros. unfold cache_get. destruct (redis_available _); by apply (run_lookup ps). Qed.
End tmr_cache.

(** Unparsable and missing variables give the defaults. *)
Example from_env_defaults : from_env (fun _ => None) = cache_new "redis://127.0.0.1:6379" 3600.
Proof. reflexivity. Qed.
Example from_env_unparsable :
  ttl_sec (from_env (fun v => if decide (v = "CACHE_TTL_SEC") then Some "1h" else None)) = 3600%Z.
Proof. reflexivity. Qed.

Definition sample (s : string) : CachedConsensusResult := mkResult s 2 3 "majority" 0 60.

Lemma tmr_cache_refines_witness :
  cache_get id 70 " q" (run id [("q ", sample "b", 40%Z); ("p", sample "c", 30%Z); ("q", sample "a", 10%Z)]
    (cache_new "" 60)) = Some (sample "b").
Proof.
  rewrite (tmr_cache_refines id ["q "; "p"; "q"; " q"]).
  - vm_compute. reflexivity.
  - intros p q _ _ Heq. exact Heq.
  - set_solver.
  - repeat constructor; set_solver.
  - simpl. lia.
Defined.
