(* ===== verification/Telemetry.v ===== *)
(** * crates/telemetry/src/lib.rs: the offline backup engine

    A pre-cached answer for the case that consensus fails, with the count and the time of
    its activations.  [trigger_offline_fallback] works on one engine for the whole
    process.  Times are nanoseconds of a monotonic clock. *)
From Stdlib Require Import Ascii String.
From S2P Require Import Prelude RustStr.

Local Open Scope string_scope.

Inductive FallbackSource : Type := OfflineCache | ShadowExecution | ManualOverride.
#[export] Instance FallbackSource_eq_dec : EqDecision FallbackSource.
Proof. solve_decision. Defined.

Record EclipseFallbackResponse := mkFallback {
  payload : string; source : FallbackSource; is_conservative : bool; activated_at : option Z }.

Record OfflineBackupEngine := mkEngine {
  cached_response : string; fallback_mode : bool; activations : Z; last_activation : option Z }.

Definition field (name value : string) : string := quoted name ++ ":" ++ value.
Definition fallback : OfflineBackupEngine :=
  mkEngine
    ("{" ++ field "networkId" (quoted "FALLBACK") ++ "," ++ field "taskType" (quoted "default") ++ "," ++
     field "maxGasLimit" "0" ++ "," ++ field "confidenceScore" "0.81" ++ "," ++
     field "sourceUrl" (quoted "https://eclipse-fallback.serein.internal") ++ "}") false 0 None.
Definition engine_default : OfflineBackupEngine := fallback.

Definition activation_count (e : OfflineBackupEngine) : Z := activations e.
Definition is_fallback_active (e : OfflineBackupEngine) : bool := fallback_mode e.

(** The count wraps; nothing panics while the lock of the time is held, so it is never
    poisoned. *)
Definition activate_fallback (now : Z) (e : OfflineBackupEngine)
    : OfflineBackupEngine * EclipseFallbackResponse :=
  let e := mkEngine (cached_response e) (fallback_mode e) (wrapping_add U64_MAX (activations e) 1)
             (last_activation e) in
  let e := mkEngine (cached_response e) (fallback_mode e) (activations e) (Some now) in
  (e, mkFallback (cached_response e) OfflineCache true (Some now)).

(** The process-wide engine is created by its first use. *)
Definition trigger_offline_fallback (now : Z) (engine : option OfflineBackupEngine)
    : option OfflineBackupEngine * EclipseFallbackResponse :=
  let '(e, r) := activate_fallback now (default fallback engine) in (Some e, r).

(** The answers of a sequence of triggers at the given times. *)
Fixpoint triggers (times : list Z) (engine : option OfflineBackupEngine)
    : option OfflineBackupEngine * list EclipseFallbackResponse :=
  match times with
  | [] => (engine, [])
  | now :: times =>
      let '(engine, r) := trigger_offline_fallback now engine in
      let '(engine, rs) := triggers times engine in (engine, r :: rs)
  end.

Lemma triggers_engine times e :
  triggers times (Some e) =
  (Some (mkEngine (cached_response e) (fallback_mode e)
     (match times with
      | [] => activations e
      | _ => (activations e + Z.of_nat (length times)) mod (U64_MAX + 1)
      end)
     (match last times with Some t => Some t | None => last_activation e end)),
   (fun t => mkFallback (cached_response e) OfflineCache true (Some t)) <$> times).
Proof.
  revert e. induction times as [|t times IH]; intros e; [by destruct e|].
  cbn [triggers trigger_offline_fallback activate_fallback default from_option]. unfold id. rewrite IH. cbn [cached_response
    fallback_mode activations last_activation]. unfold wrapping_add.
  destruct times as [|t' times]; [done|]. rewrite Zplus_mod_idemp_l.
  replace (activations e + 1 + Z.of_nat (length (t' :: times)))
    with (activations e + Z.of_nat (length (t :: t' :: times))) by (cbn [length]; lia).
  change (last (t :: t' :: times)) with (last (t' :: times)).
  destruct (last (t' :: times)) eqn:E; [done|by apply last_None in E].
Qed.

(** The whole life of the engine: every trigger gets the same conservative answer with
    its own time, the count is the number of triggers modulo 2^64, and the fallback
    mode that [is_fallback_active] reports stays off however often it is activated. *)
Theorem triggers_spec times : times <> [] ->
  exists e, triggers times None =
    (Some e, (fun t => mkFallback (cached_response fallback) OfflineCache true (Some t)) <$> times) /\
    activation_count e = Z.of_nat (length times) mod (U64_MAX + 1) /\
    last_activation e = last times /\ is_fallback_active e = false.
Proof.
  intros Hne. destruct times as [|t times]; [done|].
  change (triggers (t :: times) None) with (triggers (t :: times) (Some fallback)).
  rewrite triggers_engine. eexists. split; [done|]. unfold activation_count, is_fallback_active.
  cbn [activations fallback_mode last_activation]. split_and!; try done.
  by destruct (last (t :: times)) eqn:E; [|apply last_None in E].
Qed.

Lemma triggers_spec_witness : exists e, triggers [5; 9] None =
    (Some e, [mkFallback (cached_response fallback) OfflineCache true (Some 5);
              mkFallback (cached_response fallback) OfflineCache true (Some 9)]) /\
    activation_count e = 2 /\ last_activation e = Some 9 /\ is_fallback_active e = false.
Proof. exact (triggers_spec [5; 9] ltac:(discriminate)). Defined.
