(* ===== verification/Poison.v ===== *)
(** * crates/cache-storage/src/adversarial_poison.rs: threat levels and noise

    A caller is scored from its request rate, user agent, token and headers; a response
    for a suspicious caller gets noise of the types the score and the configuration name.
    The random draws are a stream consumed in order.  Numbers of JSON, their text, the
    Unicode lower case and rand's range sampling are parameters. *)
From Stdlib Require Import Ascii String.
From S2P Require Import Prelude RustStr F64 Json.

Local Open Scope string_scope.

Inductive ThreatLevel : Type := Benign | Suspicious | LikelyScraper | ConfirmedAbuse.
Inductive NoiseType : Type :=
  ValuePerturbation | FieldDuplication | TypeConfusion | PhantomFields | HomoglyphSubstitution | Cocktail.
#[export] Instance ThreatLevel_eq_dec : EqDecision ThreatLevel.
Proof. solve_decision. Defined.
#[export] Instance NoiseType_eq_dec : EqDecision NoiseType.
Proof. solve_decision. Defined.

Record PoisonConfig := mkConfig {
  enabled : bool; noise_types : list NoiseType; perturbation_range : f64;
  phantom_field_probability : f64; homoglyph_substitution_rate : f64 }.
Definition config_default : PoisonConfig :=
  mkConfig true [ValuePerturbation; PhantomFields; FieldDuplication] (f64_lit 15 2) (f64_lit 4 1)
    (f64_lit 1 1).

Record ThreatAssessment := mkAssessment {
  threat_level : ThreatLevel; confidence : f64; indicators : list string;
  recommended_noise : NoiseType }.

Record AdversarialPoisonGenerator := mkGenerator {
  config : PoisonConfig; phantom_field_pool : list (string * string);
  homoglyph_map : list (string * string) }.

Definition generator_new : AdversarialPoisonGenerator :=
  mkGenerator config_default
    [("internalNote", "Verified by secondary source"); ("crossReferenceId", "XR-7F4A2B9C");
     ("dataQualityScore", "0.94"); ("lastAuditDate", "2026-03-15"); ("regulatoryFlag", "COMPLIANT");
     ("hashIntegrity", "sha256:a1b2c3d4e5f6"); ("sourceConfidence", "HIGH");
     ("processingTier", "TIER_1"); ("geohashPrecision", "7"); ("batchSequence", "847291")]
    [("o", byte_string [208; 190]%nat); ("e", byte_string [208; 181]%nat);
     ("a", byte_string [208; 176]%nat); ("p", byte_string [209; 128]%nat);
     ("c", byte_string [209; 129]%nat); ("x", byte_string [209; 133]%nat);
     ("y", byte_string [209; 131]%nat); ("i", byte_string [209; 150]%nat)].
Definition with_config (g : AdversarialPoisonGenerator) (c : PoisonConfig) : AdversarialPoisonGenerator :=
  mkGenerator c (phantom_field_pool g) (homoglyph_map g).

Definition push {A} (l : list A) (x : A) : list A := (l ++ [x])%list.

(** ** Scoring *)

Section assess.
Context (to_lowercase : string -> string) (fixed : nat -> f64 -> string).

Definition bot_words : list string := ["scraper"; "crawl"; "bot"; "spider"; "wget"; "curl"].
Definition is_bot (ua : string) : bool :=
  existsb (fun w => contains w (to_lowercase ua)) bot_words.

(** [&ua[..ua.len().min(80)]] panics inside a character. *)
Definition ua_indicator (ua : string) : outcome string :=
  prefix ← slice_to ua (Nat.min (String.length ua) 80); Ret ("Known bot UA: " ++ prefix).

Definition classify (confidence : f64) : ThreatLevel * NoiseType :=
  if f64_ge confidence (f64_lit 80 2) then (ConfirmedAbuse, Cocktail)
  else if f64_ge confidence (f64_lit 50 2) then (LikelyScraper, PhantomFields)
  else if f64_ge confidence (f64_lit 25 2) then (Suspicious, ValuePerturbation)
  else (Benign, ValuePerturbation).

(** One signal: its text and its weight. *)
Definition signal (on : bool) (text : string) (weight : f64) (st : list string * f64) : list string * f64 :=
  if on then (push st.1 text, f64_add st.2 weight) else st.

Definition assess_threat (user_agent : option string) (request_rate_rpm : f64) (has_auth_token : bool)
    (header_anomaly_score : f64) : outcome ThreatAssessment :=
  let st := ([], f64_zero) in
  let st :=
    signal (f64_gt request_rate_rpm (f64_of_Z 120))
      ("High request rate: " ++ fixed 1 request_rate_rpm ++ " req/min (threshold: 120)") (f64_lit 35 2) st in
  st ←
    match user_agent with
    | Some ua =>
        if is_bot ua then text ← ua_indicator ua; Ret (signal true text (f64_lit 40 2) st) else Ret st
    | None => Ret st
    end;
  let st := signal (negb has_auth_token) "Missing authentication token" (f64_lit 20 2) st in
  let st :=
    signal (f64_gt header_anomaly_score (f64_lit 5 1))
      ("Header anomaly score: " ++ fixed 2 header_anomaly_score) (f64_lit 15 2) st in
  let confidence := f64_min st.2 f64_one in
  let '(threat_level, recommended_noise) := classify confidence in
  Ret (mkAssessment threat_level confidence st.1 recommended_noise).
End assess.

(** ** Noise *)

Section noise.
Context {Number : Type} (as_f64 : Number -> option f64) (from_f64 : f64 -> option Number)
        (parse_f64 : string -> option f64) (fixed : nat -> f64 -> string)
        (gen_range : f64 -> f64 -> f64 -> outcome f64) (draw : nat -> f64).
Let JSON := Value Number.

(** [json!] of a float: [null] when it is not finite. *)
Definition json_f64 (x : f64) : JSON :=
  match from_f64 x with Some n => JNumber n | None => JNull end.
Definition value_as_f64 (v : JSON) : option f64 :=
  match v with JNumber n => as_f64 n | _ => None end.
Definition is_nested (v : JSON) : bool :=
  match v with JObject _ | JArray _ => true | _ => false end.

(** [iter_mut] over the values of an object or an array; [n] counts the draws. *)
Definition each {A} (f : A -> nat -> outcome (A * nat)) : list A -> nat -> outcome (list A * nat) :=
  fix go l n :=
    match l with
    | [] => Ret ([], n)
    | x :: l => '(x, n) ← f x n; '(l, n) ← go l n; Ret (x :: l, n)
    end.

Definition thread {A} (f : A -> nat -> A * nat) : list A -> nat -> list A * nat :=
  fix go l n :=
    match l with
    | [] => ([], n)
    | x :: l => let '(x, n) := f x n in let '(l, n) := go l n in (x :: l, n)
    end.

Variable g : AdversarialPoisonGenerator.
Let cfg := config g.

Definition EPSILON : f64 := f64_div f64_one (f64_of_Z (2 ^ 52)).

Definition perturb_number (v : JSON) (x : f64) (n : nat) : outcome (JSON * nat) :=
  if f64_gt (f64_abs x) EPSILON then
    perturbation ← gen_range (f64_opp (perturbation_range cfg)) (perturbation_range cfg) (draw n);
    Ret (json_f64 (f64_mul x (f64_add f64_one perturbation)), S n)
  else Ret (v, n).

Fixpoint apply_value_perturbation (value : JSON) (n : nat) : outcome (JSON * nat) :=
  match value with
  | JObject obj =>
      '(obj, n) ← each (fun '(k, v) n =>
        '(v, n) ←
          match value_as_f64 v with
          | Some x => perturb_number v x n
          | None => if is_nested v then apply_value_perturbation v n else Ret (v, n)
          end;
        Ret ((k, v), n)) obj n;
      Ret (JObject obj, n)
  | JArray arr => '(arr, n) ← each apply_value_perturbation arr n; Ret (JArray arr, n)
  | _ => Ret (value, n)
  end.

Definition apply_phantom_fields (value : JSON) (n : nat) : JSON * nat :=
  match value with
  | JObject obj =>
      let '(obj, n) :=
        fold_left (fun '(obj, n) '(field_name, field_value) =>
          (if f64_lt (draw n) (phantom_field_probability cfg)
           then map_insert field_name (JString field_value) obj else obj, S n))
          (phantom_field_pool g) (obj, n) in
      (JObject obj, n)
  | _ => (value, n)
  end.

Definition duplicate (existing : JSON) : option JSON :=
  match value_as_f64 existing, existing with
  | Some x, _ => Some (json_f64 (f64_mul x (f64_lit 105 2)))
  | None, JString s => Some (JString (s ++ " (alt)"))
  | None, _ => None
  end.

Definition apply_field_duplication (value : JSON) (n : nat) : JSON * nat :=
  match value with
  | JObject obj =>
      let '(obj, n) :=
        fold_left (fun '(obj, n) key =>
          (if f64_lt (draw n) (f64_lit 2 1) then
             match value_get key (JObject obj) with
             | Some existing =>
                 match duplicate existing with
                 | Some v => map_insert (key ++ "_") v obj
                 | None => obj
                 end
             | None => obj
             end
           else obj, S n)) obj.*1 (obj, n) in
      (JObject obj, n)
  | _ => (value, n)
  end.

Definition confuse (v : JSON) : JSON :=
  match v with
  | JNumber k => match as_f64 k with Some f => JString (fixed 4 f) | None => v end
  | JString s => match parse_f64 s with Some x => json_f64 x | None => v end
  | _ => v
  end.

(** Every entry takes one draw. *)
Definition apply_type_confusion (value : JSON) (n : nat) : JSON * nat :=
  match value with
  | JObject obj =>
      (JObject (imap (fun i '(k, v) => (k, if f64_lt (draw (n + i)) (f64_lit 15 2) then confuse v else v)) obj),
       n + length obj)%nat
  | _ => (value, n)
  end.

Definition substitute (c : string) : string :=
  match List.find (fun e => String.eqb e.1 c) (homoglyph_map g) with Some e => e.2 | None => c end.

Fixpoint apply_homoglyph_substitution (value : JSON) (n : nat) : JSON * nat :=
  match value with
  | JString s =>
      let cs := chars s in
      (JString (collect_str (imap (fun i c =>
         if f64_lt (draw (n + i)) (homoglyph_substitution_rate cfg) then substitute c else c) cs)),
       n + length cs)%nat
  | JObject obj =>
      let '(obj, n) :=
        thread (fun '(k, v) n => let '(v, n) := apply_homoglyph_substitution v n in ((k, v), n)) obj n in
      (JObject obj, n)
  | _ => (value, n)
  end.

Record PoisonedResponse := mkPoisoned {
  payload : JSON; noise_applied : list NoiseType; p_threat_level : ThreatLevel; is_poisoned : bool }.

Definition apply_noise (noise_type : NoiseType) (poisoned : JSON) (n : nat)
    : outcome (JSON * nat * list NoiseType) :=
  match noise_type with
  | ValuePerturbation =>
      '(v, n) ← apply_value_perturbation poisoned n; Ret (v, n, [ValuePerturbation])
  | FieldDuplication => Ret (apply_field_duplication poisoned n, [FieldDuplication])
  | TypeConfusion => Ret (apply_type_confusion poisoned n, [TypeConfusion])
  | PhantomFields => Ret (apply_phantom_fields poisoned n, [PhantomFields])
  | HomoglyphSubstitution => Ret (apply_homoglyph_substitution poisoned n, [HomoglyphSubstitution])
  | Cocktail => Ret (poisoned, n, [])
  end.

Fixpoint apply_all (types : list NoiseType) (poisoned : JSON) (n : nat) (applied : list NoiseType)
    : outcome (JSON * list NoiseType) :=
  match types with
  | [] => Ret (poisoned, applied)
  | t :: types =>
      '(v, n, a) ← apply_noise t poisoned n; apply_all types v n (applied ++ a)%list
  end.

Definition generate_poisoned_response (template : JSON) (assessment : ThreatAssessment)
    : outcome PoisonedResponse :=
  if negb (enabled cfg) || bool_decide (threat_level assessment = Benign) then
    Ret (mkPoisoned template [] (threat_level assessment) false)
  else
    let noise_types_to_apply :=
      if decide (recommended_noise assessment = Cocktail) then noise_types cfg
      else [recommended_noise assessment] in
    '(poisoned, applied_noise) ← apply_all noise_types_to_apply template 0 [];
    Ret (mkPoisoned poisoned applied_noise (threat_level assessment) true).
End noise.

(** ** The levels *)

Section levels.
Context (to_lowercase : string -> string) (fixed : nat -> f64 -> string).

(** The sum of the weights of the signals that are on, in the order of the code. *)
Definition add_if (b : bool) (w c : f64) : f64 := if b then f64_add c w else c.
Definition score (fast bot anonymous odd : bool) : f64 :=
  f64_min (add_if odd (f64_lit 15 2) (add_if anonymous (f64_lit 20 2)
    (add_if bot (f64_lit 40 2) (add_if fast (f64_lit 35 2) f64_zero)))) f64_one.

Lemma signal_weight on text w st : (signal on text w st).2 = add_if on w st.2.
Proof. by destruct on. Qed.

Definition level_of (fast bot anonymous odd : bool) : ThreatLevel :=
  if fast && bot && (anonymous || odd) then ConfirmedAbuse
  else if fast && (bot || anonymous || odd) || bot && (anonymous || odd) then LikelyScraper
  else if fast || bot || anonymous && odd then Suspicious
  else Benign.

Lemma level_of_score fast bot anonymous odd :
  (classify (score fast bot anonymous odd)).1 = level_of fast bot anonymous odd /\
  f64_le (score fast bot anonymous odd) f64_one = true.
Proof. destruct fast, bot, anonymous, odd; vm_compute; by split. Qed.

Definition bot_agent (ua : option string) : bool :=
  match ua with Some ua => is_bot to_lowercase ua | None => false end.

(** The level of a caller is a table of four signals: more than 120 requests a minute, a
    bot's user agent, no token, odd headers; the first two together with a third are
    confirmed abuse, one of the first two with another a likely scraper, one of the first
    two alone or the last two together suspicious; the sums of binary64 weights decide
    no case otherwise, and the confidence is at most 1.  Scoring panics exactly for a bot's
    user agent that has a character across its 80th byte. *)
Theorem assess_threat_spec ua rate auth anomaly :
  (assess_threat to_lowercase fixed ua rate auth anomaly = Panic <->
   exists s, ua = Some s /\ is_bot to_lowercase s = true /\
     is_char_boundary s (Nat.min (String.length s) 80) = false) /\
  forall a, assess_threat to_lowercase fixed ua rate auth anomaly = Ret a ->
    threat_level a = level_of (f64_gt rate (f64_of_Z 120)) (bot_agent ua) (negb auth)
      (f64_gt anomaly (f64_lit 5 1)) /\
    f64_le (confidence a) f64_one = true.
Proof.
  assert (Hua : match ua with
    | Some s => if is_bot to_lowercase s then
        (ua_indicator s = Panic /\ is_char_boundary s (Nat.min (String.length s) 80) = false \/
         (exists t, ua_indicator s = Ret t) /\ is_char_boundary s (Nat.min (String.length s) 80) = true)
      else True
    | None => True end).
  { destruct ua as [s|]; [|done]. destruct (is_bot to_lowercase s); [|done].
    unfold ua_indicator, slice_to. destruct (is_char_boundary _ _); cbn; eauto. }
  unfold assess_threat. set (fast := f64_gt rate _). set (odd := f64_gt anomaly _).
  pose proof (fun bot => level_of_score fast bot (negb auth) odd) as Hl.
  destruct ua as [s|]; cbn [bot_agent mbind outcome_bind]; [destruct (is_bot to_lowercase s) eqn:Hb|].
  1: destruct Hua as [[-> Hc]|[[t ->] Hc]]; cbn [mbind outcome_bind]; [split; [split; [intros _; eauto|done]|done]|].
  1: specialize (Hl true).
  2-3: specialize (Hl false).
  all: cbn [mbind outcome_bind]; cbn zeta; rewrite !signal_weight; unfold score in Hl; cbn [snd].
  2-3: change (add_if false (f64_lit 40 2)) with (fun c : f64 => c) in Hl; cbn beta in Hl.
  all: destruct (classify _) as [l r]; split; [split; [done|]|intros a [= <-]; exact Hl].
  all: intros (s' & Hs & Hb' & Hc'); congruence.
Qed.
End levels.

(** ** What noise leaves alone *)

Definition keys {Number} (v : Value Number) : list string :=
  match v with JObject m => m.*1 | _ => [] end.

(** The shape of a document: its keys, strings and nesting, with its numbers (which
    become [null] when they overflow) blotted out. *)
Fixpoint skeleton {Number} (v : Value Number) : Value unit :=
  match v with
  | JNull | JNumber _ => JNull
  | JBool b => JBool b
  | JString s => JString s
  | JArray l => JArray (List.map skeleton l)
  | JObject m => JObject (List.map (fun e => (e.1, skeleton e.2)) m)
  end.

Lemma map_insert_keys {Number} k (v : Value Number) m : m.*1 ⊆ (map_insert k v m).*1.
Proof.
  induction m as [|[k' v'] m IH]; [set_solver|]. cbn [map_insert]. case_match; cbn; [done|].
  change ((map_insert k v m).*1) with (List.map fst (map_insert k v m)). set_solver.
Qed.

Lemma fold_insert_keys {Number A} (f : list (string * Value Number) * nat -> A -> list (string * Value Number) * nat)
    l st : (forall st x, st.1.*1 ⊆ (f st x).1.*1) -> st.1.*1 ⊆ (fold_left f l st).1.*1.
Proof.
  intros Hf. revert st. induction l as [|x l IH]; intros st; [done|]. cbn. etrans; [apply (Hf st x)|apply IH].
Qed.

Section kept.
Context {Number : Type} (as_f64 : Number -> option f64) (from_f64 : f64 -> option Number)
        (parse_f64 : string -> option f64) (fixed : nat -> f64 -> string)
        (gen_range : f64 -> f64 -> f64 -> outcome f64) (draw : nat -> f64)
        (g : AdversarialPoisonGenerator).
Implicit Types v w : Value Number.
Local Abbreviation perturb := (apply_value_perturbation as_f64 from_f64 gen_range draw g).
Local Abbreviation generate := (generate_poisoned_response as_f64 from_f64 parse_f64 fixed gen_range draw g).

Lemma each_Ret {A} (R : A -> A -> Prop) (f : A -> nat -> outcome (A * nat)) l n l' n' :
  Forall (fun x => forall n y n', f x n = Ret (y, n') -> R x y) l ->
  each f l n = Ret (l', n') -> Forall2 R l l'.
Proof.
  intros Hf. revert n l' n'. induction Hf as [|x l Hx Hl IH]; intros n l' n' He; cbn in He.
  { injection He as <- <-. constructor. }
  destruct (f x n) as [[y m]|] eqn:Ef; cbn in He; [|done].
  fold (each f) in He. destruct (each f l m) as [[l'' m']|] eqn:El; cbn in He; [|done].
  injection He as <- <-. constructor; eauto.
Qed.

Lemma perturb_number_skeleton k x n w n' :
  perturb_number from_f64 gen_range draw g (JNumber k) x n = Ret (w, n') -> skeleton w = JNull.
Proof.
  unfold perturb_number. destruct (f64_gt _ _); [|by intros [= <- <-]].
  destruct (gen_range _ _ _); cbn; intros [= <- <-]. unfold json_f64. by destruct (from_f64 _).
Qed.

Lemma perturb_skeleton v n w n' : perturb v n = Ret (w, n') -> skeleton w = skeleton v.
Proof.
  revert n w n'. induction v as [|b|k|s|l IH|m IH] using Value_nested_ind; intros n w n';
    cbn [apply_value_perturbation]; try (by intros [= <- <-]).
  - destruct (each _ l n) as [[l' m']|] eqn:E; cbn; intros [= <- <-].
    apply (each_Ret (fun x y => skeleton y = skeleton x)) in E; [|done]. cbn [skeleton].
    f_equal. clear IH. induction E as [|x y l l' Hxy _ IHl]; [done|]. cbn. by rewrite Hxy, IHl.
  - destruct (each _ m n) as [[m1 m']|] eqn:E; cbn; intros [= <- <-].
    apply (each_Ret (fun x y => y.1 = x.1 /\ skeleton y.2 = skeleton x.2)) in E.
    + cbn [skeleton]. f_equal. clear IH. induction E as [|x y m m1 [Hk Hv] _ IHm]; [done|]. cbn. by rewrite Hk, Hv, IHm.
    + eapply Forall_impl; [exact IH|]. intros [k v] Hv i [k' v'] i'. cbn [fst snd] in *.
      destruct v as [|b|num|s|l0|m0]; cbn [value_as_f64 is_nested].
      3: destruct (as_f64 num) as [x|].
      3: { destruct (perturb_number _ _ _ _ _ _ _) as [[w j]|] eqn:Ew; cbn; intros [= <- <- <-].
           by apply perturb_number_skeleton in Ew. }
      all: cbn [mbind outcome_bind]; try (by intros [= <- <- <-]).
      all: destruct (perturb _ _) as [[w j]|] eqn:Ew; cbn; intros [= <- <- <-]; by apply Hv in Ew.
Qed.

(** Perturbing the values of a document keeps its shape: the same keys in the same
    order, the same strings, booleans and nesting; a number only becomes another number or,
    when it overflows, [null]. *)
Theorem perturbation_keeps_shape v n w n' : perturb v n = Ret (w, n') -> skeleton w = skeleton v.
Proof. apply perturb_skeleton. Qed.

Lemma keys_skeleton v : keys (skeleton v) = keys v.
Proof. destruct v as [| | | | |m]; try done. cbn. induction m as [|[k v] m IH]; [done|]. cbn. by f_equal. Qed.

Lemma thread_cons {A} (f : A -> nat -> A * nat) x l n :
  thread f (x :: l) n = let '(x, n) := f x n in let '(l, n) := thread f l n in (x :: l, n).
Proof. done. Qed.

Lemma thread_keys (f : Value Number -> nat -> Value Number * nat) (m : list (string * Value Number)) n :
  (thread (fun '(k, v) n => let '(v, n) := f v n in ((k, v), n)) m n).1.*1 = m.*1.
Proof.
  revert n. induction m as [|[k v] m IH]; intros n; [done|]. rewrite thread_cons. destruct (f v n) as [w i].
  specialize (IH i). destruct (thread _ m i). cbn [fst] in *. by rewrite !fmap_cons, IH.
Qed.

Lemma noise_keeps_keys t v n w n' a :
  apply_noise as_f64 from_f64 parse_f64 fixed gen_range draw g t v n = Ret (w, n', a) ->
  keys v ⊆ keys w /\ a = (if decide (t = Cocktail) then [] else [t]).
Proof.
  destruct t; cbn [apply_noise].
  - destruct (perturb v n) as [[w' m]|] eqn:E; cbn; intros [= -> -> <-]. split; [|done].
    apply perturb_skeleton in E. by rewrite <- (keys_skeleton w), E, keys_skeleton.
  - unfold apply_field_duplication. destruct v as [| | | |l|m0]; try (by intros [= <- <- <-]).
    destruct (fold_left _ _ _) as [m' k] eqn:E; intros [= <- <- <-]. split; [|done]. cbn [keys].
    change m' with ((m', k).1). rewrite <- E. apply (fold_insert_keys _ _ (m0, n)). intros [m1 i] key. cbn [fst].
    destruct (f64_lt _ _); [|done]. destruct (value_get _ _) as [e|]; [|done].
    destruct (duplicate _ _ _); [apply map_insert_keys|done].
  - unfold apply_type_confusion. destruct v as [| | | |l|m0]; intros [= <- <- <-]; try done. split; [|done].
    cbn [keys]. intros k (e & -> & He)%list_elem_of_fmap. apply list_elem_of_fmap.
    apply list_elem_of_lookup_1 in He as [i Hi]. destruct e as [k v].
    exists (k, if f64_lt (draw (n + i)) (f64_lit 15 2) then confuse as_f64 from_f64 parse_f64 fixed v else v).
    split; [done|]. apply (list_elem_of_lookup_2 _ i). rewrite list_lookup_imap, Hi. reflexivity.
  - unfold apply_phantom_fields. destruct v as [| | | |l|m0]; try (by intros [= <- <- <-]).
    destruct (fold_left _ _ _) as [m' k] eqn:E; intros [= <- <- <-]. split; [|done]. cbn [keys].
    change m' with ((m', k).1). rewrite <- E. apply (fold_insert_keys _ _ (m0, n)). intros [m1 i] [name val]. cbn [fst].
    destruct (f64_lt _ _); [apply map_insert_keys|done].
  - destruct v as [| | | |l|m0]; cbn [apply_homoglyph_substitution]; try (by intros [= <- <- <-]).
    destruct (thread _ m0 n) as [m' k] eqn:E; intros [= <- <- <-]. split; [|done]. cbn [keys].
    change m' with ((m', k).1). rewrite <- E. by rewrite thread_keys.
  - by intros [= <- <- <-].
Qed.

Lemma apply_all_keeps types v n applied w a :
  apply_all as_f64 from_f64 parse_f64 fixed gen_range draw g types v n applied = Ret (w, a) ->
  keys v ⊆ keys w /\ a = (applied ++ filter (fun t => t <> Cocktail) types)%list.
Proof.
  revert v n applied. induction types as [|t types IH]; intros v n applied; cbn [apply_all].
  { intros [= <- <-]. by rewrite app_nil_r. }
  destruct (apply_noise _ _ _ _ _ _ _ t v n) as [[[v' n'] b]|] eqn:E; [|done]. cbn [mbind outcome_bind].
  intros (Hk & ->)%IH. apply noise_keeps_keys in E as [Hk' ->]. split; [by etrans|].
  rewrite filter_cons, <- app_assoc. by destruct (decide (t = Cocktail)) as [->|Ht]; cbn; case_decide.
Qed.

(** A response for a benign caller, or with the generator switched off, is the template
    itself; any other is marked as poisoned, lists the noise of the assessment (of the
    configuration for a confirmed abuse) without [Cocktail], and still has every field
    the template has. *)
Theorem generate_spec template a r : generate template a = Ret r ->
  p_threat_level r = threat_level a /\
  if negb (enabled (config g)) || bool_decide (threat_level a = Benign) then
    payload r = template /\ noise_applied r = [] /\ is_poisoned r = false
  else
    is_poisoned r = true /\ keys template ⊆ keys (payload r) /\
    noise_applied r = filter (fun t => t <> Cocktail)
      (if decide (recommended_noise a = Cocktail) then noise_types (config g) else [recommended_noise a]).
Proof.
  unfold generate_poisoned_response. destruct (negb _ || _); [by intros [= <-]|].
  destruct (apply_all _ _ _ _ _ _ _ _ _ _ _) as [[w b]|] eqn:E; cbn; intros [= <-].
  apply apply_all_keeps in E as [Hk ->]. by split_and!.
Qed.
End kept.

(** ** Witnesses *)

(** Numbers that are floats, and the lower end of every range. *)
Definition sample_template : Value f64 :=
  JObject [("a", JNumber f64_one); ("b", JArray [JNumber f64_one; JObject [("c", JNumber (f64_of_Z 2))]])].

Example perturb_sample :
  apply_value_perturbation Some Some (fun lo _ _ => Ret lo) (fun _ => f64_zero) generator_new sample_template 0 =
  Ret (JObject [("a", JNumber (f64_add f64_one (f64_opp (f64_lit 15 2))));
    ("b", JArray [JNumber f64_one;
       JObject [("c", JNumber (f64_mul (f64_of_Z 2) (f64_add f64_one (f64_opp (f64_lit 15 2)))))]])], 2%nat).
Proof. vm_compute. reflexivity. Qed.

Lemma perturbation_keeps_shape_witness : exists w n,
  apply_value_perturbation Some Some (fun lo _ _ => Ret lo) (fun _ => f64_zero) generator_new sample_template 0 =
    Ret (w, n) /\ skeleton w = skeleton sample_template.
Proof.
  eexists _, _. split; [exact perturb_sample|].
  exact (perturbation_keeps_shape Some Some (fun lo _ _ => Ret lo) (fun _ => f64_zero) generator_new _ _ _ _
    perturb_sample).
Defined.

(** 79 bytes and a character of two bytes after them. *)
Definition long_bot : string := Nat.iter 76 (String "a") ("bot" ++ byte_string [195; 169]%nat).

Lemma assess_threat_spec_witness :
  assess_threat (fun s => s) (fun _ _ => "") (Some long_bot) f64_zero true f64_zero = Panic.
Proof.
  apply (proj1 (assess_threat_spec (fun s => s) (fun _ _ => "") (Some long_bot) f64_zero true f64_zero)).
  exists long_bot. split_and!; reflexivity.
Defined.

(** An array goes through unchanged and is marked as poisoned. *)
Lemma generate_spec_witness :
  let r := mkPoisoned (JArray [JNumber f64_one]) [PhantomFields] LikelyScraper true in
  generate_poisoned_response Some Some (fun _ => None) (fun _ _ => "") (fun lo _ _ => Ret lo)
    (fun _ => f64_zero) generator_new (JArray [JNumber f64_one])
    (mkAssessment LikelyScraper (f64_lit 55 2) [] PhantomFields) = Ret r /\ is_poisoned r = true.
Proof.
  split; [reflexivity|].
  exact (proj1 (proj2 (generate_spec Some Some (fun _ => None) (fun _ _ => "") (fun lo _ _ => Ret lo)
    (fun _ => f64_zero) generator_new (JArray [JNumber f64_one])
    (mkAssessment LikelyScraper (f64_lit 55 2) [] PhantomFields)
    (mkPoisoned (JArray [JNumber f64_one]) [PhantomFields] LikelyScraper true) eq_refl))).
Defined.
