(* ===== verification/HexEvasion.v ===== *)
(** * crates/cache-storage/src/hex_evasion.rs: escaping registered names

    Names found by a pattern or registered by the caller are replaced with the codes of
    their characters, and put back from the table of replacements.  The regex crate's
    matches and the Unicode lower case are parameters; the iteration order of the map of
    registered names is the order of a list without repeated keys. *)
From Stdlib Require Import Ascii String.
From S2P Require Import Prelude RustStr.

Local Open Scope string_scope.

Inductive EncodingFormat : Type := FromCharCode | HexEscape | UnicodeEscape.
Inductive SensitivityClass : Type :=
  | PoliticalEntity | GeographicRegion | OrganizationName | PersonName | RestrictedTerm
  | Custom (name : string).
Record EncodingEntry := mkEntry {
  original : string; encoded : string; encoding_format : EncodingFormat;
  entity_class : SensitivityClass }.
Record EncodeResult := mkEncoded {
  processed_text : string; entries : list EncodingEntry; entities_found : Z }.

(** ** The text of a character's code *)

Definition hex_digit (d : Z) : ascii :=
  ascii_of_nat (Z.to_nat (if decide (d < 10) then 48 + d else 55 + d)).
Fixpoint hex_digits (fuel : nat) (n : Z) : string :=
  match fuel with
  | O => ""
  | S fuel => (if decide (n < 16) then "" else hex_digits fuel (n / 16)) ++ String (hex_digit (n mod 16)) ""
  end.
(** [{:X}] with at least [width] digits; a code has at most six. *)
Definition hex_upper (width : nat) (n : Z) : string :=
  let s := hex_digits 8 n in collect_str (repeat "0" (width - String.length s)) ++ s.

(** [c as u32] from the bytes of a character of valid UTF-8. *)
Definition code_point (c : string) : Z :=
  match (fun b => Z.of_nat (nat_of_ascii b)) <$> list_ascii_of_string c with
  | [a] => a
  | [a; b] => (a - 192) * 64 + (b - 128)
  | [a; b; c] => ((a - 224) * 64 + (b - 128)) * 64 + (c - 128)
  | [a; b; c; d] => (((a - 240) * 64 + (b - 128)) * 64 + (c - 128)) * 64 + (d - 128)
  | _ => 0
  end.

Definition backslash : string := "\".
Definition encode_entity (default_format : EncodingFormat) (entity : string) : string :=
  match default_format with
  | FromCharCode =>
      let codes := (fun c => "0x" ++ hex_upper 1 (code_point c)) <$> chars entity in
      "String.fromCharCode(" ++ String.concat ", " codes ++ ")"
  | HexEscape => collect_str ((fun c => backslash ++ "x" ++ hex_upper 2 (code_point c mod 256)) <$> chars entity)
  | UnicodeEscape => collect_str ((fun c => backslash ++ "u" ++ hex_upper 4 (code_point c)) <$> chars entity)
  end.

Section engine.
Context (to_lowercase : string -> string).
(** [matches p s]: the texts between the matches of [p] in [s] with the match that
    follows each, and what stands behind the last match. *)
Context {Pattern : Type} (matches : Pattern -> string -> list (string * string) * string).

Record HexEvasionEngine := mkEngine {
  patterns : list (Pattern * SensitivityClass);
  custom_entities : list (string * SensitivityClass);
  default_format : EncodingFormat }.

(** [initialize_default_patterns]: the one pattern, when it compiles. *)
Definition engine_new (compiled : option Pattern) : HexEvasionEngine :=
  mkEngine (match compiled with Some re => [(re, PersonName)] | None => [] end) [] FromCharCode.
Definition set_encoding_format (f : EncodingFormat) (e : HexEvasionEngine) : HexEvasionEngine :=
  mkEngine (patterns e) (custom_entities e) f.
Fixpoint entity_insert (k : string) (c : SensitivityClass) (m : list (string * SensitivityClass))
    : list (string * SensitivityClass) :=
  match m with
  | [] => [(k, c)]
  | (k', c') :: m => if String.eqb k' k then (k, c) :: m else (k', c') :: entity_insert k c m
  end.
Definition register_entity (entity : string) (class : SensitivityClass) (e : HexEvasionEngine)
    : HexEvasionEngine :=
  mkEngine (patterns e) (entity_insert (to_lowercase entity) class (custom_entities e)) (default_format e).

Definition entry_of (e : HexEvasionEngine) (class : SensitivityClass) (text : string) : EncodingEntry :=
  mkEntry text (encode_entity (default_format e) text) (default_format e) class.

(** [replace_all] with the closure that records the entries. *)
Definition pattern_pass (e : HexEvasionEngine) (st : string * list EncodingEntry)
    (p : Pattern * SensitivityClass) : string * list EncodingEntry :=
  let '(result, entries) := st in
  let '(pairs, rest) := matches p.1 result in
  (foldr (fun gm s => gm.1 ++ encode_entity (default_format e) gm.2 ++ s) rest pairs,
   app entries ((fun gm => entry_of e p.2 gm.2) <$> pairs)).

(** The position in the lower-cased text is used on the text itself. *)
Definition custom_pass (e : HexEvasionEngine) (st : string * list EncodingEntry)
    (c : string * SensitivityClass) : outcome (string * list EncodingEntry) :=
  let '(result, entries) := st in
  match find c.1 (to_lowercase result) with
  | None => Ret (result, entries)
  | Some pos =>
      let stop := (pos + String.length c.1)%nat in
      if is_char_boundary result pos && is_char_boundary result stop then
        let original := take_bytes (String.length c.1) (drop_bytes pos result) in
        let encoded := encode_entity (default_format e) original in
        Ret (replace original encoded result, (entries ++ [entry_of e c.2 original])%list)
      else Panic
  end.

Fixpoint custom_passes (e : HexEvasionEngine) (cs : list (string * SensitivityClass))
    (st : string * list EncodingEntry) : outcome (string * list EncodingEntry) :=
  match cs with
  | [] => Ret st
  | c :: cs => st ← custom_pass e st c; custom_passes e cs st
  end.

Definition encode (e : HexEvasionEngine) (input : string) : outcome EncodeResult :=
  let st := fold_left (pattern_pass e) (patterns e) (input, []) in
  '(result, entries) ← custom_passes e (custom_entities e) st;
  Ret (mkEncoded result entries (Z.of_nat (length entries))).

Definition decode (encoded_text : string) (entries : list EncodingEntry) : string :=
  fold_left (fun result entry => replace (encoded entry) (original entry) result) (rev entries) encoded_text.
End engine.

(** ** Codes are read back

    The texts of the digits, and of the characters, are told apart: each character's
    escape starts with a backslash and no digit is one. *)
Definition hex_value (c : ascii) : Z :=
  let n := Z.of_nat (nat_of_ascii c) in if decide (n < 58) then n - 48 else n - 55.
Definition parse_hex (s : string) : Z :=
  fold_left (fun acc c => 16 * acc + hex_value c) (list_ascii_of_string s) 0.

Lemma digit_cases (P : Z -> Prop) d : 0 <= d < 16 ->
  Forall P [0; 1; 2; 3; 4; 5; 6; 7; 8; 9; 10; 11; 12; 13; 14; 15] -> P d.
Proof.
  intros Hd Hf. rewrite Forall_forall in Hf. apply Hf. rewrite !elem_of_cons. lia.
Qed.
Lemma hex_value_digit d : 0 <= d < 16 -> hex_value (hex_digit d) = d.
Proof. intros Hd. apply (digit_cases (fun d => hex_value (hex_digit d) = d) d Hd). by repeat constructor. Qed.
Lemma hex_digit_solid d : 0 <= d < 16 -> Ascii.eqb (hex_digit d) "\" = false.
Proof. intros Hd. apply (digit_cases (fun d => Ascii.eqb (hex_digit d) "\" = false) d Hd). by repeat constructor. Qed.

Lemma list_ascii_app s t :
  list_ascii_of_string (s ++ t) = (list_ascii_of_string s ++ list_ascii_of_string t)%list.
Proof. induction s as [|c s IH]; [done|]. rewrite string_app_cons. cbn. by rewrite IH. Qed.

Lemma parse_hex_snoc s c : parse_hex (s ++ String c "") = 16 * parse_hex s + hex_value c.
Proof. unfold parse_hex. rewrite list_ascii_app. cbn [list_ascii_of_string]. by rewrite fold_left_app. Qed.

Lemma parse_hex_digits fuel n : 0 <= n < 16 ^ Z.of_nat fuel -> parse_hex (hex_digits fuel n) = n.
Proof.
  revert n. induction fuel as [|fuel IH]; intros n Hn; [cbn in *; lia|]. cbn [hex_digits].
  assert (Hm := Z.mod_pos_bound n 16 ltac:(lia)). assert (Hd := Z_div_mod_eq_full n 16).
  rewrite parse_hex_snoc, hex_value_digit by lia. case_decide as Hs.
  - rewrite (Z.mod_small n 16) by lia. by change (parse_hex "") with 0.
  - rewrite IH; [lia|]. rewrite Nat2Z.inj_succ, Z.pow_succ_r in Hn by lia.
    split; [apply Z.div_pos; lia|apply Z.div_lt_upper_bound; lia].
Qed.

Lemma parse_hex_zeros k s : parse_hex (collect_str (repeat "0" k) ++ s) = parse_hex s.
Proof. induction k as [|k IH]; [done|]. cbn [repeat collect_str fold_right]. by rewrite <- string_app_assoc. Qed.

Lemma parse_hex_upper w n : 0 <= n < 16 ^ 8 -> parse_hex (hex_upper w n) = n.
Proof. intros Hn. unfold hex_upper. by rewrite parse_hex_zeros, parse_hex_digits. Qed.

Lemma hex_digits_solid fuel n : lacks "\" (hex_digits fuel n) = true.
Proof.
  revert n. induction fuel as [|fuel IH]; intros n; [done|]. cbn [hex_digits].
  rewrite lacks_app. cbn [lacks]. rewrite hex_digit_solid by (apply Z.mod_pos_bound; lia).
  case_decide; [done|]. by rewrite IH.
Qed.
Lemma hex_upper_solid w n : lacks "\" (hex_upper w n) = true.
Proof.
  unfold hex_upper. rewrite lacks_app, hex_digits_solid, andb_true_r.
  apply lacks_collect. apply Forall_forall. intros x Hx. apply list_elem_of_In, repeat_spec in Hx. by subst.
Qed.

Lemma split_escapes parts : Forall (fun p => lacks "\" p = true) parts ->
  split_char "\" (collect_str ((fun p => backslash ++ p) <$> parts)) = "" :: parts.
Proof.
  induction 1 as [|p parts Hp Hparts IH]; [done|].
  rewrite fmap_cons. cbn [collect_str fold_right]. fold (collect_str ((fun p => backslash ++ p) <$> parts)).
  set (rest := collect_str _) in *. unfold backslash at 1. rewrite <- string_app_assoc.
  change ("\" ++ p ++ rest) with (String "\" (p ++ rest)). cbn [split_char]. rewrite decide_True by done. f_equal.
  destruct parts as [|q parts].
  - subst rest. change (collect_str ((fun p => backslash ++ p) <$> [])) with "".
    by rewrite string_app_nil_r, split_char_solid.
  - assert (exists r, rest = String "\" r) as [r Hr].
    { subst rest. rewrite fmap_cons. eexists. unfold backslash. reflexivity. }
    rewrite Hr in IH |- *. cbn [split_char] in IH. rewrite decide_True in IH by done. injection IH as IH.
    by rewrite split_char_app, IH.
Qed.

(** The codes an escaped text reads back as. *)
Definition parse_escapes (s : string) : list Z :=
  (fun p => parse_hex (drop_bytes 1 p)) <$> tail (split_char "\" s).

Lemma parse_escapes_hex (mark : ascii) (w : nat) (ns : list Z) :
  Ascii.eqb mark "\" = false -> Forall (fun n => 0 <= n < 16 ^ 8) ns ->
  parse_escapes (collect_str ((fun n => backslash ++ String mark (hex_upper w n)) <$> ns)) = ns.
Proof.
  intros Hm Hns. unfold parse_escapes.
  change (fun n => backslash ++ String mark (hex_upper w n)) with
    ((fun p => backslash ++ p) ∘ (fun n => String mark (hex_upper w n))).
  rewrite list_fmap_compose, split_escapes.
  - cbn [tail]. induction Hns as [|n ns Hn _ IH]; [done|].
    rewrite !fmap_cons, IH. cbn [drop_bytes]. by rewrite parse_hex_upper.
  - apply Forall_fmap, Forall_forall. intros n _. cbn. by rewrite Hm, hex_upper_solid.
Qed.

(** The escapes read back as the codes of the characters; of the format [HexEscape] only
    the low eight bits are left, so it writes names with the same low bytes alike. *)
Theorem escapes_read_back entity :
  Forall (fun c => 0 <= code_point c <= 1114111) (chars entity) ->
  parse_escapes (encode_entity UnicodeEscape entity) = code_point <$> chars entity /\
  parse_escapes (encode_entity HexEscape entity) = (fun c => code_point c mod 256) <$> chars entity.
Proof.
  intros Hc. cbn [encode_entity]. split.
  - change (fun c => backslash ++ "u" ++ hex_upper 4 (code_point c)) with
      ((fun n => backslash ++ String "u" (hex_upper 4 n)) ∘ code_point).
    rewrite list_fmap_compose. apply parse_escapes_hex; [done|].
    apply Forall_fmap. eapply Forall_impl; [exact Hc|]. cbn. lia.
  - change (fun c => backslash ++ "x" ++ hex_upper 2 (code_point c mod 256)) with
      ((fun n => backslash ++ String "x" (hex_upper 2 n)) ∘ (fun c => code_point c mod 256)).
    rewrite list_fmap_compose. apply parse_escapes_hex; [done|].
    apply Forall_fmap. eapply Forall_impl; [exact Hc|]. cbn. intros c _.
    pose proof (Z.mod_pos_bound (code_point c) 256 ltac:(lia)). lia.
Qed.

(** A registered name is found once, and only what is spelled like its first occurrence
    is escaped: other spellings of it are left in the text.  Text that is already
    escaped in the input is unescaped by [decode]. *)
Definition sample_engine (f : EncodingFormat) (names : list string) : HexEvasionEngine (Pattern := unit) :=
  set_encoding_format f (foldr (fun n => register_entity to_ascii_lowercase n (Custom "c")) (engine_new None) names).
Definition no_matches (_ : unit) (s : string) : list (string * string) * string := ([], s).

Example encode_misses :
  encode to_ascii_lowercase no_matches (sample_engine HexEscape ["ab"]) "AB ab" =
  Ret (mkEncoded "\x41\x42 ab" [mkEntry "AB" "\x41\x42" HexEscape (Custom "c")] 1).
Proof. reflexivity. Qed.

Example decode_not_inverse :
  match encode to_ascii_lowercase no_matches (sample_engine HexEscape ["ab"]) "\x61\x62 ab" with
  | Ret r => decode (processed_text r) (entries r) = "ab ab"
  | Panic => False
  end.
Proof. reflexivity. Qed.

(** U+0141 U+0142 and "AB" have one escape; decoding turns both into the same name. *)
Definition capital_l_stroke : string := byte_string [197; 129]%nat.
Definition small_l_stroke : string := byte_string [197; 130]%nat.

Lemma escapes_read_back_witness :
  parse_escapes (encode_entity UnicodeEscape capital_l_stroke) = [321] /\
  parse_escapes (encode_entity HexEscape capital_l_stroke) = [65] /\
  encode_entity HexEscape (capital_l_stroke ++ small_l_stroke) = encode_entity HexEscape "AB".
Proof.
  destruct (escapes_read_back capital_l_stroke) as [H1 H2].
  - constructor; [by vm_compute|constructor].
  - split; [exact H1|]. split; [exact H2|reflexivity].
Defined.

(** The lower case of a capital I with a dot is a byte longer than the letter itself, so
    the position found behind it lies behind the end of the text. *)
Definition dotted_lowercase (s : string) : string :=
  replace (byte_string [196; 176]%nat) ("i" ++ byte_string [204; 135]%nat) (to_ascii_lowercase s).
Example encode_panics :
  encode dotted_lowercase no_matches (register_entity dotted_lowercase "ab" (Custom "c") (engine_new None))
    (byte_string [196; 176]%nat ++ "ab") = Panic.
Proof. reflexivity. Qed.
