(* ===== verification/Staleness.v ===== *)
(** * crates/cache-storage/src/staleness.rs and lib.rs: bounded staleness, fuel fuses

    The manager stores entries as [Box<dyn Any>] and [get] downcasts them: the type
    codes [Ty] stand for [TypeId]s, [denote] for the types they identify.  Times are
    nanoseconds of the wall clock, ages whole seconds. *)
From S2P Require Import Prelude RustStr.

Open Scope string_scope.

Inductive FreshnessLevel : Type :=
  | Fresh
  | StaleAcceptable (age_seconds : Z)
  | Expired (age_seconds : Z).
#[export] Instance FreshnessLevel_eq_dec : EqDecision FreshnessLevel.
Proof. solve_decision. Defined.

Record StaleCache (T : Type) := mkStale {
  value : T;
  cached_at : Z;
  ttl_seconds : Z;
  grace_period_seconds : Z;
  source : string;
  generation : Z }.
Arguments mkStale {T}.
Arguments value {T}.
Arguments cached_at {T}.
Arguments ttl_seconds {T}.
Arguments grace_period_seconds {T}.
Arguments source {T}.
Arguments generation {T}.

Definition stale_new {T} (now : Z) (value : T) (ttl grace : Z) (source : string) : StaleCache T :=
  mkStale value now ttl grace source 1.

(** [(Utc::now() - cached_at).num_seconds()] truncates towards zero. *)
Definition age_seconds {T} (now : Z) (c : StaleCache T) : Z := Z.quot (now - cached_at c) (10 ^ 9).

Definition freshness {T} (now : Z) (c : StaleCache T) : outcome FreshnessLevel :=
  let age := age_seconds now c in
  if decide (age < ttl_seconds c) then Ret Fresh else
  limit ← add_i64 (ttl_seconds c) (grace_period_seconds c);
  if decide (age < limit) then Ret (StaleAcceptable age) else Ret (Expired age).

Definition is_serveable {T} (now : Z) (c : StaleCache T) : outcome bool :=
  l ← freshness now c; Ret (match l with Expired _ => false | _ => true end).
Definition is_fresh {T} (now : Z) (c : StaleCache T) : outcome bool :=
  l ← freshness now c; Ret (match l with Fresh => true | _ => false end).

Definition refresh {T} (now : Z) (new_value : T) (c : StaleCache T) : outcome (StaleCache T) :=
  g ← add_u U64_MAX (generation c) 1;
  Ret (mkStale new_value now (ttl_seconds c) (grace_period_seconds c) (source c) g).

Definition extend_ttl {T} (now additional_seconds : Z) (c : StaleCache T) : StaleCache T :=
  mkStale (value c) now additional_seconds (grace_period_seconds c) (source c) (generation c).

(** ** The manager *)

Section manager.
Context {Ty : Type} `{EqDecision Ty} (denote : Ty -> Type).

(** [Box<dyn Any>]: a type code and an entry of that type. *)
Definition AnyCache : Type := { t : Ty & StaleCache (denote t) }.

Definition downcast_ref (t : Ty) (a : AnyCache) : option (StaleCache (denote t)) :=
  match decide (projT1 a = t) with
  | left e => Some (eq_rect (projT1 a) (fun t => StaleCache (denote t)) (projT2 a) t e)
  | right _ => None
  end.

Record StalenessManager := mkManager {
  caches : gmap string AnyCache;
  default_ttl_seconds : Z;
  default_grace_seconds : Z }.

Definition manager_new (ttl grace : Z) : StalenessManager := mkManager ∅ ttl grace.

Definition manager_put (now : Z) (t : Ty) (key : string) (value : denote t) (source : string)
    (m : StalenessManager) : StalenessManager :=
  let cache := stale_new now value (default_ttl_seconds m) (default_grace_seconds m) source in
  mkManager (<[key := existT t cache]> (caches m)) (default_ttl_seconds m) (default_grace_seconds m).

(** The levels it warns about do not change what is returned. *)
Definition manager_get (now : Z) (t : Ty) (key : string) (m : StalenessManager) :
    outcome (option (denote t * FreshnessLevel)) :=
  match caches m !! key ≫= downcast_ref t with
  | None => Ret None
  | Some cache => l ← freshness now cache; Ret (Some (value cache, l))
  end.

Definition manager_evict (key : string) (m : StalenessManager) : StalenessManager * bool :=
  (mkManager (delete key (caches m)) (default_ttl_seconds m) (default_grace_seconds m),
   bool_decide (is_Some (caches m !! key))).
Definition manager_len (m : StalenessManager) : nat := size (caches m).
Definition manager_is_empty (m : StalenessManager) : bool := bool_decide (manager_len m = O).

(** ** Typed access *)

Lemma downcast_ref_same t c : downcast_ref t (existT t c) = Some c.
Proof.
  unfold downcast_ref. simpl. destruct (decide (t = t)) as [e|]; [|done].
  by rewrite (proof_irrel e eq_refl).
Qed.

Lemma downcast_ref_other t t' c : t' <> t -> downcast_ref t (existT t' c) = None.
Proof. intros Hne. unfold downcast_ref. simpl. by destruct (decide (t' = t)). Qed.

(** The level of an entry of age [age], when the sum of the periods is an [i64]. *)
Definition level (ttl grace age : Z) : FreshnessLevel :=
  if decide (age < ttl) then Fresh
  else if decide (age < ttl + grace) then StaleAcceptable age else Expired age.

Lemma freshness_level {T} now (c : StaleCache T) :
  I64_MIN <= ttl_seconds c + grace_period_seconds c <= I64_MAX ->
  freshness now c = Ret (level (ttl_seconds c) (grace_period_seconds c) (age_seconds now c)).
Proof.
  intros Hs. unfold freshness, level, add_i64. case_decide; [done|].
  rewrite decide_True by done. simpl. by case_decide.
Qed.

(** The operations on one key. *)
Inductive event : Type :=
  | EPut (now : Z) (t : Ty) (v : denote t) (source : string)
  | EEvict.
Definition apply_event (e : string * event) (m : StalenessManager) : StalenessManager :=
  match e.2 with
  | EPut now t v source => manager_put now t e.1 v source m
  | EEvict => (manager_evict e.1 m).1
  end.
(** The latest event comes first. *)
Definition run_events (es : list (string * event)) (m : StalenessManager) : StalenessManager :=
  foldr apply_event m es.

Lemma run_events_periods es m :
  default_ttl_seconds (run_events es m) = default_ttl_seconds m /\
  default_grace_seconds (run_events es m) = default_grace_seconds m.
Proof. induction es as [|[k [now t v s|]] es IH]; [done|apply IH..]. Qed.

Lemma run_events_lookup es ttl grace key :
  caches (run_events es (manager_new ttl grace)) !! key =
  match List.find (fun e => bool_decide (e.1 = key)) es with
  | Some (_, EPut now t v s) => Some (existT t (stale_new now v ttl grace s))
  | _ => None
  end.
Proof.
  induction es as [|[k e] es IH]; [done|].
  pose proof (run_events_periods es (manager_new ttl grace)) as [Ht Hg].
  simpl. case_bool_decide as Hk.
  - subst. destruct e as [now t v s|]; simpl.
    + by rewrite lookup_insert_eq, Ht, Hg.
    + by rewrite lookup_delete_eq.
  - rewrite <- IH. destruct e as [now t v s|]; simpl.
    + by rewrite lookup_insert_ne.
    + by rewrite lookup_delete_ne.
Qed.

(** C32: typed access: after any puts and evictions, on any keys and at any types,
    reading a key at a type returns the value of the latest put of that key, with its
    age classified against the time to live and the grace period, exactly when that
    put was at the same type and the key was not evicted since; at any other type it
    returns nothing. *)
Theorem manager_get_typed es ttl grace now t key :
  I64_MIN <= ttl + grace <= I64_MAX ->
  manager_get now t key (run_events es (manager_new ttl grace)) =
  match List.find (fun e => bool_decide (e.1 = key)) es with
  | Some (_, EPut at_ t' v s) =>
      match decide (t' = t) with
      | left e => Ret (Some (eq_rect t' denote v t e, level ttl grace (Z.quot (now - at_) (10 ^ 9))))
      | right _ => Ret None
      end
  | _ => Ret None
  end.
Proof.
  intros Hs. unfold manager_get. rewrite run_events_lookup.
  destruct (List.find _ es) as [[k [at_ t' v s|]]|]; try done. simpl.
  destruct (decide (t' = t)) as [<-|Hne].
  - rewrite downcast_ref_same. by rewrite freshness_level.
  - by rewrite downcast_ref_other.
Qed.
End manager.

(** ** Fuel allocation and fuses (lib.rs) *)

Record FuelAllocator := mkAllocator { total_fuel : Z; allocated_fuel : Z }.
Definition allocator_new (total : Z) : FuelAllocator := mkAllocator total 0.

Definition allocation_exceeded (a : FuelAllocator) (fuel : Z) : string :=
  "Fuel allocation exceeded: allocated=" ++ pretty (allocated_fuel a) ++ ", requested=" ++
  pretty fuel ++ ", total=" ++ pretty (total_fuel a).

Definition allocate (fuel : Z) (a : FuelAllocator) : outcome (FuelAllocator * result Z string) :=
  sum ← add_u U64_MAX (allocated_fuel a) fuel;
  if decide (total_fuel a < sum) then Ret (a, Err (allocation_exceeded a fuel))
  else Ret (mkAllocator (total_fuel a) sum, Ok fuel).

Definition remaining (a : FuelAllocator) : outcome Z := sub_u (total_fuel a) (allocated_fuel a).

Inductive Priority : Type := Critical | High | Normal | Low | Background.
Definition Priority_debug (p : Priority) : string :=
  match p with
  | Critical => "Critical" | High => "High" | Normal => "Normal"
  | Low => "Low" | Background => "Background"
  end.
Definition schedule_task (p : Priority) (task_id : string) : string :=
  "Scheduled task " ++ task_id ++ " with priority " ++ Priority_debug p.

Record FuelFuse := mkFuse { budget : Z; consumed : Z; tripped : bool }.
Definition fuse_new (budget : Z) : FuelFuse := mkFuse budget 0 false.

Definition fuse_tripped_message (consumed budget : Z) : string :=
  "Fuel fuse tripped: consumed=" ++ pretty consumed ++ ", budget=" ++ pretty budget.

Definition fuse_consume (fuel : Z) (f : FuelFuse) : outcome (FuelFuse * result unit string) :=
  if tripped f then Ret (f, Err "Fuse already tripped") else
  sum ← add_u U64_MAX (consumed f) fuel;
  if decide (budget f < sum)
  then Ret (mkFuse (budget f) sum true, Err (fuse_tripped_message sum (budget f)))
  else Ret (mkFuse (budget f) sum (tripped f), Ok tt).
Definition is_tripped (f : FuelFuse) : bool := tripped f.

(** The fuel granted by a sequence of requests. *)
Fixpoint allocate_all (fuels : list Z) (a : FuelAllocator) : outcome (FuelAllocator * Z) :=
  match fuels with
  | [] => Ret (a, 0)
  | fuel :: fuels =>
      '(a, r) ← allocate fuel a;
      '(a, granted) ← allocate_all fuels a;
      Ret (a, match r with Ok n => n + granted | Err _ => granted end)
  end%Z.

(** Grants never exceed the total, and what remains is the rest. *)
Lemma allocate_all_bounded fuels total a granted :
  0 <= total -> allocate_all fuels (allocator_new total) = Ret (a, granted) ->
  granted <= total /\ remaining a = Ret (total - granted).
Proof.
  intros Ht. change total with (total_fuel (allocator_new total)) at 2 3.
  assert (Hle : allocated_fuel (allocator_new total) <= total_fuel (allocator_new total)) by done.
  intros Hrun. cut (allocated_fuel a = allocated_fuel (allocator_new total) + granted /\
    total_fuel a = total_fuel (allocator_new total) /\ allocated_fuel a <= total_fuel a).
  { simpl. intros (Ha & Htot & Hb). unfold remaining. rewrite Htot, Ha in *.
    rewrite sub_u_small by lia. split; [lia|by rewrite Z.add_0_l]. }
  revert Hle Hrun. generalize (allocator_new total) as a0. clear.
  revert granted. induction fuels as [|fuel fuels IH]; intros granted a0 Hle Hrun; simplify_eq/=; [lia|].
  unfold allocate in Hrun. destruct (add_u _ _ _) as [sum|] eqn:Hs; [|done].
  apply add_u_Ret in Hs as [-> _]. simpl in Hrun. case_decide; simpl in Hrun;
    destruct (allocate_all fuels _) as [[a1 g]|] eqn:Hrest; simplify_eq/=;
    apply IH in Hrest; simpl in *; lia.
Qed.

Fixpoint consume_all (fuels : list Z) (f : FuelFuse) : outcome (FuelFuse * list bool) :=
  match fuels with
  | [] => Ret (f, [])
  | fuel :: fuels =>
      '(f, r) ← fuse_consume fuel f;
      '(f, oks) ← consume_all fuels f;
      Ret (f, is_ok r :: oks)
  end.

Lemma consume_all_tripped fuels f :
  tripped f = true -> consume_all fuels f = Ret (f, List.map (fun _ => false) fuels).
Proof.
  intros Ht. induction fuels as [|fuel fuels IH]; [done|].
  simpl. unfold fuse_consume. rewrite Ht. simpl. by rewrite IH.
Qed.

(** A fuse lets a prefix of the consumptions through, whose sum is within the
    budget, and refuses everything after it. *)
Lemma fuse_prefix fuels b f oks :
  consume_all fuels (fuse_new b) = Ret (f, oks) ->
  exists n, (n <= length fuels)%nat /\
    oks = app (replicate n true) (replicate (length fuels - n) false) /\
    (n <> O -> foldr Z.add 0 (take n fuels) <= b)%Z.
Proof.
  assert (Hgen : forall fuels f0, tripped f0 = false -> consume_all fuels f0 = Ret (f, oks) ->
    exists n, (n <= length fuels)%nat /\ oks = app (replicate n true) (replicate (length fuels - n) false) /\
      (n <> O -> consumed f0 + foldr Z.add 0 (take n fuels) <= budget f0)%Z).
  { clear fuels b. intros fuels. revert oks. induction fuels as [|fuel fuels IH]; intros oks f0 Ht Hrun; simplify_eq/=.
    { by exists O. }
    unfold fuse_consume in Hrun. rewrite Ht in Hrun.
    destruct (add_u _ _ _) as [sum|] eqn:Hs; [|done]. apply add_u_Ret in Hs as [-> _].
    simpl in Hrun. case_decide; simpl in Hrun.
    - rewrite consume_all_tripped in Hrun by done. simplify_eq/=. exists O.
      split_and!; [lia| |done]. simpl. f_equal.
      apply const_fmap. done.
    - destruct (consume_all _ _) as [[f1 oks1]|] eqn:Hrest; simplify_eq/=.
      apply IH in Hrest as (n & Hn & -> & Hsum); [|done]. exists (S n). simpl in *.
      split_and!; [lia|done|]. intros _. destruct n as [|n]; simpl; [lia|].
      specialize (Hsum ltac:(done)). simpl in Hsum. lia. }
  intros Hrun. apply Hgen in Hrun as (n & Hn & Hoks & Hsum); [|done].
  exists n. split_and!; [done|done|]. intros Hne. specialize (Hsum Hne). simpl in Hsum. lia.
Qed.

(** [extend_ttl] replaces the period: a shorter one makes a fresh entry stale. *)
Example extend_ttl_shortens :
  freshness (70 * 10 ^ 9) (stale_new 0 tt 300 60 "s") = Ret Fresh /\
  freshness (70 * 10 ^ 9) (extend_ttl 0 10 (stale_new 0 tt 300 60 "s")) = Ret (Expired 70).
Proof. by vm_compute. Qed.

(** ** Witness: two types under one key *)

Definition code_type (b : bool) : Type := if b then nat else string.

Lemma manager_get_typed_witness :
  manager_get code_type (100 * 10 ^ 9) true "k"
    (run_events code_type [("j", EEvict code_type); ("k", EPut code_type (40 * 10 ^ 9) true 7%nat "s");
       ("k", EPut code_type 0 false "old" "s")] (manager_new code_type 30 60)) =
  Ret (Some (7%nat, StaleAcceptable 60)).
Proof. rewrite (manager_get_typed code_type); [reflexivity|ulia]. Defined.
