(* ===== verification/WasiVirt.v ===== *)
(** * crates/sandbox-guard/src/wasi_virt.rs: engine limits, honey-tokens, virtual files

    The operations of the virtual file system are first functions on its state (one
    caller), then, for writers that run concurrently, a step relation with one
    constructor per access to the shared map or counter.  File contents are byte
    strings; the random canary and the clock are arguments. *)
From Stdlib Require Import Ascii.
From S2P Require Import Prelude RustStr.

Open Scope string_scope.

(** ** Limits of the pooling allocator *)

Definition WASM_PAGE_SIZE_BYTES : Z := 64 * 1024.
Definition MODULE_CACHE_MAX_CAPACITY : Z := 256.
Definition MAX_INSTANCES_HARD_CAP : Z := 1024.
Definition MAX_MEMORY_PAGES_HARD_CAP : Z := 160.
Definition MEMORY_RESERVATION_CAPACITY : Z :=
  MAX_INSTANCES_HARD_CAP * MAX_MEMORY_PAGES_HARD_CAP * WASM_PAGE_SIZE_BYTES.

Record WasiVirtEngineConfig := mkEngineConfig {
  max_memory_pages : Z;
  total_component_instances : Z;
  max_core_instances_per_component : Z;
  total_memories : Z;
  max_memories_per_component : Z;
  async_support : bool;
  epoch_interruption : bool;
  consume_fuel : bool }.

Definition engine_config_default : WasiVirtEngineConfig :=
  mkEngineConfig MAX_MEMORY_PAGES_HARD_CAP MAX_INSTANCES_HARD_CAP MAX_INSTANCES_HARD_CAP
    MAX_INSTANCES_HARD_CAP 1 true true true.

Definition max_memory_bytes (c : WasiVirtEngineConfig) : outcome Z :=
  mul_u U64_MAX (max_memory_pages c) WASM_PAGE_SIZE_BYTES.

(** What is handed to wasmtime: the switches of [Config], and the pool. *)
Record PoolingAllocationConfig := mkPooling {
  pool_component_instances : Z;
  pool_core_instances_per_component : Z;
  pool_memories : Z;
  pool_memories_per_component : Z;
  pool_max_memory_size : Z }.
Record Config := mkWasmConfig {
  wasm_component_model : bool;
  config_async_support : bool;
  config_consume_fuel : bool;
  wasm_backtrace : bool;
  wasm_memory64 : bool;
  config_epoch_interruption : bool;
  static_memory_guard_size : Z;
  dynamic_memory_reserved_for_growth : Z;
  dynamic_memory_guard_size : Z;
  allocation_strategy : PoolingAllocationConfig }.

Definition create_pooling_engine_config (cfg : WasiVirtEngineConfig) : outcome Config :=
  let clamped_pages := Z.min (max_memory_pages cfg) MAX_MEMORY_PAGES_HARD_CAP in
  let clamped_instances := Z.min (total_component_instances cfg) MAX_INSTANCES_HARD_CAP in
  max_memory_bytes ← mul_u U64_MAX clamped_pages WASM_PAGE_SIZE_BYTES;
  let pooling := mkPooling clamped_instances
    (Z.min (max_core_instances_per_component cfg) MAX_INSTANCES_HARD_CAP)
    (Z.min (total_memories cfg) MAX_INSTANCES_HARD_CAP)
    (Z.max (max_memories_per_component cfg) 1) max_memory_bytes in
  Ret (mkWasmConfig true (async_support cfg) (consume_fuel cfg) true false (epoch_interruption cfg)
    (4 * 1024 * 1024) (4 * 1024 * 1024) (4 * 1024 * 1024) pooling).

(** [GLOBAL_ENGINE] is set once; [Engine::new] is third-party. *)
Section engine.
Context {Engine E : Type} (Engine_new : Config -> result Engine E).

Definition global_engine (g : option Engine) : outcome (option Engine * Engine) :=
  match g with
  | Some engine => Ret (g, engine)
  | None =>
      pooling_config ← create_pooling_engine_config engine_config_default;
      match Engine_new pooling_config with
      | Ok engine => Ret (Some engine, engine)
      | Err _ => Panic
      end
  end.

Definition init_global_engine (cfg : WasiVirtEngineConfig) (g : option Engine) :
    outcome (option Engine * result Engine E) :=
  match g with
  | Some engine => Ret (g, Ok engine)
  | None =>
      config ← create_pooling_engine_config cfg;
      match Engine_new config with
      | Err e => Ret (None, Err e)
      | Ok engine => Ret (Some engine, Ok engine)
      end
  end.
End engine.

(** ** Honey-tokens *)

Record HoneypotTokens := mkTokens {
  aws_access_key_id : string;
  aws_secret_access_key : string;
  db_password : string;
  db_connection_string : string;
  api_token : string }.

Definition hex_digit (n : Z) : ascii :=
  default "0"%char (String.get (Z.to_nat n) "0123456789abcdef").
(** [{:016x}]. *)
Fixpoint hex_digits (k : nat) (n : Z) (acc : string) : string :=
  match k with
  | O => acc
  | S k => hex_digits k (n / 16) (String (hex_digit (n mod 16)) acc)
  end.
Definition generate_canary_id (id : Z) : string := hex_digits 16 id "".

Definition tokens_generate (id : Z) : HoneypotTokens :=
  let canary_id := generate_canary_id id in
  mkTokens ("AKIA3HONEYPOT" ++ canary_id ++ "FAKE")
    ("HoneypotSecret" ++ canary_id ++ "FakeKey/Not/Real/At/All")
    ("hp_db_pass_" ++ canary_id ++ "_canary")
    ("postgresql://honeypot:" ++ canary_id ++ "@db.internal.fake:5432/trap_db")
    ("hp_tok_" ++ canary_id ++ "_aegis_canary").

Definition detect_token_leak (data : string) (t : HoneypotTokens) : option string :=
  if contains (aws_access_key_id t) data then Some "AWS_ACCESS_KEY_ID"
  else if contains (aws_secret_access_key t) data then Some "AWS_SECRET_ACCESS_KEY"
  else if contains (db_password t) data then Some "DB_PASSWORD"
  else if contains (db_connection_string t) data then Some "DB_CONNECTION_STRING"
  else if contains (api_token t) data then Some "API_TOKEN"
  else None.

(** ** The virtual file system *)

Record VirtualFile := mkFile {
  path : string;
  file_content : string;
  created_at : Z;
  modified_at : Z;
  size : Z }.

Record VirtualFileSystem := mkVfs {
  mount_point : string;
  max_total_bytes : Z;
  max_file_count : Z;
  files : gmap string VirtualFile;
  total_bytes_used : Z;
  write_count : Z;
  read_count : Z }.

Inductive VfsError : Type :=
  | BudgetExceeded (requested available : Z)
  | InodeExhausted (current maximum : Z)
  | FileNotFound (path : string)
  | PathTraversalDetected (path : string).

Definition DEFAULT_MOUNT_POINT : string := "/dev/shm/serein-vfs".
Definition DEFAULT_MAX_BYTES : Z := 64 * 1024 * 1024.
Definition DEFAULT_MAX_FILE_COUNT : Z := 1000.

Definition vfs_new : VirtualFileSystem :=
  mkVfs DEFAULT_MOUNT_POINT DEFAULT_MAX_BYTES DEFAULT_MAX_FILE_COUNT ∅ 0 0 0.
Definition with_mount_point (mount : string) (v : VirtualFileSystem) : VirtualFileSystem :=
  mkVfs mount (max_total_bytes v) (max_file_count v) (files v) (total_bytes_used v)
    (write_count v) (read_count v).
Definition with_max_bytes (max : Z) (v : VirtualFileSystem) : VirtualFileSystem :=
  mkVfs (mount_point v) max (max_file_count v) (files v) (total_bytes_used v)
    (write_count v) (read_count v).
Definition with_max_file_count (max : Z) (v : VirtualFileSystem) : VirtualFileSystem :=
  mkVfs (mount_point v) (max_total_bytes v) (Z.max max 1) (files v) (total_bytes_used v)
    (write_count v) (read_count v).
Definition set_files (m : gmap string VirtualFile) (v : VirtualFileSystem) : VirtualFileSystem :=
  mkVfs (mount_point v) (max_total_bytes v) (max_file_count v) m (total_bytes_used v)
    (write_count v) (read_count v).
Definition set_used (n : Z) (v : VirtualFileSystem) : VirtualFileSystem :=
  mkVfs (mount_point v) (max_total_bytes v) (max_file_count v) (files v) n
    (write_count v) (read_count v).
Definition count_write (v : VirtualFileSystem) : VirtualFileSystem :=
  mkVfs (mount_point v) (max_total_bytes v) (max_file_count v) (files v) (total_bytes_used v)
    (wrapping_add U64_MAX (write_count v) 1) (read_count v).
Definition count_read (v : VirtualFileSystem) : VirtualFileSystem :=
  mkVfs (mount_point v) (max_total_bytes v) (max_file_count v) (files v) (total_bytes_used v)
    (write_count v) (wrapping_add U64_MAX (read_count v) 1).

(** *** Paths *)

(** One turn of the loop over the segments; the stack's top comes first. *)
Definition push_segment (stack : list string) (segment : string) : list string :=
  if decide (segment = "" \/ segment = ".") then stack
  else if decide (segment = "..") then tail stack
  else segment :: stack.

Definition normalize_path_segments (p : string) : string :=
  String.concat "/" (rev (fold_left push_segment (split_char "/" p) [])).

Definition redirect_path (guest_path : string) (v : VirtualFileSystem) : string :=
  let stripped := trim_start_char "/" guest_path in
  mount_point v ++ "/" ++ normalize_path_segments stripped.

(** *** One caller at a time *)

Definition available (v : VirtualFileSystem) : Z := saturating_sub (max_total_bytes v) (total_bytes_used v).

(** The closure given to [fetch_update]: [None] when the budget does not allow it. *)
Definition propose (existing_size data_len : Z) (v : VirtualFileSystem) : outcome (option Z) :=
  proposed ← add_u USIZE_MAX (saturating_sub (total_bytes_used v) existing_size) data_len;
  Ret (if decide (max_total_bytes v < proposed) then None else Some proposed).

Definition file_size (vfs_path : string) (v : VirtualFileSystem) : Z :=
  match files v !! vfs_path with Some f => size f | None => 0 end.
Definition created_or (now : Z) (vfs_path : string) (v : VirtualFileSystem) : Z :=
  match files v !! vfs_path with Some f => created_at f | None => now end.
Definition file_count (v : VirtualFileSystem) : Z := Z.of_nat (base.size (files v)).

Definition write_file (now : Z) (guest_path data : string) (v : VirtualFileSystem) :
    outcome (VirtualFileSystem * result unit VfsError) :=
  let vfs_path := redirect_path guest_path v in
  let data_len := len data in
  if decide (max_total_bytes v < data_len) then Ret (v, Err (BudgetExceeded data_len (available v))) else
  let is_new_file := bool_decide (files v !! vfs_path = None) in
  if is_new_file && bool_decide (max_file_count v <= file_count v)
  then Ret (v, Err (InodeExhausted (file_count v) (max_file_count v))) else
  let existing_size := file_size vfs_path v in
  proposed ← propose existing_size data_len v;
  match proposed with
  | None => Ret (v, Err (BudgetExceeded data_len (available v)))
  | Some new_total =>
      let v := set_used new_total v in
      let file := mkFile vfs_path data (created_or now vfs_path v) now data_len in
      Ret (count_write (set_files (<[vfs_path := file]> (files v)) v), Ok tt)
  end.

Definition read_file (guest_path : string) (v : VirtualFileSystem) :
    VirtualFileSystem * result string VfsError :=
  match files v !! redirect_path guest_path v with
  | Some f => (count_read v, Ok (file_content f))
  | None => (v, Err (FileNotFound guest_path))
  end.

Definition delete_file (guest_path : string) (v : VirtualFileSystem) :
    VirtualFileSystem * result unit VfsError :=
  let vfs_path := redirect_path guest_path v in
  match files v !! vfs_path with
  | Some file =>
      let v := set_files (delete vfs_path (files v)) v in
      (set_used (wrapping_sub U64_MAX (total_bytes_used v) (size file)) v, Ok tt)
  | None => (v, Err (FileNotFound guest_path))
  end.

Definition list_files `{HashOrder} (v : VirtualFileSystem) : list VirtualFile :=
  (hash_iter (files v)).*2.
Definition bytes_used (v : VirtualFileSystem) : Z := total_bytes_used v.

(** [d.as_millis() as u64] of the time since the epoch, 0 for a clock before it. *)
Definition current_timestamp (now_ns : Z) : Z :=
  if decide (0 <= now_ns) then (now_ns / 10 ^ 6) mod (U64_MAX + 1) else 0.

(** ** The sandbox context *)

Record WasiVirtContext := mkContext {
  tokens : HoneypotTokens;
  vfs : VirtualFileSystem;
  environment : gmap string string;
  leak_flag : bool;
  leaked : option string }.

Definition context_new (id : Z) : WasiVirtContext :=
  let tokens := tokens_generate id in
  let environment : gmap string string := ∅ in
  let environment := <["AWS_ACCESS_KEY_ID" := aws_access_key_id tokens]> environment in
  let environment := <["AWS_SECRET_ACCESS_KEY" := aws_secret_access_key tokens]> environment in
  let environment := <["DB_PASSWORD" := db_password tokens]> environment in
  let environment := <["DATABASE_URL" := db_connection_string tokens]> environment in
  let environment := <["API_TOKEN" := api_token tokens]> environment in
  mkContext tokens vfs_new environment false None.

Definition scan_for_leaks (data : string) (c : WasiVirtContext) : WasiVirtContext * option string :=
  match detect_token_leak data (tokens c) with
  | Some token_name =>
      (mkContext (tokens c) (vfs c) (environment c) true (Some token_name), Some token_name)
  | None => (c, None)
  end.
Definition leak_detected (c : WasiVirtContext) : bool := leak_flag c.
Definition leaked_token (c : WasiVirtContext) : option string := leaked c.
Definition guest_environment (c : WasiVirtContext) : gmap string string := environment c.
Definition context_redirect_path (guest_path : string) (c : WasiVirtContext) : string :=
  redirect_path guest_path (vfs c).
Definition build_honeypot_context (id : Z) : WasiVirtContext := context_new id.

(** ** Concurrent writers

    The accesses of [write_file] to the shared state, in order; a caller holds what
    it has read.  (The three accesses that only fill in an error are left out.) *)
Inductive writer : Type :=
  | WStart (guest_path data : string)
  | WNew (vfs_path data : string) (is_new_file : bool)
  | WChecked (vfs_path data : string)
  | WSized (vfs_path data : string) (existing_size : Z)
  | WReserved (vfs_path data : string)
  | WStamped (vfs_path data : string) (now created : Z)
  | WInserted
  | WDone (r : result unit unit).

Inductive writer_step : VirtualFileSystem * writer -> VirtualFileSystem * writer -> Prop :=
  | ws_too_big v p data :
      max_total_bytes v < len data -> writer_step (v, WStart p data) (v, WDone (Err tt))
  | ws_contains v p data :
      len data <= max_total_bytes v ->
      let vfs_path := redirect_path p v in
      writer_step (v, WStart p data)
        (v, WNew vfs_path data (bool_decide (files v !! vfs_path = None)))
  | ws_full v vfs_path data :
      max_file_count v <= file_count v ->
      writer_step (v, WNew vfs_path data true) (v, WDone (Err tt))
  | ws_room v vfs_path data is_new :
      (is_new = true -> file_count v < max_file_count v) ->
      writer_step (v, WNew vfs_path data is_new) (v, WChecked vfs_path data)
  | ws_size v vfs_path data :
      writer_step (v, WChecked vfs_path data) (v, WSized vfs_path data (file_size vfs_path v))
  | ws_refused v vfs_path data existing :
      propose existing (len data) v = Ret None ->
      writer_step (v, WSized vfs_path data existing) (v, WDone (Err tt))
  | ws_reserve v vfs_path data existing new_total :
      propose existing (len data) v = Ret (Some new_total) ->
      writer_step (v, WSized vfs_path data existing) (set_used new_total v, WReserved vfs_path data)
  | ws_stamp v vfs_path data now :
      writer_step (v, WReserved vfs_path data) (v, WStamped vfs_path data now (created_or now vfs_path v))
  | ws_insert v vfs_path data now created :
      let file := mkFile vfs_path data created now (len data) in
      writer_step (v, WStamped vfs_path data now created)
        (set_files (<[vfs_path := file]> (files v)) v, WInserted)
  | ws_count v :
      writer_step (v, WInserted) (count_write v, WDone (Ok tt)).

(** Any writer may move. *)
Inductive vfs_step : VirtualFileSystem * list writer -> VirtualFileSystem * list writer -> Prop :=
  | vfs_step_at v ws i w v' w' :
      ws !! i = Some w -> writer_step (v, w) (v', w') ->
      vfs_step (v, ws) (v', <[i := w']> ws).

(** ** Paths are confined to the mount point *)

Definition proper_segment (s : string) : Prop :=
  s <> "" /\ s <> "." /\ s <> ".." /\ lacks "/" s = true.

Lemma push_segment_proper stack s :
  Forall proper_segment stack -> lacks "/" s = true -> Forall proper_segment (push_segment stack s).
Proof.
  intros Hs Hl. unfold push_segment. case_decide; [done|]. case_decide; [by destruct Hs|].
  constructor; [|done]. unfold proper_segment. tauto.
Qed.

Lemma push_segments_proper parts stack :
  Forall proper_segment stack -> Forall (fun p => lacks "/" p = true) parts ->
  Forall proper_segment (fold_left push_segment parts stack).
Proof.
  revert stack. induction parts as [|p parts IH]; intros stack Hs Hp; [done|].
  apply Forall_cons in Hp as [Hp Hparts]. simpl. by apply IH; [apply push_segment_proper|].
Qed.

(** Proper segments are pushed one after the other. *)
Lemma push_segments_id parts stack :
  Forall proper_segment parts -> fold_left push_segment parts stack = (rev parts ++ stack)%list.
Proof.
  revert stack. induction parts as [|p parts IH]; intros stack Hp; [done|].
  apply Forall_cons in Hp as [Hp Hparts]. simpl. rewrite IH by done.
  destruct Hp as (? & ? & ? & _). unfold push_segment.
  rewrite decide_False by tauto. rewrite decide_False by done. by rewrite <- app_assoc.
Qed.

Lemma normalize_proper p : exists segs, Forall proper_segment segs /\
  normalize_path_segments p = String.concat "/" segs.
Proof.
  eexists. split; [|reflexivity]. apply Forall_rev, push_segments_proper; [done|].
  apply split_char_lacks.
Qed.

Lemma normalize_concat segs : Forall proper_segment segs ->
  normalize_path_segments (String.concat "/" segs) = String.concat "/" segs.
Proof.
  intros Hs. unfold normalize_path_segments. destruct segs as [|s segs]; [done|].
  rewrite split_char_concat; [|done|].
  - by rewrite push_segments_id, app_nil_r, rev_involutive.
  - eapply Forall_impl; [exact Hs|]. by intros ? (_ & _ & _ & ?).
Qed.

Lemma trim_start_char_proper segs : Forall proper_segment segs ->
  trim_start_char "/" (String.concat "/" segs) = String.concat "/" segs.
Proof.
  intros Hs. destruct segs as [|s segs]; [done|]. apply Forall_cons in Hs as [(Hne & _ & _ & Hl) _].
  destruct s as [|c s]; [done|]. destruct segs; simpl in *; by apply andb_prop in Hl as [Hc _];
    rewrite decide_False by (intros ->; by rewrite Ascii.eqb_refl in Hc).
Qed.

(** C30: confinement: whatever path a guest gives, it is redirected to a file under the
    mount point whose components are proper names (never empty, [.] or [..], without a
    slash), so nothing resolves outside the mount point; and the redirection is stable:
    redirecting the confined path again gives the same file. *)
Theorem redirect_confined guest_path v :
  exists segs, Forall proper_segment segs /\
    redirect_path guest_path v = mount_point v ++ "/" ++ String.concat "/" segs /\
    redirect_path (String.concat "/" segs) v = redirect_path guest_path v.
Proof.
  unfold redirect_path. destruct (normalize_proper (trim_start_char "/" guest_path)) as (segs & Hs & ->).
  exists segs. split_and!; [done|done|]. by rewrite trim_start_char_proper, normalize_concat.
Qed.

Example redirect_traversal :
  redirect_path "/../../etc/./passwd" vfs_new = "/dev/shm/serein-vfs/etc/passwd".
Proof. reflexivity. Qed.

(** ** Accounting, one caller at a time *)

Definition stored_bytes (m : gmap string VirtualFile) : Z := map_fold (fun _ f acc => size f + acc) 0 m.

Lemma stored_bytes_insert m k f :
  m !! k = None -> stored_bytes (<[k := f]> m) = (size f + stored_bytes m)%Z.
Proof. intros Hk. unfold stored_bytes. rewrite map_fold_insert_L; [done|intros; lia|done]. Qed.

Lemma stored_bytes_delete m k f :
  m !! k = Some f -> stored_bytes m = (size f + stored_bytes (delete k m))%Z.
Proof.
  intros Hk. rewrite <- (insert_delete_id m k f) at 1 by done.
  rewrite stored_bytes_insert; [done|]. apply lookup_delete_eq.
Qed.

Lemma stored_bytes_set m k f :
  stored_bytes (<[k := f]> m) =
  (stored_bytes m - match m !! k with Some g => size g | None => 0 end + size f)%Z.
Proof.
  destruct (m !! k) as [g|] eqn:Hk.
  - rewrite <- insert_delete_eq, stored_bytes_insert by apply lookup_delete_eq.
    rewrite (stored_bytes_delete m k g Hk). lia.
  - rewrite stored_bytes_insert by done. lia.
Qed.

(** The counter is the sum of the sizes; budget and file limit hold; a file is
    stored under its own path with its own size. *)
Record vfs_wf (v : VirtualFileSystem) : Prop := {
  wf_used : total_bytes_used v = stored_bytes (files v);
  wf_budget : stored_bytes (files v) <= max_total_bytes v <= I64_MAX;
  wf_count : file_count v <= max_file_count v;
  wf_file : forall k f, files v !! k = Some f ->
    path f = k /\ size f = len (file_content f) /\ 0 <= size f }.

Lemma stored_bytes_nonneg m : (forall k f, m !! k = Some f -> 0 <= size f)%Z -> (0 <= stored_bytes m)%Z.
Proof.
  induction m as [|k f m Hk IH] using map_ind; intros Hall; [done|].
  rewrite stored_bytes_insert by done. pose proof (Hall k f (lookup_insert_eq _ _ _)).
  assert (0 <= stored_bytes m)%Z; [|lia]. apply IH. intros k' f' Hk'. apply (Hall k').
  rewrite lookup_insert_ne; [done|congruence].
Qed.

Lemma stored_bytes_ge m k f : (forall k f, m !! k = Some f -> 0 <= size f)%Z ->
  m !! k = Some f -> (size f <= stored_bytes m)%Z.
Proof.
  intros Hall Hk. rewrite (stored_bytes_delete m k f Hk).
  assert (0 <= stored_bytes (delete k m))%Z; [|lia]. apply stored_bytes_nonneg.
  intros k' f' [_ Hk']%lookup_delete_Some. by eapply Hall.
Qed.


Lemma vfs_new_wf v : files v = ∅ -> total_bytes_used v = 0 ->
  (0 <= max_total_bytes v <= I64_MAX)%Z -> (0 <= max_file_count v)%Z -> vfs_wf v.
Proof.
  intros Hf Hu Hm Hc. split; unfold file_count; by rewrite Hf.
Qed.

(** When a write is accepted. *)
Definition write_fits (vfs_path data : string) (v : VirtualFileSystem) : bool :=
  bool_decide (total_bytes_used v - file_size vfs_path v + len data <= max_total_bytes v)%Z &&
  (bool_decide (is_Some (files v !! vfs_path)) || bool_decide (file_count v < max_file_count v)%Z).

Definition written (now : Z) (vfs_path data : string) (v : VirtualFileSystem) : VirtualFileSystem :=
  count_write (set_files
    (<[vfs_path := mkFile vfs_path data (created_or now vfs_path v) now (len data)]> (files v))
    (set_used (total_bytes_used v - file_size vfs_path v + len data)%Z v)).

Lemma file_size_bounds v k : vfs_wf v -> (0 <= file_size k v <= total_bytes_used v)%Z.
Proof.
  intros [Hused Hb _ Hf]. unfold file_size. rewrite Hused.
  assert (Hall : forall k f, files v !! k = Some f -> (0 <= size f)%Z) by (intros; by eapply Hf).
  destruct (files v !! k) as [f|] eqn:Hk.
  - split; [by eapply Hall|by eapply stored_bytes_ge].
  - split; [done|by apply stored_bytes_nonneg].
Qed.

(** A write never panics; it is accepted exactly when it fits, and otherwise
    changes nothing. *)
Lemma write_file_spec now p data v : vfs_wf v ->
  let k := redirect_path p v in
  if write_fits k data v then write_file now p data v = Ret (written now k data v, Ok tt)
  else exists e, write_file now p data v = Ret (v, Err e).
Proof.
  intros Hwf k. pose proof (file_size_bounds v k Hwf) as Hsz.
  destruct Hwf as [Hused Hb _ _]. unfold write_fits, write_file, propose. fold k.
  pose proof (len_nonneg data) as Hlen.
  destruct (decide (max_total_bytes v < len data)%Z) as [Hbig|Hbig].
  { rewrite bool_decide_false by lia. simpl. eauto. }
  assert (Hadd : add_u USIZE_MAX (saturating_sub (total_bytes_used v) (file_size k v)) (len data) =
    Ret (total_bytes_used v - file_size k v + len data)%Z).
  { unfold saturating_sub. rewrite Z.max_r by lia. apply add_u_small. ulia. }
  rewrite Hadd. simpl. clear Hadd.
  destruct (files v !! k) as [f|] eqn:Hk.
  - rewrite (bool_decide_true (is_Some (Some f))) by done.
    rewrite (bool_decide_false (Some f = None)) by done. simpl. rewrite andb_true_r.
    case_decide; [rewrite bool_decide_false by lia; eauto|]. by rewrite bool_decide_true by lia.
  - rewrite (bool_decide_false (is_Some None)) by (by intros []).
    rewrite (bool_decide_true (None = None)) by done. simpl.
    destruct (bool_decide (max_file_count v <= file_count v)%Z) eqn:Hc.
    + apply bool_decide_eq_true in Hc.
      rewrite (bool_decide_false (file_count v < _)%Z), andb_false_r by lia. eauto.
    + apply bool_decide_eq_false in Hc.
      rewrite (bool_decide_true (file_count v < _)%Z), andb_true_r by lia.
      case_decide; [rewrite bool_decide_false by lia; eauto|]. by rewrite bool_decide_true by lia.
Qed.

Lemma written_wf now k data v : vfs_wf v -> write_fits k data v = true -> vfs_wf (written now k data v).
Proof.
  intros Hwf [Hfit%bool_decide_eq_true Hroom]%andb_prop.
  pose proof (file_size_bounds v k Hwf) as Hsz. destruct Hwf as [Hused Hb Hc Hf].
  assert (Hsum : stored_bytes (files (written now k data v)) =
    (total_bytes_used v - file_size k v + len data)%Z).
  { simpl. rewrite stored_bytes_set. simpl. unfold file_size. rewrite Hused. done. }
  split; simpl in *; rewrite ?Hsum; [done|lia| |].
  - unfold file_count in *. simpl. apply orb_prop in Hroom as [Hr%bool_decide_eq_true|Hr%bool_decide_eq_true].
    + by rewrite map_size_insert_Some.
    + destruct (files v !! k) as [f|] eqn:Hk; [by rewrite map_size_insert_Some|].
      rewrite map_size_insert_None by done. lia.
  - intros k' f [[<- <-]|[Hne Hk']]%lookup_insert_Some; [|by apply Hf].
    simpl. split_and!; [done|done|apply len_nonneg].
Qed.

Lemma deleted_wf k f v : vfs_wf v -> files v !! k = Some f ->
  vfs_wf (set_used (wrapping_sub U64_MAX (total_bytes_used v) (size f)) (set_files (delete k (files v)) v)).
Proof.
  intros Hwf Hk. pose proof (file_size_bounds v k Hwf) as Hsz. unfold file_size in Hsz. rewrite Hk in Hsz.
  destruct Hwf as [Hused Hb Hc Hf]. pose proof (stored_bytes_delete _ k f Hk) as Hdel.
  split; simpl; [rewrite wrapping_sub_small by ulia; lia|lia| |].
  - unfold file_count in *. simpl. rewrite map_size_delete, Hk. lia.
  - intros k' f' [_ Hk']%lookup_delete_Some. by apply Hf.
Qed.

Inductive vfs_op : Type :=
  | OpWrite (now : Z) (guest_path data : string)
  | OpRead (guest_path : string)
  | OpDelete (guest_path : string).
Definition apply_op (v : VirtualFileSystem) (op : vfs_op) : outcome VirtualFileSystem :=
  match op with
  | OpWrite now p data => fst <$> write_file now p data v
  | OpRead p => Ret (read_file p v).1
  | OpDelete p => Ret (delete_file p v).1
  end.
Fixpoint run_ops (ops : list vfs_op) (v : VirtualFileSystem) : outcome VirtualFileSystem :=
  match ops with
  | [] => Ret v
  | op :: ops => v ← apply_op v op; run_ops ops v
  end.

Lemma apply_op_wf v op : vfs_wf v -> exists v', apply_op v op = Ret v' /\ vfs_wf v' /\
  max_total_bytes v' = max_total_bytes v /\ max_file_count v' = max_file_count v /\
  mount_point v' = mount_point v.
Proof.
  intros Hwf. destruct op as [now p data|p|p]; simpl.
  - pose proof (write_file_spec now p data v Hwf) as Hw. cbv zeta in Hw.
    destruct (write_fits _ _ _) eqn:Hfit; [rewrite Hw|destruct Hw as [e ->]]; eexists; split; try done.
    split; [by apply written_wf|done].
  - eexists. split; [done|]. unfold read_file. case_match; [|done].
    split; [by destruct Hwf|done].
  - eexists. split; [done|]. unfold delete_file. case_match eqn:Hk; [|done].
    split; [by apply (deleted_wf _ _ v)|done].
Qed.

(** Accounting: through any sequence of writes, reads and deletions, one at a
    time, no operation panics, the byte counter is the sum of the stored sizes, and
    neither the byte budget nor the file limit is exceeded; every file is stored under
    its own path, with the size of its contents. *)
Theorem vfs_accounting ops max_bytes max_files :
  (0 <= max_bytes <= I64_MAX)%Z ->
  exists v, run_ops ops (with_max_file_count max_files (with_max_bytes max_bytes vfs_new)) = Ret v /\
    vfs_wf v /\ max_total_bytes v = max_bytes /\ max_file_count v = Z.max max_files 1 /\
    mount_point v = DEFAULT_MOUNT_POINT.
Proof.
  intros Hb. set (v0 := with_max_file_count _ _).
  assert (Hwf : vfs_wf v0) by (apply vfs_new_wf; simpl; try done; lia).
  change max_bytes with (max_total_bytes v0). change (Z.max max_files 1) with (max_file_count v0).
  change DEFAULT_MOUNT_POINT with (mount_point v0).
  revert Hwf. generalize v0 as v. clear Hb v0.
  induction ops as [|op ops IH]; intros v Hwf; [by exists v|].
  destruct (apply_op_wf v op Hwf) as (v1 & Hop & Hwf1 & <- & <- & <-).
  simpl. rewrite Hop. by apply IH.
Qed.

(** What is written is what is read: after an accepted write, reading any path
    that is redirected to the same file returns the data written, and every other path
    reads as before. *)
Theorem vfs_read_write now p data v v' q :
  write_file now p data v = Ret (v', Ok tt) ->
  (read_file q v').2 =
  if decide (redirect_path q v = redirect_path p v) then Ok data else (read_file q v).2.
Proof.
  unfold write_file. case_decide; [done|]. case_match; [done|].
  destruct (propose _ _ _) as [[t|]|]; simpl; intros; simplify_eq.
  unfold read_file. change (redirect_path q (count_write _)) with (redirect_path q v). simpl.
  destruct (decide (redirect_path q v = redirect_path p v)) as [Hk|Hk].
  - by rewrite Hk, lookup_insert_eq.
  - rewrite lookup_insert_ne by done. by case_match.
Qed.

(** ** Concurrent writers can exceed the budget *)

Lemma vfs_step_rtc v ws i w v' w' v'' ws'' :
  ws !! i = Some w -> writer_step (v, w) (v', w') -> rtc vfs_step (v', <[i := w']> ws) (v'', ws'') ->
  rtc vfs_step (v, ws) (v'', ws'').
Proof. intros. eapply rtc_l; [by econstructor|done]. Qed.

(** A writer that runs alone up to the reservation of its bytes. *)
Lemma writer_sized v ws i p data :
  ws !! i = Some (WStart p data) -> (len data <= max_total_bytes v)%Z ->
  (file_count v < max_file_count v)%Z ->
  let k := redirect_path p v in
  rtc vfs_step (v, ws) (v, <[i := WSized k data (file_size k v)]> ws).
Proof.
  intros Hi Hlen Hroom k. assert (Hlt := lookup_lt_Some _ _ _ Hi).
  eapply vfs_step_rtc; [exact Hi|by apply ws_contains|].
  eapply vfs_step_rtc; [by apply list_lookup_insert_eq|by apply ws_room|]. rewrite list_insert_insert_eq.
  eapply vfs_step_rtc; [by apply list_lookup_insert_eq|by apply ws_size|].
  by rewrite list_insert_insert_eq.
Qed.

(** The state a write leaves. *)
Definition stored_as (k data : string) (total : Z) (v : VirtualFileSystem) : VirtualFileSystem :=
  count_write (set_files (<[k := mkFile k data (created_or 0 k v) 0 (len data)]> (files v)) (set_used total v)).

Lemma stored_as_count k data total v : (file_count (stored_as k data total v) <= file_count v + 1)%Z.
Proof. unfold file_count. simpl. rewrite map_size_insert. destruct (files v !! k); simpl; lia. Qed.

Lemma stored_as_size k k' data total v :
  file_size k (stored_as k' data total v) = if decide (k = k') then len data else file_size k v.
Proof.
  unfold file_size. simpl. case_decide as Hk; [by rewrite Hk, lookup_insert_eq|].
  by rewrite lookup_insert_ne.
Qed.

Lemma stored_as_bytes k data total v :
  stored_bytes (files (stored_as k data total v)) =
  (stored_bytes (files v) - file_size k v + len data)%Z.
Proof. simpl. by rewrite stored_bytes_set. Qed.

(** From there to the end. *)
Lemma writer_finishes v ws i k data existing total :
  ws !! i = Some (WSized k data existing) -> propose existing (len data) v = Ret (Some total) ->
  rtc vfs_step (v, ws) (stored_as k data total v, <[i := WDone (Ok tt)]> ws).
Proof.
  intros Hi Hp. assert (Hlt := lookup_lt_Some _ _ _ Hi).
  eapply vfs_step_rtc; [exact Hi|by apply ws_reserve|].
  eapply vfs_step_rtc; [by apply list_lookup_insert_eq|apply (ws_stamp _ _ _ 0)|].
  rewrite list_insert_insert_eq.
  eapply vfs_step_rtc; [by apply list_lookup_insert_eq|apply ws_insert|]. rewrite list_insert_insert_eq.
  eapply vfs_step_rtc; [by apply list_lookup_insert_eq|apply ws_count|]. rewrite list_insert_insert_eq.
  apply rtc_refl.
Qed.

(** A writer that runs alone from start to end. *)
Lemma writer_runs v ws i p data total :
  ws !! i = Some (WStart p data) -> (len data <= max_total_bytes v)%Z ->
  (file_count v < max_file_count v)%Z ->
  let k := redirect_path p v in
  propose (file_size k v) (len data) v = Ret (Some total) ->
  rtc vfs_step (v, ws) (stored_as k data total v, <[i := WDone (Ok tt)]> ws).
Proof.
  intros Hi Hlen Hroom k Hp. etrans; [by apply writer_sized|].
  pose proof (writer_finishes v (<[i := WSized k data (file_size k v)]> ws) i k data
    (file_size k v) total) as Hf.
  rewrite list_insert_insert_eq in Hf. apply Hf; [|done].
  apply list_lookup_insert_eq. by eapply lookup_lt_Some.
Qed.

Lemma propose_within existing n v total :
  total = (saturating_sub (total_bytes_used v) existing + n)%Z ->
  (total <= max_total_bytes v <= USIZE_MAX)%Z -> propose existing n v = Ret (Some total).
Proof.
  intros -> [? ?]. unfold propose. rewrite add_u_small by lia. simpl. by rewrite decide_False by lia.
Qed.

(** Two writers that sized the file [k], of [n] bytes, before either exchange both give its
    bytes back. *)
Lemma double_shrink v ws i j k n :
  ws !! i = Some (WSized k "" n) -> ws !! j = Some (WSized k "" n) -> i <> j ->
  total_bytes_used v = (2 * n)%Z -> (0 <= n)%Z -> (2 * n <= max_total_bytes v <= USIZE_MAX)%Z ->
  rtc vfs_step (v, ws)
    (stored_as k "" 0 (stored_as k "" n v), <[j := WDone (Ok tt)]> (<[i := WDone (Ok tt)]> ws)).
Proof.
  intros Hi Hj Hne Hu Hn Hmax. etrans.
  { apply (writer_finishes v ws i k "" n n); [done|]. apply propose_within; [|lia].
    rewrite Hu. unfold saturating_sub. change (len "") with 0%Z. lia. }
  apply (writer_finishes (stored_as k "" n v) _ j k "" n 0); [by rewrite list_lookup_insert_ne|].
  apply propose_within; simpl; [|lia]. unfold saturating_sub. change (len "") with 0%Z. lia.
Qed.

(** The budget is not enforced between concurrent writers: the size of the file
    to be replaced is read before the exchange on the counter, so two writers that
    replace the same file both give its bytes back.  For every budget of [2 n] bytes
    there is a run of five writers, all accepted, that leaves [3 n] bytes stored. *)
Theorem vfs_quota_bypass n a b c :
  (0 < n)%Z -> (2 * n <= USIZE_MAX)%Z -> len a = n -> len b = n -> len c = (2 * n)%Z ->
  exists v, rtc vfs_step
    (with_max_bytes (2 * n) vfs_new,
     [WStart "a" a; WStart "b" b; WStart "a" ""; WStart "a" ""; WStart "c" c])
    (v, replicate 5 (WDone (Ok tt))) /\
  max_total_bytes v = (2 * n)%Z /\ stored_bytes (files v) = (3 * n)%Z.
Proof.
  intros Hn Hmax Ha Hb Hc. set (v0 := with_max_bytes (2 * n) vfs_new).
  set (ka := redirect_path "a" v0). set (kb := redirect_path "b" v0). set (kc := redirect_path "c" v0).
  assert (Hkb : kb <> ka) by done. assert (Hkc : kc <> ka) by done. assert (Hkcb : kc <> kb) by done.
  set (v1 := stored_as ka a n v0). set (v2 := stored_as kb b (2 * n) v1).
  set (v3 := stored_as ka "" n v2). set (v4 := stored_as ka "" 0 v3).
  set (v5 := stored_as kc c (2 * n) v4).
  assert (Hcount : forall v, v ∈ [v0; v1; v2; v3; v4] -> (file_count v < 1000)%Z).
  { assert (file_count v0 = 0)%Z by done.
    assert (file_count v1 <= file_count v0 + 1)%Z by apply stored_as_count.
    assert (file_count v2 <= file_count v1 + 1)%Z by apply stored_as_count.
    assert (file_count v3 <= file_count v2 + 1)%Z by apply stored_as_count.
    assert (file_count v4 <= file_count v3 + 1)%Z by apply stored_as_count.
    intros v. rewrite !elem_of_cons, elem_of_nil. intros [->|[->|[->|[->|[->|[]]]]]]; lia. }
  assert (Hs2 : file_size ka v2 = n).
  { unfold v2, v1. rewrite !stored_as_size, (decide_False (P := ka = kb)), (decide_True (P := ka = ka)) by done. done. }
  exists v5. split_and!; [|done|].
  - etrans.
    { apply (writer_runs v0 _ 0 "a" a n); [done|simpl; lia|apply Hcount; rewrite !elem_of_cons; tauto|].
      apply propose_within; simpl; [|lia]. by rewrite Ha. }
    etrans.
    { apply (writer_runs v1 _ 1 "b" b (2 * n)); [done|simpl; lia|apply Hcount; rewrite !elem_of_cons; tauto|].
      apply propose_within; simpl; [|lia]. rewrite Hb. change (redirect_path "b" v1) with kb.
      unfold v1. rewrite stored_as_size, decide_False by done.
      change (file_size kb v0) with 0%Z. unfold saturating_sub. simpl. lia. }
    change (redirect_path "b" v1) with kb. fold v2.
    etrans; [apply (writer_sized v2 _ 2 "a" ""); [done|change (0 <= 2 * n)%Z; lia|apply Hcount; rewrite !elem_of_cons; tauto]|].
    etrans; [apply (writer_sized v2 _ 3 "a" ""); [done|change (0 <= 2 * n)%Z; lia|apply Hcount; rewrite !elem_of_cons; tauto]|].
    change (redirect_path "a" v2) with ka. rewrite Hs2.
    etrans; [apply (double_shrink v2 _ 2 3 ka n); simpl; first [done|lia]|].
    etrans.
    { apply (writer_runs v4 _ 4 "c" c (2 * n)); [done|simpl; lia|apply Hcount; rewrite !elem_of_cons; tauto|].
      apply propose_within; simpl; [|lia]. rewrite Hc. change (redirect_path "c" v4) with kc.
      unfold v4, v3, v2, v1. rewrite !stored_as_size, !decide_False by done.
      change (file_size kc v0) with 0%Z. done. }
    apply rtc_refl.
  - unfold v5, v4, v3. rewrite !stored_as_bytes, !stored_as_size.
    rewrite Hs2, (decide_True (P := ka = ka)), !(decide_False (P := kc = ka)) by done.
    unfold v2, v1. rewrite !stored_as_bytes, !stored_as_size, !(decide_False (P := _ = _)) by done.
    change (file_size _ v0) with 0%Z. change (file_size kc v0) with 0%Z. change (file_size kb v0) with 0%Z.
    change (stored_bytes (files v0)) with 0%Z. rewrite Ha, Hb, Hc. change (len "") with 0%Z. lia.
Qed.

(** ** Honey-tokens and limits *)

Lemma detect_token_leak_iff data t :
  is_Some (detect_token_leak data t) <->
  contains (aws_access_key_id t) data || contains (aws_secret_access_key t) data ||
  contains (db_password t) data || contains (db_connection_string t) data ||
  contains (api_token t) data = true.
Proof.
  unfold detect_token_leak.
  repeat (destruct (contains _ data); simpl; [by split; [|eauto]|]). by split; [intros []|].
Qed.

(** Every credential placed in the guest's environment is recognised in output that
    contains it. *)
Lemma honey_tokens_detected id k v pre post :
  guest_environment (build_honeypot_context id) !! k = Some v ->
  exists name, (scan_for_leaks (pre ++ v ++ post) (build_honeypot_context id)).2 = Some name /\
    leak_detected (scan_for_leaks (pre ++ v ++ post) (build_honeypot_context id)).1 = true.
Proof.
  intros Hk. cut (is_Some (detect_token_leak (pre ++ v ++ post) (tokens_generate id))).
  { intros [name Hname]. exists name. unfold scan_for_leaks. simpl. by rewrite Hname. }
  apply detect_token_leak_iff. rewrite !orb_true_iff.
  unfold guest_environment, build_honeypot_context, context_new in Hk. cbv zeta in Hk.
  change (environment (mkContext _ _ ?e _ _)) with e in Hk.
  generalize dependent (tokens_generate id). intros t Hk.
  rewrite !lookup_insert_Some, lookup_empty in Hk.
  assert (Hc : contains v (pre ++ v ++ post) = true) by apply contains_app.
  repeat (destruct_and! || destruct_or!); subst; tauto || done.
Qed.

(** The flag is set by the first leak and never cleared. *)
Lemma leak_flag_sticky datas c :
  leak_detected (fold_left (fun c data => (scan_for_leaks data c).1) datas c) =
  leak_detected c || existsb (fun data => bool_decide (is_Some (detect_token_leak data (tokens c)))) datas.
Proof.
  revert c. induction datas as [|data datas IH]; intros c; simpl; [by rewrite orb_false_r|].
  rewrite IH. unfold scan_for_leaks. destruct (detect_token_leak data (tokens c)) as [name|]; simpl.
  - by rewrite orb_true_r.
  - done.
Qed.

(** Whatever the configuration, the pool fits the reservation: the memories it
    admits times their largest size. *)
Lemma pooling_within_reservation cfg :
  (0 <= max_memory_pages cfg)%Z -> (0 <= total_memories cfg)%Z ->
  exists c, create_pooling_engine_config cfg = Ret c /\
    (pool_memories (allocation_strategy c) * pool_max_memory_size (allocation_strategy c) <=
     MEMORY_RESERVATION_CAPACITY)%Z /\
    (pool_component_instances (allocation_strategy c) <= MAX_INSTANCES_HARD_CAP)%Z.
Proof.
  intros Hp Hm. unfold create_pooling_engine_config.
  rewrite mul_u_small by (unfold MAX_MEMORY_PAGES_HARD_CAP, WASM_PAGE_SIZE_BYTES; ulia).
  simpl. eexists. split; [done|]. simpl.
  unfold MEMORY_RESERVATION_CAPACITY, MAX_INSTANCES_HARD_CAP, MAX_MEMORY_PAGES_HARD_CAP, WASM_PAGE_SIZE_BYTES.
  nia.
Qed.

(** ** Witnesses *)

Lemma vfs_accounting_witness :
  exists v, run_ops [OpWrite 5 "/tmp/x" "abc"; OpWrite 6 "tmp/../tmp/x" "de"; OpDelete "y"]
      (with_max_file_count 0 (with_max_bytes 4 vfs_new)) = Ret v /\
    vfs_wf v /\ max_total_bytes v = 4%Z /\ max_file_count v = 1%Z /\ mount_point v = DEFAULT_MOUNT_POINT.
Proof.
  apply (vfs_accounting [OpWrite 5 "/tmp/x" "abc"; OpWrite 6 "tmp/../tmp/x" "de"; OpDelete "y"] 4 0). ulia.
Defined.

Definition sample_vfs : VirtualFileSystem :=
  match write_file 7 "a/./b" "data" vfs_new with Ret (v, _) => v | Panic => vfs_new end.

Lemma vfs_read_write_witness : (read_file "/a/c/../b" sample_vfs).2 = Ok "data".
Proof.
  rewrite (vfs_read_write 7 "a/./b" "data" vfs_new sample_vfs "/a/c/../b"); vm_compute; reflexivity.
Defined.

Lemma vfs_quota_bypass_witness :
  exists v, rtc vfs_step
    (with_max_bytes 4 vfs_new,
     [WStart "a" "xx"; WStart "b" "yy"; WStart "a" ""; WStart "a" ""; WStart "c" "zzzz"])
    (v, replicate 5 (WDone (Ok tt))) /\
  max_total_bytes v = 4%Z /\ stored_bytes (files v) = 6%Z.
Proof. by apply (vfs_quota_bypass 2 "xx" "yy" "zzzz"). Defined.
