(* ===== verification/WasiState.v ===== *)
(** * crates/sandbox-guard/src/wasi_virt.rs: compiled modules kept, contexts written and read

    The cache of compiled modules, whose eviction (moka) and compiler (wasmtime) are
    parameters, and the hand-written serde implementations of the virtual file system
    and of the sandbox context. *)
From S2P Require Import Prelude RustStr Json Serde WasiVirt.

Open Scope string_scope.

(** ** The module cache *)

Section module_cache.
(** [evict] is what the cache keeps of its entries after an insertion. *)
Context {Module_ E : Type} (Module_new : string -> result Module_ E)
  (evict : gmap string Module_ -> gmap string Module_).

Definition get_or_compile_module (cache_key wasm_bytes : string) (module_cache : gmap string Module_) :
    gmap string Module_ * result Module_ E :=
  match module_cache !! cache_key with
  | Some cached => (module_cache, Ok cached)
  | None =>
      match Module_new wasm_bytes with
      | Err e => (module_cache, Err e)
      | Ok module => (evict (<[cache_key := module]> module_cache), Ok module)
      end
  end.

(** The calls of a process, which share the cache. *)
Fixpoint get_modules (calls : list (string * string)) (module_cache : gmap string Module_) :
    gmap string Module_ * list (result Module_ E) :=
  match calls with
  | [] => (module_cache, [])
  | (key, bytes) :: calls =>
      let '(module_cache, r) := get_or_compile_module key bytes module_cache in
      let '(module_cache, rs) := get_modules calls module_cache in
      (module_cache, r :: rs)
  end.

Definition compiled_from (calls : list (string * string)) (key : string) (m : Module_) : Prop :=
  exists bytes, (key, bytes) ∈ calls /\ Module_new bytes = Ok m.

Context (Hevict : forall m, evict m ⊆ m).

Lemma get_or_compile_provenance before key bytes cache cache' r :
  map_Forall (compiled_from before) cache ->
  get_or_compile_module key bytes cache = (cache', r) ->
  map_Forall (compiled_from (before ++ [(key, bytes)])%list) cache' /\
  (forall m, r = Ok m -> compiled_from (before ++ [(key, bytes)])%list key m).
Proof using Hevict.
  intros Hc Hr.
  assert (forall k m, compiled_from before k m -> compiled_from (before ++ [(key, bytes)])%list k m) as Hmono.
  { intros k m (b & Hb & Hm). exists b. split; [|done]. apply elem_of_app. by left. }
  unfold get_or_compile_module in Hr. destruct (cache !! key) as [m|] eqn:Hk; [|destruct (Module_new bytes) as [m|e] eqn:Hm].
  - simplify_eq. split; [|intros ? [= <-]; by apply Hmono, Hc].
    intros k m' Hk'. by apply Hmono, Hc.
  - simplify_eq. assert (compiled_from (before ++ [(key, bytes)])%list key m) as Hnew.
    { exists bytes. split; [|done]. apply elem_of_app. right. by apply list_elem_of_singleton. }
    split; [|by intros ? [= <-]].
    intros k m' Hk'. pose proof (lookup_weaken _ _ _ _ Hk' (Hevict _)) as Hin.
    apply lookup_insert_Some in Hin as [[<- <-]|[_ Hin]]; [done|]. by apply Hmono, Hc.
  - simplify_eq. split; [|done]. intros k m Hk'. by apply Hmono, Hc.
Qed.

Lemma get_modules_provenance before calls cache cache' rs i m :
  map_Forall (compiled_from before) cache ->
  get_modules calls cache = (cache', rs) -> rs !! i = Some (Ok m) ->
  exists key bytes, calls !! i = Some (key, bytes) /\
    compiled_from (before ++ take (S i) calls)%list key m.
Proof using Hevict.
  revert before cache rs i. induction calls as [|[key bytes] calls IH]; intros before cache rs i Hc Hr Hi.
  { simpl in Hr. simplify_eq. }
  cbn [get_modules] in Hr. destruct (get_or_compile_module key bytes cache) as [c1 r] eqn:H1.
  destruct (get_modules calls c1) as [c2 rs'] eqn:H2. simplify_eq.
  destruct (get_or_compile_provenance _ _ _ _ _ _ Hc H1) as [Hc1 Hr].
  destruct i as [|i]; cbn in Hi.
  - simplify_eq. exists key, bytes. split; [done|]. by apply Hr.
  - destruct (IH _ _ _ _ Hc1 H2 Hi) as (k & b & Hk & Hfrom). exists k, b. split; [done|].
    by rewrite <- (assoc_L (++)%list) in Hfrom.
Qed.
End module_cache.

(** The module a call gets was compiled for its own cache key, from bytes that some
    call up to then passed with that key; they need not be this call's bytes: a hit
    does not look at them. *)
Theorem cached_module_provenance {Module_ E} (Module_new : string -> result Module_ E) evict calls cache' rs i m :
  (forall m, evict m ⊆ m) ->
  get_modules Module_new evict calls ∅ = (cache', rs) -> rs !! i = Some (Ok m) ->
  exists key bytes, calls !! i = Some (key, bytes) /\
    compiled_from Module_new (take (S i) calls) key m.
Proof.
  intros He Hr Hi.
  destruct (get_modules_provenance Module_new evict He [] calls ∅ cache' rs i m) as (k & b & ? & ?); eauto.
  apply map_Forall_empty.
Qed.

(** A tenant whose module is replaced goes on running the old one. *)
Example replaced_module_served :
  (get_modules (fun b => Ok b : result string unit) (fun m => m) [("tenant", "v1"); ("tenant", "v2")] ∅).2 =
  [Ok "v1"; Ok "v1"].
Proof. reflexivity. Qed.

(** ** Serialization *)

Definition token_fields : list string :=
  ["aws_access_key_id"; "aws_secret_access_key"; "db_password"; "db_connection_string"; "api_token"].
Definition tokens_serialize (t : HoneypotTokens) : Value Z :=
  struct_ser token_fields [JString (aws_access_key_id t); JString (aws_secret_access_key t);
    JString (db_password t); JString (db_connection_string t); JString (api_token t)].
Definition tokens_deserialize (v : Value Z) : option HoneypotTokens :=
  fs ← field_values token_fields v;
  match fs with
  | [a; b; c; d; e] =>
      a ← required str_codec a; b ← required str_codec b; c ← required str_codec c;
      d ← required str_codec d; e ← required str_codec e; Some (mkTokens a b c d e)
  | _ => None
  end.

Definition file_fields : list string := ["path"; "content"; "created_at"; "modified_at"; "size"].
Definition file_serialize (f : VirtualFile) : Value Z :=
  struct_ser file_fields [JString (path f); ser bytes_codec (file_content f); JNumber (created_at f);
    JNumber (modified_at f); JNumber (size f)].
Definition file_deserialize (v : Value Z) : option VirtualFile :=
  fs ← field_values file_fields v;
  match fs with
  | [a; b; c; d; e] =>
      a ← required str_codec a; b ← required bytes_codec b; c ← required (uint_codec U64_MAX) c;
      d ← required (uint_codec U64_MAX) d; e ← required (uint_codec USIZE_MAX) e; Some (mkFile a b c d e)
  | _ => None
  end.
Record file_in_range (f : VirtualFile) : Prop := {
  created_fits : fits U64_MAX (created_at f);
  modified_fits : fits U64_MAX (modified_at f);
  size_fits : fits USIZE_MAX (size f) }.

Lemma tokens_round_trip t : tokens_deserialize (tokens_serialize t) = Some t.
Proof. unfold tokens_deserialize, tokens_serialize. read_fields. destruct t. reflexivity. Qed.

Lemma file_round_trip f : file_in_range f -> file_deserialize (file_serialize f) = Some f.
Proof. intros []. unfold file_deserialize, file_serialize. 
  read_fields. rewrite (required_round_trip bytes_codec _ I). destruct f. reflexivity. Qed.
Definition file_codec : codec VirtualFile := mkCodec file_serialize file_deserialize file_in_range file_round_trip.

(** The [VfsHelper] of the source has the fields in this order. *)
Definition vfs_fields : list string :=
  ["mount_point"; "max_total_bytes"; "max_file_count"; "files"; "total_bytes_used"; "write_count"; "read_count"].

Section contexts.
Context `{HashOrder}.

Definition vfs_serialize (v : VirtualFileSystem) : Value Z :=
  let files_map := list_to_map (hash_iter (files v)) in
  struct_ser vfs_fields [JString (mount_point v); JNumber (max_total_bytes v); JNumber (max_file_count v);
    ser (map_codec file_codec) files_map; JNumber (total_bytes_used v); JNumber (write_count v);
    JNumber (read_count v)].

Definition vfs_deserialize (v : Value Z) : option VirtualFileSystem :=
  fs ← field_values vfs_fields v;
  match fs with
  | [a; b; c; d; e; f; g] =>
      a ← required str_codec a; b ← required (uint_codec USIZE_MAX) b; c ← required (uint_codec USIZE_MAX) c;
      files ← required (map_codec file_codec) d; e ← required (uint_codec U64_MAX) e;
      f ← required (uint_codec U64_MAX) f; g ← required (uint_codec U64_MAX) g;
      Some (mkVfs a b c (list_to_map (hash_iter files)) e f g)
  | _ => None
  end.

(** [Clone]: a new map is filled entry by entry, and each counter is loaded once. *)
Definition vfs_clone (v : VirtualFileSystem) : VirtualFileSystem :=
  mkVfs (mount_point v) (max_total_bytes v) (max_file_count v) (list_to_map (hash_iter (files v)))
    (total_bytes_used v) (write_count v) (read_count v).

Record vfs_in_range (v : VirtualFileSystem) : Prop := {
  max_bytes_fits : fits USIZE_MAX (max_total_bytes v);
  max_files_fits : fits USIZE_MAX (max_file_count v);
  used_fits : fits U64_MAX (total_bytes_used v);
  writes_fits : fits U64_MAX (write_count v);
  reads_fits : fits U64_MAX (read_count v);
  files_fit : map_Forall (fun _ => file_in_range) (files v) }.

Lemma list_to_map_hash_iter {A} (m : gmap string A) : list_to_map (hash_iter m) = m.
Proof.
  rewrite <- (list_to_map_to_list m) at 2. apply list_to_map_proper; [|apply hash_iter_perm].
  rewrite (hash_iter_perm m). apply NoDup_fst_map_to_list.
Qed.

Lemma vfs_clone_id v : vfs_clone v = v.
Proof. unfold vfs_clone. rewrite list_to_map_hash_iter. by destruct v. Qed.

Lemma vfs_round_trip v : vfs_in_range v -> vfs_deserialize (vfs_serialize v) = Some v.
Proof.
  intros []. unfold vfs_deserialize, vfs_serialize. read_fields.
  rewrite list_to_map_hash_iter.
  rewrite (required_round_trip (map_codec file_codec) (files v)) by assumption.
  cbn [mbind option_bind].
  rewrite list_to_map_hash_iter. destruct v. reflexivity.
Qed.
Definition vfs_codec : codec VirtualFileSystem := mkCodec vfs_serialize vfs_deserialize vfs_in_range vfs_round_trip.

Definition context_fields : list string := ["tokens"; "vfs"; "environment"; "leak_detected"; "leaked_token"].

Definition context_serialize (c : WasiVirtContext) : Value Z :=
  struct_ser context_fields [tokens_serialize (tokens c); ser vfs_codec (vfs c);
    ser (map_codec str_codec) (environment c); JBool (leak_flag c); option_ser JString (leaked c)].

Definition context_deserialize (v : Value Z) : option WasiVirtContext :=
  fs ← field_values context_fields v;
  match fs with
  | [a; b; c; d; e] =>
      v ← a; t ← tokens_deserialize v; b ← required vfs_codec b; c ← required (map_codec str_codec) c;
      d ← required bool_codec d; e ← optional str_codec e; Some (mkContext t b c d e)
  | _ => None
  end.

Definition context_clone (c : WasiVirtContext) : WasiVirtContext :=
  mkContext (tokens c) (vfs_clone (vfs c)) (environment c) (leak_flag c) (leaked c).
Lemma context_clone_id c : context_clone c = c.
Proof. unfold context_clone. rewrite vfs_clone_id. by destruct c. Qed.

(** A context that is written and read back is the same: the files with their
    contents, the counters and the recorded leak included. *)
Theorem context_round_trip c : vfs_in_range (vfs c) ->
  context_deserialize (context_serialize c) = Some c.
Proof.
  intros Hv. unfold context_deserialize, context_serialize. read_fields.
  rewrite tokens_round_trip. cbn [mbind option_bind].
  rewrite (required_round_trip vfs_codec _ Hv). cbn [mbind option_bind].
  rewrite (required_round_trip (map_codec str_codec) (environment c)) by (by intros ? ?).
  cbn [mbind option_bind].
  destruct c as [t v e l [s|]]; reflexivity.
Qed.

(** Reading does not check what it reads: counters that the files do not add up to,
    or a file under a path outside of the mount point, come back as they are. *)
Lemma deserialize_trusts v : vfs_in_range v -> ~ vfs_wf v ->
  exists j v', vfs_deserialize j = Some v' /\ ~ vfs_wf v'.
Proof. intros Hr Hv. exists (vfs_serialize v), v. split; [by apply vfs_round_trip|done]. Qed.
End contexts.

Lemma cached_module_provenance_witness :
  exists key bytes, [("a", "x"); ("a", "y")] !! 1%nat = Some (key, bytes) /\
    compiled_from (fun b => Ok b : result string unit) [("a", "x"); ("a", "y")] key "x".
Proof.
  exact (cached_module_provenance (fun b => Ok b : result string unit) (fun m => m) [("a", "x"); ("a", "y")]
    {["a" := "x"]} [Ok "x"; Ok "x"] 1%nat "x" (fun m => reflexivity m) eq_refl eq_refl).
Defined.

Lemma context_round_trip_witness :
  context_deserialize (H := canonical_order) (context_serialize (H := canonical_order) (context_new 7)) =
  Some (context_new 7).
Proof.
  apply (context_round_trip (H := canonical_order) (context_new 7)).
  constructor; [split; vm_compute; discriminate..|intros k f Hf; discriminate Hf].
Defined.
