(* ===== verification/DeterministicHooks.v ===== *)
(** * crates/sandbox-guard/src/deterministic_hooks.rs: the gate before tool use

    The prompt-injection scanner and the destructive-pattern check.  The
    Aho-Corasick automaton, the regular expressions, the JSON parser and Unicode
    lowercasing are parameters; the signature file is what reading it returned. *)
From Stdlib Require Import Ascii.
From S2P Require Import Prelude RustStr.

Open Scope string_scope.

Inductive InjectionCategory : Type :=
  | InstructionOverride | SystemEscape | RoleManipulation | DataExfiltration | EncodingEvasion.

Record WafSignatureEntry := mkSignature { pattern : string; category : string }.

Definition FALLBACK_SIGNATURES : list (string * InjectionCategory) :=
  [
   ("ignore all previous instructions", InstructionOverride);
   ("ignore all prior instructions", InstructionOverride);
   ("ignore previous instructions", InstructionOverride);
   ("ignore the above instructions", InstructionOverride);
   ("disregard all previous", InstructionOverride);
   ("disregard the above", InstructionOverride);
   ("forget your instructions", InstructionOverride);
   ("forget all instructions", InstructionOverride);
   ("system override", SystemEscape);
   ("override system", SystemEscape);
   ("bypass safety", SystemEscape);
   ("bypass restrictions", SystemEscape);
   ("bypass filter", SystemEscape);
   ("bypass content filter", SystemEscape);
   ("disable safety", SystemEscape);
   ("disable your safety", SystemEscape);
   ("jailbreak", SystemEscape);
   ("you are now", RoleManipulation);
   ("you are no longer", RoleManipulation);
   ("pretend you are", RoleManipulation);
   ("act as if you are", RoleManipulation);
   ("act as", RoleManipulation);
   ("roleplay as", RoleManipulation);
   ("new instructions", InstructionOverride);
   ("new directive", InstructionOverride);
   ("reveal your prompt", DataExfiltration);
   ("show your instructions", DataExfiltration);
   ("show your system prompt", DataExfiltration);
   ("output your instructions", DataExfiltration);
   ("print your instructions", DataExfiltration);
   ("what are your instructions", DataExfiltration);
   ("reveal your system prompt", DataExfiltration);
   ("base64 decode", EncodingEvasion);
   ("decode this base64", EncodingEvasion);
   ("rot13", EncodingEvasion);
   ("hex decode", EncodingEvasion);
   ("url decode", EncodingEvasion)].

Record WafViolation := mkViolation { signature : string; violated : InjectionCategory }.

Inductive WafResult : Type :=
  | Clean
  | WafBlocked (v : WafViolation).

(** In the order of the source: [as u8] numbers them 0, 1, 2, 3. *)
Inductive RiskClass : Type := Critical | High | Medium | Low.
Definition RiskClass_as_u8 (r : RiskClass) : Z :=
  match r with Critical => 0 | High => 1 | Medium => 2 | Low => 3 end.

Inductive DestructivePattern : Type :=
  | FileDestruction | DatabaseDestruction | SystemCompromise | NetworkExfiltration
  | PrivilegeEscalation | DataTampering | SandboxEscape
  | Other (s : string).

Inductive HookResult : Type :=
  | Allowed (attestation_token : string)
  | Blocked (pattern_matched : DestructivePattern) (risk_class : RiskClass).

Definition DESTRUCTIVE_PATTERNS : list (string * (DestructivePattern * RiskClass)) :=
  [
   ("(?i)\brm\s+-rf\b", (FileDestruction, Critical));
   ("(?i)\brm\s+-fr\b", (FileDestruction, Critical));
   ("(?i)del\s+/f\s+/s\s+/q\b", (FileDestruction, Critical));
   ("(?i)\bshred\b", (FileDestruction, Critical));
   ("(?i)\bwipefs\b", (FileDestruction, Critical));
   ("(?i)srm\b", (FileDestruction, High));
   ("(?i)\bDROP\s+TABLE\b", (DatabaseDestruction, Critical));
   ("(?i)\bDROP\s+DATABASE\b", (DatabaseDestruction, Critical));
   ("(?i)\bTRUNCATE\b", (DatabaseDestruction, Critical));
   ("(?i)DELETE\s+FROM\s+\S+\s+WHERE\s+1\s*=\s*1", (DatabaseDestruction, Critical));
   ("(?i)\bDROP\s+SCHEMA\b", (DatabaseDestruction, High));
   ("(?i)chmod\s+777\b", (SystemCompromise, High));
   ("(?i)chmod\s+rwx\s+", (SystemCompromise, High));
   ("(?i)curl.*\|\s*(ba)?sh\b", (SystemCompromise, Critical));
   ("(?i)wget.*\|\s*(ba)?sh\b", (SystemCompromise, Critical));
   ("(?i)\beval\s*\(", (SystemCompromise, High));
   ("(?i)\bexec\s*\(", (SystemCompromise, High));
   ("(?i)\bsystem\s*\(", (SystemCompromise, High));
   ("(?i)sudo\s+(su|bash|sh)\b", (PrivilegeEscalation, High));
   ("(?i)pkexec\b", (PrivilegeEscalation, High));
   ("(?i)setuid\b", (PrivilegeEscalation, Medium));
   ("(?i)/proc/\d+/mem\b", (SandboxEscape, Critical));
   ("(?i)ptrace\(PID", (SandboxEscape, Critical));
   ("(?i)mprotect.*PROT_EXEC", (SandboxEscape, Critical));
   ("(?i)\bUPDATE\s+\S+\s+SET\s+.*WHERE\s+1\s*=\s*1", (DataTampering, High));
   ("(?i)--\s*force\b", (DataTampering, Medium));
   ("(?i)nc\s+-[elvp]+\s+\d+", (NetworkExfiltration, High));
   ("(?i)/dev/tcp/\S+/\d+", (NetworkExfiltration, Critical))].

(** The indices of the elements that satisfy [q]: [enumerate] and [filter_map]. *)
Definition indices_of (q : string -> bool) (ps : list string) : list nat :=
  imap pair ps ≫= fun ip => if q ip.2 then [ip.1] else [].

Lemma elem_of_indices q ps i :
  i ∈ indices_of q ps <-> exists p, ps !! i = Some p /\ q p = true.
Proof.
  unfold indices_of. rewrite list_elem_of_bind. split.
  - intros ([j p] & Hi & Hj). apply elem_of_lookup_imap in Hj as (k & p' & Heq & Hp).
    simplify_eq/=. destruct (q p') eqn:Hq; [|by apply elem_of_nil in Hi].
    apply list_elem_of_singleton in Hi as ->. by exists p'.
  - intros (p & Hp & Hq). exists (i, p). simpl. rewrite Hq. split; [by left|].
    apply elem_of_lookup_imap. by exists i, p.
Qed.

(** ** Third-party matchers

    [ac_find]: the indices of the patterns that match, in order of occurrence;
    [ac_builds] and [regex_builds]: whether compilation succeeds. *)
Class Matchers := {
  ac_builds : list string -> bool;
  ac_find : list string -> string -> list nat;
  ac_sound : forall ps hay i, i ∈ ac_find ps hay -> exists p, ps !! i = Some p /\ contains p hay = true;
  ac_complete : forall ps hay p, ac_find ps hay = [] -> p ∈ ps -> contains p hay = false;
  regex_builds : string -> bool;
  is_match : string -> string -> bool;
  to_lowercase : string -> string;
  parse_signatures : string -> option (list WafSignatureEntry) }.

(** ** Rule loading *)

Section hooks.
Context `{Matchers}.

Definition parse_category (cat : string) : InjectionCategory :=
  let c := to_lowercase cat in
  if decide (c ∈ ["instruction_override"; "instructionoverride"]) then InstructionOverride
  else if decide (c ∈ ["system_escape"; "systemescape"]) then SystemEscape
  else if decide (c ∈ ["role_manipulation"; "rolemanipulation"]) then RoleManipulation
  else if decide (c ∈ ["data_exfiltration"; "dataexfiltration"]) then DataExfiltration
  else if decide (c ∈ ["encoding_evasion"; "encodingevasion"]) then EncodingEvasion
  else InstructionOverride.

(** [contents]: the configuration file, when it could be read. *)
Definition load_signatures (contents : option string) : list (string * InjectionCategory) :=
  match contents with
  | Some contents =>
      match parse_signatures contents with
      | Some (e :: es) => (fun e => (pattern e, parse_category (category e))) <$> e :: es
      | Some [] => FALLBACK_SIGNATURES
      | None => FALLBACK_SIGNATURES
      end
  | None => FALLBACK_SIGNATURES
  end.

(** ** The scanner *)

Record PromptInjectionWaf := mkWaf {
  automaton : list string;
  signature_map : list (string * InjectionCategory) }.

Definition waf_new (contents : option string) : outcome PromptInjectionWaf :=
  let signatures := load_signatures contents in
  let patterns := signatures.*1 in
  if ac_builds patterns then Ret (mkWaf patterns signatures) else Panic.

(** The first match whose index is in the map. *)
Fixpoint first_violation (matches : list nat) (w : PromptInjectionWaf) : WafResult :=
  match matches with
  | [] => Clean
  | i :: matches =>
      match signature_map w !! i with
      | Some (s, c) => WafBlocked (mkViolation s c)
      | None => first_violation matches w
      end
  end.

Definition scan (payload : string) (w : PromptInjectionWaf) : WafResult :=
  let lower_payload := to_ascii_lowercase payload in
  first_violation (ac_find (automaton w) lower_payload) w.

(** ** The hook *)

Record PreToolUseHook := mkHook {
  patterns : list string;
  pattern_map : list (DestructivePattern * RiskClass);
  waf : PromptInjectionWaf }.

Definition build_pattern_set_internal : outcome (list string * list (DestructivePattern * RiskClass)) :=
  let classifications := DESTRUCTIVE_PATTERNS.*2 in
  if forallb regex_builds DESTRUCTIVE_PATTERNS.*1
  then Ret (DESTRUCTIVE_PATTERNS.*1, classifications) else Panic.

Definition hook_new (contents : option string) : outcome PreToolUseHook :=
  '(patterns, pattern_map) ← build_pattern_set_internal;
  waf ← waf_new contents;
  Ret (mkHook patterns pattern_map waf).

Definition matching (raw_payload : string) (h : PreToolUseHook) : list nat :=
  indices_of (fun re => is_match re raw_payload) (patterns h).

(** The key of [max_by_key]; the last of several maxima wins. *)
Definition risk_key (h : PreToolUseHook) (i : nat) : Z :=
  match pattern_map h !! i with Some (_, rc) => RiskClass_as_u8 rc | None => 0 end.
Definition max_by_key (key : nat -> Z) (l : list nat) : option nat :=
  fold_left (fun best i =>
    match best with
    | None => Some i
    | Some j => if decide (key j <= key i)%Z then Some i else Some j
    end) l None.

Definition attestation_token (nanos random : Z) : string :=
  "aegis_token_" ++ pretty nanos ++ "_" ++ pretty random.

(** [nanos] and [random] are what the clock and [fastrand] returned. *)
Definition evaluate (raw_payload tool_name : string) (nanos random : Z) (h : PreToolUseHook) :
    outcome HookResult :=
  match scan raw_payload (waf h) with
  | WafBlocked violation =>
      Ret (Blocked (Other ("PromptInjection: " ++ signature violation)) Critical)
  | Clean =>
      match matching raw_payload h with
      | [] => Ret (Allowed (attestation_token nanos random))
      | (first :: _) as matches =>
          let highest_risk_idx := default first (max_by_key (risk_key h) matches) in
          match pattern_map h !! highest_risk_idx with
          | Some (pattern, risk_class) => Ret (Blocked pattern risk_class)
          | None => Panic
          end
      end
  end.

Definition scan_prompt_injection (payload : string) (h : PreToolUseHook) : WafResult :=
  scan payload (waf h).
End hooks.

(** ** The scanner blocks exactly the payloads that contain a signature *)

Section hook_lemmas.
Context `{Matchers}.

Lemma waf_new_fields contents w : waf_new contents = Ret w ->
  signature_map w = load_signatures contents /\ automaton w = (signature_map w).*1.
Proof. unfold waf_new. by case_match; intros; simplify_eq/=. Qed.

Lemma first_violation_spec ms w :
  (forall i, i ∈ ms -> is_Some (signature_map w !! i)) ->
  match first_violation ms w with
  | Clean => ms = []
  | WafBlocked v => exists i, i ∈ ms /\ signature_map w !! i = Some (signature v, violated v)
  end.
Proof.
  destruct ms as [|i ms]; intros Hm; [done|].
  destruct (Hm i) as [[s c] Hi]; [by left|]. simpl. rewrite Hi. exists i. split; [by left|done].
Qed.

Lemma scan_spec contents w payload : waf_new contents = Ret w ->
  match scan payload w with
  | Clean => forall s c, (s, c) ∈ load_signatures contents -> contains s (to_ascii_lowercase payload) = false
  | WafBlocked v => (signature v, violated v) ∈ load_signatures contents /\
      contains (signature v) (to_ascii_lowercase payload) = true
  end.
Proof.
  intros Hw. destruct (waf_new_fields contents w Hw) as [Hmap Hauto]. unfold scan.
  pose proof (first_violation_spec (ac_find (automaton w) (to_ascii_lowercase payload)) w) as Hf.
  destruct (first_violation _ w) as [|v].
  - intros s c Hs. apply (ac_complete (automaton w)).
    + apply Hf. intros i (p & Hp & _)%ac_sound. rewrite Hauto, list_lookup_fmap in Hp.
      destruct (signature_map w !! i); [by eexists|done].
    + rewrite Hauto, Hmap. apply list_elem_of_fmap. by exists (s, c).
  - destruct Hf as (i & Hi & Hv).
    { intros i (p & Hp & _)%ac_sound. rewrite Hauto, list_lookup_fmap in Hp.
      destruct (signature_map w !! i); [by eexists|done]. }
    apply ac_sound in Hi as (p & Hp & Hc). rewrite Hauto, list_lookup_fmap, Hv in Hp.
    simplify_eq/=. rewrite <- Hmap. split; [by eapply list_elem_of_lookup_2|done].
Qed.

Lemma matching_spec raw h i :
  i ∈ matching raw h <-> exists re, patterns h !! i = Some re /\ is_match re raw = true.
Proof. apply elem_of_indices. Qed.

Lemma max_by_key_from (key : nat -> Z) (l : list nat) (j : nat) :
  exists m, fold_left (fun best i =>
    match best with
    | None => Some i
    | Some j => if decide (key j <= key i)%Z then Some i else Some j
    end) l (Some j) = Some m /\ (m = j \/ m ∈ l) /\ (key j <= key m)%Z /\
    forall i, i ∈ l -> (key i <= key m)%Z.
Proof.
  revert j. induction l as [|i l IH]; intros j; simpl.
  - exists j. split_and!; [done|by left|lia|]. by intros i ?%elem_of_nil.
  - case_decide as Hk; [destruct (IH i) as (m & Hm & Hin & Hle & Hall)|
                        destruct (IH j) as (m & Hm & Hin & Hle & Hall)];
      exists m; (split_and!; [done| |lia|]).
    + right. destruct Hin as [->|?]; [by left|by right].
    + intros i' [->|?]%elem_of_cons; [done|by apply Hall].
    + destruct Hin as [->|?]; [by left|right; by right].
    + intros i' [->|?]%elem_of_cons; [lia|by apply Hall].
Qed.

Lemma max_by_key_spec (key : nat -> Z) (l : list nat) : l <> [] ->
  exists m, max_by_key key l = Some m /\ m ∈ l /\ forall i, i ∈ l -> (key i <= key m)%Z.
Proof.
  destruct l as [|j l]; [done|]. intros _.
  destruct (max_by_key_from key l j) as (m & Hm & Hin & Hle & Hall).
  exists m. split_and!; [done| |].
  - destruct Hin as [->|?]; [by left|by right].
  - intros i [->|?]%elem_of_cons; [done|by apply Hall].
Qed.

Lemma hook_new_fields contents h : hook_new contents = Ret h ->
  patterns h = DESTRUCTIVE_PATTERNS.*1 /\ pattern_map h = DESTRUCTIVE_PATTERNS.*2 /\
  waf_new contents = Ret (waf h).
Proof.
  unfold hook_new, build_pattern_set_internal. case_match; [|done]. simpl.
  destruct (waf_new contents) as [w|]; intros; by simplify_eq/=.
Qed.

(** The matching indices are those of the matching entries of the table. *)
Lemma matching_table contents h raw i : hook_new contents = Ret h ->
  i ∈ matching raw h <-> exists re e, DESTRUCTIVE_PATTERNS !! i = Some (re, e) /\
    pattern_map h !! i = Some e /\ is_match re raw = true.
Proof.
  intros (Hp & Hm & _)%hook_new_fields. rewrite matching_spec, Hp, Hm, !list_lookup_fmap.
  split.
  - intros (re & Hre & ?). destruct (DESTRUCTIVE_PATTERNS !! i) as [[re' e]|]; simplify_eq/=. eauto.
  - intros (re & e & -> & _ & ?). simpl. eauto.
Qed.

(** A payload without injection signatures is allowed, or blocked for a matching
    pattern whose class number is the largest among those that match. *)
Lemma evaluate_clean contents h raw tool nanos random :
  hook_new contents = Ret h -> scan raw (waf h) = Clean ->
  (matching raw h = [] /\ evaluate raw tool nanos random h = Ret (Allowed (attestation_token nanos random))) \/
  exists i re p rc, DESTRUCTIVE_PATTERNS !! i = Some (re, (p, rc)) /\ is_match re raw = true /\
    evaluate raw tool nanos random h = Ret (Blocked p rc) /\
    forall j, j ∈ matching raw h -> (risk_key h j <= RiskClass_as_u8 rc)%Z.
Proof.
  intros Hh Hscan. unfold evaluate. rewrite Hscan.
  destruct (matching raw h) as [|first ms] eqn:Hms; [by left|right].
  destruct (max_by_key_spec (risk_key h) (first :: ms)) as (m & -> & Hm & Hall); [done|]. simpl.
  rewrite <- Hms in Hm, Hall. apply (matching_table contents) in Hm as (re & [p rc] & Ht & Hp & Hre); [|done].
  exists m, re, p, rc. rewrite Hp. split_and!; [done|done|done|].
  intros j Hj. rewrite <- Hms in Hj. specialize (Hall j Hj). unfold risk_key in Hall at 2. by rewrite Hp in Hall.
Qed.
End hook_lemmas.

(** C35: the gate decides every payload, without panicking, and lets it through
    exactly when no loaded injection signature occurs in its ASCII-lowercased text and
    no destructive pattern matches. *)
Theorem hook_gate `{Matchers} contents h raw tool nanos random :
  hook_new contents = Ret h ->
  exists r, evaluate raw tool nanos random h = Ret r /\
    ((exists token, r = Allowed token) <->
     (forall s c, (s, c) ∈ load_signatures contents -> contains s (to_ascii_lowercase raw) = false) /\
     (forall re e, (re, e) ∈ DESTRUCTIVE_PATTERNS -> is_match re raw = false)).
Proof.
  intros Hh. pose proof (hook_new_fields contents h Hh) as (_ & _ & Hw).
  pose proof (scan_spec contents (waf h) raw Hw) as Hscan.
  destruct (scan raw (waf h)) as [|v] eqn:Hs.
  - destruct (evaluate_clean contents h raw tool nanos random Hh Hs) as [[Hms ->]|(i & re & p & rc & Ht & Hre & -> & _)].
    + eexists. split; [done|]. split; [|by eauto]. intros _. split; [done|].
      intros re e [i Hi]%list_elem_of_lookup_1. destruct (is_match re raw) eqn:Hm; [|done].
      assert (Hin : i ∈ matching raw h).
      { apply matching_spec. exists re. split; [|done].
        rewrite (proj1 (hook_new_fields contents h Hh)), list_lookup_fmap. by rewrite Hi. }
      rewrite Hms in Hin. by apply elem_of_nil in Hin.
    + eexists. split; [done|]. split; [by intros [? ?]|]. intros [_ Hno].
      rewrite (Hno re (p, rc)) in Hre; [done|]. by eapply list_elem_of_lookup_2.
  - unfold evaluate. rewrite Hs. eexists. split; [done|]. split; [by intros [? ?]|].
    intros [Hno _]. destruct Hscan as [Hin Hc]. by rewrite (Hno _ _ Hin) in Hc.
Qed.

(** The class reported for a blocked payload is that of a matching pattern, and
    the least severe one among those that match: [max_by_key] takes the largest
    [as u8], where [Critical] is 0 (the variable is called [highest_risk_idx]). *)
Theorem hook_reports_least_severe `{Matchers} contents h raw tool nanos random p rc :
  hook_new contents = Ret h -> scan raw (waf h) = Clean ->
  evaluate raw tool nanos random h = Ret (Blocked p rc) ->
  (exists re, (re, (p, rc)) ∈ DESTRUCTIVE_PATTERNS /\ is_match re raw = true) /\
  forall re p' rc', (re, (p', rc')) ∈ DESTRUCTIVE_PATTERNS -> is_match re raw = true ->
    (RiskClass_as_u8 rc' <= RiskClass_as_u8 rc)%Z.
Proof.
  intros Hh Hs He.
  destruct (evaluate_clean contents h raw tool nanos random Hh Hs)
    as [[_ Ha]|(i & re & p0 & rc0 & Ht & Hre & Hb & Hall)]; [by rewrite Ha in He|].
  rewrite Hb in He. injection He as -> ->. split.
  - exists re. split; [by eapply list_elem_of_lookup_2|done].
  - intros re' p' rc' [j Hj]%list_elem_of_lookup_1 Hm.
    assert (Hmap : pattern_map h !! j = Some (p', rc')).
    { rewrite (proj1 (proj2 (hook_new_fields contents h Hh))), list_lookup_fmap. by rewrite Hj. }
    specialize (Hall j). unfold risk_key in Hall. rewrite Hmap in Hall. apply Hall.
    apply (matching_table contents h raw j Hh). by exists re', (p', rc').
Qed.

(** The scanner does not look at the case of ASCII letters in the payload. *)
Lemma scan_case_insensitive `{Matchers} payload payload' w :
  to_ascii_lowercase payload = to_ascii_lowercase payload' -> scan payload w = scan payload' w.
Proof. unfold scan. by intros ->. Qed.

(** A configured signature that contains a capital never blocks anything: the
    payload is lowercased, the signatures are not. *)
Lemma capital_signature_dead `{Matchers} contents w payload c v :
  waf_new contents = Ret w -> in_range 65 90 c = true -> lacks c (signature v) = false ->
  scan payload w <> WafBlocked v.
Proof.
  intros Hw Hc Hl Hs. pose proof (scan_spec contents w payload Hw) as Hspec. rewrite Hs in Hspec.
  destruct Hspec as [_ Hcon]. by rewrite (contains_lower_capital c) in Hcon.
Qed.

(** ** A naive matcher, and witnesses

    Patterns are searched one after the other; a regular expression is taken
    literally, which is enough for the words of the witnesses. *)
Program Definition naive_matchers : Matchers :=
  {| ac_builds _ := true;
     ac_find ps hay := indices_of (fun p => contains p hay) ps;
     regex_builds _ := true;
     is_match re s :=
       match find "\b" re with
       | Some _ => contains (replace "\b" "" (replace "\s+" " " (replace "(?i)" "" re))) (to_ascii_lowercase s)
       | None => contains re s
       end;
     to_lowercase := to_ascii_lowercase;
     parse_signatures _ := None |}.
Next Obligation. by intros ps hay i ?%elem_of_indices. Qed.
Next Obligation.
  intros ps hay p Hnil [i Hi]%list_elem_of_lookup_1. destruct (contains p hay) eqn:Hc; [|done].
  assert (Hin : i ∈ indices_of (fun p => contains p hay) ps) by (apply elem_of_indices; eauto).
  rewrite Hnil in Hin. by apply elem_of_nil in Hin.
Qed.

Definition sample_hook : PreToolUseHook :=
  match hook_new (H := naive_matchers) None with
  | Ret h => h
  | Panic => mkHook [] [] (mkWaf [] [])
  end.

Lemma sample_hook_new : hook_new (H := naive_matchers) None = Ret sample_hook.
Proof. reflexivity. Qed.

Lemma hook_gate_witness :
  exists r, evaluate (H := naive_matchers) "Please JAILBREAK yourself" "t" 0 0 sample_hook = Ret r /\
    ((exists token, r = Allowed token) <->
     (forall s c, (s, c) ∈ load_signatures (H := naive_matchers) None ->
        contains s (to_ascii_lowercase "Please JAILBREAK yourself") = false) /\
     (forall re e, (re, e) ∈ DESTRUCTIVE_PATTERNS ->
        is_match (Matchers := naive_matchers) re "Please JAILBREAK yourself" = false)).
Proof. apply (hook_gate (H := naive_matchers) None), sample_hook_new. Defined.

(** A critical and a medium pattern: the report says medium. *)
Lemma hook_reports_least_severe_witness :
  (exists re, (re, (PrivilegeEscalation, Medium)) ∈ DESTRUCTIVE_PATTERNS /\
     is_match (Matchers := naive_matchers) re "setuid; shred x" = true) /\
  forall re p' rc', (re, (p', rc')) ∈ DESTRUCTIVE_PATTERNS ->
    is_match (Matchers := naive_matchers) re "setuid; shred x" = true ->
    (RiskClass_as_u8 rc' <= RiskClass_as_u8 Medium)%Z.
Proof.
  apply (hook_reports_least_severe (H := naive_matchers) None sample_hook _ "t" 0 0).
  - apply sample_hook_new.
  - vm_compute. reflexivity.
  - vm_compute. reflexivity.
Defined.
