(* ===== verification/XmlHarness.v ===== *)
(** * crates/sandbox-guard/src: tool invocations in XML, the tool registry, and the context

    xml_harness.rs extracts an invocation from a model's answer, mcp_server.rs keeps the
    registered tools, lib.rs builds the context that holds both.  The regex crate's
    matches are parameters with what its documentation promises of a match; the
    iteration order of a map is a parameter that enumerates it. *)
From Stdlib Require Import Ascii String.
From S2P Require Import Prelude RustStr F64 Json DeterministicHooks.

Local Open Scope string_scope.

Inductive XmlHarnessError : Type :=
  | NoInvocationTagFound
  | MalformedTag (reason : string)
  | UnknownTool (tool : string)
  | ParameterValidationFailed (param reason : string)
  | RegexExtractionFailure (reason : string).

Record XmlInvocation := mkInvocation {
  tool_name : string; parameters : gmap string string; raw_xml : string; body : string }.

(** The groups of a match of the invocation pattern. *)
Record Captures := mkCaptures {
  c_tool : string; c_attrs : string; c_body : string; c_closing : string; c_whole : string }.

(** ** Extraction *)

Section extractor.
Context (opening_tag : string -> option Captures) (param_matches : string -> list (string * string)).

(** A later match of a key replaces an earlier one. *)
Definition insert_params (l : list (string * string)) (m : gmap string string) : gmap string string :=
  fold_left (fun m kv => <[kv.1 := kv.2]> m) l m.

Definition control_to_space (s : string) : string :=
  replace (String "009" "") " " (replace (String "013" "") " " (replace newline " " s)).

Definition extract_parameters (body : string) : gmap string string :=
  let params := insert_params (param_matches body) ∅ in
  if bool_decide (params = ∅) && negb (is_empty (trim body)) then
    let stripped := trim (control_to_space (trim body)) in
    if negb (is_empty stripped) then <["_raw_body" := stripped]> params else params
  else params.

Definition tag_mismatch (tool_name closing_tool : string) : XmlHarnessError :=
  MalformedTag ("Tag mismatch: opening <invoke_" ++ tool_name ++ "> does not match closing </invoke_" ++
                closing_tool ++ ">").

Definition extract_invocation (llm_output : string) : result XmlInvocation XmlHarnessError :=
  match opening_tag (trim llm_output) with
  | None => Err NoInvocationTagFound
  | Some caps =>
      if negb (String.eqb (c_tool caps) (c_closing caps)) then Err (tag_mismatch (c_tool caps) (c_closing caps))
      else if is_empty (c_tool caps) then Err (MalformedTag "Empty tool name in invocation tag")
      else
        let parameters := insert_params (param_matches (c_attrs caps)) (extract_parameters (c_body caps)) in
        Ok (mkInvocation (c_tool caps) parameters (c_whole caps) (c_body caps))
  end.

Definition check_param (invocation : XmlInvocation) (param : string) : result unit XmlHarnessError :=
  match parameters invocation !! param with
  | Some v => if is_empty (trim v) then Err (ParameterValidationFailed param "Parameter value is empty") else Ok tt
  | None => Err (ParameterValidationFailed param "Required parameter missing")
  end.
Definition validate_against_schema (invocation : XmlInvocation) (required_params : list string)
    : result unit XmlHarnessError := all_ok (check_param invocation) required_params.

(** [tools_list] in the text of the prompt. *)
Definition build_harness_prompt_fragment (available_tools : list string) : string :=
  let tools_list := String.concat ", " available_tools in
  String.concat newline
    ["";
     "## TOOL INVOCATION PROTOCOL (MANDATORY)";
     "You MUST invoke tools using XML tags. Do NOT use JSON function calling.";
     "";
     "Format:";
     "<invoke_tool_name>";
     "  param1=" ++ quoted "value1";
     "  param2=" ++ quoted "value2";
     "</invoke_tool_name>";
     "";
     "Available tools: " ++ tools_list;
     "";
     "Example:";
     "<invoke_contract_auditor>";
     "  network_id=" ++ quoted "ethereum";
     "</invoke_contract_auditor>";
     "";
     "Respond ONLY with the XML invocation tag. No explanation outside the tags."].
End extractor.

(** ** The body as JSON *)

Section json_body.
Context {Number : Type} (of_i64 : Z -> Number) (from_f64 : f64 -> option Number)
        (parse_f64 : string -> option f64)
        (from_str : string -> option (Value Number)) (to_string : Value Number -> string)
        (to_string_map : list (string * Value Number) -> result string string)
        (iter : gmap string string -> list (string * string)).

Definition param_value (v : string) : Value Number :=
  match parse_i64 v with
  | Some n => JNumber (of_i64 n)
  | None =>
      match parse_f64 v with
      | Some n => match from_f64 n with Some num => JNumber num | None => JString v end
      | None => if String.eqb v "true" || String.eqb v "false" then JBool (String.eqb v "true") else JString v
      end
  end.

Definition param_object (parameters : gmap string string) : list (string * Value Number) :=
  map_collect ((fun kv => (kv.1, param_value kv.2)) <$>
    List.filter (fun kv => negb (String.eqb kv.1 "_raw_body")) (iter parameters)).

Definition extract_json_body (i : XmlInvocation) : result string XmlHarnessError :=
  let trimmed_body := trim (body i) in
  let parsed :=
    if starts_with "{" trimmed_body || starts_with "[" trimmed_body then from_str trimmed_body else None in
  match parsed with
  | Some json_value => Ok (to_string json_value)
  | None =>
      let json_obj := param_object (parameters i) in
      if bool_decide (json_obj = []) && negb (is_empty trimmed_body) then Ok trimmed_body
      else match to_string_map json_obj with
           | Ok s => Ok s
           | Err e => Err (RegexExtractionFailure ("JSON serialization failed: " ++ e))
           end
  end.
End json_body.

(** ** The registry *)

Record ToolParameter := mkToolParameter {
  p_name : string; param_type : string; required : bool; p_description : string }.
Record McpTool := mkTool { t_name : string; t_description : string; t_parameters : list ToolParameter }.

(** A poisoned lock is recovered, so the mutex has no state of its own. *)
Record McpServer := mkServer { server_name : string; tools : list McpTool }.

Definition server_new (name version : string) : McpServer := mkServer name [].
Definition register_tool (tool : McpTool) (s : McpServer) : McpServer :=
  mkServer (server_name s) (tools s ++ [tool])%list.
Definition list_tools (s : McpServer) : list McpTool := tools s.
Definition get_tool (name : string) (s : McpServer) : option McpTool :=
  List.find (fun t => String.eqb (t_name t) name) (tools s).
Definition tool_count (s : McpServer) : Z := Z.of_nat (length (tools s)).

(** ** The context *)

Definition contract_auditor : McpTool :=
  mkTool "contract_auditor" "Audit smart contract bytecode for vulnerabilities"
    [mkToolParameter "network_id" "string" true "Blockchain network identifier (e.g., ethereum, polygon)"].
Definition schema_validator : McpTool :=
  mkTool "schema_validator" "Validate transaction schema against network rules"
    [mkToolParameter "tx_payload" "string" true "JSON-encoded execution payload to validate"].
Definition aegis_server : McpServer :=
  register_tool schema_validator (register_tool contract_auditor (server_new "serein-aegis" "1.0.0")).

(** The patterns of the extractor always compile, so [new_fallback] is not reached. *)
Record AegisCtx := mkAegis { mcp_server : McpServer; pre_tool_hook : PreToolUseHook }.
Definition aegis_new `{Matchers} (waf_patterns : option string) : outcome AegisCtx :=
  hook ← hook_new waf_patterns; Ret (mkAegis aegis_server hook).
Definition trigger_asymmetric_counter (ctx : AegisCtx) : string :=
  "Aegis Defense Active: Malicious intent detected and blocked. (Fast-Fail)".

(** ** What an extracted invocation is *)

(** The last value a list of matches gives a key. *)
Definition assoc_last (k : string) (l : list (string * string)) : option string :=
  fold_left (fun o kv => if String.eqb kv.1 k then Some kv.2 else o) l None.

Lemma assoc_last_from k l o :
  fold_left (fun o kv => if String.eqb kv.1 k then Some kv.2 else o) l o =
  match assoc_last k l with Some v => Some v | None => o end.
Proof.
  revert o. unfold assoc_last. induction l as [|[k' v] l IH]; intros o; [done|]. cbn.
  rewrite IH, (IH (if String.eqb k' k then _ else _)). by destruct (fold_left _ l None), (String.eqb k' k).
Qed.

Lemma lookup_insert_params l m k :
  insert_params l m !! k = match assoc_last k l with Some v => Some v | None => m !! k end.
Proof.
  unfold insert_params. revert m. induction l as [|[k' v] l IH]; intros m; [done|]. cbn.
  rewrite IH, assoc_last_from. destruct (String.eqb_spec k' k) as [->|Hk].
  - rewrite lookup_insert_eq. by destruct (assoc_last k l).
  - rewrite lookup_insert_ne by done. by destruct (assoc_last k l).
Qed.

Lemma insert_params_empty l : insert_params l ∅ = ∅ <-> l = [].
Proof.
  split; [|by intros ->]. destruct l as [|[k v] l] using rev_ind; [done|]. unfold insert_params.
  rewrite fold_left_app. cbn. intros He. by apply insert_non_empty in He.
Qed.

Section extracted.
Context (opening_tag : string -> option Captures) (param_matches : string -> list (string * string)).
Local Abbreviation extract := (extract_invocation opening_tag param_matches).

(** What the pattern of the invocation promises of a match. *)
Definition captures_sound : Prop := forall s c, opening_tag s = Some c ->
  c_whole c = "<invoke_" ++ c_tool c ++ c_attrs c ++ ">" ++ c_body c ++ "</invoke_" ++ c_closing c ++ ">" /\
  (exists before after, s = before ++ c_whole c ++ after) /\
  lacks ">" (c_attrs c) = true /\ c_tool c <> "" /\ c_closing c <> "".

(** The text of a body without parameters. *)
Definition raw_text (body : string) : string := trim (control_to_space (trim body)).

Lemma extract_parameters_lookup b k :
  extract_parameters param_matches b !! k =
  if bool_decide (param_matches b = []) then
    (if bool_decide (k = "_raw_body") && negb (is_empty (trim b)) && negb (is_empty (raw_text b))
     then Some (raw_text b) else None)
  else assoc_last k (param_matches b).
Proof.
  unfold extract_parameters. destruct (param_matches b) as [|p l] eqn:Hp.
  - rewrite !bool_decide_eq_true_2 by done. cbn [insert_params fold_left andb]. fold (raw_text b).
    destruct (negb (is_empty (trim b))); rewrite ?andb_false_r; [|done].
    destruct (negb (is_empty (raw_text b))); rewrite ?andb_false_r, ?andb_true_r; [|done].
    case_bool_decide as Hk; [by rewrite Hk, lookup_insert_eq|by rewrite lookup_insert_ne].
  - rewrite !bool_decide_eq_false_2 by (rewrite ?insert_params_empty; done). cbn [andb].
    rewrite lookup_insert_params. by destruct (assoc_last k _).
Qed.

(** An invocation is only extracted from a complete element: the trimmed answer has an
    opening and a closing tag with the extracted name around the extracted body; a key has
    the last value the attributes give it, or else the last of the body; when the body
    has no pair its text is the parameter [_raw_body]. *)
Theorem extract_invocation_spec llm_output i : captures_sound -> extract llm_output = Ok i ->
  exists attrs before after,
    trim llm_output = before ++ raw_xml i ++ after /\
    raw_xml i = "<invoke_" ++ tool_name i ++ attrs ++ ">" ++ body i ++ "</invoke_" ++ tool_name i ++ ">" /\
    tool_name i <> "" /\ lacks ">" attrs = true /\
    forall k, parameters i !! k =
      match assoc_last k (param_matches attrs) with
      | Some v => Some v
      | None =>
          if bool_decide (param_matches (body i) = []) then
            (if bool_decide (k = "_raw_body") && negb (is_empty (trim (body i))) &&
                negb (is_empty (raw_text (body i))) then Some (raw_text (body i)) else None)
          else assoc_last k (param_matches (body i))
      end.
Proof.
  intros Hs. unfold extract_invocation. destruct (opening_tag (trim llm_output)) as [c|] eqn:Ec; [|done].
  destruct (String.eqb_spec (c_tool c) (c_closing c)) as [Ht|]; [|done]. cbn [negb].
  destruct (is_empty (c_tool c)); [done|]. intros [= <-]. cbn [tool_name parameters raw_xml body].
  destruct (Hs _ _ Ec) as (Hw & (before & after & Hin) & Ha & Hne & _).
  exists (c_attrs c), before, after. rewrite <- Ht in Hw. split_and!; [done..|].
  intros k. by rewrite lookup_insert_params, extract_parameters_lookup.
Qed.

(** Validation passes exactly when every required parameter is there and is not blank. *)
Theorem validate_spec i required_params :
  validate_against_schema i required_params = Ok tt <->
  Forall (fun p => exists v, parameters i !! p = Some v /\ trim v <> "") required_params.
Proof.
  unfold validate_against_schema. rewrite all_ok_Forall. apply Forall_iff. intros p. unfold check_param, is_empty.
  destruct (parameters i !! p) as [v|]; [|naive_solver]. case_bool_decide; naive_solver.
Qed.
End extracted.

(** ** The JSON of an invocation *)

Lemma find_map_insert {Number} k k' (v : Value Number) m :
  value_get k (JObject (map_insert k' v m)) = if String.eqb k' k then Some v else value_get k (JObject m).
Proof.
  cbn. induction m as [|[k0 v0] m IH]; cbn [map_insert List.find].
  { cbn. by destruct (String.eqb k' k). }
  destruct (String.eqb_spec k0 k') as [->|H0]; cbn [List.find fst].
  - by destruct (String.eqb k' k).
  - destruct (String.eqb_spec k0 k) as [->|H1]; [|exact IH].
    destruct (String.eqb_spec k' k) as [->|]; [done|done].
Qed.

Lemma value_get_collect_from {Number} k (l m : list (string * Value Number)) :
  value_get k (JObject (fold_left (fun acc e => map_insert e.1 e.2 acc) l m)) =
  match List.find (fun e => String.eqb e.1 k) (rev l) with
  | Some e => Some e.2 | None => value_get k (JObject m) end.
Proof.
  revert m. induction l as [|[k' v] l IH] using rev_ind; intros m; [done|].
  rewrite fold_left_app, rev_app_distr. cbn [fold_left]. rewrite find_map_insert. cbn [fst snd].
  cbn [rev app List.find fst]. destruct (String.eqb k' k); [done|]. apply IH.
Qed.

Lemma value_get_map_collect {Number} k w (l : list (string * Value Number)) :
  (forall x, (k, x) ∈ l <-> w = Some x) -> value_get k (JObject (map_collect l)) = w.
Proof.
  intros Hl. unfold map_collect. rewrite value_get_collect_from.
  destruct (List.find _ (rev l)) as [[k' x]|] eqn:Ef.
  - apply List.find_some in Ef as [Hin Hk]. apply String.eqb_eq in Hk. cbn in Hk. subst k'.
    symmetry. apply Hl. apply list_elem_of_In. by apply in_rev.
  - cbn. destruct w as [x|]; [|done]. assert (Hin : (k, x) ∈ l) by by apply Hl.
    apply (List.find_none _ _) with (x := (k, x)) in Ef; [by rewrite String.eqb_refl in Ef|].
    apply in_rev. rewrite rev_involutive. by apply list_elem_of_In.
Qed.

Section json_bodies.
Context {Number : Type} (of_i64 : Z -> Number) (from_f64 : f64 -> option Number)
        (parse_f64 : string -> option f64)
        (from_str : string -> option (Value Number)) (to_string : Value Number -> string)
        (to_string_map : list (string * Value Number) -> result string string)
        (iter : gmap string string -> list (string * string))
        (iter_entries : forall m k v, (k, v) ∈ iter m <-> m !! k = Some v).
Local Abbreviation object := (param_object of_i64 from_f64 parse_f64 iter).
Local Abbreviation json := (extract_json_body of_i64 from_f64 parse_f64 from_str to_string to_string_map iter).

Lemma param_object_get ps k :
  value_get k (JObject (object ps)) =
  if String.eqb k "_raw_body" then None else param_value of_i64 from_f64 parse_f64 <$> ps !! k.
Proof.
  apply value_get_map_collect. intros x. rewrite list_elem_of_fmap. split.
  - intros ([k' v] & [= -> ->] & Hin). apply list_elem_of_In, List.filter_In in Hin as [Hin Hk].
    apply list_elem_of_In, iter_entries in Hin. cbn in *. apply negb_true_iff in Hk. by rewrite Hk, Hin.
  - destruct (String.eqb k "_raw_body") eqn:Hk; [done|]. destruct (ps !! k) as [v|] eqn:Hv; [|done].
    cbn. intros [= <-]. exists (k, v). split; [done|]. apply list_elem_of_In, List.filter_In.
    cbn. rewrite Hk. split; [|done]. by apply list_elem_of_In, iter_entries.
Qed.

Lemma param_object_empty ps :
  object ps = [] <-> (forall k, k <> "_raw_body" -> ps !! k = None).
Proof.
  split.
  - intros He k Hk. pose proof (param_object_get ps k) as Hg. rewrite He in Hg. cbn in Hg.
    apply String.eqb_neq in Hk. rewrite Hk in Hg. by destruct (ps !! k).
  - intros Hn. unfold param_object. destruct (List.filter _ (iter ps)) as [|[k v] l] eqn:Ef; [done|].
    assert (Hin : In (k, v) ((k, v) :: l)) by by left. rewrite <- Ef in Hin.
    apply List.filter_In in Hin as [Hin Hk]. apply list_elem_of_In, iter_entries in Hin. cbn in Hk.
    rewrite Hn in Hin; [done|]. intros ->. done.
Qed.

Definition body_json (i : XmlInvocation) : option (Value Number) :=
  if starts_with "{" (trim (body i)) || starts_with "[" (trim (body i)) then from_str (trim (body i)) else None.

(** The JSON of an invocation is its body, printed again, when the body is a JSON object
    or array; else, when it has parameters, the object that gives each but [_raw_body]
    its value, an integer, a finite float, a boolean or else the text; and without any,
    the trimmed body as it stands, which is then no JSON object or array. *)
Theorem extract_json_body_spec i :
  (forall v, body_json i = Some v -> json i = Ok (to_string v)) /\
  (body_json i = None ->
   (exists k, k <> "_raw_body" /\ is_Some (parameters i !! k)) ->
   exists obj, json i = (match to_string_map obj with
                         | Ok s => Ok s
                         | Err e => Err (RegexExtractionFailure ("JSON serialization failed: " ++ e))
                         end) /\
     forall k, value_get k (JObject obj) =
       if String.eqb k "_raw_body" then None else param_value of_i64 from_f64 parse_f64 <$> parameters i !! k) /\
  (body_json i = None -> (forall k, k <> "_raw_body" -> parameters i !! k = None) ->
   trim (body i) <> "" -> json i = Ok (trim (body i))).
Proof.
  unfold extract_json_body. fold (body_json i). split_and!.
  - intros v Hv. by rewrite Hv.
  - intros Hb (k & Hk & Hs). rewrite Hb. exists (object (parameters i)).
    split; [|intros k'; apply param_object_get]. rewrite (bool_decide_eq_false_2 (object _ = [])); [done|].
    rewrite param_object_empty. intros Hn. rewrite (Hn k Hk) in Hs. by destruct Hs.
  - intros Hb Hn Ht. rewrite Hb. rewrite (bool_decide_eq_true_2 (object _ = [])) by by apply param_object_empty.
    unfold is_empty. by rewrite bool_decide_eq_false_2.
Qed.
End json_bodies.

(** ** The registry *)

(** A tool is found by its name as soon as it is registered, unless one of that name was
    registered before, which then stays the one that is found; every registration shows
    in the list and the count, in order. *)
Theorem registered_tool_found tool s name :
  get_tool name (register_tool tool s) =
    match get_tool name s with
    | Some t => Some t
    | None => if String.eqb (t_name tool) name then Some tool else None
    end /\
  list_tools (register_tool tool s) = (list_tools s ++ [tool])%list /\
  tool_count (register_tool tool s) = tool_count s + 1.
Proof.
  unfold get_tool, list_tools, tool_count, register_tool. cbn [tools]. split_and!; [|done|].
  - induction (tools s) as [|t l IH]; [done|]. cbn. by destruct (String.eqb (t_name t) name).
  - rewrite length_app. cbn [length]. lia.
Qed.

(** ** Witnesses *)

Definition sample_answer : string := "ok <invoke_audit a=1>b=2</invoke_audit>".
Definition sample_captures : Captures :=
  mkCaptures "audit" " a=1" "b=2" "audit" "<invoke_audit a=1>b=2</invoke_audit>".
Definition sample_tag (s : string) : option Captures :=
  if String.eqb s sample_answer then Some sample_captures else None.
(** Pairs around an equals sign, one in a text. *)
Definition sample_pairs (s : string) : list (string * string) :=
  match split_char "=" (trim s) with [k; v] => [(k, v)] | _ => [] end.

Lemma sample_sound : captures_sound sample_tag.
Proof.
  intros s c. unfold sample_tag. destruct (String.eqb_spec s sample_answer) as [->|]; [|done]. intros [= <-].
  split_and!; try done. by exists "ok ", "".
Qed.

Definition sample_invocation : XmlInvocation :=
  mkInvocation "audit" (<["a" := "1"]> (<["b" := "2"]> ∅)) "<invoke_audit a=1>b=2</invoke_audit>" "b=2".

Lemma extract_invocation_spec_witness :
  extract_invocation sample_tag sample_pairs sample_answer = Ok sample_invocation /\
  exists attrs before after,
    trim sample_answer = before ++ raw_xml sample_invocation ++ after /\ lacks ">" attrs = true.
Proof.
  split; [reflexivity|].
  destruct (extract_invocation_spec sample_tag sample_pairs sample_answer sample_invocation sample_sound eq_refl)
    as (attrs & before & after & Ht & _ & _ & Ha & _).
  by exists attrs, before, after.
Defined.

Lemma extract_json_body_spec_witness :
  extract_json_body (fun n => n) (fun _ => None) (fun _ => None) (fun _ => None) (fun _ => "") (fun _ => Ok "{}")
    map_to_list (mkInvocation "audit" (<["_raw_body" := "text"]> ∅) "" " text ") = Ok "text".
Proof.
  apply (extract_json_body_spec (fun n => n) (fun _ => None) (fun _ => None) (fun _ => None) (fun _ => "")
    (fun _ => Ok "{}") map_to_list (fun m k v => elem_of_map_to_list m k v)
    (mkInvocation "audit" (<["_raw_body" := "text"]> ∅) "" " text ")).
  - reflexivity.
  - intros k Hk. cbn. by rewrite lookup_insert_ne.
  - discriminate.
Defined.

(** A mismatch of the tags is reported, and an unregistered tool is not: the extractor does
    not read the registry. *)
Example unregistered_extracted :
  extract_invocation sample_tag sample_pairs sample_answer = Ok sample_invocation /\
  get_tool "audit" aegis_server = None /\ tool_count aegis_server = 2.
Proof. split_and!; reflexivity. Qed.
