(* ===== verification/SignatureVerify.v ===== *)
(** * crates/sandbox-guard/src/signature_verify.rs: Ed25519 payload signatures

    The hex crate and ed25519-dalek are parameters: [hex_decode] gives the bytes or its
    error, [key_from_bytes] accepts or refuses 32 bytes, [key_verify] checks a signature. *)
From Stdlib Require Import Ascii String.
From S2P Require Import Prelude RustStr.

Local Open Scope string_scope.

Inductive SignatureError : Type :=
  | InvalidPublicKey (reason : string)
  | VerificationFailed (reason : string)
  | MissingPublicKey
  | InvalidSignature (reason : string).

Section signatures.
Context {Key : Type} (hex_decode : string -> result string string)
  (key_from_bytes : string -> result Key string) (key_verify : Key -> string -> string -> result unit string).

Record PayloadVerifier := mkVerifier { public_key : Key }.

Definition wrong_length (expected : string) (text : string) : string :=
  "expected " ++ expected ++ ", got " ++ pretty (len text / 2) ++ " bytes".

Definition from_hex (key_hex : string) : result PayloadVerifier SignatureError :=
  if is_empty key_hex then Err MissingPublicKey
  else
    match hex_decode key_hex with
    | Err e => Err (InvalidPublicKey ("hex decode: " ++ e))
    | Ok key_bytes =>
        if decide (String.length key_bytes = 32%nat) then
          match key_from_bytes key_bytes with
          | Err e => Err (InvalidPublicKey ("invalid Ed25519 key: " ++ e))
          | Ok public_key => Ok (mkVerifier public_key)
          end
        else Err (InvalidPublicKey (wrong_length "32 bytes (64 hex chars)" key_hex))
    end.

(** [env] is the variable [AEGIS_PUBLIC_KEY]. *)
Definition from_env (env : option string) : result PayloadVerifier SignatureError :=
  match env with None => Err MissingPublicKey | Some key_hex => from_hex key_hex end.

Definition verify (v : PayloadVerifier) (payload signature_hex : string) : result unit SignatureError :=
  match hex_decode signature_hex with
  | Err e => Err (InvalidSignature ("hex decode: " ++ e))
  | Ok sig_bytes =>
      if decide (String.length sig_bytes = 64%nat) then
        match key_verify (public_key v) payload sig_bytes with
        | Err e => Err (VerificationFailed e)
        | Ok tt => Ok tt
        end
      else Err (InvalidSignature (wrong_length "64 bytes (128 hex chars)" signature_hex))
  end.
Definition verify_string (v : PayloadVerifier) (payload signature_hex : string) : result unit SignatureError :=
  verify v payload signature_hex.

(** A payload passes exactly with 64 bytes of hex that the key of the environment, 32
    bytes of hex that form a point of the curve, verifies for it; without a key every
    payload is refused. *)
Theorem signature_gate env payload signature_hex :
  (v <-? from_env env ;; verify_string v payload signature_hex) = Ok tt <->
  exists key_hex key_bytes key sig_bytes,
    env = Some key_hex /\ key_hex <> "" /\ hex_decode key_hex = Ok key_bytes /\
    String.length key_bytes = 32%nat /\ key_from_bytes key_bytes = Ok key /\
    hex_decode signature_hex = Ok sig_bytes /\ String.length sig_bytes = 64%nat /\
    key_verify key payload sig_bytes = Ok tt.
Proof.
  split.
  - destruct env as [key_hex|]; [|done]. cbn [from_env]. unfold from_hex, is_empty. case_bool_decide; [done|].
    destruct (hex_decode key_hex) as [kb|] eqn:Hk; [|done]. case_decide; [|done].
    destruct (key_from_bytes kb) as [key|] eqn:Hf; [|done]. cbn. unfold verify_string, verify.
    destruct (hex_decode signature_hex) as [sb|] eqn:Hs; [|done].
    destruct (decide (String.length sb = 64%nat)); [|done]. cbn [public_key].
    destruct (key_verify key payload sb) as [[]|] eqn:Hv; [|done]. intros _. by exists key_hex, kb, key, sb.
  - intros (kh & kb & key & sb & -> & Hne & Hk & Hkl & Hf & Hs & Hsl & Hv). cbn [from_env].
    unfold from_hex, is_empty. rewrite bool_decide_eq_false_2 by done. rewrite Hk, Hkl, decide_True by done. rewrite Hf. cbn.
    unfold verify_string, verify. rewrite Hs, Hsl, decide_True by done. cbn. by rewrite Hv.
Qed.
End signatures.

Example no_key_refuses : from_env (Key := unit) (fun s => Ok s) (fun _ => Ok tt) (Some "") = Err MissingPublicKey.
Proof. reflexivity. Qed.

(** Hex pairs as they are, a key that is any 32 bytes, and signatures that repeat the
    payload. *)
Definition sample_decode (s : string) : result string string := Ok s.
Definition sample_verify (k payload sig : string) : result unit string :=
  if starts_with payload sig then Ok tt else Err "mismatch".
Definition sample_bytes (n : nat) : string := collect_str (repeat "a" n).

Lemma signature_gate_witness :
  (v <-? from_env sample_decode (fun k => Ok k) (Some (sample_bytes 32)) ;;
   verify_string sample_decode sample_verify v "aa" (sample_bytes 64)) = Ok tt.
Proof.
  apply (signature_gate sample_decode (fun k => Ok k) sample_verify).
  exists (sample_bytes 32), (sample_bytes 32), (sample_bytes 32), (sample_bytes 64).
  split_and!; first [reflexivity|discriminate].
Defined.
