(* ===== verification/FlightRecorder.v ===== *)
(** * crates/cache-storage/src/flight_recorder.rs: the audit log and the corpus

    The hot path builds a row and puts it on a bounded channel; a background
    writer collects batches and inserts them into SQLite.  SQLite's verdicts (a failed
    transaction, a failed row) are arguments of the steps; chrono and serde_json
    formats and the SQL ordering are parameters. *)
From Stdlib Require Import Ascii.
From S2P Require Import Prelude RustStr Json.
From S2P Require Serde.

Open Scope string_scope.

Definition CHANNEL_BOUND : nat := Z.to_nat 10000.
Definition BATCH_SIZE : nat := 64.

Inductive EventType : Type :=
  | PromptSent | ResponseReceived | ResponseError | CircuitBreakerTripped | CircuitBreakerReset
  | RateLimitHit | TokenBucketExhausted | CacheHit | CacheMiss | SecurityEvent.

(** The variant names, which serde writes. *)
Definition EventType_name (e : EventType) : string :=
  match e with
  | PromptSent => "PromptSent" | ResponseReceived => "ResponseReceived"
  | ResponseError => "ResponseError" | CircuitBreakerTripped => "CircuitBreakerTripped"
  | CircuitBreakerReset => "CircuitBreakerReset" | RateLimitHit => "RateLimitHit"
  | TokenBucketExhausted => "TokenBucketExhausted" | CacheHit => "CacheHit"
  | CacheMiss => "CacheMiss" | SecurityEvent => "SecurityEvent"
  end.

(** [trim_matches] with the double quote. *)
Definition trim_quotes (s : string) : string :=
  rev_string (trim_start_char "034" (rev_string (trim_start_char "034" s))).

(** A record as it is queried; the numbers of the metadata are kept as text. *)
Record FlightRecord := mkRecord {
  r_id : Z;
  r_timestamp : Z;
  r_event_type : EventType;
  r_node_name : string;
  r_request_id : string;
  r_payload_summary : string;
  r_raw_prompt : option string;
  r_raw_response : option string;
  r_error_message : option string;
  r_duration_ms : option Z;
  r_token_count : option Z;
  r_metadata : list (string * Value string) }.

Record RecordQuery := mkQuery {
  q_event_type : option EventType;
  q_node_name : option string;
  q_request_id : option string;
  q_since : option Z;
  q_until : option Z;
  q_limit : option Z;
  q_offset : option Z }.

(** A row as it is inserted: integers are [i64]. *)
Record FlightRecorderRecord := mkRow {
  timestamp : string;
  event_type : string;
  node_name : string;
  request_id : string;
  payload_summary : string;
  raw_prompt : option string;
  raw_response : option string;
  error_message : option string;
  duration_ms : option Z;
  token_count : option Z;
  metadata : string }.

Inductive FlightRecorderCommand : Type :=
  | RecordEvent (r : FlightRecorderRecord)
  | Shutdown.

Record RecordEventArgs := mkArgs {
  a_event_type : EventType;
  a_node_name : string;
  a_request_id : string;
  a_payload_summary : string;
  a_raw_prompt : option string;
  a_raw_response : option string;
  a_error_message : option string;
  a_duration_ms : option Z;
  a_token_count : option Z }.

(** ** Truncation *)

Definition truncate (s : string) (max_len : nat) : outcome string :=
  if decide (String.length s <= max_len)%nat then Ret s
  else
    p ← slice_to s max_len;
    Ret (p ++ "... [truncated, " ++ pretty (len s) ++ " bytes]").

Definition truncate_opt (s : option string) (max_len : nat) : outcome (option string) :=
  match s with None => Ret None | Some s => t ← truncate s max_len; Ret (Some t) end.

(** ** Formats

    [to_rfc3339] and [parse_from_rfc3339] (chrono), what serde_json reads (in general, and
    as a map for the metadata), and the result of ORDER BY timestamp DESC. *)
Definition letters (s : string) : bool :=
  forallb (fun c => in_range 65 90 c || in_range 97 122 c) (String.list_ascii_of_string s).
Class Formats := {
  to_rfc3339 : Z -> string;
  parse_from_rfc3339 : string -> option Z;
  rfc3339_round_trip : forall t, parse_from_rfc3339 (to_rfc3339 t) = Some t;
  json_from_str : string -> option (Value string);
  json_letters : forall s, letters s = true -> json_from_str (quoted s) = Some (JString s);
  metadata_from_json : string -> option (list (string * Value string));
  metadata_empty : metadata_from_json "{}" = Some [];
  order_desc : list (Z * FlightRecorderRecord) -> list (Z * FlightRecorderRecord);
  order_desc_perm : forall rows, Permutation (order_desc rows) rows }.

(** The derived reader of an event type. *)
Definition all_events : list EventType :=
  [PromptSent; ResponseReceived; ResponseError; CircuitBreakerTripped; CircuitBreakerReset;
   RateLimitHit; TokenBucketExhausted; CacheHit; CacheMiss; SecurityEvent].
Definition event_from_json `{Formats} (json : string) : option EventType :=
  v ← json_from_str json;
  '(name, content) ← Serde.tagged v;
  if negb (Serde.unit_content content) then None
  else List.find (fun e => String.eqb (EventType_name e) name) all_events.

(** [u64 as i64], [i64 as u64] and [i64 as u32]. *)
Definition as_i64 (n : Z) : Z := if decide (n <= I64_MAX) then n else n - (U64_MAX + 1).
Definition as_u64 (n : Z) : Z := n mod (U64_MAX + 1).
Definition as_u32 (n : Z) : Z := n mod (U32_MAX + 1).

Section recorder.
Context `{Formats}.

(** The row built on the hot path; [serde_json::to_string] puts quotes around the
    variant, [trim_matches] strips them. *)
Definition build_row (now : Z) (args : RecordEventArgs) : outcome FlightRecorderRecord :=
  summary ← truncate (a_payload_summary args) 500;
  prompt ← truncate_opt (a_raw_prompt args) (Z.to_nat 10000);
  response ← truncate_opt (a_raw_response args) (Z.to_nat 10000);
  let et_clean := trim_quotes (quoted (EventType_name (a_event_type args))) in
  Ret (mkRow (to_rfc3339 now) et_clean (a_node_name args)
    (a_request_id args) summary prompt response (a_error_message args)
    (as_i64 <$> a_duration_ms args) (a_token_count args) "{}").

(** What [query] makes of a row. *)
Definition row_to_record (now : Z) (row : Z * FlightRecorderRecord) : FlightRecord :=
  let '(id, row) := row in
  let ts := default now (parse_from_rfc3339 (timestamp row)) in
  let et := default SecurityEvent (event_from_json (quoted (event_type row))) in
  let meta := default [] (metadata_from_json (metadata row)) in
  mkRecord id ts et (node_name row) (request_id row) (payload_summary row) (raw_prompt row)
    (raw_response row) (error_message row) (as_u64 <$> duration_ms row)
    (as_u32 <$> token_count row) meta.

(** [db] is the table when it could be opened and prepared. *)
Definition query (now : Z) (q : RecordQuery) (db : option (list (Z * FlightRecorderRecord))) :
    list FlightRecord :=
  let limit := default 100 (q_limit q) in
  let offset := default 0 (q_offset q) in
  match db with
  | None => []
  | Some rows =>
      row_to_record now <$> take (Z.to_nat limit) (drop (Z.to_nat offset) (order_desc rows))
  end.

Definition count (db : option (list (Z * FlightRecorderRecord))) : Z :=
  match db with Some rows => Z.of_nat (length rows) | None => 0 end.

Definition record_response_args (node_name request_id prompt response : string)
    (duration_ms token_count : Z) : RecordEventArgs :=
  mkArgs ResponseReceived node_name request_id
    ("Response from " ++ node_name ++ " (" ++ pretty token_count ++ " tokens)")
    (Some prompt) (Some response) None (Some duration_ms) (Some token_count).

Definition record_error_args (node_name request_id prompt error : string) (duration_ms : Z) :
    RecordEventArgs :=
  mkArgs ResponseError node_name request_id ("Error from " ++ node_name ++ ": " ++ error)
    (Some prompt) None (Some error) (Some duration_ms) None.
End recorder.

(** ** The channel and the background writer *)

(** The verdict of SQLite on a batch: a transaction that could not be begun,
    prepared or committed, or one flag per row. *)
Inductive verdict : Type :=
  | TxFailed
  | Committed (rows : list bool).

Definition kept {A} (flags : list bool) (l : list A) : list A :=
  (filter (fun p : bool * A => p.1 = true) (zip flags l)).*2.

(** The rows of a batch that end up in the table. *)
Definition insert_batch (v : verdict) (batch : list FlightRecorderRecord) : list FlightRecorderRecord :=
  match v with TxFailed => [] | Committed flags => kept flags batch end.

(** The writer waits in [recv_timeout], or drains the channel with [try_recv]. *)
Inductive writer_phase : Type := Receiving | Draining | Stopped.

(** The inserts are kept with their verdicts. *)
Record Recorder := mkRecorder {
  channel : list FlightRecorderCommand;
  sender : bool;
  phase : writer_phase;
  batch : list FlightRecorderRecord;
  inserts : list (verdict * list FlightRecorderRecord) }.

Definition recorder_init : Recorder := mkRecorder [] true Receiving [] [].

(** The rows this run has added to the table, apart from those that were there before and
    from the daily clean-up ([Retention]); and [insert_batch], which returns at once on an
    empty batch. *)
Definition table (s : Recorder) : list FlightRecorderRecord :=
  concat ((fun i => insert_batch i.1 i.2) <$> inserts s).
Definition flush (v : verdict) (b : list FlightRecorderRecord)
    (i : list (verdict * list FlightRecorderRecord)) : list (verdict * list FlightRecorderRecord) :=
  if decide (b = []) then i else (i ++ [(v, b)])%list.

(** The label is the row that the step puts on the channel. *)
Inductive recorder_step : option FlightRecorderRecord -> Recorder -> Recorder -> Prop :=
  (* record_event: try_send on the bounded channel *)
  | rs_send c p b i r :
      (length c < CHANNEL_BOUND)%nat -> p <> Stopped ->
      recorder_step (Some r) (mkRecorder c true p b i) (mkRecorder (c ++ [RecordEvent r]) true p b i)
  (* Drop: try_send(Shutdown), then the sender goes away *)
  | rs_drop c p b i :
      let c' := if decide (length c < CHANNEL_BOUND)%nat then (c ++ [Shutdown])%list else c in
      recorder_step None (mkRecorder c true p b i) (mkRecorder c' false p b i)
  (* recv_timeout *)
  | rs_recv_flush r c s b i v :
      (BATCH_SIZE <= length (b ++ [r]))%nat ->
      recorder_step None (mkRecorder (RecordEvent r :: c) s Receiving b i)
        (mkRecorder c s Draining [] (flush v (b ++ [r]) i))
  | rs_recv r c s b i :
      (length (b ++ [r]) < BATCH_SIZE)%nat ->
      recorder_step None (mkRecorder (RecordEvent r :: c) s Receiving b i)
        (mkRecorder c s Draining (b ++ [r]) i)
  | rs_recv_shutdown c s b i v :
      recorder_step None (mkRecorder (Shutdown :: c) s Receiving b i)
        (mkRecorder c s Stopped [] (flush v b i))
  | rs_timeout s b i v :
      recorder_step None (mkRecorder [] s Receiving b i) (mkRecorder [] s Draining [] (flush v b i))
  | rs_disconnected b i v :
      recorder_step None (mkRecorder [] false Receiving b i)
        (mkRecorder [] false Stopped [] (flush v b i))
  (* try_recv *)
  | rs_drained c s b i :
      (BATCH_SIZE <= length b)%nat ->
      recorder_step None (mkRecorder c s Draining b i) (mkRecorder c s Receiving b i)
  | rs_try_recv r c s b i :
      (length b < BATCH_SIZE)%nat ->
      recorder_step None (mkRecorder (RecordEvent r :: c) s Draining b i)
        (mkRecorder c s Draining (b ++ [r]) i)
  | rs_try_shutdown c s b i v :
      (length b < BATCH_SIZE)%nat ->
      recorder_step None (mkRecorder (Shutdown :: c) s Draining b i)
        (mkRecorder c s Stopped [] (flush v b i))
  | rs_try_empty b i :
      (length b < BATCH_SIZE)%nat ->
      recorder_step None (mkRecorder [] true Draining b i) (mkRecorder [] true Receiving b i)
  | rs_try_disconnected b i v :
      (length b < BATCH_SIZE)%nat ->
      recorder_step None (mkRecorder [] false Draining b i)
        (mkRecorder [] false Stopped [] (flush v b i)).

(** The states reached when the rows [accepted] have been put on the channel. *)
Inductive reachable : list FlightRecorderRecord -> Recorder -> Prop :=
  | reach_init : reachable [] recorder_init
  | reach_step accepted s label s' :
      reachable accepted s -> recorder_step label s s' ->
      reachable (accepted ++ option_list label) s'.

(** ** What is recorded is what is read *)

Lemma trim_quotes_name e : trim_quotes (quoted (EventType_name e)) = EventType_name e.
Proof. by destruct e. Qed.

Lemma event_round_trip `{Formats} e : event_from_json (quoted (EventType_name e)) = Some e.
Proof. unfold event_from_json. rewrite json_letters by by destruct e. by destruct e. Qed.

Lemma as_u64_as_i64 n : 0 <= n <= U64_MAX -> as_u64 (as_i64 n) = n.
Proof.
  intros Hn. unfold as_u64, as_i64. case_decide; [apply Z.mod_small; ulia|].
  symmetry. apply Z.mod_unique with (-1); ulia.
Qed.

Lemma as_u32_small n : 0 <= n <= U32_MAX -> as_u32 n = n.
Proof. intros. apply Z.mod_small. ulia. Qed.

Lemma truncate_short s n : (String.length s <= n)%nat -> truncate s n = Ret s.
Proof. intros. unfold truncate. by rewrite decide_True. Qed.

Lemma truncate_opt_short s n :
  (forall t, s = Some t -> String.length t <= n)%nat -> truncate_opt s n = Ret s.
Proof. destruct s as [t|]; [|done]. intros Ht. simpl. by rewrite truncate_short by auto. Qed.

(** The arguments of the types of the code, with texts below the truncation
    limits. *)
Definition args_fit (a : RecordEventArgs) : Prop :=
  (String.length (a_payload_summary a) <= 500)%nat /\
  (forall t, a_raw_prompt a = Some t -> String.length t <= Z.to_nat 10000)%nat /\
  (forall t, a_raw_response a = Some t -> String.length t <= Z.to_nat 10000)%nat /\
  (forall d, a_duration_ms a = Some d -> 0 <= d <= U64_MAX)%Z /\
  (forall t, a_token_count a = Some t -> 0 <= t <= U32_MAX)%Z.

(** An event whose texts are not longer than the limits is read back as it was
    recorded: the type, the time, the texts and the full range of the duration survive
    the row's strings and signed integers. *)
Theorem record_round_trip `{Formats} now now' id a :
  args_fit a ->
  exists row, build_row now a = Ret row /\
    row_to_record now' (id, row) =
    mkRecord id now (a_event_type a) (a_node_name a) (a_request_id a) (a_payload_summary a)
      (a_raw_prompt a) (a_raw_response a) (a_error_message a) (a_duration_ms a) (a_token_count a) [].
Proof.
  intros (Hs & Hp & Hr & Hd & Ht). unfold build_row.
  rewrite truncate_short, !truncate_opt_short by done. simpl. eexists. split; [done|]. simpl.
  rewrite trim_quotes_name, rfc3339_round_trip, event_round_trip, metadata_empty. simpl.
  f_equal.
  - destruct (a_duration_ms a) as [d|]; [|done]. simpl. by rewrite as_u64_as_i64 by auto.
  - destruct (a_token_count a) as [t|]; [|done]. simpl. by rewrite as_u32_small by auto.
Qed.

(** Recording panics on the caller's path when a text is longer than its limit
    and the limit falls inside a character: for every prompt of more than 10,000 bytes
    whose byte at that offset continues a character, whatever the other arguments. *)
Theorem record_event_panics `{Formats} now a prompt c :
  a_raw_prompt a = Some prompt -> (Z.to_nat 10000 < String.length prompt)%nat ->
  String.get (Z.to_nat 10000) prompt = Some c -> in_range 128 191 c = true ->
  build_row now a = Panic.
Proof.
  intros Hp Hlen Hget Hc. unfold build_row. rewrite Hp.
  destruct (truncate (a_payload_summary a) 500) as [s|]; [|done]. simpl.
  unfold truncate. rewrite decide_False by lia.
  unfold slice_to, is_char_boundary. by rewrite Hget, Hc.
Qed.

(** The filters of a query have no influence on its result. *)
Lemma query_ignores_filters `{Formats} now q q' db :
  q_limit q = q_limit q' -> q_offset q = q_offset q' -> query now q db = query now q' db.
Proof. unfold query. by intros -> ->. Qed.

(** ** Accepted events reach SQLite, in order *)

Fixpoint pending_rows (c : list FlightRecorderCommand) : list FlightRecorderRecord :=
  match c with
  | [] => []
  | RecordEvent r :: c => r :: pending_rows c
  | Shutdown :: c => pending_rows c
  end.

(** [Shutdown] is sent once, last. *)
Definition shutdown_last (s : Recorder) : Prop :=
  exists rs, channel s = RecordEvent <$> rs \/
    sender s = false /\ channel s = ((RecordEvent <$> rs) ++ [Shutdown])%list.

Record recorder_inv (accepted : list FlightRecorderRecord) (s : Recorder) : Prop := {
  inv_fifo : accepted = (concat (inserts s).*2 ++ batch s ++ pending_rows (channel s))%list;
  inv_last : shutdown_last s;
  inv_bound : (length (channel s) <= CHANNEL_BOUND)%nat;
  inv_batch : (length (batch s) <= BATCH_SIZE)%nat;
  inv_inserts : Forall (fun i => 0 < length i.2 <= BATCH_SIZE + 1)%nat (inserts s);
  inv_stopped : phase s = Stopped ->
    sender s = false /\ batch s = [] /\ pending_rows (channel s) = [] }.

Lemma flush_rows v b i : concat (flush v b i).*2 = (concat i.*2 ++ b)%list.
Proof.
  unfold flush. case_decide as Hb; [by rewrite Hb, app_nil_r|].
  by rewrite fmap_app, concat_app; simpl; rewrite app_nil_r.
Qed.

Lemma flush_sizes v b i : (length b <= BATCH_SIZE + 1)%nat ->
  Forall (fun i => 0 < length i.2 <= BATCH_SIZE + 1)%nat i ->
  Forall (fun i => 0 < length i.2 <= BATCH_SIZE + 1)%nat (flush v b i).
Proof.
  intros Hb Hi. unfold flush. case_decide; [done|]. apply Forall_app. split; [done|].
  apply Forall_singleton. simpl. destruct b; [done|]. simpl in *. lia.
Qed.

Lemma pending_rows_records rs : pending_rows (RecordEvent <$> rs) = rs.
Proof. induction rs as [|r rs IH]; [done|]. by apply (f_equal (cons r)). Qed.

Lemma pending_rows_app c c' : pending_rows (c ++ c') = (pending_rows c ++ pending_rows c')%list.
Proof. induction c as [|[r|] c IH]; [done| |done]. simpl. by rewrite IH. Qed.

(** What is left behind a received command. *)
Lemma shutdown_last_tail c s p b i cmd p' b' i' :
  shutdown_last (mkRecorder (cmd :: c) s p b i) ->
  shutdown_last (mkRecorder c s p' b' i') /\
  (cmd = Shutdown -> s = false /\ pending_rows c = []).
Proof.
  intros [[|r rs] [Hc|[Hs Hc]]]; simpl in *; simplify_eq/=.
  - split; [exists []; by left|done].
  - split; [exists rs; by left|done].
  - split; [exists rs; by right|done].
Qed.

Lemma shutdown_last_open c p b i p' b' i' : shutdown_last (mkRecorder c true p b i) ->
  forall cmd s', (cmd = Shutdown -> s' = false) -> shutdown_last (mkRecorder (c ++ [cmd]) s' p' b' i').
Proof.
  intros [rs [Hc|[Hs _]]] cmd s' Hcmd; simpl in *; [|done]. subst. destruct cmd as [r|].
  - exists (rs ++ [r])%list. left. by rewrite fmap_app.
  - exists rs. right. by auto.
Qed.

Lemma shutdown_last_closed c p b i p' b' i' : shutdown_last (mkRecorder c true p b i) ->
  shutdown_last (mkRecorder c false p' b' i').
Proof. intros [rs [Hc|[Hs _]]]; [|done]. exists rs. by left. Qed.

Lemma recorder_step_inv label accepted s s' :
  recorder_inv accepted s -> recorder_step label s s' -> recorder_inv (accepted ++ option_list label) s'.
Proof.
  intros [Hf Hl Hb Hk Hi Hst] Hstep. unfold BATCH_SIZE in *.
  destruct Hstep as [c p b i r Hc Hp|c p b i c'| | | | | | | | | |]; simpl in *; rewrite ?app_nil_r;
    repeat match goal with
    | Hl : shutdown_last (mkRecorder (_ :: _) _ _ _ _) |- _ =>
        eapply shutdown_last_tail in Hl as [Hl Hlast]
    end.
  2: { split; simpl; subst c'; try done; case_decide; rewrite ?pending_rows_app, ?app_nil_r, ?length_app;
         simpl; rewrite ?app_nil_r; try done; try lia.
       - by eapply shutdown_last_open.
       - by eapply shutdown_last_closed.
       - intros Hs. destruct (Hst Hs) as [? _]. done.
       - intros Hs. destruct (Hst Hs) as [? _]. done. }
  all: split; simpl; rewrite ?flush_rows, ?pending_rows_app, ?length_app in *; unfold BATCH_SIZE in *;
    simpl in *; try done; try lia; try (rewrite Hf, <- ?app_assoc, ?app_nil_r; done);
    try (apply flush_sizes; [rewrite ?length_app; unfold BATCH_SIZE; simpl; lia|done]);
    try (by intros _; destruct (Hlast eq_refl)).
  by eapply shutdown_last_open.
Qed.

Lemma recorder_reachable_inv accepted s : reachable accepted s -> recorder_inv accepted s.
Proof.
  induction 1 as [|accepted s label s' _ IH Hstep]; [|by eapply recorder_step_inv].
  split; simpl; try done; try lia. by exists []; left.
Qed.

Lemma kept_sublist {A} flags (l : list A) : kept flags l `sublist_of` l.
Proof.
  revert flags. induction l as [|x l IH]; intros [|[] flags]; unfold kept in *; simpl;
    try (apply sublist_nil_l); constructor; apply IH.
Qed.

Lemma kept_all {A} (l : list A) : kept (replicate (length l) true) l = l.
Proof. induction l as [|x l IH]; [done|]. unfold kept in *. simpl. by f_equal. Qed.

(** A verdict that stores the whole batch. *)
Definition stored_whole (i : verdict * list FlightRecorderRecord) : Prop :=
  i.1 = Committed (replicate (length i.2) true).

Lemma table_sublist inserts :
  concat ((fun i => insert_batch i.1 i.2) <$> inserts) `sublist_of` concat inserts.*2.
Proof.
  induction inserts as [|[[|flags] b] l IH]; [done|by apply sublist_inserts_l|].
  apply sublist_app; [apply kept_sublist|done].
Qed.

Lemma table_whole inserts : Forall stored_whole inserts ->
  concat ((fun i => insert_batch i.1 i.2) <$> inserts) = concat inserts.*2.
Proof.
  induction 1 as [|[v b] l Hv _ IH]; [done|]. unfold stored_whole in Hv. simpl in *. subst.
  simpl. rewrite kept_all. by f_equal.
Qed.

(** C31: in every run of callers and writer, the events accepted on the channel are,
    in order, those handed to SQLite, then the batch, then the channel's contents, which
    never exceed its bound; a batch has at most 65 rows, one more than [BATCH_SIZE]; the
    rows this run adds to the table are accepted events in their order; and once the writer
    has stopped every accepted event was handed to SQLite, so when SQLite stores its batches
    these rows are exactly the accepted events. *)
Theorem recorder_fifo accepted s :
  reachable accepted s ->
  accepted = (concat (inserts s).*2 ++ batch s ++ pending_rows (channel s))%list /\
  (length (channel s) <= CHANNEL_BOUND)%nat /\
  Forall (fun i => length i.2 <= BATCH_SIZE + 1)%nat (inserts s) /\
  table s `sublist_of` accepted /\
  (phase s = Stopped -> accepted = concat (inserts s).*2 /\
    (Forall stored_whole (inserts s) -> table s = accepted)).
Proof.
  intros Hr. destruct (recorder_reachable_inv accepted s Hr) as [Hf Hl Hb Hk Hi Hst].
  pose proof (table_sublist (inserts s)) as Hsub. split_and!; [done|done| | |].
  - eapply Forall_impl; [exact Hi|]. simpl. lia.
  - rewrite Hf. by apply sublist_inserts_r.
  - intros Hs. destruct (Hst Hs) as (_ & Hbatch & Hpend).
    rewrite Hbatch, Hpend, !app_nil_r in Hf. split; [done|]. intros Hw.
    unfold table. by rewrite table_whole.
Qed.

(** ** The consensus corpus

    Events with two or more agreeing nodes are serialised onto a bounded channel; a
    writer task appends one line each to the file of the day.  The state has the
    contents of the files on disk and the buffer of the open file. *)
Record ProviderResultEntry := mkProviderResult {
  provider : string;
  status : string;
  canonical_key : option string }.

Record ConsensusEvent := mkEvent {
  e_timestamp : Z;
  e_request_id : string;
  tenant_id : string;
  prompt : string;
  inference_params : Value string;
  agreeing_nodes : Z;
  total_nodes : Z;
  adjudication_logic : string;
  consensus_payload : Value string;
  provider_results : list ProviderResultEntry;
  fallback_activated : bool }.

Record ConsensusFlightRecorder := mkCorpus {
  corpus_path : string;
  corpus_channel : list string;
  corpus_closed : bool;
  drop_count : Z }.

Definition DEFAULT_CORPUS_PATH : string := "./serein-telemetry/ssd_training_corpus.jsonl".
Definition corpus_new (path : option string) : ConsensusFlightRecorder :=
  mkCorpus (default DEFAULT_CORPUS_PATH path) [] false 0.

(** The derived writers; [datetime_text] is chrono's text of an instant. *)
Definition ProviderResultEntry_ser (p : ProviderResultEntry) : Value string :=
  JObject [("provider", JString (provider p)); ("status", JString (status p));
           ("canonicalKey", match canonical_key p with Some key => JString key | None => JNull end)].
Definition ConsensusEvent_ser (datetime_text : Z -> string) (e : ConsensusEvent) : Value string :=
  JObject [("timestamp", JString (datetime_text (e_timestamp e)));
           ("requestId", JString (e_request_id e)); ("tenantId", JString (tenant_id e));
           ("prompt", JString (prompt e)); ("inferenceParams", inference_params e);
           ("agreeingNodes", JNumber (pretty (agreeing_nodes e)));
           ("totalNodes", JNumber (pretty (total_nodes e)));
           ("adjudicationLogic", JString (adjudication_logic e));
           ("consensusPayload", consensus_payload e);
           ("providerResults", JArray (List.map ProviderResultEntry_ser (provider_results e)));
           ("fallbackActivated", JBool (fallback_activated e))].

(** [to_string] is serde_json's. *)
Definition record_consensus_event (datetime_text : Z -> string) (to_string : Value string -> option string)
    (event : ConsensusEvent) (r : ConsensusFlightRecorder) : ConsensusFlightRecorder :=
  if decide (agreeing_nodes event < 2)%Z then r else
  match to_string (ConsensusEvent_ser datetime_text event) with
  | None => r
  | Some json_line =>
      if corpus_closed r then r
      else if decide (length (corpus_channel r) < Z.to_nat 10000)%nat
      then mkCorpus (corpus_path r) (corpus_channel r ++ [json_line]) false (drop_count r)
      else mkCorpus (corpus_path r) (corpus_channel r) false (wrapping_add U64_MAX (drop_count r) 1)
  end.

Record CorpusWriter := mkWriter {
  current_date : string;
  open_file : string;
  buffer : string;
  disk : gmap string string }.

Definition corpus_file (date : string) : string := "ssd_training_corpus_" ++ date ++ ".jsonl".

Definition contents (f : string) (d : gmap string string) : string := default "" (d !! f).
Definition writer_flush (w : CorpusWriter) : CorpusWriter :=
  mkWriter (current_date w) (open_file w) ""
    (<[open_file w := contents (open_file w) (disk w) ++ buffer w]> (disk w)).

(** The task's start: it gives up when the path has no parent directory or the
    file cannot be opened. *)
Definition writer_start (has_parent open_ok : bool) (today : string) (d : gmap string string) :
    option CorpusWriter :=
  if has_parent && open_ok then Some (mkWriter today (corpus_file today) "" d) else None.

(** One received line: [open_ok] tells whether the new day's file could be opened. *)
Definition writer_turn (w : CorpusWriter) (now_date : string) (open_ok : bool) (line : string) :
    CorpusWriter :=
  let w :=
    if decide (now_date = current_date w) then w
    else if open_ok then
      mkWriter now_date (corpus_file now_date) "" (disk (writer_flush w))
    else w in
  mkWriter (current_date w) (open_file w) (buffer w ++ line ++ newline) (disk w).

Fixpoint writer_run (turns : list (string * bool * string)) (w : CorpusWriter) : CorpusWriter :=
  match turns with
  | [] => writer_flush w
  | (date, open_ok, line) :: turns => writer_run turns (writer_turn w date open_ok line)
  end.

(** The day whose file a line goes to, and the text a file gets. *)
Fixpoint routed (today : string) (turns : list (string * bool * string)) : list (string * string) :=
  match turns with
  | [] => []
  | (date, open_ok, line) :: turns =>
      let today := if open_ok then date else today in
      (today, line) :: routed today turns
  end.
Definition text_of (file : string) (lines : list (string * string)) : string :=
  foldr (fun '(day, line) s => if decide (corpus_file day = file) then (line ++ newline) ++ s else s)
    "" lines.

Lemma contents_flush f w :
  contents f (disk (writer_flush w)) =
  contents f (disk w) ++ (if decide (f = open_file w) then buffer w else "").
Proof.
  unfold contents. simpl. case_decide as Hf.
  - by rewrite Hf, lookup_insert_eq.
  - by rewrite lookup_insert_ne, string_app_nil_r.
Qed.

(** What the file will hold once the buffer is flushed. *)
Definition visible (f : string) (w : CorpusWriter) : string :=
  contents f (disk w) ++ (if decide (f = open_file w) then buffer w else "").

Lemma writer_turn_visible w (date : string) (ok : bool) line f :
  open_file w = corpus_file (current_date w) ->
  let day := if ok then date else current_date w in
  let w' := writer_turn w date ok line in
  current_date w' = day /\ open_file w' = corpus_file day /\
  visible f w' = visible f w ++ (if decide (corpus_file day = f) then line ++ newline else "").
Proof.
  intros Hw. unfold writer_turn. destruct (decide (date = current_date w)) as [->|Hd].
  - assert (Hday : (if ok then current_date w else current_date w) = current_date w) by by destruct ok.
    rewrite Hday.
    simpl. split_and!; [done|done|]. unfold visible. simpl. rewrite <- Hw.
    destruct (decide (f = open_file w)) as [->|Hf].
    + by rewrite decide_True, string_app_assoc.
    + by rewrite decide_False, !string_app_nil_r by done.
  - destruct ok; cbn [current_date open_file buffer disk].
    + split_and!; [done|done|]. unfold visible. cbn [current_date open_file buffer disk].
      rewrite contents_flush. f_equal. destruct (decide (f = corpus_file date)) as [->|Hf].
      * by rewrite decide_True.
      * by rewrite decide_False.
    + split_and!; [done|done|]. unfold visible. cbn [open_file buffer disk]. rewrite <- Hw.
      destruct (decide (f = open_file w)) as [->|Hf].
      * by rewrite decide_True, string_app_assoc.
      * by rewrite decide_False, !string_app_nil_r by done.
Qed.

Lemma text_of_cons f day line lines :
  text_of f ((day, line) :: lines) =
  (if decide (corpus_file day = f) then line ++ newline else "") ++ text_of f lines.
Proof. simpl. by case_decide. Qed.

(** The corpus: starting from any files on disk, once the channel is closed every
    file holds what it held before followed by its lines in order, a line going to the
    file of the day on which it was received, or of the last day whose file could be
    opened; no line is lost, repeated or split. *)
Theorem corpus_by_day today d turns w f :
  writer_start true true today d = Some w ->
  contents f (disk (writer_run turns w)) = contents f d ++ text_of f (routed today turns).
Proof.
  intros Hw. assert (Hgen : forall turns w, open_file w = corpus_file (current_date w) ->
    contents f (disk (writer_run turns w)) = visible f w ++ text_of f (routed (current_date w) turns)).
  { clear. intros turns. induction turns as [|[[date ok] line] turns IH]; intros w Hw.
    - simpl. rewrite string_app_nil_r. apply contents_flush.
    - destruct (writer_turn_visible w date ok line f Hw) as (Hd & Hf & Hv).
      cbn [writer_run routed]. rewrite IH by (by rewrite Hd, Hf).
      by rewrite Hd, Hv, text_of_cons, string_app_assoc. }
  unfold writer_start in Hw. simpl in Hw. injection Hw as <-. rewrite Hgen by done.
  unfold visible. simpl. by case_decide; rewrite string_app_nil_r.
Qed.

(** ** Concrete formats, and witnesses *)

Fixpoint bits_of (p : positive) : string :=
  match p with xH => "" | xO p => String "0" (bits_of p) | xI p => String "1" (bits_of p) end.
Fixpoint of_bits (s : string) : positive :=
  match s with "" => xH | String c s => if decide (c = "1"%char) then xI (of_bits s) else xO (of_bits s) end.
Lemma of_bits_of p : of_bits (bits_of p) = p.
Proof. induction p as [p IH|p IH|]; simpl; by rewrite ?IH. Qed.

(** What a quoted text without escapes stands for. *)
Program Definition binary_formats : Formats :=
  {| to_rfc3339 t := bits_of (encode t);
     parse_from_rfc3339 s := decode (of_bits s);
     json_from_str s := Some (JString (take_bytes (String.length s - 2) (drop_bytes 1 s)));
     metadata_from_json _ := Some [];
     order_desc rows := rows |}.
Next Obligation.
  intros t. etrans; [apply (f_equal decode (of_bits_of (encode t)))|apply decode_encode].
Qed.
Next Obligation.
  intros s _. unfold quoted. cbn [drop_bytes String.length]. rewrite length_string_app. cbn [String.length].
  replace (S (String.length s + 1) - 2)%nat with (String.length s) by lia. by rewrite take_bytes_app.
Qed.
Next Obligation. done. Qed.
Next Obligation. done. Qed.

Definition sample_args : RecordEventArgs :=
  record_response_args "node-a" "r1" "hello" "world" 18446744073709551615 7.

Lemma record_round_trip_witness :
  exists row, build_row (H := binary_formats) 1234 sample_args = Ret row /\
    row_to_record (H := binary_formats) 9 (5, row) =
    mkRecord 5 1234 ResponseReceived "node-a" "r1" "Response from node-a (7 tokens)"
      (Some "hello") (Some "world") None (Some U64_MAX) (Some 7%Z) [].
Proof.
  apply (record_round_trip (H := binary_formats) 1234 9 5 sample_args).
  split_and!; simpl; [lia|intros t [= <-]; simpl; lia|intros t [= <-]; simpl; lia| |];
    intros t [= <-]; ulia.
Defined.

(** 9,999 ASCII letters, then a two-byte character. *)
Definition long_prompt : string := Nat.iter (Z.to_nat 9999) (String "a") (byte_string [195; 169]%nat).

Lemma record_event_panics_witness :
  build_row (H := binary_formats) 0
    (mkArgs PromptSent "n" "r" "s" (Some long_prompt) None None None None) = Panic.
Proof.
  apply (record_event_panics (H := binary_formats) 0 _ long_prompt (ascii_of_nat 169)).
  - reflexivity.
  - apply Nat.ltb_lt. vm_compute. reflexivity.
  - vm_compute. reflexivity.
  - reflexivity.
Defined.

Definition sample_row (s : string) : FlightRecorderRecord :=
  mkRow "t" "CacheHit" s "r" "s" None None None None None "{}".

Lemma reach_to accepted label accepted' s s' :
  accepted' = (accepted ++ option_list label)%list ->
  recorder_step label s s' -> reachable accepted s -> reachable accepted' s'.
Proof. intros ->. by econstructor. Qed.

(** Two events, the second of which SQLite refuses. *)
Definition sample_stopped : Recorder :=
  mkRecorder [] false Stopped [] [(Committed [true; false], [sample_row "a"; sample_row "b"])].

Lemma sample_reachable : reachable [sample_row "a"; sample_row "b"] sample_stopped.
Proof.
  eapply (reach_to [sample_row "a"; sample_row "b"] None); [done| |].
  { apply (rs_try_shutdown [] false [sample_row "a"; sample_row "b"] [] (Committed [true; false])).
    unfold BATCH_SIZE. simpl. lia. }
  eapply (reach_to [sample_row "a"; sample_row "b"] None); [done| |].
  { apply (rs_try_recv (sample_row "b") [Shutdown] false [sample_row "a"] []). unfold BATCH_SIZE. simpl. lia. }
  eapply (reach_to [sample_row "a"; sample_row "b"] None); [done| |].
  { apply (rs_recv (sample_row "a") [RecordEvent (sample_row "b"); Shutdown] false [] []). unfold BATCH_SIZE. simpl. lia. }
  eapply (reach_to [sample_row "a"; sample_row "b"] None); [done| |].
  { apply (rs_drop [RecordEvent (sample_row "a"); RecordEvent (sample_row "b")]). }
  eapply (reach_to [sample_row "a"] (Some (sample_row "b"))); [done| |].
  { apply (rs_send [RecordEvent (sample_row "a")]); [|done]. apply Nat.ltb_lt. reflexivity. }
  eapply (reach_to [] (Some (sample_row "a"))); [done| |apply reach_init].
  apply (rs_send []); [|done]. apply Nat.ltb_lt. reflexivity.
Qed.

Lemma recorder_fifo_witness :
  table sample_stopped = [sample_row "a"] /\
  concat (inserts sample_stopped).*2 = [sample_row "a"; sample_row "b"].
Proof.
  split; [reflexivity|].
  destruct (recorder_fifo [sample_row "a"; sample_row "b"] sample_stopped sample_reachable)
    as (_ & _ & _ & _ & Hst).
  destruct (Hst eq_refl) as [Hall _]. symmetry. exact Hall.
Defined.

Lemma corpus_by_day_witness :
  contents (corpus_file "2026-01-01")
    (disk (writer_run [("2026-01-01", true, "x"); ("2026-01-02", false, "y"); ("2026-01-02", true, "z")]
       (mkWriter "2026-01-01" (corpus_file "2026-01-01") "" ∅))) =
  "x" ++ newline ++ "y" ++ newline.
Proof. rewrite (corpus_by_day "2026-01-01" ∅); [reflexivity|done]. Defined.
