(* ===== verification/Retention.v ===== *)
(** * crates/cache-storage/src/flight_recorder.rs: opening, recording, cleaning up

    What surrounds the writer of [FlightRecorder]: the constructors with their failures,
    the hot path of [record_event] up to the bounded channel, the daily deletion of old
    rows and the export.  The outcomes of SQLite, of the thread and of the file system
    are arguments. *)
From Stdlib Require Import Ascii String.
From S2P Require Import Prelude RustStr Json FlightRecorder.

Local Open Scope string_scope.

Inductive FlightRecorderError : Type :=
  | DatabaseOpen (e : string)
  | SchemaInit (e : string).

Definition map_err {T E F} (f : E -> F) (r : result T E) : result T F :=
  match r with Ok t => Ok t | Err e => Err (f e) end.

Definition recorder_new (opened schema spawned : result unit string) : result Recorder FlightRecorderError :=
  _ <-? map_err DatabaseOpen opened ;;
  _ <-? map_err SchemaInit schema ;;
  _ <-? map_err (fun e => DatabaseOpen ("Failed to spawn flight recorder writer thread: " ++ e)) spawned ;;
  Ok recorder_init.

#[export] Instance writer_phase_eq_dec : EqDecision writer_phase.
Proof. solve_decision. Defined.

(** [SyncSender::try_send], and what the caller logs when it fails. *)
Inductive TrySendError : Type := Full | Disconnected.
Definition try_send (command : FlightRecorderCommand) (s : Recorder) : Recorder * option TrySendError :=
  if decide (phase s = Stopped) then (s, Some Disconnected)
  else if decide (List.length (channel s) < CHANNEL_BOUND)%nat then
    (mkRecorder (channel s ++ [command])%list (sender s) (phase s) (batch s) (inserts s), None)
  else (s, Some Full).

Section recording.
Context `{Formats}.

Definition record_event (now : Z) (args : RecordEventArgs) (s : Recorder) : outcome (Recorder * option TrySendError) :=
  row ← build_row now args;
  Ret (try_send (RecordEvent row) s).

(** [Drop] of the recorder. *)
Definition recorder_drop (s : Recorder) : Recorder :=
  let s := (try_send Shutdown s).1 in
  mkRecorder (channel s) false (phase s) (batch s) (inserts s).

(** [to_string_pretty] is serde_json's. *)
Definition export_json (to_string_pretty : list FlightRecord -> option string) (now : Z)
    (db : option (list (Z * FlightRecorderRecord))) : option string :=
  to_string_pretty (query now (mkQuery None None None None None (Some 10000) None) db).

(** Recording never waits: for a caller that holds the recorder it either panics while
    truncating, or is one step of the recorder that puts the row on the channel, or
    leaves the recorder as it was and says why. *)
Theorem record_event_spec now args s : sender s = true ->
  (build_row now args = Panic /\ record_event now args s = Panic) \/
  exists row, build_row now args = Ret row /\
    ((exists s', record_event now args s = Ret (s', None) /\ recorder_step (Some row) s s') \/
     (record_event now args s = Ret (s, Some Full) /\ (CHANNEL_BOUND <= List.length (channel s))%nat) \/
     (record_event now args s = Ret (s, Some Disconnected) /\ phase s = Stopped)).
Proof.
  intros Hs. unfold record_event. destruct (build_row now args) as [row|]; [right|by left].
  exists row. split; [done|]. cbn [mbind outcome_bind]. unfold try_send.
  destruct (decide (phase s = Stopped)) as [Hp|Hp]; [by right; right|].
  destruct (decide _) as [Hl|Hl]; [|right; left; split; [done|lia]].
  left. eexists. split; [done|]. destruct s as [c sd p b i]; cbn in *. subst sd. by constructor.
Qed.

Lemma recorder_drop_step s : sender s = true -> phase s <> Stopped -> recorder_step None s (recorder_drop s).
Proof.
  intros Hs Hp. unfold recorder_drop, try_send. rewrite decide_False by done.
  destruct s as [c sd p b i]; cbn in *. subst sd.
  pose proof (rs_drop c p b i) as Hd. cbn in Hd. by destruct (decide _).
Qed.
End recording.

(** ** Clean-up

    [DELETE .. WHERE timestamp < datetime('now', '-30 days')] compares texts byte by
    byte; [opened] tells whether the second connection could be opened. *)
Definition collect_garbage (opened : bool) (cutoff : string) (rows : list FlightRecorderRecord) :
    list FlightRecorderRecord :=
  if opened then filter (fun r => str_ltb (timestamp r) cutoff = false) rows else rows.

Lemma compare_app_date d d' x y : String.length d = String.length d' ->
  String.compare (d ++ x) (d' ++ y) =
  match String.compare d d' with Eq => String.compare x y | c => c end.
Proof.
  revert d'. induction d as [|c d IH]; intros [|c' d'] Hl; try done.
  cbn in Hl. injection Hl as Hl. rewrite !string_app_cons. cbn [String.compare].
  destruct (Ascii.compare c c'); [by apply IH|done..].
Qed.

(** SQLite's [datetime] puts a space where the recorder's timestamps have a [T], so the
    time of day does not count: of rows and cutoff written as a date of ten characters
    and a time, exactly those dated before the cutoff's day are deleted, and a row stays
    up to a day longer than the thirty days announced. *)
Theorem gc_by_day r d d' t t' rows : String.length d = String.length d' ->
  timestamp r = d ++ "T" ++ t ->
  (r ∈ collect_garbage true (d' ++ " " ++ t') rows <-> r ∈ rows /\ str_ltb d d' = false).
Proof.
  intros Hl Ht. unfold collect_garbage. rewrite list_elem_of_filter, Ht. unfold str_ltb.
  rewrite compare_app_date by done.
  destruct (String.compare d d'); cbn; naive_solver.
Qed.

(** ** The corpus recorder *)

(** The parent directory of the path is created when it has one. *)
Definition corpus_create (has_parent : bool) (create_dir_all : result unit string) (path : option string) :
    result ConsensusFlightRecorder FlightRecorderError :=
  _ <-? (if has_parent
         then map_err (fun e => DatabaseOpen ("Failed to create telemetry directory: " ++ e)) create_dir_all
         else Ok tt) ;;
  Ok (corpus_new path).

Lemma record_event_spec_witness :
  (build_row (H := binary_formats) 0 sample_args = Panic /\
   record_event (H := binary_formats) 0 sample_args recorder_init = Panic) \/
  exists row, build_row (H := binary_formats) 0 sample_args = Ret row /\
    ((exists s', record_event (H := binary_formats) 0 sample_args recorder_init = Ret (s', None) /\
       recorder_step (Some row) recorder_init s') \/
     (record_event (H := binary_formats) 0 sample_args recorder_init = Ret (recorder_init, Some Full) /\
       (CHANNEL_BOUND <= List.length (channel recorder_init))%nat) \/
     (record_event (H := binary_formats) 0 sample_args recorder_init = Ret (recorder_init, Some Disconnected) /\
       phase recorder_init = Stopped)).
Proof. exact (record_event_spec (H := binary_formats) 0 sample_args recorder_init eq_refl). Defined.

(** At noon, a row of just after midnight thirty days earlier is still kept. *)
Lemma gc_by_day_witness :
  let r := mkRow "2026-01-01T00:00:01+00:00" "CacheHit" "n" "r" "s" None None None None None "{}" in
  (r ∈ collect_garbage true "2026-01-01 12:00:00" [r] <-> r ∈ [r] /\ str_ltb "2026-01-01" "2026-01-01" = false).
Proof.
  exact (gc_by_day (mkRow "2026-01-01T00:00:01+00:00" "CacheHit" "n" "r" "s" None None None None None "{}")
    "2026-01-01" "2026-01-01" "00:00:01+00:00" "12:00:00" _ eq_refl eq_refl).
Defined.
