(* ===== verification/Scheduler.v ===== *)
(** * apps/gateway/src/bin/scheduler.rs: shipping the training corpus

    Every five minutes the scheduler posts the lines of the corpus file from a saved
    cursor on, and saves the cursor again.  The server's replies, the outcome of file
    operations and serde_json are parameters.  A file that grows while it is read is
    the longer file: the cursor moves over what was read. *)
From Stdlib Require Import Ascii String.
From S2P Require Import Prelude RustStr Decimal FlightRecorder.

Local Open Scope string_scope.

Definition SYNC_INTERVAL : Z := 300.
Definition CORPUS_PATH : string := "serein-telemetry/ssd_training_corpus.jsonl".
Definition CURSOR_PATH : string := "serein-telemetry/sync_cursor.meta".

(** The answer to a post: a status, or an error after which the server may or may not
    have received it. *)
Inductive Reply : Type := HttpStatus (code : Z) | NetworkError (e : string).
Definition is_success (code : Z) : bool := (200 <=? code)%Z && (code <? 300)%Z.

(** The texts [read_line] returns until the end of the file: each up to and with its
    line feed, the last one possibly without. *)
Fixpoint read_lines (s : string) : list string :=
  match s with
  | "" => []
  | String c t =>
      if Ascii.eqb c "010" then newline :: read_lines t
      else match read_lines t with [] => [String c ""] | l :: ls => String c l :: ls end
  end.

(** What is on disk, and which operations fail. *)
Record Disk := mkDisk { corpus : option string; cursor_file : option string }.
Record Faults := mkFaults { cursor_readable : bool; corpus_readable : bool; cursor_saved : bool }.

Section scheduler.
Context {V : Type} (from_str : string -> option V).

(** The posts made with their answers, in order; the [i]-th of a cycle is answered by
    [server i].  The sums of line lengths are at most the length of the file. *)
Fixpoint sync_lines (server : nat -> Reply) (i : nat) (lines : list string) (synced advanced_bytes : Z)
    : list (V * Reply) * result (Z * Z) string :=
  match lines with
  | [] => ([], Ok (synced, advanced_bytes))
  | line :: lines =>
      if negb (utf8_valid line) then ([], Err "stream did not contain valid UTF-8")
      else
        let line_len := len line in
        match from_str line with
        | Some payload =>
            let reply := server i in
            match reply with
            | HttpStatus code =>
                if is_success code then
                  let '(posts, r) := sync_lines server (S i) lines (synced + 1) (advanced_bytes + line_len) in
                  ((payload, reply) :: posts, r)
                else if (code =? 400)%Z then
                  let '(posts, r) := sync_lines server (S i) lines synced (advanced_bytes + line_len) in
                  ((payload, reply) :: posts, r)
                else ([(payload, reply)], Err ("Systemic sync failure - HTTP " ++ pretty code))
            | NetworkError e =>
                ([(payload, reply)], Err ("Systemic sync failure - network error: " ++ e))
            end
        | None => sync_lines server i lines synced (advanced_bytes + line_len)
        end
  end.

Definition read_cursor (d : Disk) : Z :=
  match cursor_file d with Some text => default 0 (parse_u64 (trim text)) | None => 0 end.

Definition sync_cycle (f : Faults) (server : nat -> Reply) (d : Disk)
    : Disk * (list (V * Reply) * result unit string) :=
  match corpus d with
  | None => (d, ([], Ok tt))
  | Some text =>
      if negb (cursor_readable f) && bool_decide (is_Some (cursor_file d)) then
        (d, ([], Err "cursor not readable"))
      else
        let cursor := read_cursor d in
        if negb (corpus_readable f) then (d, ([], Err "corpus not readable"))
        else
          let cursor := if (len text <? cursor)%Z then 0 else cursor in
          let '(posts, r) :=
            sync_lines server 0 (read_lines (drop_bytes (Z.to_nat cursor) text)) 0 0 in
          match r with
          | Err e => (d, (posts, Err e))
          | Ok (_, advanced_bytes) =>
              if (0 <? advanced_bytes)%Z then
                let cursor := (cursor + advanced_bytes)%Z in
                if cursor_saved f then (mkDisk (corpus d) (Some (pretty cursor)), (posts, Ok tt))
                else (d, (posts, Err "cursor not saved"))
              else (d, (posts, Ok tt))
          end
  end.

(** One turn of [main]'s loop; its result is only logged. *)
Definition main_turn (url key : string) (f : Faults) (server : nat -> Reply) (d : Disk)
    : Disk * list (V * Reply) :=
  if negb (is_empty url) && negb (is_empty key) then
    let '(d, (posts, _)) := sync_cycle f server d in (d, posts)
  else (d, []).

(** The temporary files left by an interrupted save are removed at the start. *)
Definition remove_tmp (files : list string) : list string :=
  List.filter (fun name => negb (ends_with ".tmp" name)) files.

(** ** Lines *)

Definition lines_text (l : list string) : string := foldr (fun line s => (line ++ newline) ++ s) "" l.

Lemma read_lines_cons line s : lacks "010" line = true ->
  read_lines ((line ++ newline) ++ s) = (line ++ newline) :: read_lines s.
Proof.
  induction line as [|c line IH]; intros Hl; [done|]. cbn [lacks] in Hl.
  apply andb_true_iff in Hl as [Hc Hl]. rewrite !string_app_cons. cbn [read_lines].
  apply negb_true_iff in Hc. rewrite Hc. by rewrite IH.
Qed.

Lemma lines_text_cons line l : lines_text (line :: l) = (line ++ newline) ++ lines_text l.
Proof. done. Qed.

Lemma read_lines_text l : Forall (fun x => lacks "010" x = true) l ->
  read_lines (lines_text l) = (fun x => x ++ newline) <$> l.
Proof. induction 1 as [|x l Hx Hl IH]; [done|]. by rewrite lines_text_cons, read_lines_cons, IH. Qed.

Lemma lines_text_app l l' : lines_text (l ++ l') = lines_text l ++ lines_text l'.
Proof.
  induction l as [|x l IH]; [done|]. cbn [app]. by rewrite !lines_text_cons, IH, string_app_assoc.
Qed.

Lemma lines_text_split k l : lines_text l = lines_text (take k l) ++ lines_text (drop k l).
Proof. by rewrite <- lines_text_app, take_drop. Qed.

Lemma read_lines_torn part : lacks "010" part = true -> part <> "" -> read_lines part = [part].
Proof.
  induction part as [|c t IH]; [done|]. intros Hl _. cbn [lacks] in Hl.
  apply andb_true_iff in Hl as [Hc Hl]. apply negb_true_iff in Hc. cbn [read_lines]. rewrite Hc.
  destruct t as [|c' t]; [done|]. by rewrite IH.
Qed.

(** ** One cycle *)

Definition answered (post : V * Reply) : Prop :=
  match post.2 with HttpStatus code => is_success code = true \/ code = 400 | NetworkError _ => False end.

Definition total_len (lines : list string) : Z := foldr (fun l n => len l + n)%Z 0%Z lines.

Lemma total_len_lines l : total_len ((fun x => x ++ newline) <$> l) = len (lines_text l).
Proof.
  induction l as [|x l IH]; [done|]. rewrite fmap_cons, lines_text_cons, len_app, <- IH. done.
Qed.

Lemma sync_lines_Ok server i lines s a posts s' a' :
  sync_lines server i lines s a = (posts, Ok (s', a')) ->
  a' = (a + total_len lines)%Z /\ posts.*1 = omap from_str lines /\ Forall answered posts.
Proof.
  revert i s a posts. induction lines as [|line lines IH]; intros i s a posts Hs.
  { simplify_eq/=. split_and!; [lia|done|constructor]. }
  cbn [sync_lines] in Hs. destruct (utf8_valid line); [|done]. cbn [negb] in Hs.
  cbn [total_len foldr]. fold (total_len lines).
  change (omap from_str (line :: lines)) with
    (match from_str line with Some y => y :: omap from_str lines | None => omap from_str lines end).
  destruct (from_str line) as [v|] eqn:Hv.
  - destruct (server i) as [code|e] eqn:Hr; [|done].
    destruct (is_success code) eqn:Hsc; [|destruct (Z.eqb_spec code 400) as [->|]; [|done]].
    all: destruct (sync_lines server (S i) lines _ _) as [posts' r] eqn:E; simplify_eq.
    all: apply IH in E as (-> & Hp & Hf); cbn; split_and!; [lia|by rewrite Hp|].
    all: constructor; [|done]; unfold answered; cbn; auto.
  - apply IH in Hs as (-> & Hp & Hf). split_and!; [lia|done|done].
Qed.

Lemma sync_lines_answering server i lines s a :
  (forall j v, answered (v, server j)) -> Forall (fun l => utf8_valid l = true) lines ->
  exists posts s', sync_lines server i lines s a = (posts, Ok (s', a + total_len lines)%Z).
Proof.
  intros Ha Hu. revert i s a. induction Hu as [|line lines Hl Hu IH]; intros i s a.
  { exists [], s. cbn. by rewrite Z.add_0_r. }
  cbn [sync_lines]. rewrite Hl. cbn [negb total_len foldr]. fold (total_len lines). rewrite Z.add_assoc.
  destruct (from_str line) as [v|]; [|apply IH].
  specialize (Ha i v). unfold answered in Ha. cbn in Ha. destruct (server i) as [code|]; [|done].
  destruct (is_success code).
  - destruct (IH (S i) (s + 1)%Z (a + len line)%Z) as (posts & s' & ->). by eexists _, _.
  - destruct Ha as [?| ->]; [done|]. cbn [Z.eqb Pos.eqb].
    destruct (IH (S i) s (a + len line)%Z) as (posts & s' & ->). by eexists _, _.
Qed.

(** ** Histories

    Records are appended whole; the state keeps what was appended and what was posted. *)
Inductive Event : Type :=
  | Append (record : string)
  | Turn (f : Faults) (server : nat -> Reply).

Context (url key : string).

Record History := mkHistory { disk : Disk; records : list string; posts : list (V * Reply) }.

Definition step (h : History) (e : Event) : History :=
  match e with
  | Append record =>
      mkHistory (mkDisk (Some (default "" (corpus (disk h)) ++ record ++ newline)) (cursor_file (disk h)))
        (records h ++ [record])%list (posts h)
  | Turn f server =>
      let '(d, p) := main_turn url key f server (disk h) in mkHistory d (records h) (posts h ++ p)%list
  end.
Definition run (events : list Event) (h : History) : History := fold_left step events h.

Definition appended (events : list Event) : list string :=
  List.flat_map (fun e => match e with Append r => [r] | Turn _ _ => [] end) events.

(** The cursor stands behind the first [k] records, and every one of them that is JSON
    was answered. *)
Record shipped (k : nat) (h : History) : Prop := {
  sh_k : (k <= length (records h))%nat;
  sh_corpus : default "" (corpus (disk h)) = lines_text (records h);
  sh_cursor : read_cursor (disk h) = len (lines_text (take k (records h)));
  sh_posts : forall record v, record ∈ take k (records h) -> from_str (record ++ newline) = Some v ->
    exists reply, (v, reply) ∈ posts h /\ answered (v, reply) }.

Lemma shipped_append k h record : shipped k h -> shipped k (step h (Append record)).
Proof.
  intros [Hk Hc Hu Hp]. split; cbn [step records disk corpus cursor_file posts default from_option].
  - rewrite length_app. lia.
  - rewrite lines_text_app, lines_text_cons, Hc. cbn [lines_text foldr]. by rewrite string_app_nil_r.
  - rewrite take_app_le by done. done.
  - rewrite take_app_le by done. done.
Qed.

Lemma shipped_more k h p : shipped k h -> shipped k (mkHistory (disk h) (records h) (posts h ++ p)%list).
Proof.
  intros [Hk Hc Hu Hp]. split; cbn [records posts disk]; [done..|]. intros record v Hr Hv.
  destruct (Hp record v Hr Hv) as (r & Hin & Ha). exists r. split; [set_solver|done].
Qed.

Lemma lines_text_nil l : lines_text l = "" -> l = [].
Proof.
  destruct l as [|x l]; [done|]. rewrite lines_text_cons. intros Hl%(f_equal String.length).
  rewrite !length_string_app in Hl. cbn in Hl. lia.
Qed.

Lemma read_cursor_saved t n : 0 <= n <= U64_MAX -> read_cursor (mkDisk t (Some (pretty n))) = n.
Proof. intros Hn. unfold read_cursor. cbn [cursor_file]. by rewrite parse_trim_pretty. Qed.

(** The posts of a cycle complete those that were made before. *)
Lemma posts_complete k h p :
  (forall record v, record ∈ take k (records h) -> from_str (record ++ newline) = Some v ->
    exists reply, (v, reply) ∈ posts h /\ answered (v, reply)) ->
  p.*1 = omap from_str ((fun x => x ++ newline) <$> drop k (records h)) -> Forall answered p ->
  forall record v, record ∈ records h -> from_str (record ++ newline) = Some v ->
    exists reply, (v, reply) ∈ (posts h ++ p)%list /\ answered (v, reply).
Proof.
  intros Hp Hposts Hans record v Hr Hv. rewrite <- (take_drop k (records h)) in Hr.
  apply elem_of_app in Hr as [Hr|Hr].
  - destruct (Hp record v Hr Hv) as (r & Hin & Hok). exists r. split; [set_solver|done].
  - assert (Hin : v ∈ p.*1).
    { rewrite Hposts. apply list_elem_of_omap. exists (record ++ newline). split; [|done].
      apply list_elem_of_fmap. by exists record. }
    apply list_elem_of_fmap in Hin as ([v' reply] & Hv' & Hin). cbn in Hv'. subst v'.
    exists reply. split; [set_solver|]. rewrite Forall_forall in Hans. by apply Hans.
Qed.

Lemma sync_cycle_shipped k h f server d p r : shipped k h ->
  len (lines_text (records h)) <= U64_MAX -> Forall (fun x => lacks "010" x = true) (records h) ->
  sync_cycle f server (disk h) = (d, (p, r)) ->
  let h' := mkHistory d (records h) (posts h ++ p)%list in
  match r with
  | Ok _ => shipped (length (records h)) h' /\
      p.*1 = omap from_str ((fun x => x ++ newline) <$> drop k (records h))
  | Err _ => shipped k h'
  end.
Proof.
  intros [Hk Hc Hu Hp] Hmax Hl Hcycle h'.
  assert (Hsplit := lines_text_split k (records h)).
  assert (Hlen : len (lines_text (records h)) =
    len (lines_text (take k (records h))) + len (lines_text (drop k (records h)))).
  { by rewrite Hsplit at 1; rewrite len_app. }
  pose proof (len_nonneg (lines_text (drop k (records h)))) as Hnn.
  pose proof (len_nonneg (lines_text (take k (records h)))) as Hnn'.
  assert (Hsame : forall p, shipped k (mkHistory (disk h) (records h) (posts h ++ p)%list)).
  { intros p'. by apply shipped_more. }
  unfold sync_cycle in Hcycle. rewrite Hu in Hcycle.
  destruct (corpus (disk h)) as [text|] eqn:Ec; cbn in Hc.
  2: { symmetry in Hc. apply lines_text_nil in Hc. injection Hcycle as <- <- <-.
       specialize (Hsame []). unfold h'. rewrite Hc in Hk, Hsame |- *. cbn in Hk.
       replace k with 0%nat in Hsame by lia. split; [exact Hsame|]. by rewrite drop_nil. }
  subst text. destruct (negb (cursor_readable f) && _); [injection Hcycle as <- <- <-; apply Hsame|].
  destruct (negb (corpus_readable f)); [injection Hcycle as <- <- <-; apply Hsame|].
  rewrite (proj2 (Z.ltb_ge _ _)) in Hcycle by lia.
  assert (Hdrop : drop_bytes (Z.to_nat (len (lines_text (take k (records h))))) (lines_text (records h)) =
    lines_text (drop k (records h))).
  { rewrite Hsplit at 1. unfold len. rewrite Nat2Z.id. apply drop_bytes_app. }
  rewrite Hdrop, read_lines_text in Hcycle by by apply Forall_drop.
  destruct (sync_lines server 0 _ 0 0) as [p' [[s' a']|e]] eqn:E; [|injection Hcycle as <- <- <-; apply Hsame].
  apply sync_lines_Ok in E as (Ha & Hposts & Hans). rewrite total_len_lines in Ha. cbn in Ha. subst a'.
  pose proof (posts_complete k h p' Hp Hposts Hans) as Hall.
  destruct (0 <? _)%Z eqn:Hpos.
  - destruct (cursor_saved f); injection Hcycle as <- <- <-; [|apply Hsame]. split; [|done]. unfold h'.
    split; cbn [records posts disk]; rewrite ?firstn_all; try done.
    rewrite read_cursor_saved by lia. lia.
  - injection Hcycle as <- <- <-. split; [|done]. apply Z.ltb_ge in Hpos. unfold h'.
    split; cbn [records posts disk]; rewrite ?firstn_all; try done;
      rewrite ?Ec, ?Hu; [done|lia].
Qed.

Lemma sync_cycle_answering k h server d p r : shipped k h ->
  Forall (fun x => lacks "010" x = true) (records h) ->
  Forall (fun x => utf8_valid (x ++ newline) = true) (records h) ->
  (forall j v, answered (v, server j)) ->
  sync_cycle (mkFaults true true true) server (disk h) = (d, (p, r)) -> exists u, r = Ok u.
Proof.
  intros [Hk Hc Hu _] Hl Hutf Hans. unfold sync_cycle. cbn [negb andb cursor_readable corpus_readable cursor_saved].
  destruct (corpus (disk h)) as [text|]; cbn in Hc; [|intros [= <- <- <-]; eauto]. subst text. rewrite Hu.
  assert (Hlen := f_equal len (lines_text_split k (records h))). rewrite len_app in Hlen.
  pose proof (len_nonneg (lines_text (drop k (records h)))).
  rewrite (proj2 (Z.ltb_ge _ _)) by lia.
  rewrite (lines_text_split k (records h)) at 1. unfold len at 1. rewrite Nat2Z.id, drop_bytes_app.
  rewrite read_lines_text by by apply Forall_drop.
  destruct (sync_lines_answering server 0 ((fun x => x ++ newline) <$> drop k (records h)) 0 0)
    as (posts' & s' & ->); [done|by apply Forall_fmap, Forall_drop|].
  destruct (0 <? _)%Z; intros [= <- <- <-]; eauto.
Qed.

Lemma main_turn_shipped k h f server : shipped k h ->
  len (lines_text (records h)) <= U64_MAX -> Forall (fun x => lacks "010" x = true) (records h) ->
  exists k', shipped k' (step h (Turn f server)).
Proof.
  intros Hs Hmax Hl. cbn [step]. unfold main_turn. destruct (negb (is_empty url) && _).
  - destruct (sync_cycle f server (disk h)) as [d [p r]] eqn:E.
    pose proof (sync_cycle_shipped k h f server d p r Hs Hmax Hl E) as Hc. cbn zeta in Hc.
    destruct r; [destruct Hc as [Hc _]|]; by eexists.
  - exists k. by apply shipped_more.
Qed.

Definition history_init : History := mkHistory (mkDisk None None) [] [].

Lemma run_records events h : records (run events h) = (records h ++ appended events)%list.
Proof.
  revert h. induction events as [|e events IH]; intros h; [by rewrite app_nil_r|].
  cbn [run fold_left appended List.flat_map]. fold (run events (step h e)). rewrite IH.
  destruct e as [r|f server]; cbn [step].
  - cbn [records]. by rewrite <- app_assoc.
  - by destruct (main_turn url key f server (disk h)).
Qed.

Lemma run_shipped events h k : shipped k h ->
  len (lines_text (records h ++ appended events)) <= U64_MAX ->
  Forall (fun x => lacks "010" x = true) (records h ++ appended events) ->
  exists k', shipped k' (run events h).
Proof.
  revert h k. induction events as [|e events IH]; intros h k Hs Hmax Hl; [by exists k|].
  change (run (e :: events) h) with (run events (step h e)).
  assert (Hrec : (records (step h e) ++ appended events = records h ++ appended (e :: events))%list).
  { change (step h e) with (run [e] h). rewrite run_records. cbn. by rewrite app_nil_r, <- app_assoc. }
  assert (exists k', shipped k' (step h e)) as [k' Hs'].
  { destruct e as [r|f server]; [exists k; by apply shipped_append|].
    apply (main_turn_shipped k); [done| |].
    - rewrite lines_text_app, len_app in Hmax. pose proof (len_nonneg (lines_text (appended (Turn f server :: events)))).
      lia.
    - by apply Forall_app in Hl as [? _]. }
  by apply (IH (step h e) k'); rewrite ?Hrec.
Qed.
End scheduler.


(** ** What the scheduler guarantees *)

Section guarantees.
Context {V : Type} (from_str : string -> option V) (url key : string).

(** C36: at least once: after any sequence of whole records appended and cycles, whatever
    the server answers and whichever file operations fail, the saved cursor stands at the
    end of some record, and every record before it that is JSON was posted and answered
    with a success or with 400; the cursor never moves past a record whose post failed. *)
Theorem no_record_lost events :
  len (lines_text (appended events)) <= U64_MAX ->
  Forall (fun x => lacks "010" x = true) (appended events) ->
  let h := run from_str url key events history_init in
  exists k, (k <= length (appended events))%nat /\
    read_cursor (disk h) = len (lines_text (take k (appended events))) /\
    forall record v, record ∈ take k (appended events) -> from_str (record ++ newline) = Some v ->
      exists reply, (v, reply) ∈ posts h /\ answered (v, reply).
Proof.
  intros Hmax Hl h.
  destruct (run_shipped from_str url key events history_init 0) as [k [Hk _ Hu Hp]]; try done.
  { split; [cbn; lia|done|done|]. intros record v Hr. by apply elem_of_nil in Hr. }
  exists k. unfold h in *. rewrite run_records in *. done.
Qed.

(** C37: after any history, one cycle without file faults against a server that answers
    every post moves the cursor behind the last record, having posted, in order and once
    each, the records that are JSON and stood behind the cursor. *)
Theorem cycle_catches_up events f server :
  len (lines_text (appended events)) <= U64_MAX ->
  Forall (fun x => lacks "010" x = true) (appended events) ->
  Forall (fun x => utf8_valid (x ++ newline) = true) (appended events) ->
  url <> "" -> key <> "" ->
  f = mkFaults true true true -> (forall j (v : V), answered (v, server j)) ->
  let h := run from_str url key events history_init in
  exists k, read_cursor (disk h) = len (lines_text (take k (appended events))) /\
    let h' := step from_str url key h (Turn f server) in
    read_cursor (disk h') = len (lines_text (appended events)) /\
    exists p, posts h' = (posts h ++ p)%list /\
      p.*1 = omap from_str ((fun x => x ++ newline) <$> drop k (appended events)).
Proof.
  intros Hmax Hl Hutf Hurl Hkey -> Hans h.
  destruct (run_shipped from_str url key events history_init 0) as [k Hs]; try done.
  { split; [cbn; lia|done|done|]. intros record v Hr. by apply elem_of_nil in Hr. }
  fold h in Hs. assert (Hrec : records h = appended events) by (unfold h; by rewrite run_records).
  exists k. destruct (sync_cycle from_str (mkFaults true true true) server (disk h)) as [d [p r]] eqn:E.
  split; [rewrite (sh_cursor _ _ _ Hs); by rewrite Hrec|]. cbn [step]. unfold main_turn.
  unfold is_empty. rewrite !bool_decide_eq_false_2 by done. cbn [negb andb]. rewrite E.
  assert (exists u, r = Ok u) as [u ->].
  { eapply (sync_cycle_answering from_str k); [exact Hs|rewrite Hrec..|exact Hans|exact E]; done. }
  pose proof (sync_cycle_shipped from_str k h (mkFaults true true true) server d p (Ok u) Hs) as Hok. rewrite Hrec in Hok.
  destruct (Hok Hmax Hl E) as [[_ _ Hc _] Hp].
  cbn [disk posts records] in *. rewrite firstn_all in Hc. eauto.
Qed.

(** Nothing is posted twice by cycles that succeed, but a cycle that fails keeps its old
    cursor: the record the server accepted before the failure is posted again. *)
Lemma failed_cycle_reposts l x v server :
  from_str (x ++ newline) = Some v -> lacks "010" x = true -> utf8_valid (x ++ newline) = true ->
  is_success l = true -> server 0%nat = HttpStatus l ->
  forall y v', from_str (y ++ newline) = Some v' -> lacks "010" y = true ->
  utf8_valid (y ++ newline) = true -> server 1%nat = HttpStatus 500 ->
  let d := mkDisk (Some (lines_text [x; y])) None in
  sync_cycle from_str (mkFaults true true true) server d =
    (d, ([(v, HttpStatus l); (v', HttpStatus 500)], Err "Systemic sync failure - HTTP 500")).
Proof.
  intros Hv Hx Hux Hok H0 y v' Hv' Hy Huy H1 d. unfold sync_cycle, d. cbn [negb andb cursor_readable corpus_readable corpus].
  change (read_cursor _) with 0. pose proof (len_nonneg (lines_text [x; y])).
  rewrite (proj2 (Z.ltb_ge _ _)) by done. change (Z.to_nat 0) with 0%nat. cbn [drop_bytes].
  rewrite read_lines_text by auto. cbn [fmap list_fmap sync_lines].
  by rewrite Hux, Hv, H0, Hok, Huy, Hv', H1.
Qed.
End guarantees.

Lemma sync_cycle_ready {V} (from_str : string -> option V) server before rest :
  len (before ++ rest) <= U64_MAX ->
  sync_cycle from_str (mkFaults true true true) server
    (mkDisk (Some (before ++ rest)) (Some (pretty (len before)))) =
  (let d := mkDisk (Some (before ++ rest)) (Some (pretty (len before))) in
   let '(posts, r) := sync_lines from_str server 0 (read_lines rest) 0 0 in
   match r with
   | Err e => (d, (posts, Err e))
   | Ok (_, n) =>
       if (0 <? n)%Z then (mkDisk (Some (before ++ rest)) (Some (pretty (len before + n))), (posts, Ok tt))
       else (d, (posts, Ok tt))
   end).
Proof.
  intros Hmax. rewrite len_app in Hmax. pose proof (len_nonneg before). pose proof (len_nonneg rest).
  unfold sync_cycle. cbn [corpus negb andb cursor_readable corpus_readable cursor_saved].
  rewrite read_cursor_saved by lia. rewrite (proj2 (Z.ltb_ge _ _)) by (rewrite len_app; lia).
  replace (drop_bytes (Z.to_nat (len before)) (before ++ rest)) with rest
    by (unfold len; by rewrite Nat2Z.id, drop_bytes_app).
  by destruct (sync_lines from_str server 0 (read_lines rest) 0 0) as [posts [[s n]|e]].
Qed.

(** A record read before all of it is in the file is lost: the first cycle
    finds a last line that is not JSON and moves the cursor behind it without a post; once
    the record is complete, the next cycle reads its remainder only, so the record itself
    is posted by neither (its remainder is, when that happens to be JSON). *)
Theorem torn_record_lost {V} (from_str : string -> option V) server server' before part rest :
  len (before ++ part ++ rest ++ newline) <= U64_MAX ->
  lacks "010" part = true -> lacks "010" rest = true -> part <> "" ->
  utf8_valid part = true -> utf8_valid (rest ++ newline) = true -> from_str part = None ->
  from_str (rest ++ newline) = None ->
  let cursor := Some (pretty (len (before ++ part))) in
  sync_cycle from_str (mkFaults true true true) server
    (mkDisk (Some (before ++ part)) (Some (pretty (len before)))) =
    (mkDisk (Some (before ++ part)) cursor, ([], Ok tt)) /\
  sync_cycle from_str (mkFaults true true true) server'
    (mkDisk (Some (before ++ part ++ rest ++ newline)) cursor) =
    (mkDisk (Some (before ++ part ++ rest ++ newline))
       (Some (pretty (len (before ++ part ++ rest ++ newline)))), ([], Ok tt)).
Proof.
  intros Hmax Hp Hr Hne Hup Hur Hnone Hnone'. cbn zeta. rewrite string_app_assoc in *.
  pose proof (len_nonneg (rest ++ newline)). pose proof (len_nonneg part).
  assert (0 < len part) by (destruct part; [done|unfold len; cbn; lia]).
  assert (0 < len (rest ++ newline)) by (rewrite len_app; pose proof (len_nonneg rest); change (len newline) with 1; lia).
  split.
  - rewrite sync_cycle_ready by (rewrite len_app in Hmax; lia).
    rewrite (read_lines_torn part) by done. cbn [sync_lines]. rewrite Hup, Hnone. cbn [negb].
    rewrite (proj2 (Z.ltb_lt _ _)) by lia. by rewrite Z.add_0_l, len_app.
  - rewrite sync_cycle_ready by done.
    change (rest ++ newline) with (rest ++ newline) at 2.
    replace (read_lines (rest ++ newline)) with [rest ++ newline]
      by (rewrite <- (string_app_nil_r (rest ++ newline)) at 2; by rewrite read_lines_cons).
    cbn [sync_lines]. rewrite Hur, Hnone'. cbn [negb].
    rewrite (proj2 (Z.ltb_lt _ _)) by lia. by rewrite Z.add_0_l, <- len_app.
Qed.

(** ** The recorder's files *)

Definition CORPUS_FILE : string := "ssd_training_corpus.jsonl".

Lemma corpus_file_dated date : corpus_file date <> CORPUS_FILE.
Proof. done. Qed.

Lemma writer_run_keeps turns w f : (forall date, corpus_file date <> f) ->
  open_file w = corpus_file (current_date w) ->
  FlightRecorder.disk (writer_run turns w) !! f = FlightRecorder.disk w !! f.
Proof.
  intros Hf. revert w. induction turns as [|[[date ok] line] turns IH]; intros w Hw.
  - cbn. by rewrite lookup_insert_ne by (rewrite Hw; apply Hf).
  - cbn [writer_run]. destruct (writer_turn_visible w date ok line f Hw) as (Hd & Ho & _).
    rewrite IH by by rewrite Ho, Hd. unfold writer_turn. case_decide; [done|]. destruct ok; [|done].
    cbn. by rewrite lookup_insert_ne by (rewrite Hw; apply Hf).
Qed.

(** The recorder and the scheduler do not meet: the recorder writes one file per day and
    never the undated file the scheduler reads, so whatever is recorded, over however many
    days, a cycle returns without reading, posting or saving anything. *)
Theorem recorder_never_shipped {V} (from_str : string -> option V) today d turns w f server cursor :
  writer_start true true today d = Some w -> d !! CORPUS_FILE = None ->
  let files := FlightRecorder.disk (writer_run turns w) in
  let disk := mkDisk (files !! CORPUS_FILE) cursor in
  sync_cycle from_str f server disk = (disk, ([], Ok tt)).
Proof.
  intros Hw Hd files disk. injection Hw as <-. unfold disk, files.
  rewrite (writer_run_keeps turns _ CORPUS_FILE corpus_file_dated) by done. cbn [FlightRecorder.disk].
  by rewrite Hd.
Qed.

(** ** Witnesses *)

(** Lines of digits as the records. *)
Definition sample_json (s : string) : option Z := parse_u64 (trim s).
Definition sample_history : list Event :=
  [Append "7"; Append "x"; Turn (mkFaults true true true) (fun _ => HttpStatus 201);
   Append "8"; Turn (mkFaults true true true) (fun _ => HttpStatus 503); Append "9"].

Example sample_run :
  run sample_json "https://u" "k" sample_history history_init =
  mkHistory (mkDisk (Some (lines_text ["7"; "x"; "8"; "9"])) (Some "4")) ["7"; "x"; "8"; "9"]
    [(7%Z, HttpStatus 201); (8%Z, HttpStatus 503)].
Proof. reflexivity. Qed.

Lemma no_record_lost_witness :
  exists k, (k <= 4)%nat /\
    read_cursor (disk (run sample_json "https://u" "k" sample_history history_init)) =
      len (lines_text (take k ["7"; "x"; "8"; "9"])).
Proof.
  destruct (no_record_lost sample_json "https://u" "k" sample_history) as (k & Hk & Hc & _).
  - by vm_compute.
  - repeat constructor.
  - exists k. split; [exact Hk|exact Hc].
Defined.

Lemma cycle_catches_up_witness :
  let h := run sample_json "https://u" "k" sample_history history_init in
  exists k, read_cursor (disk h) = len (lines_text (take k ["7"; "x"; "8"; "9"])) /\
    read_cursor (disk (step sample_json "https://u" "k" h
      (Turn (mkFaults true true true) (fun _ => HttpStatus 400)))) = 8%Z.
Proof.
  destruct (cycle_catches_up sample_json "https://u" "k" sample_history (mkFaults true true true)
    (fun _ => HttpStatus 400)) as (k & Hc & Hd & _).
  - by vm_compute.
  - repeat constructor.
  - repeat constructor.
  - done.
  - done.
  - done.
  - intros _ v. by right.
  - exists k. split; [exact Hc|]. etransitivity; [exact Hd|]. reflexivity.
Defined.

Lemma torn_record_lost_witness :
  sync_cycle sample_json (mkFaults true true true) (fun _ => HttpStatus 201)
    (mkDisk (Some ("7" ++ newline ++ "1x1")) (Some "2")) =
    (mkDisk (Some ("7" ++ newline ++ "1x1")) (Some "5"), ([], Ok tt)).
Proof.
  apply (torn_record_lost sample_json (fun _ => HttpStatus 201) (fun _ => HttpStatus 201)
    ("7" ++ newline) "1x1" "x"); first [reflexivity|done|by vm_compute].
Defined.

Lemma recorder_never_shipped_witness :
  let files := FlightRecorder.disk (writer_run [("2026-01-01", true, "{}")]
    (mkWriter "2026-01-01" (corpus_file "2026-01-01") "" ∅)) in
  sync_cycle sample_json (mkFaults true true true) (fun _ => HttpStatus 201)
    (mkDisk (files !! CORPUS_FILE) None) = (mkDisk None None, ([], Ok tt)).
Proof.
  exact (recorder_never_shipped sample_json "2026-01-01" ∅ [("2026-01-01", true, "{}")] _
    (mkFaults true true true) (fun _ => HttpStatus 201) None eq_refl eq_refl).
Defined.
