(* ===== verification/TpmMeasure.v ===== *)
(** * crates/core/src/security/tpm_measure.rs: attestation before boot

    The [secure-hardware] feature is an argument: with it, quote requests, their
    verification and every TPM operation are [unimplemented!], which panics.
    SHA-256 and the probing of device files are parameters. *)
From S2P Require Import Prelude RustStr.

Open Scope string_scope.

Definition SHA256_DIGEST_SIZE : nat := 32.
Definition PCR_COUNT : nat := 24.

(** The named registers. *)
Definition KERNEL_IMAGE : nat := 0.
Definition KERNEL_CONFIG : nat := 1.
Definition RUNTIME_STATE : nat := 2.
Definition MODULE_MANIFEST : nat := 3.
Definition SECURITY_POLICY : nat := 4.
Definition AUDIT_LOG : nat := 5.

Inductive EventType : Type :=
  | PrebootCert | PostCode | Unused | NoAction | Separator | Action | EventTag | SCRTMVersion
  | PlatformConfigFlags | TableOfDevices | CompactHash | Ipl | IplPartitionData | NonhostCode
  | NonhostConfig | NonhostInfo | OmitBootDeviceEvents | EfiVariableDriverConfig
  | EfiVariableBoot | EfiBootServicesApplication | EfiBootServicesDriver
  | EfiRuntimeServicesDriver | EfiGptEvent | EfiAction | EfiPlatformFirmwareBlob
  | EfiHandoffTables | EfiHcrtmEvent | EfiVariableAuthority | SereinKernelModule
  | SereinSecurityPolicy.
#[export] Instance EventType_eq_dec : EqDecision EventType.
Proof. solve_decision. Defined.

Definition EventType_code (e : EventType) : Z :=
  match e with
  | PrebootCert => 0x00000000 | PostCode => 0x00000001 | Unused => 0x00000002
  | NoAction => 0x00000003 | Separator => 0x00000004 | Action => 0x00000005
  | EventTag => 0x00000006 | SCRTMVersion => 0x00000007 | PlatformConfigFlags => 0x00000008
  | TableOfDevices => 0x00000009 | CompactHash => 0x0000000A | Ipl => 0x0000000B
  | IplPartitionData => 0x0000000C | NonhostCode => 0x0000000D | NonhostConfig => 0x0000000E
  | NonhostInfo => 0x0000000F | OmitBootDeviceEvents => 0x00000010
  | EfiVariableDriverConfig => 0x80000001 | EfiVariableBoot => 0x80000002
  | EfiBootServicesApplication => 0x80000003 | EfiBootServicesDriver => 0x80000004
  | EfiRuntimeServicesDriver => 0x80000005 | EfiGptEvent => 0x80000006
  | EfiAction => 0x80000007 | EfiPlatformFirmwareBlob => 0x80000008
  | EfiHandoffTables => 0x80000009 | EfiHcrtmEvent => 0x80000010
  | EfiVariableAuthority => 0x800000E0 | SereinKernelModule => 0x90000001
  | SereinSecurityPolicy => 0x90000002
  end.

Record MeasurementEvent := mkMeasurement {
  pcr_index : nat;
  event_type : EventType;
  digest : list Z;
  description : string }.

Inductive TpmError : Type :=
  | InvalidPcrIndex (i : nat)
  | HardwareUnavailable (s : string)
  | QuoteVerificationFailed (s : string)
  | CcaHardwareNotDetected (s : string)
  | EnclaveBootDenied (s : string)
  | SevSnpAttestationFailed (s : string)
  | TdxAttestationFailed (s : string).

(** [Display]. *)
Definition TpmError_display (e : TpmError) : string :=
  match e with
  | InvalidPcrIndex i => "Invalid PCR index: " ++ pretty (Z.of_nat i)
  | HardwareUnavailable s => "TPM 2.0 hardware not available: " ++ s
  | QuoteVerificationFailed s => "Hardware attestation quote verification failed: " ++ s
  | CcaHardwareNotDetected s => "Confidential Computing hardware not detected: " ++ s
  | EnclaveBootDenied s => "Enclave boot denied: " ++ s
  | SevSnpAttestationFailed s => "SEV-SNP attestation failed: " ++ s
  | TdxAttestationFailed s => "TDX attestation failed: " ++ s
  end.

Record SevSnpReport := mkSevSnp {
  version : Z;
  launch_digest : list Z;
  family_id : list Z;
  image_id : list Z;
  sev_report_data : list Z;
  sev_measurement : list Z;
  policy : Z;
  signature_algo : Z;
  signature : list Z;
  sev_verified : bool }.

Record TdxReport := mkTdx {
  td_attributes : list Z;
  xfam : Z;
  mr_td : list Z;
  mr_config_id : list Z;
  mr_owner : list Z;
  mr_owner_config : list Z;
  rt_mr : list (list Z);
  tdx_report_data : list Z;
  quote_signature : list Z;
  tdx_verified : bool }.

Inductive HardwareQuote : Type :=
  | SevSnp (r : SevSnpReport)
  | Tdx (r : TdxReport).

Inductive CcaPlatform : Type := AmdSevSnp | IntelTdx | SoftwareStub.

(** An array whose first bytes are a copy of [src]. *)
Definition copy_into (n : nat) (src : list Z) : list Z := src ++ replicate (n - length src) 0.

Section tpm.
Context (secure_hardware : bool) (compute_hash : list Z -> list Z).

(** *** Quotes *)

Definition verify (q : HardwareQuote) : outcome (result unit TpmError) :=
  match q with
  | SevSnp report =>
      if secure_hardware then Panic
      else Ret (if sev_verified report then Ok tt
                else Err (SevSnpAttestationFailed "SEV-SNP report signature verification failed"))
  | Tdx report =>
      if secure_hardware then Panic
      else Ret (if tdx_verified report then Ok tt
                else Err (TdxAttestationFailed "TDX report QE signature verification failed"))
  end.

Definition quote_platform (q : HardwareQuote) : string :=
  match q with SevSnp _ => "AMD-SEV-SNP" | Tdx _ => "Intel-TDX" end.
Definition measurement_digest (q : HardwareQuote) : list Z :=
  match q with SevSnp r => launch_digest r | Tdx r => mr_td r end.
Definition report_data (q : HardwareQuote) : list Z :=
  match q with SevSnp r => sev_report_data r | Tdx r => tdx_report_data r end.

(** [exists_]: whether a device file exists. *)
Definition detect (exists_ : string -> bool) : result CcaPlatform TpmError :=
  if secure_hardware then
    match exists_ "/dev/sev", exists_ "/dev/tdx-attest" with
    | true, _ => Ok AmdSevSnp
    | _, true => Ok IntelTdx
    | false, false => Err (CcaHardwareNotDetected
        "No SEV-SNP (/dev/sev) or TDX (/dev/tdx-attest) device found")
    end
  else Ok SoftwareStub.

Definition sev_quote (version policy signature_algo : Z) (data : list Z) : HardwareQuote :=
  let launch_digest := copy_into 48 (compute_hash data) in
  SevSnp (mkSevSnp version launch_digest (replicate 16 0) (replicate 16 0) data launch_digest
    policy signature_algo [] true).

Definition request_hardware_quote (platform : CcaPlatform) (data : list Z) :
    outcome (result HardwareQuote TpmError) :=
  match platform with
  | AmdSevSnp =>
      if secure_hardware then Panic else Ret (Ok (sev_quote 2 0x10000 1 data))
  | IntelTdx =>
      if secure_hardware then Panic else
      let mr_td := copy_into 48 (compute_hash data) in
      Ret (Ok (Tdx (mkTdx (replicate 8 0) 0x30000 mr_td (replicate 48 0) (replicate 48 0)
        (replicate 48 0) (replicate 4 (replicate 48 0)) data [] true)))
  | SoftwareStub => Ret (Ok (sev_quote 0 0 0 data))
  end.

(** *** The boot guard *)

Record EnclaveBootGuard := mkGuard {
  platform : CcaPlatform;
  verified_quote : option HardwareQuote;
  attestation_required : bool }.

Definition guard_new (exists_ : string -> bool) (required : bool) : EnclaveBootGuard :=
  mkGuard (match detect exists_ with Ok p => p | Err _ => SoftwareStub end) None required.
Definition guard_with_platform (p : CcaPlatform) (required : bool) : EnclaveBootGuard :=
  mkGuard p None required.

(** [random]: 64 bytes of the generator; [nonce_seed] the bytes of the fixed text. *)
Definition boot_nonce (nonce_seed random : list Z) : list Z :=
  if secure_hardware then random
  else
    let hash := compute_hash nonce_seed in
    (hash ++ hash)%list.

Definition verify_attestation_before_boot (nonce_seed random : list Z) (g : EnclaveBootGuard) :
    outcome (EnclaveBootGuard * result unit TpmError) :=
  let nonce := boot_nonce nonce_seed random in
  r ← request_hardware_quote (platform g) nonce;
  match r with
  | Ok quote =>
      v ← verify quote;
      match v with
      | Ok _ => Ret (mkGuard (platform g) (Some quote) (attestation_required g), Ok tt)
      | Err e =>
          Ret (g, if attestation_required g
                  then Err (EnclaveBootDenied ("Hardware attestation verification failed: " ++ TpmError_display e))
                  else Ok tt)
      end
  | Err e =>
      Ret (g, if attestation_required g
              then Err (EnclaveBootDenied ("Hardware quote request failed: " ++ TpmError_display e))
              else Ok tt)
  end.

(** *** The TPM interface *)

Definition tpm_new : outcome (result unit TpmError) :=
  if secure_hardware then Panic else Ret (Ok tt).
(** [pcr_extend], the [measure_] methods, [quote] and [verify_quote] have this body. *)
Definition tpm_operation {A} : outcome A := Panic.
End tpm.

(** ** What the guard guarantees *)

(** The event codes are those of distinct events. *)
Lemma EventType_code_inj e e' : EventType_code e = EventType_code e' -> e = e'.
Proof. destruct e, e'; intros H; first [reflexivity|discriminate]. Qed.

(** In the default build the guard lets every enclave boot, on every platform and
    also where attestation is required, with a quote it has made up itself, which is the
    same on each boot; in a [secure-hardware] build it panics, so no build checks a
    signature or a measurement (the module promises no software fallback and a fresh
    nonce). *)
Theorem boot_guard_decides secure hash seed random random' g :
  (secure = true -> verify_attestation_before_boot secure hash seed random g = Panic) /\
  (secure = false ->
   exists quote, verify_attestation_before_boot secure hash seed random g =
      Ret (mkGuard (platform g) (Some quote) (attestation_required g), Ok tt) /\
    verify_attestation_before_boot secure hash seed random' g =
      Ret (mkGuard (platform g) (Some quote) (attestation_required g), Ok tt) /\
    measurement_digest quote = copy_into 48 (hash (hash seed ++ hash seed)%list) /\
    (platform g = SoftwareStub -> quote_platform quote = "AMD-SEV-SNP")).
Proof.
  split; intros ->; destruct g as [[] q req]; try reflexivity; simpl;
    eexists; (split_and!; [reflexivity|reflexivity|reflexivity|done]).
Qed.

(** Any quote that claims to be verified is accepted, whatever its signature. *)
Lemma verify_ignores_signature r sig :
  verify false (SevSnp r) =
  verify false (SevSnp (mkSevSnp (version r) (launch_digest r) (family_id r) (image_id r)
    (sev_report_data r) (sev_measurement r) (policy r) (signature_algo r) sig (sev_verified r))).
Proof. reflexivity. Qed.

(** The attested digest has the size of the field when the hash has its size. *)
Lemma copy_into_length n src : (length src <= n)%nat -> length (copy_into n src) = n.
Proof. intros. unfold copy_into. rewrite length_app, length_replicate. lia. Qed.

Lemma boot_guard_decides_witness :
  exists quote, verify_attestation_before_boot false (fun _ => replicate 32 7) [1] []
      (guard_with_platform IntelTdx true) =
    Ret (mkGuard IntelTdx (Some quote) true, Ok tt) /\
    measurement_digest quote = (replicate 32 7 ++ replicate 16 0)%list.
Proof.
  destruct (proj2 (boot_guard_decides false (fun _ => replicate 32 7) [1] [] []
    (guard_with_platform IntelTdx true)) eq_refl) as (quote & Hrun & _ & Hd & _).
  exists quote. split; [exact Hrun|exact Hd].
Defined.
