(* ===== verification/MockHsm.v ===== *)
(** * crates/core/src/security/mock_hsm.rs: the software stand-in for the TPM

    The trait [HardwareSecurityModule] of crates/core/src/lib.rs as a class of operations
    on a module's state, the mock as its instance, and what a verifier would need of it. *)
From Stdlib Require Import Ascii String.
From S2P Require Import Prelude RustStr TpmMeasure.

Local Open Scope string_scope.

Record QuoteResult := mkQuote {
  pcr_digest : list Z; pcr_values : list (list Z); nonce : list Z }.

(** The trait; a measurement may change the module's registers. *)
Class HardwareSecurityModule (S : Type) := {
  hsm_verify_attestation : S -> outcome (S * result unit TpmError);
  get_verified_quote : S -> option HardwareQuote;
  measure_kernel : list Z -> S -> S * result unit TpmError;
  measure_security_policy : list Z -> S -> S * result unit TpmError;
  measure_module : string -> list Z -> S -> S * result unit TpmError;
  measure_runtime_state : list Z -> S -> S * result unit TpmError;
  quote : list Z -> S -> result QuoteResult TpmError;
  verify_quote : QuoteResult -> list (list Z) -> S -> result bool TpmError }.

Section mock.
Context (secure_hardware : bool) (compute_hash : list Z -> list Z) (nonce_seed random : list Z).

Record MockHsm := mkHsm { boot_guard : EnclaveBootGuard }.

(** [exists_]: which device files there are. *)
Definition mock_new (exists_ : string -> bool) : result MockHsm TpmError :=
  let platform := match detect secure_hardware exists_ with Ok p => p | Err _ => SoftwareStub end in
  Ok (mkHsm (guard_with_platform platform false)).

Definition mock_verify_attestation (m : MockHsm) : outcome (MockHsm * result unit TpmError) :=
  '(g, r) ← verify_attestation_before_boot secure_hardware compute_hash nonce_seed random (boot_guard m);
  Ret (mkHsm g, r).

(** All measurements have this body. *)
Definition ignored (m : MockHsm) : MockHsm * result unit TpmError := (m, Ok tt).

Definition mock_quote (nonce : list Z) : QuoteResult :=
  let hash := compute_hash nonce in
  mkQuote hash (<[0%nat := hash]> (replicate PCR_COUNT (replicate SHA256_DIGEST_SIZE 0))) nonce.

#[local] Instance MockHsm_module : HardwareSecurityModule MockHsm := {
  hsm_verify_attestation := mock_verify_attestation;
  get_verified_quote m := verified_quote (boot_guard m);
  measure_kernel _ := ignored;
  measure_security_policy _ := ignored;
  measure_module _ _ := ignored;
  measure_runtime_state _ := ignored;
  quote n _ := Ok (mock_quote n);
  verify_quote _ _ _ := Ok true }.

(** What is measured. *)
Inductive Measurement : Type :=
  | Kernel (h : list Z) | Policy (h : list Z) | WasmModule (name : string) (h : list Z) | RuntimeState (h : list Z).
Definition measure (x : Measurement) (m : MockHsm) : MockHsm * result unit TpmError :=
  match x with
  | Kernel h => measure_kernel h m
  | Policy h => measure_security_policy h m
  | WasmModule name h => measure_module name h m
  | RuntimeState h => measure_runtime_state h m
  end.
Definition measure_all (l : list Measurement) (m : MockHsm) : MockHsm := fold_left (fun m x => (measure x m).1) l m.

Lemma measure_all_id l m : measure_all l m = m.
Proof. unfold measure_all. induction l as [|[] l IH]; [done|apply IH..]. Qed.

(** The mock attests nothing: a quote is a function of its nonce alone, equal after any
    two histories of measurements on any two modules, and every quote is verified against
    every expectation; still it has the shape of a real one, 24 registers of which the
    first is the digest. *)
Theorem mock_attests_nothing l l' m m' n q pcrs :
  quote n (measure_all l m) = quote n (measure_all l' m') /\
  verify_quote q pcrs (measure_all l m) = Ok true /\
  (exists r, quote n m = Ok r /\ length (pcr_values r) = PCR_COUNT /\
     pcr_values r !! 0%nat = Some (pcr_digest r) /\ nonce r = n).
Proof.
  rewrite !measure_all_id. split_and!; [done|done|]. eexists. split_and!; try reflexivity.
Qed.
End mock.
