(* ===== verification/ModelInterface.v ===== *)
(** * crates/core/src/model_interface.rs: on-device models

    The interface [ModelInterface], its two implementations and the factory; the
    [wasi-nn] feature is an argument of the factory.  The wasi-nn crate's graphs and
    contexts and the file system are parameters.  Reloads and inferences of several
    threads interleave at the two critical sections of [load_graph]. *)
From Stdlib Require Import Ascii String.
From S2P Require Import Prelude RustStr.

Local Open Scope string_scope.

Inductive ModelEncoding : Type := Ggml | Onnx | Tensorflow.
Inductive InferenceTarget : Type := Cpu | Gpu.
#[export] Instance ModelEncoding_eq_dec : EqDecision ModelEncoding.
Proof. solve_decision. Defined.
#[export] Instance InferenceTarget_eq_dec : EqDecision InferenceTarget.
Proof. solve_decision. Defined.

Definition ModelEncoding_display (e : ModelEncoding) : string :=
  match e with Ggml => "ggml" | Onnx => "onnx" | Tensorflow => "tensorflow" end.
Definition InferenceTarget_display (t : InferenceTarget) : string :=
  match t with Cpu => "cpu" | Gpu => "gpu" end.

Record ModelConfig := mkConfig {
  c_model_name : string; c_encoding : ModelEncoding; c_target : InferenceTarget; models_dir : string }.

Definition config_default : ModelConfig := mkConfig "default-slm" Ggml Cpu "./serein-models".
Definition with_model_name (name : string) (c : ModelConfig) : ModelConfig :=
  mkConfig name (c_encoding c) (c_target c) (models_dir c).
Definition with_encoding (e : ModelEncoding) (c : ModelConfig) : ModelConfig :=
  mkConfig (c_model_name c) e (c_target c) (models_dir c).
Definition with_target (t : InferenceTarget) (c : ModelConfig) : ModelConfig :=
  mkConfig (c_model_name c) (c_encoding c) t (models_dir c).
Definition with_models_dir (dir : string) (c : ModelConfig) : ModelConfig :=
  mkConfig (c_model_name c) (c_encoding c) (c_target c) dir.

(** [Path::join] of a Unix path: an absolute path replaces the directory. *)
Definition join (dir path : string) : string :=
  if starts_with "/" path then path
  else if is_empty dir || ends_with "/" dir then dir ++ path
  else dir ++ "/" ++ path.

(** The trait: operations on an implementation's state [M]. *)
Class ModelInterface (M : Type) := {
  infer : string -> Z -> M -> M * result string string;
  reload_weights : string -> M -> M * result unit string;
  model_name : M -> string;
  encoding : M -> ModelEncoding;
  target : M -> InferenceTarget }.

(** ** The stub of builds without the feature *)

Record StubModel := mkStub { stub_config : ModelConfig }.
Definition stub_new (config : ModelConfig) : result StubModel string := Ok (mkStub config).
Definition stub_infer (input : string) (max_tokens : Z) (m : StubModel) : StubModel * result string string :=
  (m, Err "WASI-NN inference not available - enable the 'wasi-nn' feature to enable on-device SLM inference").
Definition stub_reload_weights (weight_path : string) (m : StubModel) : StubModel * result unit string :=
  (m, Err "WASI-NN weight reload not available - enable the 'wasi-nn' feature").
#[export] Instance StubModel_interface : ModelInterface StubModel := {
  infer := stub_infer; reload_weights := stub_reload_weights;
  model_name m := c_model_name (stub_config m); encoding m := c_encoding (stub_config m);
  target m := c_target (stub_config m) }.

(** ** The wasi-nn model *)

Section wasi_nn.
Context {Graph Ctx : Type} (read : string -> result string string)
  (build_from_bytes : ModelEncoding -> InferenceTarget -> string -> result Graph string)
  (init_execution_context : Graph -> result Ctx string)
  (set_input : string -> Ctx -> Ctx * result unit string) (compute : Ctx -> Ctx * result unit string)
  (get_output : Ctx -> result string string).

Record WasiNnModel := mkModel {
  config : ModelConfig; graph : option Graph; graph_context : option Ctx }.

(** The part of [load_graph] before its critical sections.  An error shows its outermost
    context only, here of a path without characters to escape. *)
Definition build (config : ModelConfig) (weight_path : string) : result (Graph * Ctx) string :=
  match read weight_path with
  | Err _ => Err ("Failed to read model weights from " ++ quoted weight_path)
  | Ok weight_data =>
      match build_from_bytes (c_encoding config) (c_target config) weight_data with
      | Err _ => Err "Failed to build WASI-NN computation graph from weight bytes"
      | Ok graph =>
          match init_execution_context graph with
          | Err _ => Err "Failed to initialize WASI-NN execution context"
          | Ok context => Ok (graph, context)
          end
      end
  end.
Definition set_graph (g : Graph) (m : WasiNnModel) : WasiNnModel :=
  mkModel (config m) (Some g) (graph_context m).
Definition set_context (c : Ctx) (m : WasiNnModel) : WasiNnModel :=
  mkModel (config m) (graph m) (Some c).

Definition load_graph (weight_path : string) (m : WasiNnModel) : WasiNnModel * result unit string :=
  match build (config m) weight_path with
  | Err e => (m, Err e)
  | Ok (g, c) => (set_context c (set_graph g m), Ok tt)
  end.

Definition wasi_nn_new (config : ModelConfig) : result WasiNnModel string :=
  let '(m, r) := load_graph (join (models_dir config) (c_model_name config)) (mkModel config None None) in
  _ <-? r ;; Ok m.

(** [max_tokens] is only logged. *)
Definition wasi_nn_infer (input : string) (max_tokens : Z) (m : WasiNnModel)
    : WasiNnModel * result string string :=
  match graph_context m with
  | None => (m, Err "WASI-NN execution context not initialized - call reload_weights first")
  | Some ctx =>
      let '(ctx, r) := set_input input ctx in
      match r with
      | Err e => (set_context ctx m, Err "Failed to set WASI-NN input tensor")
      | Ok _ =>
          let '(ctx, r) := compute ctx in
          match r with
          | Err e => (set_context ctx m, Err "WASI-NN inference computation failed")
          | Ok _ =>
              (set_context ctx m,
               match get_output ctx with
               | Err _ => Err "Failed to retrieve WASI-NN output tensor"
               | Ok output => Ok output
               end)
          end
      end
  end.
Definition wasi_nn_reload_weights (weight_path : string) (m : WasiNnModel)
    : WasiNnModel * result unit string :=
  load_graph (join (models_dir (config m)) weight_path) m.
#[local] Instance WasiNnModel_interface : ModelInterface WasiNnModel := {
  infer := wasi_nn_infer; reload_weights := wasi_nn_reload_weights;
  model_name m := c_model_name (config m); encoding m := c_encoding (config m);
  target m := c_target (config m) }.

Definition create_model (feature_wasi_nn : bool) (config : ModelConfig)
    : result (WasiNnModel + StubModel) string :=
  if feature_wasi_nn then m <-? wasi_nn_new config ;; Ok (inl m)
  else m <-? stub_new config ;; Ok (inr m).
Definition model_infer (input : string) (max_tokens : Z) (m : WasiNnModel + StubModel) : result string string :=
  match m with inl m => (infer input max_tokens m).2 | inr m => (infer input max_tokens m).2 end.

(** The coordinator's call on its blocking pool: [free] permits are left, [core_feature]
    is the feature of the core crate and [join_error] the failure of the blocking
    task. *)
Definition invoke_wasi_nn (core_feature : bool) (free : Z) (join_error : option string)
    (utf8_error : string -> string) (model_id model_path : string) (max_output_tokens : Z) (prompt : string) : result string string :=
  if decide (free <= 0) then
    Err "Resource exhausted: blocking thread pool at capacity (64 permits) - refusing spawn_blocking to prevent ghost-thread leak"
  else
    let config := with_models_dir model_path (with_target Cpu (with_encoding Ggml
      (with_model_name model_id config_default))) in
    match join_error with
    | Some e => Err ("Tokio starvation prevented, but spawn_blocking failed: " ++ e)
    | None =>
        match create_model core_feature config with
        | Err e => Err ("Failed to create WASI-NN model: " ++ e)
        | Ok model =>
            match model_infer prompt (max_output_tokens mod (U32_MAX + 1)) model with
            | Err e => Err ("WASI-NN inference failed: " ++ e)
            | Ok output => if utf8_valid output then Ok output else Err ("WASI-NN output is not valid UTF-8: " ++ utf8_error output)
            end
        end
    end.

(** ** Interleaved reloads

    A reload that has built its graph and context waits to store them: first the one,
    then the other.  An inference holds the lock of the context throughout. *)
Inductive phase : Type := ToStoreGraph | ToStoreContext.
Record Shared := mkShared { model : WasiNnModel; reloads : list (phase * Graph * Ctx) }.

Inductive model_step : Shared -> Shared -> Prop :=
  | step_build m rs path g c :
      build (config m) path = Ok (g, c) ->
      model_step (mkShared m rs) (mkShared m ((ToStoreGraph, g, c) :: rs))
  | step_build_fails m rs path e :
      build (config m) path = Err e -> model_step (mkShared m rs) (mkShared m rs)
  | step_graph m rs rs' g c :
      model_step (mkShared m (rs ++ (ToStoreGraph, g, c) :: rs'))
        (mkShared (set_graph g m) (rs ++ (ToStoreContext, g, c) :: rs'))
  | step_context m rs rs' g c :
      model_step (mkShared m (rs ++ (ToStoreContext, g, c) :: rs'))
        (mkShared (set_context c m) (rs ++ rs'))
  | step_infer m rs input n :
      model_step (mkShared m rs) (mkShared (wasi_nn_infer input n m).1 rs).

(** The contexts one weight file gives: the initial one and those its inferences leave. *)
Inductive context_of (cfg : ModelConfig) : Ctx -> Prop :=
  | context_built path g c : build cfg path = Ok (g, c) -> context_of cfg c
  | context_input input c : context_of cfg c -> context_of cfg (set_input input c).1
  | context_computed c : context_of cfg c -> context_of cfg (compute c).1.

Lemma infer_context_of cfg input n m :
  (forall c, graph_context m = Some c -> context_of cfg c) ->
  forall c, graph_context (wasi_nn_infer input n m).1 = Some c -> context_of cfg c.
Proof.
  intros Hm c. unfold wasi_nn_infer. destruct (graph_context m) as [c0|] eqn:Ec; [|cbn; congruence].
  specialize (Hm c0 eq_refl). pose proof (context_input cfg input c0 Hm) as Hi.
  destruct (set_input input c0) as [c1 [[]|]]; cbn in Hi; [|by intros [= <-]].
  pose proof (context_computed cfg c1 Hi) as Hc.
  destruct (compute c1) as [c2 [[]|]]; cbn in Hc; by intros [= <-].
Qed.

Lemma infer_config input n m : config (wasi_nn_infer input n m).1 = config m.
Proof.
  unfold wasi_nn_infer. destruct (graph_context m) as [c0|]; [|done].
  destruct (set_input input c0) as [c1 [[]|]]; [|done]. by destruct (compute c1) as [c2 [[]|]].
Qed.

(** In every interleaving of reloads and inferences the context that inference uses is one
    that a single weight file gave, together with the inferences made on it: never a
    half-loaded one; reloads that fail leave the model as it is. *)
Theorem context_from_one_file cfg s :
  rtc model_step (mkShared (mkModel cfg None None) []) s ->
  config (model s) = cfg /\ forall c, graph_context (model s) = Some c -> context_of cfg c.
Proof.
  intros Hs.
  assert (Hinv : forall s s', model_step s s' ->
    (config (model s) = cfg /\ (forall c, graph_context (model s) = Some c -> context_of cfg c) /\
     forall p g c, (p, g, c) ∈ reloads s -> context_of cfg c) ->
    config (model s') = cfg /\ (forall c, graph_context (model s') = Some c -> context_of cfg c) /\
     forall p g c, (p, g, c) ∈ reloads s' -> context_of cfg c).
  { clear. intros s s' Hstep (Hcfg & Hc & Hr).
    destruct Hstep as [m rs path g c Hb|m rs path e Hb|m rs rs' g c|m rs rs' g c|m rs input n]; cbn in *.
    - split_and!; [done..|]. intros p g' c' [[= -> -> ->]|Hin]%elem_of_cons; [|by eapply Hr].
      subst cfg. by eapply context_built.
    - done.
    - split_and!; [done..|]. intros p g' c' Hin. apply elem_of_app in Hin as [Hin|[[= -> -> ->]|Hin]%elem_of_cons].
      + eapply Hr. apply elem_of_app. by left.
      + eapply Hr. apply elem_of_app. right. by left.
      + eapply Hr. apply elem_of_app. right. by right.
    - split_and!; [done| |].
      + intros c' [= <-]. eapply Hr. apply elem_of_app. right. by left.
      + intros p g' c' Hin. eapply Hr. apply elem_of_app in Hin as [Hin|Hin]; apply elem_of_app; [by left|].
        right. by right.
    - rewrite infer_config. split_and!; [done| |done]. by apply infer_context_of. }
  assert (Hall : forall s0, rtc model_step s0 s ->
    (config (model s0) = cfg /\ (forall c, graph_context (model s0) = Some c -> context_of cfg c) /\
     forall p g c, (p, g, c) ∈ reloads s0 -> context_of cfg c) ->
    config (model s) = cfg /\ forall c, graph_context (model s) = Some c -> context_of cfg c).
  { intros s0. induction 1 as [x|x y z Hxy _ IH]; [naive_solver|]. intros Hx. by apply IH, (Hinv x). }
  apply Hall in Hs; [done|]. cbn. split_and!; [done..|]. intros p g c Hin. by apply elem_of_nil in Hin.
Qed.

(** The graph that is kept and the context in use may be of different files: two reloads
    that interleave leave the graph of the one with the context of the other, though a
    reload is documented as atomic. *)
Theorem reloads_mix cfg path path' g g' c c' :
  build cfg path = Ok (g, c) -> build cfg path' = Ok (g', c') ->
  rtc model_step (mkShared (mkModel cfg None None) [])
    (mkShared (mkModel cfg (Some g') (Some c)) []).
Proof.
  intros Hb Hb'. eapply rtc_l; [eapply (step_build _ _ path); exact Hb|].
  eapply rtc_l; [eapply (step_build _ _ path'); exact Hb'|].
  eapply rtc_l; [apply (step_graph _ [(ToStoreGraph, g', c')] [] g c)|].
  eapply rtc_l; [apply (step_graph _ [] [(ToStoreContext, g, c)] g' c')|].
  eapply rtc_l; [apply (step_context _ [] [(ToStoreContext, g, c)] g' c')|].
  eapply rtc_l; [apply (step_context _ [] [] g c)|]. apply rtc_refl.
Qed.

(** A weight path from the root of the file system leaves the models directory. *)
Theorem reload_escapes path m : starts_with "/" path = true ->
  wasi_nn_reload_weights path m = load_graph path m.
Proof. intros Hp. unfold wasi_nn_reload_weights, join. by rewrite Hp. Qed.

(** Without the core crate's feature every on-device inference fails, whatever the
    prompt, the model and the state of the pool. *)
Theorem invoke_on_stub_fails free join_error utf8_error model_id model_path n prompt :
  exists e, invoke_wasi_nn false free join_error utf8_error model_id model_path n prompt = Err e.
Proof.
  unfold invoke_wasi_nn. case_decide; [eauto|]. destruct join_error; [eauto|].
  cbn [create_model stub_new result_bind model_infer infer StubModel_interface stub_infer snd]. eauto.
Qed.
End wasi_nn.

(** ** Witnesses: a weight file is its own graph, a context the file and the last input *)

Definition sample_read (path : string) : result string string :=
  if ends_with ".gguf" path then Ok path else Err "no such file".
Definition sample_build (_ : ModelEncoding) (_ : InferenceTarget) (weights : string) : result string string := Ok weights.
Definition sample_init (g : string) : result (string * string) string := Ok (g, "").
Definition sample_input (input : string) (c : string * string) : (string * string) * result unit string :=
  ((c.1, input), Ok tt).
Definition sample_compute (c : string * string) : (string * string) * result unit string := (c, Ok tt).
Definition sample_output (c : string * string) : result string string := Ok (c.1 ++ ":" ++ c.2).

Lemma reloads_mix_witness :
  rtc (model_step sample_read sample_build sample_init sample_input sample_compute sample_output)
    (mkShared (mkModel config_default None None) [])
    (mkShared (mkModel config_default (Some "b.gguf") (Some ("a.gguf", ""))) []).
Proof.
  exact (reloads_mix sample_read sample_build sample_init sample_input sample_compute sample_output
    config_default "a.gguf" "b.gguf" "a.gguf" "b.gguf" ("a.gguf", "") ("b.gguf", "") eq_refl eq_refl).
Defined.

Lemma sample_mixed :
  rtc (model_step sample_read sample_build sample_init sample_input sample_compute sample_output)
    (mkShared (mkModel config_default None None) [])
    (mkShared (mkModel config_default (Some "a.gguf") (Some ("a.gguf", ""))) []).
Proof.
  eapply rtc_l; [by apply (step_build _ _ _ _ _ _ _ _ "a.gguf" "a.gguf" ("a.gguf", ""))|].
  eapply rtc_l; [apply (step_graph _ _ _ _ _ _ _ [] [] "a.gguf" ("a.gguf", ""))|].
  eapply rtc_l; [apply (step_context _ _ _ _ _ _ _ [] [] "a.gguf" ("a.gguf", ""))|]. apply rtc_refl.
Qed.

Lemma context_from_one_file_witness :
  context_of sample_read sample_build sample_init sample_input sample_compute config_default ("a.gguf", "").
Proof.
  exact (proj2 (context_from_one_file sample_read sample_build sample_init sample_input sample_compute
    sample_output config_default _ sample_mixed) ("a.gguf", "") eq_refl).
Defined.

Lemma reload_escapes_witness :
  (wasi_nn_reload_weights sample_read sample_build sample_init "/tmp/x.gguf"
     (mkModel config_default None None)).1 =
  mkModel config_default (Some "/tmp/x.gguf") (Some ("/tmp/x.gguf", "")).
Proof.
  rewrite (reload_escapes sample_read sample_build sample_init "/tmp/x.gguf" _ eq_refl). reflexivity.
Defined.

Example infer_sample :
  (wasi_nn_infer sample_input sample_compute sample_output "hi" 7
     (mkModel config_default (Some "a.gguf") (Some ("a.gguf", "")))).2 = Ok "a.gguf:hi".
Proof. reflexivity. Qed.
