(* ===== verification/FallbackPool.v ===== *)
(** * crates/llm-router/src/coordinator.rs: the fallback node built with the feature [wasi-nn]

    In that build an invocation runs the model as a task of the blocking pool, behind two
    semaphores: the node's, for which it waits, and the process's, which it only tries.
    Both permits are held by the invocation and not by the task: an invocation whose time
    is over, or that its caller drops, gives them back while its task goes on.  The
    model's answers and the clocks are arguments. *)
From Stdlib Require Import Ascii String.
From S2P Require Import Prelude RustStr Coordinator ModelInterface.

Local Open Scope string_scope.

Definition NODE_PERMITS : Z := 4.
Definition MAX_BLOCKING_TASKS : Z := 64.

(** ** One invocation *)

Inductive Inference : Type := TimedOut | Inferred (r : result string string).

Definition run_wasi_nn (inference : Inference) (ms : Z) (n : PhysicalFallbackNode)
    : PhysicalFallbackNode * FallbackNodeResult :=
  let e := endpoint n in
  match inference with
  | Inferred (Ok output) => (n, mkFallbackResult (Some output) None ms (e_model_id e))
  | Inferred (Err err) =>
      (count_error n, mkFallbackResult None (Some ("wasi-nn inference failed: " ++ err)) ms (e_model_id e))
  | TimedOut =>
      (count_error n,
       mkFallbackResult None
         (Some ("wasi-nn inference timed out after " ++ pretty (inference_timeout_ms e) ++ "ms"))
         (inference_timeout_ms e) (e_model_id e))
  end.
Definition fallback_invoke_nn (permit : Permit) (now ms : Z) (inference : Inference) (prompt : string)
    (n : PhysicalFallbackNode) : outcome (PhysicalFallbackNode * FallbackNodeResult) :=
  invoke_gated permit now ms prompt (run_wasi_nn inference ms) n.

(** ** Invocations that overlap *)

Inductive call : Type :=
  | Waiting
  | Entered
  | Inferring
  | Returned (r : FallbackNodeResult)
  | Dropped.

(** [abandoned] counts the tasks whose invocation is gone. *)
Record Pool := mkPool {
  node : PhysicalFallbackNode; node_free : Z; process_free : Z;
  calls : list (string * call); abandoned : nat }.
Definition pool_new (n : PhysicalFallbackNode) : Pool := mkPool n NODE_PERMITS MAX_BLOCKING_TASKS [] 0.

Definition holds_node (c : string * call) : bool := match c.2 with Entered | Inferring => true | _ => false end.
Definition holds_process (c : string * call) : bool := match c.2 with Inferring => true | _ => false end.
Definition count (p : string * call -> bool) (l : list (string * call)) : nat := length (List.filter p l).
(** The tasks in the blocking pool. *)
Definition blocking_tasks (s : Pool) : nat := (count holds_process (calls s) + abandoned s)%nat.

Definition exhausted_error : string :=
  "Resource exhausted: blocking thread pool at capacity (64 permits) - refusing spawn_blocking to prevent ghost-thread leak".

(** The call [i], which stood at [c], stands at [c']: the node and the permits follow. *)
Definition moved (s : Pool) (i : nat) (prompt : string) (c c' : call) (n : PhysicalFallbackNode) (gone : nat) : Pool :=
  let held p x := if p (prompt, x) : bool then 1 else 0 in
  mkPool n (node_free s + held holds_node c - held holds_node c')
    (process_free s + held holds_process c - held holds_process c')
    (<[i := (prompt, c')]> (calls s)) (abandoned s + gone)%nat.

Inductive pool_step : Pool -> Pool -> Prop :=
  | fp_invoke s prompt :
      pool_step s (mkPool (node s) (node_free s) (process_free s) (calls s ++ [(prompt, Waiting)]) (abandoned s))
  | fp_overloaded s i prompt r :
      calls s !! i = Some (prompt, Waiting) ->
      fallback_invoke_nn Overloaded 0 0 TimedOut prompt (node s) = Ret (node s, r) ->
      pool_step s (moved s i prompt Waiting (Returned r) (node s) 0)
  | fp_permit s i prompt now :
      calls s !! i = Some (prompt, Waiting) -> 0 < node_free s ->
      pool_step s (moved s i prompt Waiting Entered (count_invocation now (node s)) 0)
  | fp_refused s i prompt ms limit error :
      calls s !! i = Some (prompt, Entered) ->
      (enabled (endpoint (node s)) = false /\ error = "Physical fallback node is disabled" \/
       enabled (endpoint (node s)) = true /\
       mul_u USIZE_MAX (max_input_tokens (endpoint (node s))) 4 = Ret limit /\ limit < len prompt /\
       error = "Prompt exceeds max input tokens: " ++ pretty (len prompt) ++ " chars (max " ++
         pretty (max_input_tokens (endpoint (node s))) ++ " tokens)") ->
      pool_step s (moved s i prompt Entered
        (Returned (mkFallbackResult None (Some error) ms (e_model_id (endpoint (node s))))) (count_error (node s)) 0)
  | fp_exhausted s i prompt ms limit n r :
      calls s !! i = Some (prompt, Entered) -> enabled (endpoint (node s)) = true ->
      mul_u USIZE_MAX (max_input_tokens (endpoint (node s))) 4 = Ret limit -> len prompt <= limit ->
      process_free s <= 0 ->
      run_wasi_nn (Inferred (Err exhausted_error)) ms (node s) = (n, r) ->
      pool_step s (moved s i prompt Entered (Returned r) n 0)
  | fp_spawn s i prompt limit :
      calls s !! i = Some (prompt, Entered) -> enabled (endpoint (node s)) = true ->
      mul_u USIZE_MAX (max_input_tokens (endpoint (node s))) 4 = Ret limit -> len prompt <= limit ->
      0 < process_free s ->
      pool_step s (moved s i prompt Entered Inferring (node s) 0)
  | fp_inferred s i prompt ms x n r :
      calls s !! i = Some (prompt, Inferring) ->
      run_wasi_nn (Inferred x) ms (node s) = (n, r) ->
      pool_step s (moved s i prompt Inferring (Returned r) n 0)
  | fp_timeout s i prompt n r :
      calls s !! i = Some (prompt, Inferring) ->
      run_wasi_nn TimedOut 0 (node s) = (n, r) ->
      pool_step s (moved s i prompt Inferring (Returned r) n 1)
  | fp_dropped s i prompt c :
      calls s !! i = Some (prompt, c) -> c = Waiting \/ c = Entered \/ c = Inferring ->
      pool_step s (moved s i prompt c Dropped (node s) (if holds_process (prompt, c) then 1 else 0)%nat)
  | fp_task_ends s gone :
      abandoned s = S gone ->
      pool_step s (mkPool (node s) (node_free s) (process_free s) (calls s) gone).

(** ** Permits *)

Record pool_ok (s : Pool) : Prop := {
  po_node : node_free s + Z.of_nat (count holds_node (calls s)) = NODE_PERMITS;
  po_process : process_free s + Z.of_nat (count holds_process (calls s)) = MAX_BLOCKING_TASKS;
  po_free : 0 <= node_free s }.

Lemma holds_process_node l : (count holds_process l <= count holds_node l)%nat.
Proof. unfold count. induction l as [|[p []] l IH]; cbn in *; lia. Qed.

Lemma moved_ok s i prompt c c' n gone : pool_ok s -> calls s !! i = Some (prompt, c) ->
  (holds_node (prompt, c') = true -> holds_node (prompt, c) = true \/ 0 < node_free s) ->
  pool_ok (moved s i prompt c c' n gone).
Proof.
  intros [Hn Hp Hf] Hi Hc.
  pose proof (count_insert holds_node (calls s) i _ (prompt, c') Hi) as Hcn.
  pose proof (count_insert holds_process (calls s) i _ (prompt, c') Hi) as Hcp.
  constructor; cbn; unfold count in *.
  - destruct (holds_node (prompt, c)), (holds_node (prompt, c')); lia.
  - destruct (holds_process (prompt, c)), (holds_process (prompt, c')); lia.
  - destruct (holds_node (prompt, c)), (holds_node (prompt, c')); lia.
Qed.

Lemma pool_ok_step s s' : pool_ok s -> pool_step s s' -> pool_ok s'.
Proof.
  intros Hok Hs. destruct Hs as [s prompt| | | | | | | |s i prompt c Hi Hc|s gone Ha];
    try (apply moved_ok; [done|eassumption|cbn; auto; discriminate]).
  - destruct Hok as [Hn Hp Hf]. unfold count in Hn, Hp.
    constructor; cbn [node_free process_free calls]; unfold count;
      rewrite ?List.filter_app, ?List.length_app; cbn; lia.
  - destruct Hok. by constructor.
Qed.

Lemma pool_ok_reachable n s : rtc pool_step (pool_new n) s -> pool_ok s.
Proof.
  intros Hr. assert (pool_ok (pool_new n)) as Hok by by constructor. revert Hok. generalize (pool_new n) Hr. clear.
  intros s0 Hr. induction Hr as [|x y z Hxy _ IH]; [done|]. intros Hok. by eapply IH, pool_ok_step.
Qed.

Lemma pool_bounds s : pool_ok s -> (count holds_process (calls s) <= 4)%nat /\ 60 <= process_free s.
Proof.
  intros [Hn Hp Hf]. pose proof (holds_process_node (calls s)).
  change (NODE_PERMITS) with 4 in Hn. change MAX_BLOCKING_TASKS with 64 in Hp. lia.
Qed.

(** What the permits do bound: at most four invocations of the node are admitted at a
    time; the semaphore of the process, which the node has for itself, always has permits
    left, so no invocation is refused for want of one. *)
Theorem permits_bound_callers n s : rtc pool_step (pool_new n) s ->
  (count holds_node (calls s) <= 4)%nat /\ 60 <= process_free s.
Proof.
  intros Hr. apply pool_ok_reachable in Hr as Hok. destruct (pool_bounds _ Hok) as [_ Hfree].
  destruct Hok as [Hn _ Hf]. change NODE_PERMITS with 4 in Hn. lia.
Qed.

(** ** Tasks without a caller *)

Lemma count_app p (l : list (string * call)) x : count p (l ++ [x]) = (count p l + if p x then 1 else 0)%nat.
Proof. unfold count. rewrite List.filter_app, List.length_app. cbn. by destruct (p x). Qed.

Section rounds.
Context (s : Pool) (Hon : enabled (endpoint (node s)) = true)
  (Hlimit : 0 <= max_input_tokens (endpoint (node s)) /\ max_input_tokens (endpoint (node s)) * 4 <= USIZE_MAX)
  (Hnode : 0 < node_free s) (Hprocess : 0 < process_free s).

Definition timed_out_state (prompt : string) (now : Z) : Pool :=
  let '(n, r) := run_wasi_nn TimedOut 0 (count_invocation now (node s)) in
  mkPool n (node_free s) (process_free s) (calls s ++ [(prompt, Returned r)]) (S (abandoned s)).

(** An invocation that comes, is admitted, starts its task and runs out of time. *)
Lemma timeout_round prompt now : len prompt <= max_input_tokens (endpoint (node s)) * 4 ->
  rtc pool_step s (timed_out_state prompt now).
Proof.
  intros Hlen. set (i := length (calls s)).
  assert (forall x c, (calls s ++ [(x : string, c : call)])%list !! i = Some (x, c)) as Hlast.
  { intros x c. unfold i. rewrite lookup_app_r by lia. by rewrite Nat.sub_diag. }
  assert (forall x y : string * call, <[i := y]> (calls s ++ [x]) = calls s ++ [y])%list as Hset.
  { intros x y. unfold i. by rewrite insert_app_r_alt, Nat.sub_diag by lia. }
  eapply rtc_l; [apply (fp_invoke s prompt)|].
  eapply rtc_l; [apply (fp_permit _ i prompt now); [apply Hlast|exact Hnode]|]. unfold moved. cbn. rewrite Hset.
  eapply rtc_l.
  { apply (fp_spawn _ i prompt (max_input_tokens (endpoint (node s)) * 4)); cbn.
    - apply Hlast.
    - exact Hon.
    - by rewrite mul_u_small by lia.
    - exact Hlen.
    - lia. }
  unfold moved. cbn. rewrite Hset.
  eapply rtc_l; [eapply (fp_timeout _ i prompt); cbn; [apply Hlast|reflexivity]|].
  unfold moved, timed_out_state. cbn. rewrite Hset.
  match goal with |- rtc _ ?x ?y => enough (x = y) as -> by apply rtc_refl end.
  f_equal; lia.
Qed.
End rounds.

(** The semaphore of the blocking pool does not bound its tasks: invocations that run out
    of time one after another give their permits back and leave their tasks behind, so that
    any number of tasks, beyond the 64 that the process is to have at most, can be running
    while every permit is free and nobody waits. *)
Theorem abandoned_tasks_pile_up n k :
  enabled (endpoint n) = true ->
  0 <= max_input_tokens (endpoint n) -> max_input_tokens (endpoint n) * 4 <= USIZE_MAX ->
  exists s, rtc pool_step (pool_new n) s /\ blocking_tasks s = k /\
    node_free s = NODE_PERMITS /\ process_free s = MAX_BLOCKING_TASKS /\
    (forall i prompt c, calls s !! i = Some (prompt, c) -> exists r, c = Returned r).
Proof.
  intros Hon Hlow Hhigh.
  enough (exists s, rtc pool_step (pool_new n) s /\ endpoint (node s) = endpoint n /\ abandoned s = k /\
    node_free s = NODE_PERMITS /\ process_free s = MAX_BLOCKING_TASKS /\ count holds_process (calls s) = 0%nat /\
    (forall i prompt c, calls s !! i = Some (prompt, c) -> exists r, c = Returned r)) as (s & Hr & _ & Hk & Hn & Hp & Hc & Hall).
  { exists s. unfold blocking_tasks. rewrite Hc, Hk. done. }
  induction k as [|k (s & Hr & He & Hk & Hn & Hp & Hc & Hall)].
  { exists (pool_new n). by split_and!; [apply rtc_refl|..]. }
  exists (timed_out_state s "" 0). split_and!; cbn -[count]; try done.
  - etrans; [exact Hr|]. apply timeout_round;
      [by rewrite He|by rewrite He|by rewrite Hn|by rewrite Hp|rewrite He; change (len "") with 0; lia].
  - by rewrite Hk.
  - rewrite count_app, Hc. done.
  - intros i prompt c Hi. apply lookup_app_Some in Hi as [Hi|[_ Hi]]; [eauto|].
    apply list_lookup_singleton_Some in Hi as [_ [= <- <-]]. eauto.
Qed.

(** ** The invocation that is alone *)

(** An invocation of [fallback_invoke_nn] is one of the interleavings: undisturbed, it takes
    the node to where the function takes it, returns what the function returns, and gives
    both permits back. *)
Theorem invocation_refines s i prompt now ms x n' r :
  calls s !! i = Some (prompt, Waiting) -> 0 < node_free s -> 0 < process_free s ->
  fallback_invoke_nn Permitted now ms x prompt (node s) = Ret (n', r) ->
  exists gone, rtc pool_step s
    (mkPool n' (node_free s) (process_free s) (<[i := (prompt, Returned r)]> (calls s)) gone).
Proof.
  intros Hi Hn Hp Hx. unfold fallback_invoke_nn, invoke_gated in Hx.
  set (s1 := moved s i prompt Waiting Entered (count_invocation now (node s)) 0).
  assert (pool_step s s1) as Hs1 by by apply fp_permit.
  assert (forall y, (<[i := y]> (calls s)) !! i = Some y) as Hat.
  { intros y. apply list_lookup_insert_eq. by eapply lookup_lt_Some. }
  change (count_invocation now (node s)) with (node s1) in Hx.
  assert (forall y, <[i := y]> (calls s1) = <[i := y]> (calls s)) as Hset.
  { intros y. cbn. apply list_insert_insert_eq. }
  assert (node_free s1 = node_free s - 1 /\ process_free s1 = process_free s) as [Hn1 Hp1].
  { split; unfold s1, moved; cbn; clear; lia. }
  assert (calls s1 !! i = Some (prompt, Entered)) as Hi1 by apply Hat.
  assert (endpoint (node s) = endpoint (node s1)) as Hep by done. rewrite Hep in Hx. clearbody s1.
  destruct (enabled (endpoint (node s1))) eqn:Hon; cbn [negb] in Hx.
  2: { injection Hx as <- <-. eexists. eapply rtc_l; [exact Hs1|]. eapply rtc_l.
    { eapply (fp_refused s1 i prompt ms 0); [exact Hi1|by left]. }
    unfold moved. cbn -[node_free process_free]. rewrite Hset, Hn1, Hp1.
    match goal with |- rtc _ ?x ?y => enough (x = y) as -> by apply rtc_refl end. f_equal; lia. }
  destruct (mul_u _ _ _) as [limit|] eqn:Hm; cbn [mbind outcome_bind] in Hx; [|done].
  destruct (decide (limit < len prompt)) as [Hl|Hl] in Hx.
  { injection Hx as <- <-. eexists. eapply rtc_l; [exact Hs1|]. eapply rtc_l.
    { eapply (fp_refused s1 i prompt ms limit); [exact Hi1|right; done]. }
    unfold moved. cbn -[node_free process_free]. rewrite Hset, Hn1, Hp1.
    match goal with |- rtc _ ?x ?y => enough (x = y) as -> by apply rtc_refl end. f_equal; lia. }
  injection Hx as Hx.
  assert (pool_step s1 (moved s1 i prompt Entered Inferring (node s1) 0)) as Hs2.
  { eapply fp_spawn; [exact Hi1|exact Hon|exact Hm|lia|lia]. }
  assert (exists gone, pool_step (moved s1 i prompt Entered Inferring (node s1) 0)
    (moved (moved s1 i prompt Entered Inferring (node s1) 0) i prompt Inferring (Returned r) n' gone)) as [gone Hs3].
  { destruct x as [|y]; [exists 1%nat; apply fp_timeout|exists 0%nat; eapply fp_inferred];
      try (cbn; rewrite Hset; apply Hat); exact Hx. }
  eexists. eapply rtc_l; [exact Hs1|]. eapply rtc_l; [exact Hs2|]. eapply rtc_l; [exact Hs3|].
  unfold moved. cbn -[node_free process_free]. cbn [node_free process_free]. rewrite Hset.
  rewrite list_insert_insert_eq, Hn1, Hp1.
  match goal with |- rtc _ ?x ?y => enough (x = y) as -> by apply rtc_refl end. f_equal; lia.
Qed.

Definition demo_node : PhysicalFallbackNode := fallback_new (endpoint_new "slm" "path").

Lemma abandoned_tasks_pile_up_witness :
  exists s, rtc pool_step (pool_new demo_node) s /\ blocking_tasks s = 65%nat /\
    node_free s = NODE_PERMITS /\ process_free s = MAX_BLOCKING_TASKS /\
    (forall i prompt c, calls s !! i = Some (prompt, c) -> exists r, c = Returned r).
Proof. apply (abandoned_tasks_pile_up demo_node 65); [reflexivity|discriminate|cbn; ulia]. Defined.
