(* ===== verification/Provider.v ===== *)
(** * crates/llm-router/src/provider.rs: provider configuration and adapters

    The three provider adapters, the geographic filter and the building of providers.
    Requests and errors are those of [Coordinator].  The HTTP client, serde_json's
    deserialisation, the environment, file access and wasmtime are parameters; an
    invocation returns its result and the requests it has sent. *)
From Stdlib Require Import Ascii SpecFloat.
From S2P Require Import Prelude F64 RustStr Json Serde Coordinator.

Open Scope string_scope.

(** ** Configuration *)

Record ProviderConfig := mkProviderConfig {
  id : string;
  display_name : string;
  api_format : string;
  base_url : string;
  model : string;
  api_key : string;
  api_key_env : string;
  timeout_ms : Z;
  max_response_bytes : Z;
  cache_provider : string;
  config_temperature : f32;
  max_tokens : Z;
  max_retries : Z;
  concurrency_limit : Z;
  geo_region : option string;
  adapter : option string }.

(** serde's defaults for the optional fields. *)
Definition default_api_format : string := "openai".
Definition default_timeout_ms : Z := 15000.
Definition default_max_response_bytes : Z := 5 * 1024 * 1024.
Definition default_temperature : f32 := S754_zero false.
Definition default_max_tokens : Z := 1024.
Definition default_max_retries : Z := 3.
Definition default_concurrency_limit : Z := 10.

Inductive ProviderError : Type :=
  | ConfigError (s : string)
  | UnknownFormat (format id : string).

(** [eq_ignore_ascii_case]. *)
Definition eq_ignore_ascii_case (s t : string) : bool :=
  bool_decide (to_ascii_lowercase s = to_ascii_lowercase t).

Definition satisfies_geo_requirement (required_region : string) (c : ProviderConfig) : bool :=
  match geo_region c with
  | None => true
  | Some region => eq_ignore_ascii_case region required_region
  end.

Definition filter_providers (providers : list ProviderConfig) (required_region : string) :
    list ProviderConfig :=
  List.filter (satisfies_geo_requirement required_region) providers.

Definition resolve_cache_provider (c : ProviderConfig) : string :=
  if is_empty (cache_provider c) then id c else cache_provider c.

Section environment.
Context (env : string -> option string).

Definition resolve_api_key (c : ProviderConfig) : option string :=
  if negb (is_empty (api_key_env c)) then
    k ← env (api_key_env c); if is_empty k then None else Some k
  else if negb (is_empty (api_key c)) then Some (api_key c)
  else None.

(** ** Providers *)

Record GenericOpenAiProvider := mkOpenAi {
  oa_id : string;
  oa_display_name : string;
  oa_base_url : string;
  oa_model : string;
  oa_api_key : option string;
  oa_timeout_ms : Z;
  oa_max_response_bytes : Z;
  oa_cache_provider : string }.
Definition openai_from_config (c : ProviderConfig) : GenericOpenAiProvider :=
  mkOpenAi (id c) (display_name c) (base_url c) (model c) (resolve_api_key c) (timeout_ms c)
    (max_response_bytes c) (resolve_cache_provider c).

Record GeminiProvider := mkGemini {
  g_id : string;
  g_display_name : string;
  g_base_url : string;
  g_api_key : option string;
  g_timeout_ms : Z;
  g_max_response_bytes : Z }.
Definition gemini_from_config (c : ProviderConfig) : GeminiProvider :=
  mkGemini (id c) (display_name c) (base_url c) (resolve_api_key c) (timeout_ms c)
    (max_response_bytes c).

Record WasmAdapterProvider := mkAdapter {
  w_id : string;
  w_display_name : string;
  w_base_url : string;
  w_model : string;
  w_api_key : option string;
  w_timeout_ms : Z;
  w_max_response_bytes : Z;
  w_cache_provider : string;
  w_adapter_path : string }.
Definition adapter_from_config (c : ProviderConfig) : WasmAdapterProvider :=
  mkAdapter (id c) (display_name c) (base_url c) (model c) (resolve_api_key c) (timeout_ms c)
    (max_response_bytes c) (resolve_cache_provider c)
    (default (id c ++ "_adapter.wasm") (adapter c)).

(** [Arc<dyn LlmProvider>]. *)
Inductive AnyProvider : Type :=
  | OpenAi (p : GenericOpenAiProvider)
  | Gemini (p : GeminiProvider)
  | WasmAdapter (p : WasmAdapterProvider).

(** The trait's getters. *)
Definition any_provider_id (p : AnyProvider) : string :=
  match p with OpenAi p => oa_id p | Gemini p => g_id p | WasmAdapter p => w_id p end.
Definition any_display_name (p : AnyProvider) : string :=
  match p with
  | OpenAi p => oa_display_name p | Gemini p => g_display_name p | WasmAdapter p => w_display_name p
  end.
Definition any_cache_provider (p : AnyProvider) : string :=
  match p with
  | OpenAi p => oa_cache_provider p | Gemini _ => "gemini" | WasmAdapter p => w_cache_provider p
  end.
Definition any_timeout_ms (p : AnyProvider) : Z :=
  match p with
  | OpenAi p => oa_timeout_ms p | Gemini p => g_timeout_ms p | WasmAdapter p => w_timeout_ms p
  end.

Context `{LlmText}.

Definition build_provider (c : ProviderConfig) : result AnyProvider ProviderError :=
  match adapter c with
  | Some _ => Ok (WasmAdapter (adapter_from_config c))
  | None =>
      let format := to_lowercase (api_format c) in
      if decide (format = "openai") then Ok (OpenAi (openai_from_config c))
      else if decide (format = "gemini") then Ok (Gemini (gemini_from_config c))
      else Err (UnknownFormat format (id c))
  end.

Record ProvidersConfig := mkProviders { provider : list ProviderConfig }.

(** [parse] is the TOML parser; [content] what reading the file gave. *)
Definition parse_toml (parse : string -> result ProvidersConfig string) (content : string) :
    result ProvidersConfig ProviderError :=
  match parse content with
  | Ok c => Ok c
  | Err e => Err (ConfigError ("Failed to parse providers TOML: " ++ e))
  end.
Definition load_from_file (parse : string -> result ProvidersConfig string) (path : string)
    (content : result string string) : result ProvidersConfig ProviderError :=
  match content with
  | Err e => Err (ConfigError ("Failed to read " ++ path ++ ": " ++ e))
  | Ok content => parse_toml parse content
  end.

Definition build_providers (c : ProvidersConfig) : result (list AnyProvider) ProviderError :=
  collect build_provider (provider c).
Definition filter_by_geo (required_region : string) (c : ProvidersConfig) : ProvidersConfig :=
  mkProviders (filter_providers (provider c) required_region).
Definition build_providers_for_region (required_region : string) (c : ProvidersConfig) :
    result (list AnyProvider) ProviderError :=
  build_providers (filter_by_geo required_region c).
End environment.

(** ** HTTP exchanges

    A body read is bytes or text; errors are their [Display] text. *)
Inductive HttpBody : Type :=
  | JsonBody (v : Value f32)
  | TextBody (s : string).
Record HttpRequest := mkHttp {
  url : string;
  headers : list (string * string);
  body : HttpBody }.
Record HttpResponse := mkResponse {
  status : Z;
  body_bytes : result string string }.

Class Transport := {
  send : HttpRequest -> result HttpResponse string;
  from_slice : string -> result (Value f32) string;
  shape_error : Value f32 -> string }.

(** The derived readers of the responses: the contents of the choices of
    [OpenAiResponse], and the texts of the parts of each candidate of
    [GeminiResponseBody]. *)
Definition openai_choice (v : Value f32) : option string :=
  message ← only_field "message" v; content ← only_field "content" message; as_str content.
Definition openai_response (v : Value f32) : option (list string) :=
  choices ← only_field "choices" v; l ← as_array choices; mapM openai_choice l.
Definition gemini_candidate (v : Value f32) : option (list string) :=
  content ← only_field "content" v; parts ← only_field "parts" content; l ← as_array parts;
  mapM (fun part => text ← only_field "text" part; as_str text) l.
Definition gemini_response (v : Value f32) : option (list (list string)) :=
  candidates ← only_field "candidates" v; l ← as_array candidates; mapM gemini_candidate l.

(** [serde_json::from_slice] at a type whose reader is [de]. *)
Definition read_json {A} (parsed : result (Value f32) string) (shape_error : Value f32 -> string)
    (de : Value f32 -> option A) : result A string :=
  match parsed with
  | Ok v => match de v with Some a => Ok a | None => Err (shape_error v) end
  | Err e => Err e
  end.
Definition parse_openai `{Transport} (bytes : string) : result (list string) string :=
  read_json (from_slice bytes) shape_error openai_response.
Definition parse_gemini `{Transport} (bytes : string) : result (list (list string)) string :=
  read_json (from_slice bytes) shape_error gemini_response.

(** [v == 0.0]. *)
Definition is_zero_f32 (v : f32) : bool := SFeqb v (S754_zero false).

(** The serialised request bodies: fields in the order of the structs, the
    temperature left out when it is zero. *)
Definition openai_body (model prompt : string) (temperature : f32) : Value f32 :=
  JObject ([("model", JString model);
     ("messages", JArray [JObject [("role", JString "user"); ("content", JString prompt)]])] ++
    (if is_zero_f32 temperature then [] else [("temperature", JNumber temperature)]) ++
    [("stream", JBool false)])%list.

Definition gemini_body (prompt : string) (temperature : f32) : Value f32 :=
  JObject ([("contents", JArray [JObject [("parts", JArray [JObject [("text", JString prompt)]])]])] ++
    (if SFltb (S754_zero false) temperature
     then [("generationConfig", JObject [("temperature", JNumber temperature)])] else []))%list.

Record ProviderResponse := mkProviderResponse { content : string }.

(** [trim_end_matches('/')]. *)
Definition trim_end_slashes (s : string) : string := rev_string (trim_start_char "/" (rev_string s)).

(** The requests sent, and the result. *)
Definition Invocation : Type := list HttpRequest * result ProviderResponse TmrNodeError.

(** From the status to the body within the size limit. *)
Definition checked_body (name : string) (limit : Z) (r : HttpResponse) : result string TmrNodeError :=
  if decide (status r = 403) then Err HttpForbidden
  else if decide (status r = 429) then Err HttpRateLimited
  else if decide (500 <= status r) then Err (NodeServerError (status r))
  else match body_bytes r with
       | Err e => Err (ParseError ("Failed to read " ++ name ++ " bytes: " ++ e))
       | Ok bytes =>
           if decide (limit < len bytes)
           then Err (ParseError (name ++ " response exceeded " ++ pretty limit ++ "B safety limit"))
           else Ok bytes
       end.

Section invoke.
Context `{Transport}.

Definition openai_request (key : string) (req : ProviderRequest) (p : GenericOpenAiProvider) : HttpRequest :=
  mkHttp (trim_end_slashes (oa_base_url p) ++ "/chat/completions")
    ([("Authorization", ("Bearer " ++ key)%string); ("Content-Type", "application/json")] ++
     (if contains "googleapis.com" (oa_base_url p) then [("x-goog-api-key", key)] else []))%list
    (JsonBody (openai_body (oa_model p) (prompt req) (temperature req))).

Definition openai_invoke (req : ProviderRequest) (p : GenericOpenAiProvider) : Invocation :=
  match oa_api_key p with
  | None => ([], Err (NodeNetworkError (oa_display_name p ++ " API key not configured")))
  | Some key =>
      let request := openai_request key req p in
      ([request],
       match send request with
       | Err e => Err (NodeNetworkError (oa_display_name p ++ " request failed: " ++ e))
       | Ok response =>
           bytes <-? checked_body (oa_display_name p) (oa_max_response_bytes p) response ;;
           match parse_openai bytes with
           | Err e => Err (ParseError (oa_display_name p ++ " response parse failed: " ++ e))
           | Ok [] => Err (ParseError (oa_display_name p ++ " returned no choices"))
           | Ok (c :: _) => Ok (mkProviderResponse c)
           end
       end)
  end.

Definition gemini_request (key : string) (req : ProviderRequest) (p : GeminiProvider) : HttpRequest :=
  mkHttp (g_base_url p ++ "?key=" ++ key) [("Content-Type", "application/json")]
    (JsonBody (gemini_body (prompt req) (temperature req))).

Definition gemini_invoke (req : ProviderRequest) (p : GeminiProvider) : Invocation :=
  match g_api_key p with
  | None => ([], Err (NodeNetworkError (g_display_name p ++ " API key not configured")))
  | Some key =>
      let request := gemini_request key req p in
      ([request],
       match send request with
       | Err e =>
           Err (NodeNetworkError (g_display_name p ++ " request failed: " ++ replace key "[REDACTED]" e))
       | Ok response =>
           bytes <-? checked_body (g_display_name p) (g_max_response_bytes p) response ;;
           match parse_gemini bytes with
           | Err e => Err (ParseError (g_display_name p ++ " response parse failed: " ++ e))
           | Ok ((part :: _) :: _) => Ok (mkProviderResponse part)
           | Ok _ => Err (ParseError (g_display_name p ++ " returned no content"))
           end
       end)
  end.
End invoke.

(** ** WASM adapters

    [Val] has the constructors of wasmtime's values that the source matches on;
    the others are [VOther].  A component instance, its functions and their effects on
    the store are wasmtime's. *)
#[warnings="-register-all"]
Inductive Val : Type :=
  | VString (s : string)
  | VFloat32 (f : f32)
  | VList (l : list Val)
  | VTuple (l : list Val)
  | VRecord (fields : list (string * Val))
  | VResult (r : result (option Val) (option Val))
  | VOther (debug : string).

Class WasmHost := {
  store : Type;
  func : Type;
  val_debug : Val -> string;
  engine_new : result unit string;
  read_adapter : string -> result string string;
  component_new : string -> result unit string;
  instantiate : string -> result store string;
  interface_func : store -> string -> string -> option func;
  get_func : store -> string -> option func;
  call : store -> func -> list Val -> store * result Val string }.

Section adapter.
Context `{Transport, WasmHost}.

Definition ADAPTER_INTERFACE : string := "serein:adapter/provider-adapter@1.0.0".

(** An export of the interface, or else of the component. *)
Definition exported (s : store) (name : string) : option func :=
  match interface_func s ADAPTER_INTERFACE name with
  | Some f => Some f
  | None => get_func s name
  end.

(** Compile and instantiate the adapter's component. *)
Definition load_adapter (path : string) : result store TmrNodeError :=
  match engine_new with
  | Err e => Err (NodeNetworkError ("Failed to create WASM engine: " ++ e))
  | Ok _ =>
      match read_adapter path with
      | Err e => Err (NodeNetworkError ("Failed to read adapter '" ++ path ++ "': " ++ e))
      | Ok wasm_bytes =>
          match component_new wasm_bytes with
          | Err e => Err (NodeNetworkError ("Failed to compile adapter '" ++ path ++ "': " ++ e))
          | Ok _ =>
              match instantiate wasm_bytes with
              | Err e => Err (NodeNetworkError ("Failed to instantiate adapter '" ++ path ++ "': " ++ e))
              | Ok s => Ok s
              end
          end
      end
  end.

Definition guest_error (e : option Val) : string :=
  match e with
  | Some (VString s) => s
  | Some other => val_debug other
  | None => "unknown error"
  end.

(** The value returned by [transform-request]. *)
Definition transform_value (v : Val) : result Val TmrNodeError :=
  match v with
  | VResult (Ok (Some spec)) => Ok spec
  | VResult (Ok None) =>
      Err (NodeNetworkError "WASM adapter 'transform-request' returned empty result")
  | VResult (Err e) =>
      Err (NodeNetworkError ("WASM adapter 'transform-request' returned error: " ++ guest_error e))
  | other =>
      Err (NodeNetworkError ("WASM adapter 'transform-request' returned unexpected value: " ++ val_debug other))
  end.

(** Items that are not pairs of strings are skipped. *)
Definition header_of (item : Val) : list (string * string) :=
  match item with VTuple [VString n; VString v] => [(n, v)] | _ => [] end.

Definition spec_field (spec : string * list (string * string) * string) (field : string * Val) :
    string * list (string * string) * string :=
  let '(u, hs, b) := spec in
  let '(name, v) := field in
  if decide (name = "url") then match v with VString s => (s, hs, b) | _ => (u, hs, b) end
  else if decide (name = "headers") then
    match v with VList items => (u, hs ++ (items ≫= header_of), b)%list | _ => (u, hs, b) end
  else if decide (name = "body") then match v with VString s => (u, hs, s) | _ => (u, hs, b) end
  else (u, hs, b).

Definition http_spec (v : Val) : result (string * list (string * string) * string) TmrNodeError :=
  match v with
  | VRecord fields => Ok (fold_left spec_field fields ("", [], ""))
  | other => Err (NodeNetworkError ("WASM adapter returned unexpected HttpRequestSpec: " ++ val_debug other))
  end.

Definition adapter_request (spec : string * list (string * string) * string) : HttpRequest :=
  let '(u, hs, b) := spec in mkHttp u (("Content-Type", "application/json") :: hs) (TextBody b).

(** The value returned by [parse-response]. *)
Definition parse_value (v : Val) : result ProviderResponse TmrNodeError :=
  match v with
  | VResult (Ok (Some (VString s))) => Ok (mkProviderResponse s)
  | VResult (Ok (Some other)) =>
      Err (ParseError ("WASM adapter 'parse-response' returned non-string: " ++ val_debug other))
  | VResult (Ok None) => Err (ParseError "WASM adapter 'parse-response' returned empty result")
  | VResult (Err e) =>
      Err (ParseError ("WASM adapter 'parse-response' returned error: " ++ guest_error e))
  | other =>
      Err (ParseError ("WASM adapter 'parse-response' returned unexpected value: " ++ val_debug other))
  end.

(** Before the request: the store after the guest's transformation, and the
    request it asks for. *)
Definition adapter_prepare (req : ProviderRequest) (p : WasmAdapterProvider) :
    result (store * HttpRequest) TmrNodeError :=
  match w_api_key p with
  | None => Err (NodeNetworkError (w_display_name p ++ " API key not configured"))
  | Some key =>
      s <-? load_adapter (w_adapter_path p) ;;
      match exported s "transform-request" with
      | None => Err (NodeNetworkError "Export 'transform-request' not found in component")
      | Some f =>
          let req_val := VRecord [("model", VString (w_model p)); ("prompt", VString (prompt req));
            ("temperature", VFloat32 (temperature req)); ("base-url", VString (w_base_url p))] in
          let '(s, r) := call s f [req_val; VString key] in
          match r with
          | Err e => Err (NodeNetworkError ("WASM adapter 'transform-request' call trapped: " ++ e))
          | Ok v =>
              spec <-? transform_value v ;;
              spec <-? http_spec spec ;;
              Ok (s, adapter_request spec)
          end
      end
  end.

(** After the response. *)
Definition adapter_finish (s : store) (response : HttpResponse) (p : WasmAdapterProvider) :
    result ProviderResponse TmrNodeError :=
  match from_http_status (status response) with
  | Some err => Err err
  | None =>
      match body_bytes response with
      | Err e => Err (ParseError ("Failed to read " ++ w_display_name p ++ " response text: " ++ e))
      | Ok raw_body =>
          if decide (w_max_response_bytes p < len raw_body)
          then Err (ParseError (w_display_name p ++ " response exceeded " ++
                 pretty (w_max_response_bytes p) ++ "B safety limit"))
          else
            match exported s "parse-response" with
            | None => Err (NodeNetworkError "Export 'parse-response' not found in component")
            | Some f =>
                match (call s f [VString raw_body]).2 with
                | Err e => Err (ParseError ("WASM adapter 'parse-response' call trapped: " ++ e))
                | Ok v => parse_value v
                end
            end
      end
  end.

Definition adapter_invoke (req : ProviderRequest) (p : WasmAdapterProvider) : Invocation :=
  match adapter_prepare req p with
  | Err e => ([], Err e)
  | Ok (s, request) =>
      ([request],
       match send request with
       | Err e => Err (NodeNetworkError (w_display_name p ++ " request failed: " ++ e))
       | Ok response => adapter_finish s response p
       end)
  end.

(** The trait method. *)
Definition invoke (req : ProviderRequest) (p : AnyProvider) : Invocation :=
  match p with
  | OpenAi p => openai_invoke req p
  | Gemini p => gemini_invoke req p
  | WasmAdapter p => adapter_invoke req p
  end.
End adapter.

(** ** Building for a region *)

Lemma collect_Forall2 {A B E} (f : A -> result B E) l ys :
  collect f l = Ok ys <-> Forall2 (fun x y => f x = Ok y) l ys.
Proof.
  revert ys. induction l as [|x l IH]; intros ys; simpl.
  - split; [intros [= <-]; constructor|by inversion 1].
  - destruct (f x) as [y|e] eqn:Hx; simpl.
    + destruct (collect f l) as [ys'|e] eqn:Hl; simpl.
      * split; [intros [= <-]; constructor; [done|by apply IH]|].
        inversion 1 as [|? y' ? ys'' Hy Hys]; subst. apply IH in Hys. congruence.
      * split; [done|]. inversion 1 as [|? y' ? ys'' Hy Hys]; subst. by apply IH in Hys.
    + split; [done|]. inversion 1; congruence.
Qed.

(** The provider a configuration becomes. *)
Definition built_from (c : ProviderConfig) (p : AnyProvider) : Prop :=
  any_provider_id p = id c /\ any_display_name p = display_name c /\ any_timeout_ms p = timeout_ms c.

(** Data residency: when providers are built for a region, they are built, in
    order and one for one, from exactly the configured providers that have no region or
    have the required one up to ASCII case; the building fails only for an eligible
    provider without an adapter whose format is neither [openai] nor [gemini]. *)
Theorem build_for_region_spec `{LlmText} env region c :
  let eligible := List.filter (fun p => match geo_region p with
    | None => true
    | Some r => bool_decide (to_ascii_lowercase r = to_ascii_lowercase region)
    end) (provider c) in
  match build_providers_for_region env region c with
  | Ok ps => Forall2 built_from eligible ps
  | Err e => exists p, p ∈ eligible /\ adapter p = None /\
      to_lowercase (api_format p) <> "openai" /\ to_lowercase (api_format p) <> "gemini" /\
      e = UnknownFormat (to_lowercase (api_format p)) (id p)
  end.
Proof.
  intros eligible. unfold build_providers_for_region, build_providers. simpl.
  change (filter_providers (provider c) region) with eligible.
  assert (Hbuild : forall p, match build_provider env p with
    | Ok q => built_from p q
    | Err e => adapter p = None /\ to_lowercase (api_format p) <> "openai" /\
        to_lowercase (api_format p) <> "gemini" /\ e = UnknownFormat (to_lowercase (api_format p)) (id p)
    end).
  { intros p. unfold build_provider. destruct (adapter p); [done|]. by repeat case_decide. }
  induction eligible as [|p ps IH]; simpl; [constructor|].
  pose proof (Hbuild p) as Hp. destruct (build_provider env p) as [q|e]; simpl.
  - destruct (collect (build_provider env) ps) as [qs|e]; simpl; [by constructor|].
    destruct IH as (p' & Hin & Hp'). exists p'. split; [by right|done].
  - exists p. split; [by left|done].
Qed.

(** ** What an invocation may send and return *)

(** The classification of HTTP statuses. *)
Definition status_error (s : Z) : option TmrNodeError :=
  if decide (s = 403) then Some HttpForbidden
  else if decide (s = 429) then Some HttpRateLimited
  else if decide (500 <= s) then Some (NodeServerError s)
  else None.

Lemma checked_body_Ok name limit r bytes : checked_body name limit r = Ok bytes <->
  status_error (status r) = None /\ body_bytes r = Ok bytes /\ (len bytes <= limit)%Z.
Proof.
  unfold checked_body, status_error. repeat case_decide; try naive_solver.
  destruct (body_bytes r) as [b|e]; [|naive_solver].
  case_decide; naive_solver lia.
Qed.

(** An OpenAI-compatible provider without a key sends nothing; with a key it sends
    one request, which carries the prompt as it is and the key as bearer token to the
    configured base URL; it returns a text only when the reply has no error status, fits
    the size limit and has a first choice, which is the text returned; 403, 429 and 5xx
    become the errors the trait requires. *)
Theorem openai_invoke_spec `{Transport} req p :
  let '(sent, r) := openai_invoke req p in
  match oa_api_key p with
  | None => sent = [] /\ is_ok r = false
  | Some key =>
      let request := openai_request key req p in
      sent = [request] /\
      body request = JsonBody (openai_body (oa_model p) (prompt req) (temperature req)) /\
      ("Authorization", "Bearer " ++ key) ∈ headers request /\
      (forall t, r = Ok (mkProviderResponse t) <->
        exists response bytes rest, send request = Ok response /\
          status_error (status response) = None /\ body_bytes response = Ok bytes /\
          (len bytes <= oa_max_response_bytes p)%Z /\ parse_openai bytes = Ok (t :: rest)) /\
      (forall response e, send request = Ok response -> status_error (status response) = Some e -> r = Err e)
  end.
Proof.
  unfold openai_invoke. destruct (oa_api_key p) as [key|]; [|done].
  set (request := openai_request key req p).
  split_and!; [done|done|by left| |].
  - intros t. destruct (send request) as [response|e]; [|naive_solver].
    destruct (checked_body _ _ response) as [bytes|e] eqn:Hc; simpl.
    + pose proof Hc as (Hs & Hb & Hl)%checked_body_Ok.
      split.
      * destruct (parse_openai bytes) as [[|c cs]|e] eqn:Hp; try done.
        intros [= <-]. by exists response, bytes, cs.
      * intros (response' & bytes' & rest & [= <-] & _ & Hb' & _ & Hp'). rewrite Hb in Hb'.
        injection Hb' as <-. by rewrite Hp'.
    + split; [done|]. intros (response' & bytes & rest & [= <-] & Hs & Hb & Hl & _).
      assert (Hok : checked_body (oa_display_name p) (oa_max_response_bytes p) response = Ok bytes)
        by by apply checked_body_Ok. by rewrite Hok in Hc.
  - intros response e -> He. unfold checked_body, status_error in *. repeat case_decide; by simplify_eq.
Qed.

(** A request the guest encodes, in any order of the fields, is the one decoded. *)
Definition encode_headers (hs : list (string * string)) : Val :=
  VList ((fun h => VTuple [VString h.1; VString h.2]) <$> hs).

Lemma decode_headers hs : ((fun h => VTuple [VString h.1; VString h.2]) <$> hs) ≫= header_of = hs.
Proof. induction hs as [|[n v] hs IH]; [done|]. by apply (f_equal (cons (n, v))). Qed.

Lemma Permutation_three_inv {A} (a b c : A) l : Permutation [a; b; c] l ->
  l = [a; b; c] \/ l = [a; c; b] \/ l = [b; a; c] \/ l = [b; c; a] \/ l = [c; a; b] \/ l = [c; b; a].
Proof.
  intros (k1 & k2 & -> & Hp)%Permutation_cons_inv_l.
  apply Permutation_length_2_inv in Hp as [Hp|Hp]; destruct k1 as [|x [|y [|z k1]]];
    simplify_eq/=; tauto.
Qed.

(** The request specification of an adapter is decoded to what it encodes: the
    three fields of the record, in any order, give back the URL, all headers in order and
    the body. *)
Theorem http_spec_round_trip `{WasmHost} u hs b fields :
  Permutation fields [("url", VString u); ("headers", encode_headers hs); ("body", VString b)] ->
  http_spec (VRecord fields) = Ok (u, hs, b).
Proof.
  pose proof (decode_headers hs) as Hd. unfold encode_headers, http_spec. revert Hd.
  generalize ((fun h : string * string => VTuple [VString h.1; VString h.2]) <$> hs) as items.
  intros items Hd Hp. apply Permutation_sym in Hp. f_equal.
  apply Permutation_three_inv in Hp as [->|[->|[->|[->|[->| ->]]]]]; simpl; by rewrite Hd.
Qed.

(** An adapter's guest never reaches the network by itself: an invocation sends at
    most the one request decoded from what the guest returned, after the key and the
    component were found; and the text it returns is the one the guest's parser returned
    for a body within the size limit and without an error status. *)
Theorem adapter_invoke_spec `{Transport, WasmHost} req p :
  match adapter_prepare req p with
  | Err e => adapter_invoke req p = ([], Err e)
  | Ok (s, request) =>
      (exists key spec, w_api_key p = Some key /\ request = adapter_request spec) /\
      (adapter_invoke req p).1 = [request] /\
      (forall t, (adapter_invoke req p).2 = Ok (mkProviderResponse t) <->
        exists response raw f, send request = Ok response /\ from_http_status (status response) = None /\
          body_bytes response = Ok raw /\ (len raw <= w_max_response_bytes p)%Z /\
          exported s "parse-response" = Some f /\
          (call s f [VString raw]).2 = Ok (VResult (Ok (Some (VString t)))))
  end.
Proof.
  unfold adapter_invoke. destruct (adapter_prepare req p) as [[s request]|e] eqn:Hprep; [|done].
  split_and!; [|done|].
  - unfold adapter_prepare in Hprep. destruct (w_api_key p) as [key|]; [|done].
    destruct (load_adapter _) as [s0|]; [|done]. simpl in Hprep.
    destruct (exported s0 _) as [f|]; [|done].
    destruct (call s0 f _) as [s1 [v|]]; [|done].
    destruct (transform_value v) as [v'|]; [|done]. simpl in Hprep.
    destruct (http_spec v') as [spec|]; [|done]. simpl in Hprep. exists key, spec. by simplify_eq.
  - intros t. simpl. destruct (send request) as [response|e]; [|naive_solver].
    unfold adapter_finish. split.
    + intros Hr. destruct (from_http_status _) eqn:Hs; [done|].
      destruct (body_bytes response) as [raw|] eqn:Hb; [|done]. case_decide as Hl; [done|].
      destruct (exported s "parse-response") as [f|] eqn:He; [|done].
      exists response, raw, f. split_and!; try done; [lia|].
      destruct (call s f [VString raw]).2 as [v|]; [|done].
      destruct v as [| | | | |[[[]|]|]|]; simpl in Hr; by simplify_eq.
    + intros (response' & raw & f & [= <-] & -> & -> & Hl & -> & ->). by rewrite decide_False by lia.
Qed.

(** A key variable that is named but not set hides the inline key. *)
Lemma named_variable_hides_inline_key env c :
  api_key_env c <> "" -> env (api_key_env c) = None -> resolve_api_key env c = None.
Proof. intros Hn He. unfold resolve_api_key, is_empty. rewrite bool_decide_false by done. simpl. by rewrite He. Qed.

(** ** Witnesses *)

(** A reply that both readers take. *)
Definition echo_value (s : string) : Value f32 :=
  JObject [("id", JNull);
    ("choices", JArray [JObject [("message", JObject [("role", JString "assistant"); ("content", JString s)])]]);
    ("candidates", JArray [JObject [("content", JObject [("parts", JArray [JObject [("text", JString s)]])])]])].
Example echo_read :
  openai_response (echo_value "hi") = Some ["hi"] /\ gemini_response (echo_value "hi") = Some [["hi"]] /\
  openai_response (JObject [("choices", JArray []); ("choices", JArray [])]) = None.
Proof. split_and!; reflexivity. Qed.

Definition echo_transport : Transport :=
  {| send r := match body r with
               | JsonBody _ => Ok (mkResponse 200 (Ok "hi"))
               | TextBody s => Ok (mkResponse 404 (Ok s))
               end;
     from_slice s := Ok (echo_value s);
     shape_error _ := "missing field" |}.

Definition echo_host : WasmHost :=
  {| store := unit; func := bool; val_debug _ := "?"; engine_new := Ok tt;
     read_adapter s := Ok s; component_new _ := Ok tt; instantiate _ := Ok tt;
     interface_func _ _ name := Some (bool_decide (name = "transform-request"));
     get_func _ _ := None;
     call s f vs := (s, Ok (if f
       then VResult (Ok (Some (VRecord [("body", VString "b"); ("url", VString "u")])))
       else VResult (Ok (head vs)))) |}.

Definition sample_config (id format : string) (region : option string) : ProviderConfig :=
  mkProviderConfig id id format "https://x/" "m" "k" "" 1 10 "" (S754_zero false) 1 1 1 region None.

Lemma http_spec_round_trip_witness :
  http_spec (H0 := echo_host) (VRecord [("body", VString "b");
    ("headers", encode_headers [("A", "1"); ("B", "2")]); ("url", VString "u")]) =
  Ok ("u", [("A", "1"); ("B", "2")], "b").
Proof.
  apply (http_spec_round_trip (H := echo_host)). symmetry. apply Permutation_rev.
Defined.

(** A 404 goes to the guest's parser. *)
Example adapter_invoke_404 :
  adapter_invoke (H := echo_transport) (H0 := echo_host) (request_new "q")
    (mkAdapter "i" "n" "b" "m" (Some "k") 1 10 "c" "p") =
  ([mkHttp "u" [("Content-Type", "application/json")] (TextBody "b")], Ok (mkProviderResponse "b")).
Proof. reflexivity. Qed.
