(* ===== verification/OpenAiPlugin.v ===== *)
(** * plugins/openai-compatible/src/lib.rs: the OpenAI-compatible adapter, and its host

    The two functions of the guest, the component they make, and what the adapter
    provider of crates/llm-router/src/provider.rs does with it.  The generated bindings
    are the calls of [component_call]; serde_json is a parameter. *)
From Stdlib Require Import Ascii String SpecFloat.
From S2P Require Import Prelude F64 RustStr Json Serde Coordinator Provider.

Local Open Scope string_scope.

Record StandardizedRequest := mkStandardized {
  s_model : string; s_prompt : string; s_temperature : f32; s_base_url : string }.
Record HttpRequestSpec := mkSpec { spec_url : string; spec_headers : list (string * string); spec_body : string }.

Record OpenAiMessage := mkMessage { m_role : string; m_content : string }.
Record OpenAiChatRequest := mkChat {
  r_model : string; r_messages : OpenAiMessage; r_temperature : f32; r_stream : bool }.

(** [to_string], [from_str] and the text of its errors are serde_json's. *)
Section plugin.
Context (to_string : Value f32 -> result string string) (from_str : string -> result (Value f32) string)
  (shape_error : Value f32 -> string).

(** The derived serialisation. *)
Definition message_value (m : OpenAiMessage) : Value f32 :=
  JObject [("role", JString (m_role m)); ("content", JString (m_content m))].
Definition chat_value (r : OpenAiChatRequest) : Value f32 :=
  JObject ([("model", JString (r_model r)); ("messages", JArray [message_value (r_messages r)])] ++
    (if is_zero_f32 (r_temperature r) then [] else [("temperature", JNumber (r_temperature r))]) ++
    [("stream", JBool (r_stream r))])%list.

Definition chat_url (base_url : string) : string :=
  if ends_with "/" base_url then base_url ++ "chat/completions" else base_url ++ "/chat/completions".

Definition transform_request (req : StandardizedRequest) (api_key : string) : result HttpRequestSpec string :=
  let body := mkChat (s_model req) (mkMessage "user" (s_prompt req)) (s_temperature req) false in
  match to_string (chat_value body) with
  | Err e => Err ("Failed to serialize request body: " ++ e)
  | Ok body_json =>
      let headers := [("Authorization", "Bearer " ++ api_key); ("Content-Type", "application/json")] in
      Ok (mkSpec (chat_url (s_base_url req)) headers body_json)
  end.

(** The derived reader of [OpenAiChatResponse]: the contents of its choices. *)
Definition chat_choice (v : Value f32) : option string :=
  message ← only_field "message" v; content ← only_field "content" message; as_str content.
Definition chat_response (v : Value f32) : option (list string) :=
  choices ← only_field "choices" v; l ← as_array choices; mapM chat_choice l.
Definition chat_from_str (raw_body : string) : result (list string) string :=
  read_json (from_str raw_body) shape_error chat_response.

Definition parse_response (raw_body : string) : result string string :=
  match chat_from_str raw_body with
  | Err e => Err ("Failed to parse OpenAI response JSON: " ++ e)
  | Ok (c :: _) => Ok c
  | Ok [] => Err "OpenAI response contained no choices"
  end.

(** ** The component

    Values cross the boundary by the types of the interface definition, under whose name
    the two functions are exported. *)
Definition INTERFACE : string := "serein:adapter/api-adapter@1.0.0".
Inductive Export : Type := TransformRequest | ParseResponse.
Definition export_named (name : string) : option Export :=
  if String.eqb name "transform-request" then Some TransformRequest
  else if String.eqb name "parse-response" then Some ParseResponse else None.

Definition spec_value (s : HttpRequestSpec) : Val :=
  VRecord [("url", VString (spec_url s));
           ("headers", VList ((fun h => VTuple [VString h.1; VString h.2]) <$> spec_headers s));
           ("body", VString (spec_body s))].
Definition component_call (f : Export) (args : list Val) : result Val string :=
  match f, args with
  | TransformRequest, [VRecord [("model", VString m); ("prompt", VString p); ("temperature", VFloat32 t);
      ("base-url", VString u)]; VString key] =>
      Ok (VResult (match transform_request (mkStandardized m p t u) key with
                   | Ok s => Ok (Some (spec_value s))
                   | Err e => Err (Some (VString e))
                   end))
  | ParseResponse, [VString raw] =>
      Ok (VResult (match parse_response raw with Ok s => Ok (Some (VString s)) | Err e => Err (Some (VString e)) end))
  | _, _ => Err "type mismatch"
  end.

(** wasmtime with the plugin at every path; its functions are found under [interface]. *)
Definition plugin_host (interface : string) : WasmHost :=
  {| store := unit; func := Export; val_debug := fun _ => "Val"; engine_new := Ok tt;
     read_adapter := fun path => Ok path; component_new := fun _ => Ok tt; instantiate := fun _ => Ok tt;
     interface_func := fun _ i name => if String.eqb i interface then export_named name else None;
     get_func := fun _ _ => None;
     call := fun s f args => (s, component_call f args) |}.
End plugin.

(** ** What the host does with it *)

Section hosted.
Context (to_string : Value f32 -> result string string) (from_str : string -> result (Value f32) string)
  (shape_error : Value f32 -> string).
Local Abbreviation host := (plugin_host to_string from_str shape_error).
Local Abbreviation chat := (chat_from_str from_str shape_error).

(** The adapter provider cannot call the plugin: it looks its two functions up under
    another interface's name than the one the interface definition gives the plugin, so
    every invocation with a key ends before a request is sent. *)
Theorem plugin_never_called `{Transport} req p key :
  w_api_key p = Some key ->
  adapter_invoke (H0 := host INTERFACE) req p =
    ([], Err (NodeNetworkError "Export 'transform-request' not found in component")).
Proof. intros Hk. unfold adapter_invoke, adapter_prepare. by rewrite Hk. Qed.

Lemma header_of_pairs hs :
  (((fun h : string * string => VTuple [VString h.1; VString h.2]) <$> hs) ≫= header_of) = hs.
Proof. induction hs as [|[n v] hs IH]; [done|]. rewrite fmap_cons. cbn. by f_equal. Qed.

Lemma plugin_request_core `{Transport} req p key text :
  w_api_key p = Some key ->
  to_string (openai_body (w_model p) (prompt req) (temperature req)) = Ok text ->
  let request := mkHttp (chat_url (w_base_url p))
    [("Content-Type", "application/json"); ("Authorization", "Bearer " ++ key);
     ("Content-Type", "application/json")] (TextBody text) in
  (adapter_invoke (H0 := host ADAPTER_INTERFACE) req p).1 = [request] /\
  forall response raw, send request = Ok response -> from_http_status (status response) = None ->
    body_bytes response = Ok raw -> (len raw <= w_max_response_bytes p)%Z ->
    forall t, (adapter_invoke (H0 := host ADAPTER_INTERFACE) req p).2 = Ok (mkProviderResponse t) <->
      exists more, chat raw = Ok (t :: more).
Proof.
  intros Hk Ht request.
  assert (Hprep : adapter_prepare (H0 := host ADAPTER_INTERFACE) req p = Ok (tt, request)).
  { unfold adapter_prepare. rewrite Hk. cbn -[openai_body chat_url]. unfold transform_request. cbn -[chat_url].
    change (chat_value _) with (openai_body (w_model p) (prompt req) (temperature req)). rewrite Ht. done. }
  unfold adapter_invoke. rewrite Hprep. split; [done|].
  intros response raw Hsend Hst Hb Hl t. cbn [snd]. rewrite Hsend. unfold adapter_finish.
  rewrite Hst, Hb, decide_False by lia. cbn. unfold parse_response.
  destruct (chat raw) as [[|c more]|e]; cbn; split; try done; try (by intros [? ?]).
  - intros [= ->]. by exists more.
  - by intros [more' [= -> ->]].
Qed.

(** Under the host's name for the interface the plugin works: the one request goes to
    the base URL's [chat/completions] with the key as bearer token and the serialised
    prompt, the document the built-in provider sends; and for a reply without an error
    status and within the limit the result is the content of the first choice. *)
Theorem plugin_request `{Transport} req p key text :
  w_api_key p = Some key ->
  to_string (openai_body (w_model p) (prompt req) (temperature req)) = Ok text ->
  let request := mkHttp (chat_url (w_base_url p))
    [("Content-Type", "application/json"); ("Authorization", "Bearer " ++ key);
     ("Content-Type", "application/json")] (TextBody text) in
  (adapter_invoke (H0 := host ADAPTER_INTERFACE) req p).1 = [request] /\
  forall response raw, send request = Ok response -> from_http_status (status response) = None ->
    body_bytes response = Ok raw -> (len raw <= w_max_response_bytes p)%Z ->
    forall t, (adapter_invoke (H0 := host ADAPTER_INTERFACE) req p).2 = Ok (mkProviderResponse t) <->
      exists more, chat raw = Ok (t :: more).
Proof. apply plugin_request_core. Qed.

(** The plugin and the built-in provider agree: on a base URL without a slash at its end,
    other than Google's, they send the same document to the same address with the same
    key, and a successful reply gives them the same content. *)
Theorem plugin_agrees_with_builtin `{Transport} req p w key text :
  oa_api_key p = Some key -> w_api_key w = Some key ->
  w_model w = oa_model p -> w_base_url w = oa_base_url p ->
  w_max_response_bytes w = oa_max_response_bytes p ->
  trim_end_slashes (oa_base_url p) = oa_base_url p -> ends_with "/" (oa_base_url p) = false ->
  contains "googleapis.com" (oa_base_url p) = false ->
  (forall raw, from_slice raw = from_str raw) ->
  to_string (openai_body (oa_model p) (prompt req) (temperature req)) = Ok text ->
  exists native guest,
    (openai_invoke req p).1 = [native] /\ (adapter_invoke (H0 := host ADAPTER_INTERFACE) req w).1 = [guest] /\
    url native = url guest /\ (forall h, h ∈ headers native <-> h ∈ headers guest) /\
    (exists v, body native = JsonBody v /\ body guest = TextBody text /\ to_string v = Ok text) /\
    forall response raw, send native = Ok response -> send guest = Ok response ->
      (status response < 500)%Z -> status response <> 403 -> status response <> 429 ->
      body_bytes response = Ok raw -> (len raw <= oa_max_response_bytes p)%Z ->
      forall t, (openai_invoke req p).2 = Ok (mkProviderResponse t) <->
        (adapter_invoke (H0 := host ADAPTER_INTERFACE) req w).2 = Ok (mkProviderResponse t).
Proof.
  intros Hk Hk' Hm Hu Hlim Htrim Hend Hg Hparse Ht. rewrite <- Hm in Ht.
  destruct (plugin_request_core req w key text Hk' Ht) as [H1 H2].
  exists (openai_request key req p). eexists. unfold openai_invoke at 1. rewrite Hk.
  split; [done|]. split; [exact H1|]. unfold openai_request. rewrite Htrim, Hg, app_nil_r.
  cbn [url headers body]. split_and!.
  - unfold chat_url. by rewrite Hu, Hend.
  - intros h. rewrite !elem_of_cons. naive_solver.
  - eexists. split_and!; [done|done|]. by rewrite <- Hm.
  - intros response raw Hs Hs' H5 H4 H429 Hb Hl t.
    assert (Hst : from_http_status (status response) = None)
      by (unfold from_http_status; by rewrite !decide_False by lia).
    rewrite <- Hlim in Hl. rewrite (H2 response raw Hs' Hst Hb Hl). rewrite Hlim in Hl.
    unfold openai_invoke, openai_request. rewrite Hk, Htrim, Hg, app_nil_r. cbn [snd]. rewrite Hs.
    unfold checked_body. rewrite !decide_False by lia. rewrite Hb, decide_False by lia. cbn -[parse_openai].
    assert ((exists more, parse_openai raw = Ok (t :: more)) <-> exists more, chat raw = Ok (t :: more)) as <-.
    { unfold parse_openai, chat_from_str, read_json. rewrite Hparse. change chat_response with openai_response.
      destruct (from_str raw) as [v|e]; [|split; intros [? ?]; done]. destruct (openai_response v); split; intros [? ?]; (done || eauto). }
    destruct (parse_openai raw) as [[|c more]|e]; split; try done; try (by intros [? ?]).
    + intros [= ->]. by exists more.
    + by intros [more' [= -> ->]].
Qed.
End hosted.

(** ** Witnesses: a model's answer is the text before the first comma *)

Definition sample_to_string (v : Value f32) : result string string := Ok "{..}".
Definition sample_from_str (s : string) : result (Value f32) string :=
  Ok (JObject [("choices",
    JArray ((fun c => JObject [("message", JObject [("content", JString c)])]) <$> split_char "," s))]).
Definition sample_error (v : Value f32) : string := "missing field".
Definition sample_transport : Transport := {|
  send r := Ok (mkResponse 200 (Ok "hello,world"));
  from_slice := sample_from_str;
  shape_error := sample_error |}.
Definition sample_adapter : WasmAdapterProvider :=
  mkAdapter "i" "n" "https://a/v1" "m" (Some "k") 1 100 "c" "p".
Definition sample_builtin : GenericOpenAiProvider :=
  openai_from_config (fun _ => None)
    (mkProviderConfig "i" "n" "openai" "https://a/v1" "m" "k" "" 1 100 "c" default_temperature 1 1 1 None None).

Lemma plugin_never_called_witness :
  adapter_invoke (H := sample_transport) (H0 := plugin_host sample_to_string sample_from_str sample_error INTERFACE) (request_new "hi") sample_adapter =
    ([], Err (NodeNetworkError "Export 'transform-request' not found in component")).
Proof. exact (plugin_never_called (H := sample_transport) sample_to_string sample_from_str sample_error (request_new "hi") sample_adapter "k" eq_refl). Defined.

Lemma plugin_request_witness :
  (adapter_invoke (H := sample_transport) (H0 := plugin_host sample_to_string sample_from_str sample_error ADAPTER_INTERFACE)
     (request_new "hi") sample_adapter).2 = Ok (mkProviderResponse "hello").
Proof.
  apply (proj2 (plugin_request (H := sample_transport) sample_to_string sample_from_str sample_error (request_new "hi") sample_adapter "k" "{..}"
    eq_refl eq_refl) (mkResponse 200 (Ok "hello,world")) "hello,world" eq_refl eq_refl eq_refl
    ltac:(vm_compute; discriminate)).
  by exists ["world"].
Defined.

Lemma plugin_agrees_with_builtin_witness : exists native guest,
  (openai_invoke (H := sample_transport) (request_new "hi") sample_builtin).1 = [native] /\
  (adapter_invoke (H := sample_transport) (H0 := plugin_host sample_to_string sample_from_str sample_error ADAPTER_INTERFACE)
     (request_new "hi") sample_adapter).1 = [guest] /\ url native = url guest.
Proof.
  destruct (plugin_agrees_with_builtin (H := sample_transport) sample_to_string sample_from_str sample_error (request_new "hi") sample_builtin
    sample_adapter "k" "{..}" eq_refl eq_refl eq_refl eq_refl eq_refl eq_refl eq_refl eq_refl
    (fun _ => eq_refl) eq_refl) as (native & guest & Hn & Hg & Hu & _).
  by exists native, guest.
Defined.
