(* ===== verification/Masking.v ===== *)
(** * crates/core/src/security/masking.rs: sensitivity levels and PII masking

    Data of a level is stored as it is, hashed, or encrypted ([MaskingEngine]);
    values of a field are shown with their ends only ([PiiMaskingEngine]).
    AES-256-GCM, SHA-256, hex and the regular expressions are parameters: the
    classes below state what their documentation says, and the 12 random bytes of a
    nonce are an argument. *)
From Stdlib Require Import Ascii String.
From S2P Require Import Prelude RustStr.

Local Open Scope string_scope.

Inductive Sensitivity : Type := Public | Internal | PiiMasked | PiiEncrypted.
#[export] Instance Sensitivity_eq_dec : EqDecision Sensitivity.
Proof. solve_decision. Defined.

Inductive MaskingError : Type :=
  | InvalidSensitivityLevel (s : string)
  | EncryptionError (s : string)
  | DecryptionError (s : string)
  | KeyError (s : string)
  | HashingError (s : string)
  | PiiMaskingError (s : string).

Definition MaskingError_display (e : MaskingError) : string :=
  match e with
  | InvalidSensitivityLevel s => "Invalid sensitivity level: " ++ s
  | EncryptionError s => "Encryption failed: " ++ s
  | DecryptionError s => "Decryption failed: " ++ s
  | KeyError s => "Key management error: " ++ s
  | HashingError s => "Hashing failed: " ++ s
  | PiiMaskingError s => "PII masking failed: " ++ s
  end.

Definition Sensitivity_into_string (l : Sensitivity) : string :=
  match l with
  | Public => "public" | Internal => "internal"
  | PiiMasked => "pii-masked" | PiiEncrypted => "pii-encrypted"
  end.
Definition Sensitivity_try_from (value : string) : result Sensitivity MaskingError :=
  if decide (value = "public") then Ok Public
  else if decide (value = "internal") then Ok Internal
  else if decide (value = "pii-masked") then Ok PiiMasked
  else if decide (value = "pii-encrypted") then Ok PiiEncrypted
  else Err (InvalidSensitivityLevel value).

(** The cryptographic crates: errors are given by their texts.  AES-GCM appends a
    tag of 16 bytes. *)
Class Crypto := {
  hex_encode : string -> string;
  hex_decode : string -> result string string;
  sha256 : string -> string;
  aes_encrypt : string -> string -> string -> result string string;
  aes_decrypt : string -> string -> string -> result string string;
  utf8_error : string -> string;
  hex_round_trip : forall s, hex_decode (hex_encode s) = Ok s;
  aes_round_trip : forall k n p c, aes_encrypt k n p = Ok c -> aes_decrypt k n c = Ok p;
  aes_tag : forall k n p c, aes_encrypt k n p = Ok c ->
    String.length c = (String.length p + 16)%nat }.

(** ** [MaskingEngine] *)

Record MaskingEngine := mkEngine { encryption_key : option string }.

Section engine.
Context `{Crypto}.
Implicit Types (e : MaskingEngine) (nonce_bytes : string).

(** [Result::map_err]. *)
Definition map_err {T E F} (f : E -> F) (r : result T E) : result T F :=
  match r with Ok t => Ok t | Err x => Err (f x) end.

Definition engine_new (encryption_key_hex : option string) : result MaskingEngine MaskingError :=
  match encryption_key_hex with
  | None => Ok (mkEngine None)
  | Some key_hex =>
      key_bytes <-? map_err (fun x => KeyError ("Invalid hex key: " ++ x)) (hex_decode key_hex) ;;
      if decide (String.length key_bytes <> 32%nat) then
        Err (KeyError ("Key must be 32 bytes (256 bits), got " ++ pretty (len key_bytes) ++ " bytes"))
      else Ok (mkEngine (Some key_bytes))
  end.

(** [hash_data] and [hash_bytes]. *)
Definition hash_bytes e (data : string) : result string MaskingError :=
  Ok (hex_encode (sha256 data)).

(** [encrypt_data] and [encrypt_bytes]. *)
Definition encrypt_bytes e nonce_bytes (data : string) : result string MaskingError :=
  match encryption_key e with
  | None => Err (EncryptionError "Encryption key not configured")
  | Some key =>
      ciphertext <-? map_err (fun x => EncryptionError ("Encryption failed: " ++ x))
                       (aes_encrypt key nonce_bytes data) ;;
      Ok (hex_encode (nonce_bytes ++ ciphertext))
  end.

(** [transform_data] and [transform_data_owned]. *)
Definition transform_data e nonce_bytes (data : string) (sensitivity : Sensitivity)
    : result string MaskingError :=
  match sensitivity with
  | Public | Internal => Ok data
  | PiiMasked => hash_bytes e data
  | PiiEncrypted => encrypt_bytes e nonce_bytes data
  end.

Definition from_utf8 (error : string -> MaskingError) (data : string) : result string MaskingError :=
  if utf8_valid data then Ok data else Err (error (utf8_error data)).

Definition transform_bytes e nonce_bytes (data : string) (sensitivity : Sensitivity)
    : result string MaskingError :=
  match sensitivity with
  | Public | Internal => from_utf8 (fun x => EncryptionError ("Invalid UTF-8: " ++ x)) data
  | PiiMasked => hash_bytes e data
  | PiiEncrypted => encrypt_bytes e nonce_bytes data
  end.

Definition decrypt_data e (encrypted_hex : string) : result string MaskingError :=
  match encryption_key e with
  | None => Err (DecryptionError "Encryption key not configured")
  | Some key =>
      combined <-? map_err (fun x => DecryptionError ("Invalid hex data: " ++ x))
                     (hex_decode encrypted_hex) ;;
      if decide (String.length combined < 13)%nat then
        Err (DecryptionError ("Encrypted data too short: " ++ pretty (len combined) ++ " bytes"))
      else
        let nonce_bytes := take_bytes 12 combined in
        let ciphertext := drop_bytes 12 combined in
        plaintext_bytes <-? map_err (fun x => DecryptionError ("Decryption failed: " ++ x))
                              (aes_decrypt key nonce_bytes ciphertext) ;;
        from_utf8 (fun x => DecryptionError ("Invalid UTF-8: " ++ x)) plaintext_bytes
  end.

(** The 32 random bytes are an argument. *)
Definition generate_key (key_bytes : string) : string := hex_encode key_bytes.
Definition supports_encryption e : bool := bool_decide (is_Some (encryption_key e)).
End engine.

(** ** [PiiMaskingEngine] *)

Inductive PiiField : Type :=
  | PassportNumber | ApiKey | NationalId | FullName | DateOfBirth | PhoneNumber | Email
  | Address | FinancialAccount | Other.
#[export] Instance PiiField_eq_dec : EqDecision PiiField.
Proof. solve_decision. Defined.

(** The derived [Debug]. *)
Definition PiiField_debug (f : PiiField) : string :=
  match f with
  | PassportNumber => "PassportNumber" | ApiKey => "ApiKey" | NationalId => "NationalId"
  | FullName => "FullName" | DateOfBirth => "DateOfBirth" | PhoneNumber => "PhoneNumber"
  | Email => "Email" | Address => "Address" | FinancialAccount => "FinancialAccount"
  | Other => "Other"
  end.
Definition all_fields : list PiiField :=
  [PassportNumber; ApiKey; NationalId; FullName; DateOfBirth; PhoneNumber; Email; Address;
   FinancialAccount; Other].
#[export] Instance PiiField_countable : Countable PiiField.
Proof.
  apply (inj_countable PiiField_debug
           (fun s => List.find (fun f => bool_decide (PiiField_debug f = s)) all_fields)).
  by intros [].
Defined.

(** A [char] is its UTF-8 encoding. *)
Record PiiMaskConfig := mkMaskConfig {
  visible_prefix : Z;
  visible_suffix : Z;
  mask_char : string;
  min_output_length : Z }.
Definition PiiMaskConfig_default : PiiMaskConfig := mkMaskConfig 1 1 "*" 4.
Definition passport : PiiMaskConfig := mkMaskConfig 1 1 "*" 6.
Definition api_key : PiiMaskConfig := mkMaskConfig 2 2 "*" 6.
Definition national_id : PiiMaskConfig := mkMaskConfig 1 2 "*" 6.
Definition full_name : PiiMaskConfig := mkMaskConfig 1 0 "*" 3.
Definition full_redaction : PiiMaskConfig := mkMaskConfig 0 0 "*" 4.

Record PiiMaskingEngine := mkPiiEngine {
  configs : gmap PiiField PiiMaskConfig;
  masking_engine : MaskingEngine }.

Definition default_configs : gmap PiiField PiiMaskConfig :=
  list_to_map
    [(PassportNumber, passport); (ApiKey, api_key); (NationalId, national_id);
     (FullName, full_name); (DateOfBirth, full_redaction);
     (PhoneNumber, PiiMaskConfig_default); (Email, PiiMaskConfig_default);
     (Address, full_redaction); (FinancialAccount, full_redaction); (Other, full_redaction)].

(** [configs.get(&field).or_else(..Other..).cloned().unwrap_or_default()]. *)
Definition config_of (e : PiiMaskingEngine) (field : PiiField) : PiiMaskConfig :=
  default PiiMaskConfig_default
    (match configs e !! field with Some c => Some c | None => configs e !! Other end).

Definition mask_with (config : PiiMaskConfig) (value : string) : outcome string :=
  if is_empty value then Ret ""
  else
    let cs := chars value in
    let n := Z.of_nat (length cs) in
    visible ← add_u USIZE_MAX (visible_prefix config) (visible_suffix config);
    if decide (n <= visible) then
      Ret (repeat_n (mask_char config) (Z.max (min_output_length config) n))
    else
      let prefix := collect_str (take (Z.to_nat (visible_prefix config)) cs) in
      let suffix := collect_str (drop (Z.to_nat (n - visible_suffix config)) cs) in
      let masked_len := n - visible_prefix config - visible_suffix config in
      let masked := repeat_n (mask_char config) masked_len in
      let result := prefix ++ masked ++ suffix in
      if decide (len result < min_output_length config) then
        let padding := min_output_length config - len result in
        Ret (result ++ repeat_n (mask_char config) padding)
      else Ret result.
Definition mask_value (e : PiiMaskingEngine) (value : string) (field : PiiField) : outcome string :=
  mask_with (config_of e field) value.

Section pii_engine.
Context `{Crypto, HashOrder}.
Implicit Types (e : PiiMaskingEngine).

Definition with_configs (encryption_key_hex : option string) (configs : gmap PiiField PiiMaskConfig)
    : result PiiMaskingEngine MaskingError :=
  masking_engine <-? engine_new encryption_key_hex ;;
  Ok (mkPiiEngine configs masking_engine).
Definition pii_engine_new (encryption_key_hex : option string)
    : result PiiMaskingEngine MaskingError :=
  with_configs encryption_key_hex default_configs.

Definition mask_bytes e (data : string) (field : PiiField) : outcome (result string MaskingError) :=
  match from_utf8 (fun x => PiiMaskingError ("Invalid UTF-8 in PII data: " ++ x)) data with
  | Err x => Ret (Err x)
  | Ok value => Ok <$> mask_value e value field
  end.

Definition hash_pii e (value : string) (field : PiiField) : result string MaskingError :=
  Ok (hex_encode (sha256 (PiiField_debug field ++ value))).
Definition encrypt_pii e nonce_bytes (value : string) (_field : PiiField)
    : result string MaskingError :=
  encrypt_bytes (masking_engine e) nonce_bytes value.
Definition decrypt_pii e (encrypted_hex : string) : result string MaskingError :=
  decrypt_data (masking_engine e) encrypted_hex.

Fixpoint mask_entries e (field_map : gmap string PiiField) (entries : list (string * string))
    (acc : gmap string string) : outcome (gmap string string) :=
  match entries with
  | [] => Ret acc
  | (key, value) :: entries =>
      let field := default Other (field_map !! key) in
      masked ← mask_value e value field;
      mask_entries e field_map entries (<[key := masked]> acc)
  end.
Definition mask_structured e (data : gmap string string) (field_map : gmap string PiiField)
    : outcome (gmap string string) :=
  mask_entries e field_map (hash_iter data) ∅.
End pii_engine.

(** ** Free text

    [captures t]: the matches in [t], each as the text between it and the match
    before and its named groups, and the text after the last. *)
Record PassportCaps := mkPassportCaps { p_prefix : string; p_digits : string }.
Record EmailCaps := mkEmailCaps { e_user : string; e_domain : string }.
Record PhoneCaps := mkPhoneCaps { ph_plus : string; ph_country : string; ph_number : string }.
Record NationalCaps := mkNationalCaps { n_prefix : string; n_middle : string; n_suffix : string }.
Class TextPatterns := {
  passport_captures : string -> list (string * PassportCaps) * string;
  email_captures : string -> list (string * EmailCaps) * string;
  phone_captures : string -> list (string * PhoneCaps) * string;
  national_captures : string -> list (string * NationalCaps) * string }.

(** [Regex::replace_all] with a closure that may panic. *)
Fixpoint replace_caps {C} (f : C -> outcome string) (l : list (string * C)) (tail : string)
    : outcome string :=
  match l with
  | [] => Ret tail
  | (lit, caps) :: l => r ← f caps; rest ← replace_caps f l tail; Ret (lit ++ r ++ rest)
  end.
Definition replace_all {C} (captures : string -> list (string * C) * string)
    (f : C -> outcome string) (text : string) : outcome string :=
  let '(l, tail) := captures text in replace_caps f l tail.

Section free_text.
Context `{TextPatterns}.
Implicit Types (e : PiiMaskingEngine).

Definition text_config e (field : PiiField) : PiiMaskConfig :=
  default PiiMaskConfig_default (configs e !! field).

Definition mask_passport_patterns e : string -> outcome string :=
  replace_all passport_captures (fun caps =>
    let masked := repeat_n (mask_char (text_config e PassportNumber)) (len (p_digits caps)) in
    Ret (p_prefix caps ++ masked)).
Definition mask_email_patterns e : string -> outcome string :=
  replace_all email_captures (fun caps =>
    if is_empty (e_user caps) then Ret "***@"
    else
      first ← slice_to (e_user caps) (Nat.min 1 (String.length (e_user caps)));
      Ret (first ++ "***@" ++ e_domain caps)).
Definition mask_phone_patterns e : string -> outcome string :=
  replace_all phone_captures (fun caps =>
    let masked := repeat_n (mask_char (text_config e PhoneNumber)) (len (ph_number caps)) in
    Ret (ph_plus caps ++ ph_country caps ++ masked)).
Definition mask_national_id_patterns e : string -> outcome string :=
  replace_all national_captures (fun caps =>
    let masked := repeat_n "*" (len (n_middle caps)) in
    Ret (n_prefix caps ++ "-" ++ masked ++ "-" ++ n_suffix caps)).

Definition mask_pii_in_text e (text : string) : outcome string :=
  result ← mask_passport_patterns e text;
  result ← mask_email_patterns e result;
  result ← mask_phone_patterns e result;
  mask_national_id_patterns e result.
End free_text.

(** ** Properties *)

Section engine_lemmas.
Context `{Crypto}.
Implicit Types (e : MaskingEngine).

Lemma hex_encode_inj s t : hex_encode s = hex_encode t -> s = t.
Proof. intros Hst. pose proof (hex_round_trip s) as Hs. rewrite Hst, hex_round_trip in Hs. congruence. Qed.

Lemma transform_bytes_valid e nonce data sensitivity :
  utf8_valid data = true -> transform_bytes e nonce data sensitivity = transform_data e nonce data sensitivity.
Proof. intros Hu. unfold transform_bytes, from_utf8. by destruct sensitivity; rewrite ?Hu. Qed.

Lemma encrypt_bytes_Ok e nonce data h :
  encrypt_bytes e nonce data = Ok h ->
  exists key c, encryption_key e = Some key /\ aes_encrypt key nonce data = Ok c /\
    h = hex_encode (nonce ++ c).
Proof.
  unfold encrypt_bytes. destruct (encryption_key e) as [key|]; [|done].
  destruct (aes_encrypt key nonce data) as [c|x] eqn:E; simpl; intros; simplify_eq. eauto.
Qed.

Lemma decrypt_encrypted e nonce data h :
  String.length nonce = 12%nat -> utf8_valid data = true ->
  encrypt_bytes e nonce data = Ok h -> decrypt_data e h = Ok data.
Proof.
  intros Hn Hu (key & c & Hk & Hc & ->)%encrypt_bytes_Ok.
  unfold decrypt_data; rewrite Hk, hex_round_trip; cbn [result_bind map_err].
  pose proof (aes_tag _ _ _ _ Hc) as Hlen. rewrite length_string_app, Hn.
  rewrite decide_False, <- Hn, take_bytes_app, drop_bytes_app by lia.
  rewrite (aes_round_trip _ _ _ _ Hc). simpl. unfold from_utf8. by rewrite Hu.
Qed.

(** C15: what is stored encrypted is read back: when [transform_data] or
    [transform_bytes] accepts a text as [PiiEncrypted], under any nonce of 12 bytes, the
    engine has a key, and decrypting the stored text with it gives the text back. *)
Theorem encrypted_round_trip e nonce data h :
  String.length nonce = 12%nat -> utf8_valid data = true ->
  transform_data e nonce data PiiEncrypted = Ok h \/
  transform_bytes e nonce data PiiEncrypted = Ok h ->
  supports_encryption e = true /\ decrypt_data e h = Ok data.
Proof.
  intros Hn Hu Ht. rewrite transform_bytes_valid in Ht by done.
  assert (encrypt_bytes e nonce data = Ok h) as He by by destruct Ht.
  split; [|by eapply decrypt_encrypted].
  apply encrypt_bytes_Ok in He as (key & c & Hk & _). unfold supports_encryption. by rewrite Hk.
Qed.

(** Each level is stored as it promises, whatever the data: public and internal
    data are only refused when they are bytes that are not text, masked data are
    stored as their hash, and encrypted data are refused without a key. *)
Theorem transform_spec e nonce data :
  (forall l, l = Public \/ l = Internal ->
    transform_bytes e nonce data l =
      (if utf8_valid data then Ok data
       else Err (EncryptionError ("Invalid UTF-8: " ++ utf8_error data)))) /\
  transform_bytes e nonce data PiiMasked = Ok (hex_encode (sha256 data)) /\
  (supports_encryption e = false ->
    transform_bytes e nonce data PiiEncrypted =
      Err (EncryptionError "Encryption key not configured")).
Proof.
  split_and!; [intros l [->| ->]; unfold transform_bytes, from_utf8; by cases|done|].
  unfold supports_encryption, transform_bytes, encrypt_bytes. by destruct (encryption_key e).
Qed.

Lemma PiiField_debug_prefix f f' s s' : PiiField_debug f ++ s = PiiField_debug f' ++ s' -> f = f' /\ s = s'.
Proof. destruct f, f'; simpl; intros; simplify_eq/=; done. Qed.

(** Hashed values of different fields do not meet: unless SHA-256 collides on the
    two salted inputs, equal hashes come from the same field and the same value,
    although salt and value are joined without a separator. *)
Theorem hash_pii_separates (e : PiiMaskingEngine) v f v' f' :
  (sha256 (PiiField_debug f ++ v) = sha256 (PiiField_debug f' ++ v') ->
   PiiField_debug f ++ v = PiiField_debug f' ++ v') ->
  hash_pii e v f = hash_pii e v' f' <-> f = f' /\ v = v'.
Proof.
  intros Hsha. split; [|by intros [-> ->]].
  intros Heq. unfold hash_pii in Heq. simplify_eq. by apply PiiField_debug_prefix, Hsha, hex_encode_inj.
Qed.
End engine_lemmas.

Definition config_ok (c : PiiMaskConfig) : Prop :=
  0 <= visible_prefix c /\ 0 <= visible_suffix c /\
  visible_prefix c + visible_suffix c <= USIZE_MAX /\ mask_char c <> "".

Lemma chars_nil v : chars v = [] -> v = "".
Proof. intros Hv. by rewrite <- (chars_collect v), Hv. Qed.

Lemma repeat_n_long c n : c <> "" -> n <= len (repeat_n c n).
Proof. intros Hc. pose proof (length_repeat_n c n Hc). unfold len. lia. Qed.


Lemma mask_with_total c v : config_ok c -> v <> "" ->
  exists m, mask_with c v = Ret m /\ min_output_length c <= len m.
Proof.
  intros (Hp & Hs & Hsum & Hc) Hv. unfold mask_with, is_empty.
  rewrite bool_decide_false by done. rewrite add_u_small by done. simpl.
  case_decide; [|case_decide]; eexists; (split; [done|]).
  - pose proof (repeat_n_long (mask_char c) (Z.max (min_output_length c) (Z.of_nat (length (chars v)))) Hc). lia.
  - rewrite len_app. match goal with |- context [repeat_n _ ?n] => pose proof (repeat_n_long (mask_char c) n Hc) end.
    match goal with |- _ <= _ + len (repeat_n _ ?n) => pose proof (repeat_n_long (mask_char c) n Hc) end. lia.
  - lia.
Qed.

(** A masked value shows no more than its length in characters and its visible
    ends: two values of the same length, which are short or have the same first
    and last visible characters, are masked to the same text; the text is at least
    as long as the configuration asks for, and masking does not panic. *)
Theorem mask_value_hides e field v v' :
  let c := config_of e field in
  let n := length (chars v) in
  let p := Z.to_nat (visible_prefix c) in
  let s := Z.to_nat (visible_suffix c) in
  config_ok c -> v <> "" -> length (chars v') = n ->
  (n <= p + s \/ take p (chars v) = take p (chars v') /\
   drop (n - s) (chars v) = drop (n - s) (chars v'))%nat ->
  exists m, mask_value e v field = Ret m /\ mask_value e v' field = Ret m /\
    min_output_length c <= len m.
Proof.
  intros c n p s Hc Hv Hlen Hends.
  destruct (mask_with_total c v Hc Hv) as (m & Hm & Hmin). exists m. split_and!; [done| |done].
  rewrite <- Hm. unfold mask_value. fold c. destruct Hc as (Hp & Hs & Hsum & _).
  unfold mask_with, is_empty. rewrite !bool_decide_false by (try done; intros ->; apply Hv, chars_nil; by destruct (chars v)).
  rewrite add_u_small by done. simpl. rewrite Hlen. fold n.
  case_decide; [done|]. destruct Hends as [Hshort|[Ht Hd]]; [lia|]. unfold p in Ht.
  replace (Z.to_nat (Z.of_nat n - visible_suffix c)) with (n - s)%nat by lia. by rewrite Ht, Hd.
Qed.

Section structured.
Context `{HashOrder}.
Implicit Types (e : PiiMaskingEngine).

Lemma mask_entries_spec e fm entries acc :
  List.NoDup (List.map fst entries) ->
  (forall f, config_ok (config_of e f)) ->
  exists r, mask_entries e fm entries acc = Ret r /\
    (forall k v, In (k, v) entries -> exists m, r !! k = Some m /\
      mask_value e v (default Other (fm !! k)) = Ret m) /\
    (forall k, ~ In k (List.map fst entries) -> r !! k = acc !! k).
Proof.
  intros Hnd Hok. revert acc. induction entries as [|[k v] entries IH]; intros acc; simpl.
  { exists acc. by split_and!. }
  inversion_clear Hnd as [|? ? Hk Hnd'].
  assert (exists m, mask_value e v (default Other (fm !! k)) = Ret m) as [m Hm].
  { destruct (decide (v = "")) as [->|Hv]; [by exists ""|].
    destruct (mask_with_total _ _ (Hok (default Other (fm !! k))) Hv) as (m & Hm & _). by exists m. }
  rewrite Hm. simpl. destruct (IH Hnd' (<[k := m]> acc)) as (r & Hr & Hin & Hout).
  exists r. split_and!; [done| |].
  - intros k' v' [Heq|Hin']; [|eauto]. simplify_eq. exists m. split; [|done].
    rewrite Hout by done. by rewrite lookup_insert_eq.
  - intros k' Hk'. rewrite Hout by naive_solver. rewrite lookup_insert_ne; naive_solver.
Qed.

(** A structured record is masked entry by entry: for every iteration order of the
    map and all well-formed configurations masking succeeds, the result has the keys
    of the record and no others, and the value under each key is the mask of the
    record's value as the field mapped to the key, or as [Other] without one. *)
Theorem mask_structured_spec e data fm :
  (forall f, config_ok (config_of e f)) ->
  exists r, mask_structured e data fm = Ret r /\
    forall k, match data !! k with
              | Some v => exists m, r !! k = Some m /\
                  mask_value e v (default Other (fm !! k)) = Ret m
              | None => r !! k = None
              end.
Proof.
  intros Hok.
  assert (Hp : Permutation (List.map fst (hash_iter data)) (List.map fst (map_to_list data)))
    by apply Permutation_map, hash_iter_perm.
  destruct (mask_entries_spec e fm (hash_iter data) ∅) as (r & Hr & Hin & Hout); [|done|].
  { apply (Permutation_NoDup (Permutation_sym Hp)), NoDup_ListNoDup, NoDup_fst_map_to_list. }
  exists r. split; [done|]. intros k. destruct (data !! k) as [v|] eqn:Hk.
  - apply Hin, list_elem_of_In. rewrite hash_iter_perm. by apply elem_of_map_to_list.
  - rewrite Hout; [done|]. intros Hk'%(Permutation_in _ Hp)%list_elem_of_In.
    apply list_elem_of_fmap in Hk' as ([k' v] & -> & Hk'). apply elem_of_map_to_list in Hk'.
    simpl in Hk. congruence.
Qed.
End structured.

(** ** Concrete inputs *)

Definition toy_crypto : Crypto.
Proof.
  refine {| hex_encode := fun s => s; hex_decode := Ok; sha256 := fun s => s;
    aes_encrypt := fun k n p => Ok (p ++ "0123456789abcdef");
    aes_decrypt := fun k n c => Ok (take_bytes (String.length c - 16) c);
    utf8_error := fun _ => "invalid utf-8 sequence" |}.
  - done.
  - intros k n p c Hc. simplify_eq. rewrite length_string_app. simpl (String.length "0123456789abcdef").
    rewrite Nat.add_sub. by rewrite take_bytes_app.
  - intros k n p c Hc. simplify_eq. by rewrite length_string_app.
Defined.

Definition demo_engine : PiiMaskingEngine := mkPiiEngine default_configs (mkEngine (Some "k")).

Lemma default_configs_ok f : config_ok (config_of demo_engine f).
Proof. by destruct f. Qed.

Example mask_passport_number : mask_value demo_engine "E12345678" PassportNumber = Ret "E*******8".
Proof. reflexivity. Qed.
Example mask_multibyte : mask_value demo_engine "张伟明" FullName = Ret "张**".
Proof. reflexivity. Qed.

Lemma encrypted_round_trip_witness :
  let H := toy_crypto in
  exists h, transform_data (mkEngine (Some "k")) "abcdefghijkl" "secret" PiiEncrypted = Ok h /\
    decrypt_data (mkEngine (Some "k")) h = Ok "secret".
Proof.
  eexists. split; [reflexivity|].
  apply (encrypted_round_trip (H := toy_crypto) (mkEngine (Some "k")) "abcdefghijkl" "secret");
    [reflexivity|reflexivity|by left].
Defined.

Lemma transform_spec_witness :
  let H := toy_crypto in
  transform_bytes (mkEngine None) "abcdefghijkl" "secret" PiiEncrypted =
    Err (EncryptionError "Encryption key not configured").
Proof.
  apply (proj2 (proj2 (transform_spec (H := toy_crypto) (mkEngine None) "abcdefghijkl" "secret"))).
  reflexivity.
Defined.

Lemma hash_pii_separates_witness :
  let H := toy_crypto in
  hash_pii demo_engine "7" ApiKey <> hash_pii demo_engine "7" Email.
Proof.
  intros H Heq. apply (hash_pii_separates (H := toy_crypto)) in Heq; [by destruct Heq|done].
Defined.

Lemma mask_value_hides_witness :
  exists m, mask_value demo_engine "sk-12345678" ApiKey = Ret m /\
    mask_value demo_engine "sk!abcdef78" ApiKey = Ret m /\ 6 <= len m.
Proof.
  apply (mask_value_hides demo_engine ApiKey "sk-12345678" "sk!abcdef78");
    [apply default_configs_ok|done|reflexivity|right; split; reflexivity].
Defined.

Lemma mask_structured_spec_witness :
  exists r, @mask_structured canonical_order demo_engine {["name" := "Ada"]} {["name" := FullName]} = Ret r.
Proof.
  destruct (@mask_structured_spec canonical_order demo_engine {["name" := "Ada"]} {["name" := FullName]}
              default_configs_ok) as (r & Hr & _).
  by exists r.
Defined.
