(* ===== verification/HostStore.v ===== *)
(** * crates/core/src/engine/wasmtime_rt.rs: the host side of a guest's store

    What a guest can call: shared buffers behind resource handles, and the
    persistence interface with its sensitivity levels.  wasmtime's [ResourceTable]
    and SQLite are parameters: the class below states what handles promise, the
    result of an INSERT is an argument.  The bytes of a buffer are a [string]. *)
From Stdlib Require Import String.
From S2P Require Import Prelude RustStr PayloadValidator AbiGuard Masking.

Local Open Scope string_scope.

Definition SHARED_BUFFER_MAX_LEN : Z := 16 * 1024 * 1024.
Definition SHARED_BUFFER_READ_CHUNK : Z := 64 * 1024.

Inductive GuestTrap : Type :=
  | MemoryAccessViolation (offset len capacity : Z).

(** The macro [ensure_in_bounds!]. *)
Definition ensure_in_bounds (offset len capacity : Z) : result unit GuestTrap :=
  if decide (capacity < saturating_add U64_MAX offset len)
  then Err (MemoryAccessViolation offset len capacity) else Ok tt.

(** ** [CanonicalAbiGuard] *)

Inductive CanonicalAbiViolation : Type :=
  | BufferOverflow (requested maximum : Z)
  | InvalidAlignment (alignment : Z)
  | RawMemoryAccessProhibited (context : string)
  | TypeMismatch (expected actual : string).
Definition CanonicalAbiViolation_display (v : CanonicalAbiViolation) : string :=
  match v with
  | BufferOverflow requested maximum =>
      "Canonical ABI buffer overflow: requested " ++ pretty requested ++ " bytes, maximum " ++
      pretty maximum
  | InvalidAlignment alignment =>
      "Canonical ABI invalid alignment: " ++ pretty alignment ++ " is not a power of 2"
  | RawMemoryAccessProhibited context => "Canonical ABI raw memory access prohibited: " ++ context
  | TypeMismatch expected actual =>
      "Canonical ABI type mismatch: expected " ++ expected ++ ", got " ++ actual
  end.

Record CanonicalAbiGuard := mkCanonical {
  transfer_count : Z;
  violation_count : Z;
  canonical_enabled : bool }.
Definition canonical_new (enabled : bool) : CanonicalAbiGuard := mkCanonical 0 0 enabled.

Definition record_compliant_transfer (g : CanonicalAbiGuard) : CanonicalAbiGuard :=
  if canonical_enabled g
  then mkCanonical (wrapping_add U64_MAX (transfer_count g) 1) (violation_count g) true else g.
Definition record_violation (g : CanonicalAbiGuard) : CanonicalAbiGuard :=
  if canonical_enabled g
  then mkCanonical (transfer_count g) (wrapping_add U64_MAX (violation_count g) 1) true else g.

Definition validate_buffer_transfer (len max_len alignment : Z) (g : CanonicalAbiGuard)
    : CanonicalAbiGuard * result unit CanonicalAbiViolation :=
  if negb (canonical_enabled g) then (g, Ok tt)
  else if decide (max_len < len) then (g, Err (BufferOverflow len max_len))
  else if decide (alignment = 0 \/ Z.land alignment (alignment - 1) <> 0)
  then (g, Err (InvalidAlignment alignment))
  else (record_compliant_transfer g, Ok tt).

Definition validate_string_transfer (s : string) (max_len : Z) (g : CanonicalAbiGuard)
    : CanonicalAbiGuard * result unit CanonicalAbiViolation :=
  if negb (canonical_enabled g) then (g, Ok tt)
  else
    let byte_len := len s in
    if decide (max_len < byte_len) then (g, Err (BufferOverflow byte_len max_len))
    else (record_compliant_transfer g, Ok tt).

(** ** [StoreState] *)

(** wasmtime's table of resource handles: [push] gives a handle that is not live,
    or fails when the table is full, and [delete] fails on a handle that is not. *)
Class ResourceApi := {
  ResourceTable : Type;
  table_new : ResourceTable;
  live : ResourceTable -> gset Z;
  table_push : ResourceTable -> option (ResourceTable * Z);
  table_delete : Z -> ResourceTable -> option ResourceTable;
  live_new : live table_new = ∅;
  push_fresh : forall t t' r, table_push t = Some (t', r) -> (r ∉ live t) /\ live t' = ({[r]} ∪ live t);
  delete_live : forall r t t', table_delete r t = Some t' -> (r ∈ live t) /\ live t' = (live t ∖ {[r]}) }.

(** A row of [execution_records]. *)
Record RecordRow := mkRow {
  storage_id : string;
  row_tenant : string;
  record_key : string;
  payload : string;
  sensitivity : string;
  created_at : string }.

Record DataPayload := mkPayload { key : string; value : string; level : Sensitivity }.

(** [sensitivity_to_str]: underscores here, hyphens in masking.rs. *)
Definition sensitivity_to_str (level : Sensitivity) : string :=
  match level with
  | Public => "public" | Internal => "internal"
  | PiiMasked => "pii_masked" | PiiEncrypted => "pii_encrypted"
  end.

Section store.
Context `{ResourceApi}.

(** The part of [StoreState] the host functions use; [server_state] is the masking
    engine, the database is shared by all stores and passed to the calls that write. *)
Record StoreState := mkStore {
  engine : MaskingEngine;
  table : ResourceTable;
  attacker_contexts : list Z;
  abi_guard : AbiGuard;
  memory_capability : option CheriCapability;
  canonical_abi_guard : CanonicalAbiGuard;
  tenant_id : string;
  shared_buffers : gmap Z string }.

Definition set_table (t : ResourceTable) (s : StoreState) : StoreState :=
  mkStore (engine s) t (attacker_contexts s) (abi_guard s) (memory_capability s)
    (canonical_abi_guard s) (tenant_id s) (shared_buffers s).
Definition set_canonical (g : CanonicalAbiGuard) (s : StoreState) : StoreState :=
  mkStore (engine s) (table s) (attacker_contexts s) (abi_guard s) (memory_capability s)
    g (tenant_id s) (shared_buffers s).
Definition set_buffers (m : gmap Z string) (s : StoreState) : StoreState :=
  mkStore (engine s) (table s) (attacker_contexts s) (abi_guard s) (memory_capability s)
    (canonical_abi_guard s) (tenant_id s) m.
Definition set_capability (g : AbiGuard) (c : CheriCapability) (s : StoreState) : StoreState :=
  mkStore (engine s) (table s) (attacker_contexts s) g (Some c)
    (canonical_abi_guard s) (tenant_id s) (shared_buffers s).
Definition compliant (s : StoreState) : StoreState :=
  set_canonical (record_compliant_transfer (canonical_abi_guard s)) s.

(** [Drop]: handles that are gone already are only logged. *)
Fixpoint delete_all (l : list Z) (t : ResourceTable) : ResourceTable :=
  match l with [] => t | r :: l => delete_all l (default t (table_delete r t)) end.
Definition store_drop (s : StoreState) : StoreState :=
  mkStore (engine s) (delete_all (attacker_contexts s) (table s)) [] (abi_guard s)
    (memory_capability s) (canonical_abi_guard s) (tenant_id s) ∅.

Definition register_memory_capability (data_size : Z) (s : StoreState)
    : StoreState * result unit AbiViolation :=
  let cap := from_tlsf_pool data_size in
  match register_capability "guest_linear_memory" cap (abi_guard s) with
  | (g, Ok _) => (set_capability g cap s, Ok tt)
  | (g, Err e) => (s, Err e)
  end.
Definition check_memory_access (offset length : Z) (s : StoreState) : result unit AbiViolation :=
  match memory_capability s with
  | Some cap => check_bounds offset length cap
  | None => Ok tt
  end.

(** A full table and an oversized buffer are the errors. *)
Definition create_shared_buffer (data : string) (s : StoreState) : StoreState * option Z :=
  if decide (SHARED_BUFFER_MAX_LEN < len data) then (s, None)
  else
    match table_push (table s) with
    | None => (s, None)
    | Some (t, rep) =>
        (compliant (set_buffers (<[rep := data]> (shared_buffers s)) (set_table t s)), Some rep)
    end.

(** *** [HostSharedBuffer] *)

(** [&data[start..end]]. *)
Definition slice_bytes (data : string) (start end_ : Z) : string :=
  take_bytes (Z.to_nat (end_ - start)) (drop_bytes (Z.to_nat start) data).

Definition buffer_read (rep offset length : Z) (s : StoreState) : StoreState * (string * Z) :=
  let read_len := Z.min length SHARED_BUFFER_READ_CHUNK in
  match shared_buffers s !! rep with
  | Some data =>
      let total := len data in
      if decide (total <= offset) then (compliant s, ("", total))
      else
        let capacity := len data in
        match ensure_in_bounds offset read_len capacity with
        | Err _ => (s, ("", total))
        | Ok _ =>
            let start := offset in
            let end_ := Z.min (start + read_len) (len data) in
            (compliant s, (slice_bytes data start end_, total))
        end
  | None => (s, ("", 0))
  end.

Definition buffer_len (rep : Z) (s : StoreState) : Z :=
  match shared_buffers s !! rep with Some data => len data | None => 0 end.

Definition buffer_drop (rep : Z) (s : StoreState) : StoreState * bool :=
  let s := set_buffers (delete rep (shared_buffers s)) s in
  match table_delete rep (table s) with
  | Some t => (set_table t s, true)
  | None => (s, false)
  end.

(** *** [Host]: persistence

    The storage id, the time and SQLite's answer to the INSERT are arguments; the
    database is the list of its rows. *)
Definition insert_record (db : list RecordRow) (tenant_id key transformed_data sensitivity : string)
    (storage_id created_at : string) (db_error : option string)
    : list RecordRow * (bool * string * string) :=
  match db_error with
  | None =>
      ((db ++ [mkRow storage_id tenant_id key transformed_data sensitivity created_at])%list,
       (true, storage_id, created_at))
  | Some e => (db, (false, "", "Persistence failed: " ++ e))
  end.

(** The arguments of one INSERT and of one encryption. *)
Record Insertion := mkInsertion {
  i_storage_id : string; i_created_at : string; i_error : option string; i_nonce : string }.

Definition canonical_violation (e : CanonicalAbiViolation) : bool * string * string :=
  (false, "", "Canonical ABI violation: " ++ CanonicalAbiViolation_display e).
Definition transformation_failed (e : MaskingError) : bool * string * string :=
  (false, "", "Data transformation failed: " ++ MaskingError_display e).

Section persistence.
Context `{Crypto}.

Definition persist (p : DataPayload) (i : Insertion) (db : list RecordRow) (s : StoreState)
    : StoreState * (list RecordRow * (bool * string * string)) :=
  let '(g, r) := validate_string_transfer (key p) 4096 (canonical_abi_guard s) in
  let s := set_canonical g s in
  match r with
  | Err e => (s, (db, canonical_violation e))
  | Ok _ =>
      let '(g, r) := validate_string_transfer (value p) (1024 * 1024) (canonical_abi_guard s) in
      let s := set_canonical g s in
      match r with
      | Err e => (s, (db, canonical_violation e))
      | Ok _ =>
          match transform_data (engine s) (i_nonce i) (value p) (level p) with
          | Err e => (s, (db, transformation_failed e))
          | Ok transformed_data =>
              (s, insert_record db (tenant_id s) (key p) transformed_data
                    (sensitivity_to_str (level p)) (i_storage_id i) (i_created_at i) (i_error i))
          end
      end
  end.

Definition persist_buffer (key : string) (buffer : Z) (level : Sensitivity) (i : Insertion)
    (db : list RecordRow) (s : StoreState)
    : StoreState * (list RecordRow * (bool * string * string)) :=
  let '(g, r) := validate_string_transfer key 4096 (canonical_abi_guard s) in
  let s := set_canonical g s in
  match r with
  | Err e => (s, (db, canonical_violation e))
  | Ok _ =>
      match shared_buffers s !! buffer with
      | None => (s, (db, (false, "", "SharedBuffer resource not found")))
      | Some buf_data =>
          if decide (SHARED_BUFFER_MAX_LEN < len buf_data) then
            (s, (db, (false, "", "SharedBuffer payload exceeds maximum: " ++ pretty (len buf_data) ++
                                 " bytes")))
          else
            match transform_bytes (engine s) (i_nonce i) buf_data level with
            | Err e => (s, (db, transformation_failed e))
            | Ok transformed_data =>
                (s, insert_record db (tenant_id s) key transformed_data
                      (sensitivity_to_str level) (i_storage_id i) (i_created_at i) (i_error i))
            end
      end
  end.

Definition retrieve (key : string) (requester_clearance : Sensitivity) (s : StoreState)
    : StoreState * (option DataPayload * bool) :=
  let '(g, r) := validate_string_transfer key 4096 (canonical_abi_guard s) in
  let s := set_canonical g s in
  match r with
  | Err _ => (s, (None, false))
  | Ok _ =>
      let is_authorized := bool_decide (requester_clearance <> Public) in
      (s, (if is_authorized
           then Some (mkPayload key "simulated_retrieved_value_from_host" requester_clearance)
           else None, is_authorized))
  end.

(** [delete] of the interface. *)
Definition delete_record (key : string) (requester_clearance : Sensitivity) (s : StoreState)
    : StoreState * (bool * bool) :=
  let '(g, r) := validate_string_transfer key 4096 (canonical_abi_guard s) in
  let s := set_canonical g s in
  match r with
  | Err _ => (s, (false, false))
  | Ok _ =>
      let is_authorized := bool_decide (requester_clearance <> Public) in
      (s, (is_authorized, is_authorized))
  end.

Definition audit (key : string) (auditor_clearance : Sensitivity) (s : StoreState)
    : StoreState * (list string * bool) :=
  let '(g, r) := validate_string_transfer key 4096 (canonical_abi_guard s) in
  let s := set_canonical g s in
  match r with
  | Err _ => (s, ([], false))
  | Ok _ =>
      let is_authorized :=
        bool_decide (auditor_clearance = Internal \/ auditor_clearance = PiiEncrypted) in
      (s, (if is_authorized
           then ["2026-03-29T10:00:00Z - DATA_CREATED";
                 "2026-03-29T11:30:00Z - DATA_ACCESSED by user:auditor"]
           else [], is_authorized))
  end.
End persistence.
End store.

(** ** The engine *)

Record SecureRuntimeConfig := mkRuntime {
  max_fuel : Z;
  epoch_interruption : bool;
  epoch_deadline : Z;
  execution_timeout_secs : Z;
  max_memory_size : Z;
  initial_memory_pages : Z;
  max_memory_pages : Z;
  pool_size : Z }.
Definition runtime_default : SecureRuntimeConfig :=
  let initial_memory_pages := 512 in
  let max_memory_pages := 4096 in
  mkRuntime SIS_FUEL_QUOTA true 100 30 (max_memory_pages * 64 * 1024)
    initial_memory_pages max_memory_pages 500.

Definition WASM_PAGE_SIZE_BYTES : Z := 64 * 1024.

(** The settings [SecureWasmEngine::new] gives to wasmtime; page counts are [u32],
    so the products fit 64 bits. *)
Record EngineConfig := mkEngineConfig {
  component_model : bool; async_support : bool; consume_fuel : bool; backtrace : bool;
  memory64 : bool; tail_call : bool;
  static_memory_guard_size : Z; dynamic_memory_reserved_for_growth : Z;
  dynamic_memory_guard_size : Z;
  engine_epoch_interruption : bool;
  total_component_instances : Z; max_core_instances_per_component : Z;
  total_memories : Z; max_memories_per_component : Z; pooling_max_memory_size : Z }.
Definition engine_config (config : SecureRuntimeConfig) : EngineConfig :=
  let max_memory_bytes := max_memory_pages config * WASM_PAGE_SIZE_BYTES in
  mkEngineConfig true true true true false true
    (4 * 1024 * 1024) (4 * 1024 * 1024) (4 * 1024 * 1024) true
    (pool_size config) 5 (pool_size config) 5 max_memory_bytes.

(** [EpochTicker]: one increment per interval, in milliseconds. *)
Definition EPOCH_INTERVAL_MS : Z := 100.

Definition MAX_INSTANCE_MEMORY_BYTES : Z := 256 * 1024 * 1024.
Record MemoryResourceLimiter := mkLimiter { max_memory_bytes : Z }.
Definition default_256mb : MemoryResourceLimiter := mkLimiter MAX_INSTANCE_MEMORY_BYTES.
Definition memory_growing (l : MemoryResourceLimiter) (_current desired : Z) : bool :=
  if decide (max_memory_bytes l < desired) then false else true.
Definition table_growing (_current _desired : Z) : bool := true.

(** ** Properties *)

Section host_calls.
Context `{ResourceApi, Crypto}.

(** The calls a guest makes through the two interfaces, and the host's creation of a
    buffer. *)
Inductive HostCall : Type :=
  | CCreate (data : string)
  | CRead (rep offset length : Z)
  | CDrop (rep : Z)
  | CPersist (p : DataPayload) (i : Insertion)
  | CPersistBuffer (key : string) (rep : Z) (level : Sensitivity) (i : Insertion)
  | CRetrieve (key : string) (c : Sensitivity)
  | CDelete (key : string) (c : Sensitivity)
  | CAudit (key : string) (c : Sensitivity).
Definition host_call (c : HostCall) (w : list RecordRow * StoreState)
    : list RecordRow * StoreState :=
  let '(db, s) := w in
  match c with
  | CCreate data => (db, fst (create_shared_buffer data s))
  | CRead rep offset length => (db, fst (buffer_read rep offset length s))
  | CDrop rep => (db, fst (buffer_drop rep s))
  | CPersist p i => let '(s, (db, _)) := persist p i db s in (db, s)
  | CPersistBuffer key rep level i => let '(s, (db, _)) := persist_buffer key rep level i db s in (db, s)
  | CRetrieve key c => (db, fst (retrieve key c s))
  | CDelete key c => (db, fst (delete_record key c s))
  | CAudit key c => (db, fst (audit key c s))
  end.
Fixpoint host_calls (l : list HostCall) (w : list RecordRow * StoreState) :=
  match l with [] => w | c :: l => host_calls l (host_call c w) end.

(** What a call leaves alone: only the transfer counter moves, and the buffers and
    handles for the three buffer operations. *)
Definition same_but_count (s s' : StoreState) : Prop :=
  exists g, s' = set_canonical g s /\ violation_count g = violation_count (canonical_abi_guard s) /\
    canonical_enabled g = canonical_enabled (canonical_abi_guard s).

Lemma same_refl s : same_but_count s s.
Proof. exists (canonical_abi_guard s). by destruct s. Qed.

Lemma same_trans s1 s2 s3 : same_but_count s1 s2 -> same_but_count s2 s3 -> same_but_count s1 s3.
Proof. intros (g & -> & ? & ?) (g' & -> & ? & ?). exists g'. simpl in *. split_and!; [done|congruence..]. Qed.

Lemma same_compliant s : same_but_count s (compliant s).
Proof.
  eexists. split; [done|]. unfold record_compliant_transfer.
  destruct (canonical_abi_guard s) as [n m []]; done.
Qed.

Lemma validate_string_same t n s g r :
  validate_string_transfer t n (canonical_abi_guard s) = (g, r) -> same_but_count s (set_canonical g s).
Proof.
  unfold validate_string_transfer, record_compliant_transfer. intros Hv. exists g. split; [done|].
  destruct (canonical_abi_guard s) as [a b []]; simpl in *; by cases.
Qed.

Lemma validate_string_Ok t n g g' :
  validate_string_transfer t n g = (g', Ok tt) -> canonical_enabled g = true -> len t <= n.
Proof. unfold validate_string_transfer. intros Hv Hen. rewrite Hen in Hv. simpl in Hv. cases; lia. Qed.

(** What a persisting call may have done. *)
Definition stored (key : string) (transformed : result string MaskingError) (level : Sensitivity)
    (i : Insertion) (db : list RecordRow) (s : StoreState)
    (w : StoreState * (list RecordRow * (bool * string * string))) : Prop :=
  let '(s', (db', (ok, _, _))) := w in
  same_but_count s s' /\
  if ok then exists t, transformed = Ok t /\ i_error i = None /\
    db' = (db ++ [mkRow (i_storage_id i) (tenant_id s) key t (sensitivity_to_str level)
                    (i_created_at i)])%list
  else db' = db.

Lemma insert_stored key t level i db s s' :
  same_but_count s s' ->
  stored key (Ok t) level i db s
    (s', insert_record db (tenant_id s) key t (sensitivity_to_str level)
           (i_storage_id i) (i_created_at i) (i_error i)).
Proof.
  intros Hs. unfold insert_record, stored. destruct (i_error i) eqn:E; (split; [done|]); [done|]. by exists t.
Qed.

Lemma persist_stored p i db s :
  stored (key p) (transform_data (engine s) (i_nonce i) (value p) (level p)) (level p) i db s
    (persist p i db s).
Proof.
  unfold persist. destruct (validate_string_transfer (key p) _ _) as [g [u|e]] eqn:H1; simpl.
  2: split; [by eapply validate_string_same|done].
  pose proof (validate_string_same _ _ _ _ _ H1) as Hs1.
  destruct (validate_string_transfer (value p) _ _) as [g2 [u2|e2]] eqn:H2; simpl.
  - change g with (canonical_abi_guard (set_canonical g s)) in H2.
    pose proof (same_trans _ _ _ Hs1 (validate_string_same _ _ (set_canonical g s) _ _ H2)) as Hs.
    destruct (transform_data _ _ _ _) as [t|e] eqn:Ht; [by apply insert_stored|by split].
  - change g with (canonical_abi_guard (set_canonical g s)) in H2.
    split; [|done]. eapply same_trans; [done|by eapply validate_string_same].
Qed.

Lemma persist_buffer_stored key rep level i db s :
  match shared_buffers s !! rep with
  | Some data => stored key (transform_bytes (engine s) (i_nonce i) data level) level i db s
      (persist_buffer key rep level i db s)
  | None => exists s' id msg, same_but_count s s' /\
      persist_buffer key rep level i db s = (s', (db, (false, id, msg)))
  end.
Proof.
  unfold persist_buffer. destruct (validate_string_transfer key _ _) as [g [u|e]] eqn:H1; simpl.
  all: pose proof (validate_string_same _ _ _ _ _ H1) as Hs1.
  all: destruct (shared_buffers s !! rep) as [data|] eqn:Hb; [|by eexists _, _, _; split].
  - case_decide; [by split|].
    destruct (transform_bytes _ _ _ _) as [t|e] eqn:Ht; [by apply insert_stored|by split].
  - by split.
Qed.

Lemma persist_limits p i db s s' db' id msg :
  persist p i db s = (s', (db', (true, id, msg))) -> canonical_enabled (canonical_abi_guard s) = true ->
  len (key p) <= 4096 /\ len (value p) <= 1024 * 1024.
Proof.
  unfold persist. intros Hp Hen.
  destruct (validate_string_transfer (key p) _ _) as [g [[]|e]] eqn:H1; [|done].
  split; [by eapply validate_string_Ok|].
  pose proof (validate_string_same _ _ _ _ _ H1) as (g1 & Hg & _ & Hen'). simpl in Hp, Hg.
  destruct (validate_string_transfer (value p) _ _) as [g2 [[]|e2]] eqn:H2; [|done].
  eapply validate_string_Ok; [done|]. simpl. inversion Hg; subst. congruence.
Qed.

(** How a row holds a value: by its level. *)
Definition held (e : MaskingEngine) (nonce : string) (level : Sensitivity) (v t : string) : Prop :=
  match level with
  | Public | Internal => t = v
  | PiiMasked => t = hex_encode (sha256 v)
  | PiiEncrypted =>
      String.length nonce = 12%nat -> utf8_valid v = true -> decrypt_data e t = Ok v
  end.

Lemma transform_held e nonce level v t :
  transform_data e nonce v level = Ok t -> held e nonce level v t.
Proof.
  destruct level; unfold held, transform_data, hash_bytes; intros; simplify_eq; try done. by eapply decrypt_encrypted.
Qed.

(** C13: a guest's record is persisted under the tenant of its store and in the form of
    its level: a call that reports success has appended exactly one row with the
    store's tenant, the given key and the value in clear, hashed or encrypted (and then
    decryptable with the store's key) as the level says, and key and value were
    within 4096 bytes and 1 MiB; any other call leaves the database as it was. *)
Theorem persist_spec p i db s :
  let '(s', (db', (ok, _, _))) := persist p i db s in
  tenant_id s' = tenant_id s /\ shared_buffers s' = shared_buffers s /\
  if ok then
    (exists t, db' = (db ++ [mkRow (i_storage_id i) (tenant_id s) (key p) t
                              (sensitivity_to_str (level p)) (i_created_at i)])%list /\
       held (engine s) (i_nonce i) (level p) (value p) t) /\
    (canonical_enabled (canonical_abi_guard s) = true ->
     len (key p) <= 4096 /\ len (value p) <= 1024 * 1024)
  else db' = db.
Proof.
  pose proof (persist_stored p i db s) as Hst. pose proof (persist_limits p i db s) as Hlim.
  destruct (persist p i db s) as [s' [db' [[[] id] msg]]]; destruct Hst as [(g & -> & _) Hdb].
  - destruct Hdb as (t & Ht & _ & ->). split_and!; [done..| |by eapply Hlim].
    exists t. split; [done|by apply transform_held].
  - done.
Qed.

(** A guest reads of a shared buffer exactly the bytes it asks for, never past the
    end; but a request that reaches past the end is refused as a whole: with the
    chunk of 64 KiB the code reads in, nothing can be read from the last chunk of a
    buffer unless the guest asks for no more than what is left. *)
Theorem shared_buffer_read_spec rep offset length s data :
  shared_buffers s !! rep = Some data -> len data <= SHARED_BUFFER_MAX_LEN ->
  0 <= offset -> 0 <= length ->
  let read_len := Z.min length SHARED_BUFFER_READ_CHUNK in
  let '(s', (bytes, total)) := buffer_read rep offset length s in
  same_but_count s s' /\ total = len data /\
  (offset + read_len <= total -> offset < total ->
    len bytes = read_len /\
    exists before after, data = before ++ bytes ++ after /\ len before = offset) /\
  (total < offset + read_len -> bytes = "").
Proof.
  intros Hb Hmax Ho Hl read_len. unfold buffer_read, ensure_in_bounds, saturating_add, SHARED_BUFFER_MAX_LEN in *.
  rewrite Hb. fold read_len. unfold SHARED_BUFFER_READ_CHUNK in read_len.
  case_decide as Hend; [|case_decide as Hover].
  - split_and!; [apply same_compliant|done|lia|done].
  - split_and!; [apply same_refl|done|ulia|done].
  - assert (offset + read_len <= len data) by ulia.
    split_and!; [apply same_compliant|done| |lia]. intros _ _.
    rewrite Z.min_l by lia. unfold slice_bytes. replace (offset + read_len - offset) with read_len by lia.
    unfold len in *. split; [rewrite length_take_bytes; rewrite ?length_drop_bytes; lia|].
    exists (take_bytes (Z.to_nat offset) data),
      (drop_bytes (Z.to_nat read_len) (drop_bytes (Z.to_nat offset) data)).
    rewrite !take_drop_bytes. split; [done|]. rewrite length_take_bytes; lia.
Qed.

(** A guest that reads a buffer to the end: each request starts where the last answer
    ended, until an answer is empty. *)
Fixpoint read_all (fuel : nat) (rep length offset : Z) (s : StoreState) : option string :=
  match fuel with
  | O => None
  | S fuel =>
      let '(s, (bytes, _)) := buffer_read rep offset length s in
      if is_empty bytes then Some ""
      else append bytes <$> read_all fuel rep length (offset + len bytes) s
  end.

Lemma buffer_read_chunk rep offset length s data :
  shared_buffers s !! rep = Some data -> len data <= SHARED_BUFFER_MAX_LEN ->
  0 <= offset <= len data -> 0 < length ->
  let read_len := Z.min length SHARED_BUFFER_READ_CHUNK in
  exists s', shared_buffers s' = shared_buffers s /\
    buffer_read rep offset length s =
      (s', (if decide (offset + read_len <= len data) then slice_bytes data offset (offset + read_len) else "",
            len data)).
Proof.
  intros Hb Hmax Ho Hl read_len. unfold buffer_read, ensure_in_bounds, saturating_add, SHARED_BUFFER_MAX_LEN in *.
  rewrite Hb. fold read_len. unfold SHARED_BUFFER_READ_CHUNK in read_len.
  case_decide as Hend; [|case_decide as Hover].
  - rewrite decide_False by lia. by eexists; split; [|reflexivity].
  - rewrite decide_False by ulia. by eexists; split; [|reflexivity].
  - rewrite decide_True by ulia. rewrite Z.min_l by ulia. by eexists; split; [|reflexivity].
Qed.

(** Reading a buffer to the end terminates but does not deliver all of it: a guest
    that asks for [length] bytes at a time receives the full chunks of
    [min length 65536] bytes and never the rest of the buffer. *)
Theorem read_all_loses_tail rep length s data fuel :
  shared_buffers s !! rep = Some data -> len data <= SHARED_BUFFER_MAX_LEN -> 0 < length ->
  (String.length data < fuel)%nat ->
  let chunk := Z.min length SHARED_BUFFER_READ_CHUNK in
  read_all fuel rep length 0 s = Some (take_bytes (Z.to_nat (len data / chunk * chunk)) data).
Proof.
  intros Hb Hmax Hl Hfuel chunk. assert (Hchunk : 0 < chunk) by (unfold chunk, SHARED_BUFFER_READ_CHUNK; lia).
  pose proof (Z.div_mod (len data) chunk) as Hdiv. pose proof (Z.mod_pos_bound (len data) chunk Hchunk) as Hmod.
  assert (forall k, 0 <= k -> k * chunk <= len data -> len data - k * chunk < Z.of_nat fuel ->
    read_all fuel rep length (k * chunk) s =
      Some (take_bytes (Z.to_nat ((len data / chunk - k) * chunk)) (drop_bytes (Z.to_nat (k * chunk)) data))) as Hg.
  2: { specialize (Hg 0). rewrite !Z.sub_0_r, Z.mul_0_l in Hg. apply Hg; unfold len; lia. }
  clear Hfuel. revert s Hb. induction fuel as [|fuel IH]; intros s Hb k Hk Hin Hf; [lia|].
  destruct (buffer_read_chunk rep (k * chunk) length s data) as (s' & Hs' & Hr); [done|done|lia|done|].
  fold chunk in Hr. cbn [read_all]. rewrite Hr. case_decide as Hfit.
  - assert (Hk1 : k + 1 <= len data / chunk) by (apply Z.div_le_lower_bound; lia).
    unfold slice_bytes. replace (k * chunk + chunk - k * chunk) with chunk by lia.
    set (bytes := take_bytes _ _).
    assert (Hlen : len bytes = chunk).
    { unfold bytes, len in *. rewrite length_take_bytes; [lia|]. rewrite length_drop_bytes. lia. }
    unfold is_empty. rewrite bool_decide_false by (intros E; rewrite E in Hlen; unfold len in Hlen; simpl in Hlen; lia).
    rewrite Hlen. replace (k * chunk + chunk) with ((k + 1) * chunk) by lia.
    rewrite IH; [|by rewrite Hs'|lia..]. simpl. f_equal.
    replace (Z.to_nat ((len data / chunk - k) * chunk))
      with (Z.to_nat chunk + Z.to_nat ((len data / chunk - (k + 1)) * chunk))%nat by nia.
    rewrite take_bytes_add. fold bytes. f_equal. rewrite <- drop_bytes_add. do 2 f_equal. lia.
  - assert (len data / chunk = k) as -> by nia. rewrite Z.sub_diag. reflexivity.
Qed.

(** All calls but those that change the table of buffers only count. *)
Lemma host_call_same c db s :
  same_but_count s (host_call c (db, s)).2 \/ (exists data, c = CCreate data) \/ (exists rep, c = CDrop rep).
Proof.
  destruct c; simpl; [right; eauto..| | |right; eauto| | | | |]; try (right; by eauto); left.
  - unfold buffer_read. cases; first [apply same_compliant|apply same_refl].
  - pose proof (persist_stored p i db s) as Hst. destruct (persist p i db s) as [s' [db' [[ok id] msg]]].
    apply Hst.
  - pose proof (persist_buffer_stored key0 rep level0 i db s) as Hst.
    destruct (shared_buffers s !! rep); [|by destruct Hst as (s' & id & msg & Hs & ->)].
    destruct (persist_buffer _ _ _ _ _ _) as [s' [db' [[ok id] msg]]]. apply Hst.
  - unfold retrieve. destruct (validate_string_transfer _ _ _) as [g []] eqn:E; by eapply validate_string_same.
  - unfold delete_record. destruct (validate_string_transfer _ _ _) as [g []] eqn:E; by eapply validate_string_same.
  - unfold audit. destruct (validate_string_transfer _ _ _) as [g []] eqn:E; by eapply validate_string_same.
Qed.

Lemma compliant_violations s :
  violation_count (canonical_abi_guard (compliant s)) = violation_count (canonical_abi_guard s).
Proof. by destruct (same_compliant s) as (g & -> & ? & _). Qed.

Lemma host_call_violations c db s :
  violation_count (canonical_abi_guard (host_call c (db, s)).2) = violation_count (canonical_abi_guard s).
Proof.
  destruct (host_call_same c db s) as [(g & -> & ? & _)|[[data ->]|[rep ->]]]; cbn [host_call fst snd]; [done| |].
  - unfold create_shared_buffer. repeat case_match; cbn [fst]; by rewrite ?compliant_violations.
  - unfold buffer_drop. by cases.
Qed.

(** The guard's violation counter never moves: refused transfers are returned as
    errors without [record_violation], which nothing calls. *)
Lemma violations_never_counted l db s :
  violation_count (canonical_abi_guard (host_calls l (db, s)).2) = violation_count (canonical_abi_guard s).
Proof.
  revert db s. induction l as [|c l IH]; intros db s; [done|]. cbn [host_calls].
  rewrite <- (host_call_violations c db s). destruct (host_call c (db, s)) as [db' s']. apply IH.
Qed.

Lemma host_call_buffer c db s rep data :
  c <> CDrop rep -> rep ∈ live (table s) -> shared_buffers s !! rep = Some data ->
  rep ∈ live (table (host_call c (db, s)).2) /\ shared_buffers (host_call c (db, s)).2 !! rep = Some data.
Proof.
  intros Hc Hlive Hb.
  destruct (host_call_same c db s) as [(g & -> & _)|[[data' ->]|[rep' ->]]]; simpl; [done| |].
  - unfold create_shared_buffer. cases; [done| |done].
    match goal with Hp : table_push _ = _ |- _ => apply push_fresh in Hp as [Hnew Hl] end.
    simpl. rewrite Hl. split; [set_solver|]. rewrite lookup_insert_ne; [done|]. by intros ->.
  - unfold buffer_drop.
    assert (Hne : rep' <> rep) by congruence. cases; simpl; rewrite lookup_delete_ne by done; [|done].
    match goal with Hd : table_delete _ _ = _ |- _ => apply delete_live in Hd as [_ ->] end. set_solver.
Qed.

(** C14: a shared buffer belongs to its handle: whatever calls follow its creation, as
    long as they do not drop that handle, the handle's length is that of the data it
    was created with and its contents are those data, at most 16 MiB; no other buffer's
    creation, reading or dropping reaches it. *)
Theorem buffer_isolated data s s1 rep l db :
  create_shared_buffer data s = (s1, Some rep) ->
  Forall (fun c => c <> CDrop rep) l ->
  let s2 := (host_calls l (db, s1)).2 in
  shared_buffers s2 !! rep = Some data /\ buffer_len rep s2 = len data /\
  len data <= SHARED_BUFFER_MAX_LEN.
Proof.
  unfold create_shared_buffer. intros Hc Hl. cases.
  match goal with Hp : table_push _ = _ |- _ => apply push_fresh in Hp as [_ Hlive] end.
  match goal with |- context [host_calls l (db, ?s0)] => set (s1 := s0) end.
  assert (Hs1 : rep ∈ live (table s1) /\ shared_buffers s1 !! rep = Some data).
  { simpl. rewrite Hlive, lookup_insert_eq. split; [set_solver|done]. }
  clearbody s1. clear Hlive. unfold buffer_len.
  assert (shared_buffers (host_calls l (db, s1)).2 !! rep = Some data) as ->; [|split_and!; [done..|lia]].
  revert db s1 Hs1. induction Hl as [|c l Hne Hl IH]; intros db s1 [Hlive Hb]; [done|].
  cbn [host_calls]. destruct (host_call c (db, s1)) as [db' s'] eqn:E.
  apply IH. replace s' with (host_call c (db, s1)).2 by by rewrite E. by apply host_call_buffer.
Qed.
End host_calls.

(** ** Concrete inputs *)

(** A table that numbers its handles. *)
Definition counting_table : ResourceApi.
Proof.
  refine {| ResourceTable := list Z; table_new := []; live := fun t => list_to_set t;
    table_push := fun t => Some (1 + foldr Z.max 0 t :: t, 1 + foldr Z.max 0 t);
    table_delete := fun r t =>
      if decide (r ∈ t) then Some (filter (fun x => x <> r) t) else None |}.
  - done.
  - intros t t' r Hp. simplify_eq. split; [|done].
    assert (forall x, x ∈ t -> x <= foldr Z.max 0 t) as Hmax.
    { induction t as [|y t IH]; intros x Hx; [by apply elem_of_nil in Hx|].
      simpl. apply elem_of_cons in Hx as [->|Hx]; [lia|]. specialize (IH x Hx). lia. }
    intros Hin%elem_of_list_to_set. specialize (Hmax _ Hin). lia.
  - intros r t t' Hd. case_decide; simplify_eq. split; [by apply elem_of_list_to_set|].
    apply set_eq. intros x. rewrite elem_of_difference, elem_of_singleton, !elem_of_list_to_set, list_elem_of_filter.
    tauto.
Defined.

Definition demo_store : @StoreState counting_table :=
  mkStore (H := counting_table) (mkEngine (Some "k")) [] [] (guard_new true true) None
    (canonical_new true) "tenant-a" ∅.
Definition demo_insertion : Insertion := mkInsertion "id-1" "now" None "abcdefghijkl".

(** Ten bytes in a buffer: the guest that asks for 4 at a time gets 8. *)
Lemma read_all_loses_tail_witness :
  exists s rep, @create_shared_buffer counting_table "0123456789" demo_store = (s, Some rep) /\
    @read_all counting_table 11 rep 4 0 s = Some "01234567".
Proof.
  eexists _, _. split; [reflexivity|].
  apply (@read_all_loses_tail counting_table 1 4 _ "0123456789" 11);
    [reflexivity|vm_compute; discriminate|lia|vm_compute; lia].
Defined.

Definition ten_bytes : @StoreState counting_table :=
  fst (@create_shared_buffer counting_table "0123456789" demo_store).

Lemma shared_buffer_read_spec_witness :
  exists s', @buffer_read counting_table 1 8 4 ten_bytes = (s', ("", 10)).
Proof.
  pose proof (@shared_buffer_read_spec counting_table 1 8 4 ten_bytes "0123456789" eq_refl
    ltac:(vm_compute; discriminate) ltac:(lia) ltac:(lia)) as Hr.
  destruct (@buffer_read counting_table 1 8 4 ten_bytes) as [s' [bytes total]].
  destruct Hr as (_ & -> & _ & Hr). exists s'. by rewrite Hr.
Defined.

Lemma buffer_isolated_witness :
  exists s rep, @create_shared_buffer counting_table "data" demo_store = (s, Some rep) /\
    @buffer_len counting_table rep
      (@host_calls counting_table toy_crypto [CCreate "other"; CRead 2 0 5; CDrop 2] ([], s)).2 = 4.
Proof.
  eexists _, _. split; [reflexivity|].
  apply (@buffer_isolated counting_table toy_crypto "data" demo_store _ 1); [reflexivity|].
  repeat constructor; discriminate.
Defined.

(** Epochs end a guest after 10 seconds, before the timeout of 30. *)
Example epoch_deadline_first :
  epoch_deadline runtime_default * EPOCH_INTERVAL_MS < execution_timeout_secs runtime_default * 1000.
Proof. reflexivity. Qed.
(** The engine's pool and the limiter agree on 256 MiB. *)
Example limits_agree :
  pooling_max_memory_size (engine_config runtime_default) = MAX_INSTANCE_MEMORY_BYTES /\
  max_memory_size runtime_default = MAX_INSTANCE_MEMORY_BYTES.
Proof. by split. Qed.
