(* ===== verification/ResourceMonitor.v ===== *)
(** * crates/core/src/security/capabilities.rs: request counting per address

    [ResourceMonitor] counts the requests of an address from the first one in a
    window on.  A clock read is the number of nanoseconds of a monotonic clock, an
    argument.  The counter is incremented by [+=], which panics on overflow. *)
From S2P Require Import Prelude EgressGuard.

Record RequestTracker := mkTracker { count : Z; first_request_at : Z }.

Record ResourceMonitor := mkResource {
  requests : gmap IpAddr RequestTracker;
  request_threshold : Z;
  time_window : Z }.

Definition resource_new (request_threshold time_window_seconds : Z) : ResourceMonitor :=
  mkResource ∅ request_threshold (time_window_seconds * 10 ^ 9).
Definition resource_default : ResourceMonitor := resource_new 100 60.

Definition in_window (now : Z) (m : ResourceMonitor) (t : RequestTracker) : Prop :=
  elapsed_since (first_request_at t) now < time_window m.
#[export] Instance in_window_dec now m t : Decision (in_window now m t).
Proof. unfold in_window. apply _. Defined.

(** [retain]. *)
Definition retained (now : Z) (m : ResourceMonitor) : gmap IpAddr RequestTracker :=
  filter (fun e : IpAddr * RequestTracker => in_window now m e.2) (requests m).

Definition check_and_record_request (now : Z) (ip : IpAddr) (m : ResourceMonitor)
    : outcome (ResourceMonitor * bool) :=
  let requests := retained now m in
  let tracker := default (mkTracker 0 now) (requests !! ip) in
  count ← add_u U64_MAX (count tracker) 1;
  let tracker := mkTracker count (first_request_at tracker) in
  let m := mkResource (<[ip := tracker]> requests) (request_threshold m) (time_window m) in
  Ret (m, bool_decide (request_threshold m < count /\ in_window now m tracker)).

(** ** Properties *)

(** A run of requests (time, address), with the answers. *)
Fixpoint record_all (l : list (Z * IpAddr)) (m : ResourceMonitor)
    : outcome (ResourceMonitor * list bool) :=
  match l with
  | [] => Ret (m, [])
  | (now, ip) :: l =>
      '(m, b) ← check_and_record_request now ip m;
      '(m, bs) ← record_all l m;
      Ret (m, b :: bs)
  end.

(** The reference: each address has a current window, opened by its first request
    outside the one before, and the number of its requests in it. *)
Fixpoint windows (width : Z) (ip : IpAddr) (l : list (Z * IpAddr)) (cur : option (Z * Z))
    : option (Z * Z) :=
  match l with
  | [] => cur
  | (now, ip') :: l =>
      windows width ip l
        (if decide (ip' = ip) then
           match cur with
           | Some (start, n) => if decide (now - start < width) then Some (start, n + 1) else Some (now, 1)
           | None => Some (now, 1)
           end
         else cur)
  end.

(** The tracker of an address agrees with its window, unless the window is over. *)
Definition agrees (now : Z) (m : ResourceMonitor) (ip : IpAddr) (cur : option (Z * Z)) : Prop :=
  match cur with
  | Some (start, n) => start <= now /\ 1 <= n /\
      (requests m !! ip = Some (mkTracker n start) \/
       requests m !! ip = None /\ time_window m <= now - start)
  | None => requests m !! ip = None
  end.

Lemma retained_lookup now m ip :
  retained now m !! ip =
    match requests m !! ip with
    | Some t => if decide (in_window now m t) then Some t else None
    | None => None
    end.
Proof.
  unfold retained. destruct (requests m !! ip) as [t|] eqn:E.
  - case_decide; [by apply map_lookup_filter_Some|]. apply map_lookup_filter_None. right. naive_solver.
  - apply map_lookup_filter_None. by left.
Qed.

(** The tracker a request finds: the one in its window, or a new one. *)
Definition found (now : Z) (ip : IpAddr) (m : ResourceMonitor) : RequestTracker :=
  match requests m !! ip with
  | Some t => if decide (in_window now m t) then t else mkTracker 0 now
  | None => mkTracker 0 now
  end.

Lemma found_default now ip m :
  default (mkTracker 0 now)
    match requests m !! ip with
    | Some t => if decide (in_window now m t) then Some t else None
    | None => None
    end = found now ip m.
Proof. unfold found. destruct (requests m !! ip); [by case_decide|done]. Qed.

Lemma record_total now ip m :
  count (found now ip m) + 1 <= U64_MAX -> exists m' b, check_and_record_request now ip m = Ret (m', b).
Proof.
  intros Hc. unfold check_and_record_request. rewrite retained_lookup, found_default.
  rewrite add_u_small by done. by eexists _, _.
Qed.

Lemma record_spec now ip m m' b :
  0 < time_window m -> check_and_record_request now ip m = Ret (m', b) ->
  let t := found now ip m in
  m' = mkResource (<[ip := mkTracker (count t + 1) (first_request_at t)]> (retained now m))
         (request_threshold m) (time_window m) /\
  b = bool_decide (request_threshold m < count t + 1).
Proof.
  intros Hw Hc t. unfold check_and_record_request in Hc. rewrite retained_lookup, found_default in Hc.
  fold t in Hc.
  unfold add_u in Hc. case_decide; [|done]. simplify_eq/=. split; [done|].
  apply bool_decide_ext. split; [by intros [??]|]. intros Hlt. split; [done|].
  unfold t, found, in_window, elapsed_since. simpl. cases; simpl; lia.
Qed.

Lemma record_agrees now now' ip ip' m m' b cur :
  now <= now' -> 0 < time_window m ->
  check_and_record_request now' ip' m = Ret (m', b) -> agrees now m ip cur ->
  agrees now' m' ip (windows (time_window m) ip [(now', ip')] cur) /\
  request_threshold m' = request_threshold m /\ time_window m' = time_window m /\
  (ip' = ip -> exists start n, windows (time_window m) ip [(now', ip')] cur = Some (start, n) /\
    b = bool_decide (request_threshold m < n)).
Proof.
  intros Hnow Hw Hc Hag. apply record_spec in Hc as [-> ->]; [|done]. simpl windows.
  unfold agrees, found, in_window, elapsed_since in *. cbn [requests request_threshold time_window].
  case_decide; [subst ip'; rewrite lookup_insert_eq|rewrite lookup_insert_ne, retained_lookup by done];
    (destruct cur as [[start n]|]; [destruct Hag as (Hs & Hn & [Hreq|[Hreq Hover]])|]; rewrite ?Hreq, ?Hag).
  all: cbn [first_request_at count]; repeat case_decide; split_and!.
  all: unfold in_window, elapsed_since in *; cbn [first_request_at count] in *.
  all: first [lia | done | by left | right; split; [done|lia]
             | intros _; eexists _, _; split; [reflexivity|apply bool_decide_ext; simpl; lia]].
Qed.

Lemma agrees_later now now' m ip cur : now <= now' -> agrees now m ip cur -> agrees now' m ip cur.
Proof. intros Hn. unfold agrees. destruct cur as [[]|]; [|done]. intuition lia. Qed.

Lemma windows_app width ip l l' cur :
  windows width ip (l ++ l') cur = windows width ip l' (windows width ip l cur).
Proof. revert cur. induction l as [|[now ip'] l IH]; intros cur; simpl; [done|]. apply IH. Qed.

(** The times of a run do not decrease. *)
Fixpoint ordered (now : Z) (l : list (Z * IpAddr)) : Prop :=
  match l with [] => True | (now', _) :: l => now <= now' /\ ordered now' l end.

Lemma record_all_agrees l now m curs k :
  0 < time_window m -> ordered now l -> (forall ip, agrees now m ip (curs ip)) ->
  (forall ip t, requests m !! ip = Some t -> count t <= k) -> 0 <= k ->
  k + Z.of_nat (length l) <= U64_MAX ->
  exists m' bs, record_all l m = Ret (m', bs) /\ length bs = length l /\
    forall i now' ip, l !! i = Some (now', ip) ->
      exists start n, windows (time_window m) ip (take (S i) l) (curs ip) = Some (start, n) /\
        bs !! i = Some (bool_decide (request_threshold m < n)).
Proof.
  intros Hw. revert now m curs k Hw. induction l as [|[now' ip'] l IH]; intros now m curs k Hw Ho Hag Hk Hk0 Hfit.
  { exists m, []. split_and!; [done..|]. intros i now'' ip Hi. by rewrite lookup_nil in Hi. }
  destruct Ho as [Hnow Ho]. simpl in Hfit. cbn [record_all].
  assert (Hfound : count (found now' ip' m) <= k).
  { unfold found. destruct (requests m !! ip') as [t|] eqn:E; [|simpl; lia].
    case_decide; [by eapply Hk|simpl; lia]. }
  destruct (record_total now' ip' m) as (m1 & b & Hc); [lia|].
  assert (Hstep : forall ip, agrees now' m1 ip (windows (time_window m) ip [(now', ip')] (curs ip)))
    by (intros ip; by eapply (record_agrees now)).
  destruct (record_agrees now now' ip' ip' m m1 b (curs ip')) as (_ & Ht & Hwin & Hans); [done..|].
  destruct (record_spec now' ip' m m1 b Hw Hc) as [Hm1 _].
  destruct (IH now' m1 (fun ip => windows (time_window m) ip [(now', ip')] (curs ip)) (k + 1))
    as (m' & bs & Hr & Hlen & Hbs); [lia|done|done| |lia|lia|].
  { intros ip t Hreq. rewrite Hm1 in Hreq. simpl in Hreq.
    destruct (decide (ip = ip')) as [->|Hne].
    - rewrite lookup_insert_eq in Hreq. simplify_eq. simpl. lia.
    - rewrite lookup_insert_ne, retained_lookup in Hreq by done.
      destruct (requests m !! ip) as [t'|] eqn:E; [|done]. case_decide; [|done]. simplify_eq.
      specialize (Hk _ _ E). lia. }
  rewrite Hc. simpl. rewrite Hr. simpl. exists m', (b :: bs). split_and!; [done|simpl; lia|].
  intros [|i] now'' ip Hi; simpl in Hi.
  - simplify_eq. destruct (Hans eq_refl) as (start & n & Hwn & ->). exists start, n. split; [exact Hwn|done].
  - destruct (Hbs i now'' ip Hi) as (start & n & Hwn & Hb). rewrite Hwin in Hwn. rewrite Ht in Hb.
    exists start, n. split; [|done]. by rewrite <- Hwn.
Qed.

(** Counting per address: in every run of requests whose times do not decrease,
    the monitor answers each request, and flags it exactly when it is past the
    threshold in the current window of its address, as the reference [windows]
    counts them from the requests of that address alone. *)
Theorem threat_iff threshold seconds start l :
  0 < seconds -> ordered start l -> Z.of_nat (length l) <= U64_MAX ->
  exists m bs, record_all l (resource_new threshold seconds) = Ret (m, bs) /\ length bs = length l /\
    forall i now ip, l !! i = Some (now, ip) ->
      exists opened n, windows (seconds * 10 ^ 9) ip (take (S i) l) None = Some (opened, n) /\
        bs !! i = Some (bool_decide (threshold < n)).
Proof.
  intros Hs Ho Hl.
  apply (record_all_agrees l start (resource_new threshold seconds) (fun _ => None) 0);
    [simpl; lia|done|done| |lia|lia].
  intros ip t Ht. simpl in Ht. by rewrite lookup_empty in Ht.
Qed.

(** The windows do not slide: around the end of one, 199 requests of one address
    within a nanosecond pass the default threshold of 100. *)
Definition burst (ip : IpAddr) : list (Z * IpAddr) :=
  (0, ip) :: repeat (60 * 10 ^ 9 - 1, ip) 99 ++ repeat (60 * 10 ^ 9, ip) 100.
Example burst_unflagged :
  match record_all (burst (V4 (mkV4 127 0 0 1))) resource_default with
  | Ret (_, bs) => Forall (fun b => b = false) bs /\ length bs = 200%nat
  | Panic => False
  end.
Proof.
  vm_compute. split; [by repeat constructor|done].
Qed.

Lemma threat_iff_witness :
  exists m bs, record_all (repeat (5, V4 (mkV4 127 0 0 1)) 3) (resource_new 2 60) = Ret (m, bs) /\
    length bs = 3%nat.
Proof.
  destruct (threat_iff 2 60 0 (repeat (5, V4 (mkV4 127 0 0 1)) 3)) as (m & bs & Hr & Hl & _);
    [lia|repeat split; lia|simpl; ulia|].
  exists m, bs. by split.
Defined.
