(* ===== verification/Oracle.v ===== *)
(** * crates/llm-router/src/lib.rs: the confidence arbitrator

    [ConsensusArbitrator] lets a payload through when the confidence it states
    reaches the threshold of its source.  serde_json is a parameter. *)
From Stdlib Require Import Ascii String.
From S2P Require Import Prelude F64 RustStr Json.

Local Open Scope string_scope.

Inductive ResponseSource : Type := FrontierCloud | PhysicalNodeD | Unknown.
#[export] Instance ResponseSource_eq_dec : EqDecision ResponseSource.
Proof. solve_decision. Defined.

Inductive OracleError : Type :=
  | ParseError (s : string)
  | LowConfidenceThreshold (score threshold : f64)
  | SchemaValidation (s : string)
  | CircuitTripped (node reason : string)
  | RateLimited (s : string)
  | AllNodesExhausted
  | CoordinatorError (s : string)
  | WriteDisciplineViolation (s : string).

Record OracleInferenceTask := mkTask {
  network_id : string;
  task_type : string;
  max_gas_limit : Z;
  confidence_score : f64;
  source_url : string }.

Definition threshold_of (source : ResponseSource) : f64 :=
  match source with
  | PhysicalNodeD => f64_lit 40 2
  | FrontierCloud | Unknown => f64_lit 80 2
  end.

(** [network_id] is a short name of letters, digits, dashes and underscores. *)
Definition valid_network_id (network_id : string) : bool :=
  negb (is_empty network_id || (64 <? len network_id)%Z ||
        negb (all_chars (fun c => is_ascii_alphanumeric c || Ascii.eqb c "-"%char || Ascii.eqb c "_"%char)
                network_id)).

(** [build_system_prompt], whose text stands around the schema. *)
Definition nl : string := newline.
Definition build_system_prompt (schema_json : string) : string :=
  "You are a deterministic adjudicator for Zero-Trust AI systems." ++ nl ++
  "Your output MUST strictly conform to the following JSON schema:" ++ nl ++ nl ++
  schema_json ++ nl ++ nl ++
  "Rules:" ++ nl ++
  "1. Output MUST be valid JSON matching the schema above" ++ nl ++
  "2. Include a confidence_score field with a value between 0.0 and 1.0" ++ nl ++
  "3. The confidence_score MUST reflect your certainty about the response" ++ nl ++
  "4. If you cannot determine with high confidence (>= 0.80), respond with confidence_score < 0.80"
  ++ nl ++ nl ++
  "CRITICAL: You must output ONLY a minified JSON object. Do not include markdown code blocks, formatting, or any conversational text. Output the raw JSON directly.".

Section oracle.
Context {Number : Type} (as_f64 : Number -> option f64)
        (from_str : string -> result (Value Number) string)
        (to_string : OracleInferenceTask -> result string string).

Definition simulate_llm_response (network_id : string) : result string OracleError :=
  if negb (valid_network_id network_id) then
    Err (SchemaValidation ("Invalid network_id '" ++ network_id ++
      "': must be non-empty alphanumeric with dashes/underscores, max 64 chars"))
  else
    let mock_response :=
      mkTask network_id "default" 300000 (f64_lit 95 2) "https://mock.chain" in
    match to_string mock_response with Ok s => Ok s | Err e => Err (ParseError e) end.

Definition confidence_field (value : Value Number) : option (Value Number) :=
  match value_get "confidenceScore" value with
  | Some v => Some v
  | None => value_get "confidence_score" value
  end.
(** [Value::as_f64]. *)
Definition value_as_f64 (v : Value Number) : option f64 :=
  match v with JNumber n => as_f64 n | _ => None end.

Definition arbitrate (json_payload : string) (source : ResponseSource) : result string OracleError :=
  let threshold := threshold_of source in
  match from_str json_payload with
  | Err e => Err (ParseError e)
  | Ok value =>
      match confidence_field value with
      | None => Err (ParseError "Missing confidenceScore field")
      | Some confidence =>
          match value_as_f64 confidence with
          | None => Err (ParseError "confidenceScore must be a number")
          | Some confidence_score =>
              if f64_lt confidence_score threshold
              then Err (LowConfidenceThreshold confidence_score threshold)
              else Ok json_payload
          end
      end
  end.

Definition mock_arbitration_pipeline (network_id : string) : result string OracleError :=
  mock_response <-? simulate_llm_response network_id ;;
  arbitrate mock_response FrontierCloud.

(** ** Properties *)

(** A payload passes exactly when it is JSON with a confidence, read from
    [confidenceScore] before [confidence_score], that is not below the threshold; what
    passes is the payload itself. *)
Lemma arbitrate_Ok payload source out :
  arbitrate payload source = Ok out <->
  out = payload /\ exists v c x, from_str payload = Ok v /\ confidence_field v = Some c /\
    value_as_f64 c = Some x /\ f64_lt x (threshold_of source) = false.
Proof.
  unfold arbitrate. destruct (from_str payload) as [v|]; [|naive_solver].
  destruct (confidence_field v) as [c|] eqn:Hc; [|naive_solver].
  destruct (value_as_f64 c) as [x|] eqn:Hx; [|naive_solver].
  destruct (f64_lt x _) eqn:Hlt; split.
  - done.
  - intros (_ & v' & c' & x' & ? & ? & ? & ?). simplify_eq. congruence.
  - intros. simplify_eq. split; [done|]. by exists v, c, x.
  - intros (-> & _). done.
Qed.

(** The mock adapter agrees with the arbitrator: for the network ids it accepts,
    and a serde_json whose output reads back as the object of the task's fields with
    the same score, the simulated answer passes the frontier threshold unchanged;
    every other id is refused by its format. *)
Theorem mock_pipeline_spec network_id :
  (forall t, confidence_score t = f64_lit 95 2 -> exists s n others, to_string t = Ok s /\ as_f64 n = Some (confidence_score t) /\
     from_str s = Ok (JObject (others ++ [("confidenceScore", JNumber n)])%list) /\
     ~ In "confidenceScore" (List.map fst others)) ->
  if valid_network_id network_id
  then exists s, simulate_llm_response network_id = Ok s /\
         mock_arbitration_pipeline network_id = Ok s
  else exists e, mock_arbitration_pipeline network_id = Err (SchemaValidation e).
Proof.
  intros Hser. unfold mock_arbitration_pipeline, simulate_llm_response.
  destruct (valid_network_id network_id); simpl; [|by eexists].
  destruct (Hser (mkTask network_id "default" 300000 (f64_lit 95 2) "https://mock.chain") eq_refl)
    as (s & n & others & -> & Hn & Hs & Hin).
  exists s. split; [done|]. simpl. apply arbitrate_Ok. split; [done|].
  exists (JObject (others ++ [("confidenceScore", JNumber n)])%list), (JNumber n), (f64_lit 95 2).
  split_and!; [done| |done|by vm_compute].
  enough (value_get "confidenceScore" (JObject (others ++ [("confidenceScore", JNumber n)])%list) =
    Some (JNumber n)) as He by by unfold confidence_field; rewrite He.
  unfold value_get. clear -Hin. induction others as [|[k v] others IH]; [done|]. simpl in *.
  destruct (String.eqb_spec k "confidenceScore"); [naive_solver|]. apply IH. naive_solver.
Qed.
End oracle.

(** ** Concrete inputs *)

Lemma mock_pipeline_spec_witness :
  exists s, simulate_llm_response (fun t => Ok (network_id t)) "eth-mainnet" = Ok s /\
    mock_arbitration_pipeline (Number := f64) Some
      (fun s => Ok (JObject [("confidenceScore", JNumber (f64_lit 95 2))]))
      (fun t => Ok (network_id t)) "eth-mainnet" = Ok s.
Proof.
  apply (mock_pipeline_spec Some (fun s => Ok (JObject [("confidenceScore", JNumber (f64_lit 95 2))]))
           (fun t => Ok (network_id t)) "eth-mainnet").
  intros t Ht. exists (network_id t), (f64_lit 95 2), []. rewrite Ht.
  split_and!; [reflexivity..|]. intros [].
Defined.
