(* ===== verification/MemoryHints.v ===== *)
(** * crates/llm-router/src/memory_hints.rs: retrieved data as unverified hints

    A hint carries its provenance and a status; only verified hints that have not
    expired are handed on.  A time is a number of milliseconds, an argument;
    [i64] subtraction of times and [num_seconds], which truncates, are written out. *)
From Stdlib Require Import String.
From S2P Require Import Prelude F64 RustStr.

Local Open Scope string_scope.

Inductive HintStatus : Type :=
  | Unverified
  | PendingVerification
  | Verified
  | VerificationFailed (reason : string)
  | Expired.
#[export] Instance HintStatus_eq_dec : EqDecision HintStatus.
Proof. solve_decision. Defined.

(** Ordered as listed. *)
Inductive HintConfidence : Type := Low | Medium | High | Critical.

Record UnverifiedHint := mkHint {
  id : string;
  content : string;
  source_url : string;
  retrieved_at : Z;
  status : HintStatus;
  confidence : HintConfidence;
  ttl_seconds : Z;
  verification_attempts : Z }.

Definition hint_new (now : Z) (id content source_url : string) (confidence : HintConfidence)
    (ttl_seconds : Z) : UnverifiedHint :=
  mkHint id content source_url now Unverified confidence ttl_seconds 0.

Definition is_expired (now : Z) (h : UnverifiedHint) : bool :=
  let elapsed := Z.quot (now - retrieved_at h) 1000 in
  (ttl_seconds h <? elapsed)%Z.

Definition set_hint_status (s : HintStatus) (h : UnverifiedHint) : UnverifiedHint :=
  mkHint (id h) (content h) (source_url h) (retrieved_at h) s (confidence h) (ttl_seconds h)
    (verification_attempts h).

(** The status is set before the [u32] counter may overflow. *)
Definition mark_pending (h : UnverifiedHint) : outcome UnverifiedHint :=
  let h := set_hint_status PendingVerification h in
  n ← add_u U32_MAX (verification_attempts h) 1;
  Ret (mkHint (id h) (content h) (source_url h) (retrieved_at h) (status h) (confidence h)
         (ttl_seconds h) n).
Definition mark_verified : UnverifiedHint -> UnverifiedHint := set_hint_status Verified.
Definition mark_failed (reason : string) : UnverifiedHint -> UnverifiedHint :=
  set_hint_status (VerificationFailed reason).
Definition force_expire : UnverifiedHint -> UnverifiedHint := set_hint_status Expired.

Inductive VerificationResult : Type :=
  | Confirmed (match_score : f64)
  | Stale (expected actual : string)
  | Unreachable (error : string)
  | Exhausted (attempts : Z).

Record HintVerifier := mkVerifier { max_verification_attempts : Z }.
Definition verifier_new (max_verification_attempts _default_ttl_seconds : Z) : HintVerifier :=
  mkVerifier max_verification_attempts.
Definition verifier_default : HintVerifier := verifier_new 3 3600.

Definition verify_hint (now : Z) (v : HintVerifier) (hint : UnverifiedHint) : VerificationResult :=
  if is_expired now hint then Exhausted (verification_attempts hint)
  else if (max_verification_attempts v <=? verification_attempts hint)%Z
  then Exhausted (verification_attempts hint)
  else if is_empty (content hint) then Stale "<non-empty>" "<empty>"
  else Confirmed (f64_lit 95 2).

Definition apply_verification (result : VerificationResult) (hint : UnverifiedHint) : UnverifiedHint :=
  match result with
  | Confirmed _ => mark_verified hint
  | Stale _ actual => mark_failed ("Content mismatch: got " ++ actual) hint
  | Unreachable error => mark_failed ("Endpoint unreachable: " ++ error) hint
  | Exhausted _ => force_expire hint
  end.

Definition filter_verified (now : Z) (hints : list UnverifiedHint) : list UnverifiedHint :=
  List.filter (fun h => bool_decide (status h = Verified) && negb (is_expired now h)) hints.

(** ** Properties *)

(** What the pipeline does to a hint. *)
Inductive HintOp : Type :=
  | OpPending
  | OpVerify (now : Z)
  | OpFail (reason : string)
  | OpExpire.
Definition hint_step (v : HintVerifier) (o : HintOp) (h : UnverifiedHint) : outcome UnverifiedHint :=
  match o with
  | OpPending => mark_pending h
  | OpVerify now => Ret (apply_verification (verify_hint now v h) h)
  | OpFail reason => Ret (mark_failed reason h)
  | OpExpire => Ret (force_expire h)
  end.
Fixpoint hint_run (v : HintVerifier) (l : list HintOp) (h : UnverifiedHint) : outcome UnverifiedHint :=
  match l with [] => Ret h | o :: l => h ← hint_step v o h; hint_run v l h end.

Definition pending_count (l : list HintOp) : Z :=
  Z.of_nat (length (List.filter (fun o => match o with OpPending => true | _ => false end) l)).

Lemma verify_hint_Confirmed now v h x :
  verify_hint now v h = Confirmed x ->
  is_expired now h = false /\ verification_attempts h < max_verification_attempts v /\ content h <> "".
Proof.
  unfold verify_hint, is_empty. destruct (is_expired now h); [done|].
  destruct (Z.leb_spec (max_verification_attempts v) (verification_attempts h)); [done|].
  case_bool_decide; [done|]. intros _. split_and!; done.
Qed.

Lemma apply_verification_fields r h :
  content (apply_verification r h) = content h /\
  retrieved_at (apply_verification r h) = retrieved_at h /\
  ttl_seconds (apply_verification r h) = ttl_seconds h /\
  verification_attempts (apply_verification r h) = verification_attempts h /\
  (status (apply_verification r h) = Verified -> exists x, r = Confirmed x).
Proof. destruct r; simpl; split_and!; try done. by exists match_score. Qed.

Lemma hint_step_inv v o h h' :
  hint_step v o h = Ret h' ->
  content h' = content h /\ retrieved_at h' = retrieved_at h /\ ttl_seconds h' = ttl_seconds h /\
  verification_attempts h' = verification_attempts h + pending_count [o] /\
  (status h' = Verified -> exists now, o = OpVerify now /\ is_expired now h = false /\
     verification_attempts h < max_verification_attempts v /\ content h <> "").
Proof.
  destruct o as [|now|reason|]; cbn [hint_step]; intros Hs.
  - unfold mark_pending, add_u in Hs. case_decide; [|done]. simpl in Hs. simplify_eq. by split_and!.
  - injection Hs as <-. destruct (apply_verification_fields (verify_hint now v h) h) as (? & ? & ? & ? & Hv).
    split_and!; [done..|unfold pending_count; simpl; lia|]. intros [x Hx]%Hv. exists now. split; [done|].
    by eapply verify_hint_Confirmed.
  - injection Hs as <-. split_and!; [done..|unfold pending_count; simpl; lia|done].
  - injection Hs as <-. split_and!; [done..|unfold pending_count; simpl; lia|done].
Qed.

Lemma hint_run_snoc v l o h h' :
  hint_run v (l ++ [o])%list h = Ret h' ->
  exists h1, hint_run v l h = Ret h1 /\ hint_step v o h1 = Ret h'.
Proof.
  revert h. induction l as [|o' l IH]; intros h; simpl.
  - destruct (hint_step v o h) eqn:E; [|done]. simpl. intros [= <-]. by exists h.
  - destruct (hint_step v o' h); [apply IH|done].
Qed.

Lemma hint_run_fields v l h h' :
  hint_run v l h = Ret h' ->
  content h' = content h /\ retrieved_at h' = retrieved_at h /\ ttl_seconds h' = ttl_seconds h /\
  verification_attempts h' = verification_attempts h + pending_count l.
Proof.
  revert h. induction l as [|o l IH]; intros h Hr.
  { injection Hr as <-. split_and!; [done..|unfold pending_count; simpl; lia]. }
  cbn [hint_run] in Hr. destruct (hint_step v o h) as [h1|] eqn:E; [|done]. simpl in Hr.
  apply hint_step_inv in E as (? & ? & ? & Hn & _).
  destruct (IH h1 Hr) as (? & ? & ? & Hn'). split_and!; try congruence.
  rewrite Hn', Hn. unfold pending_count. simpl. destruct o; simpl; lia.
Qed.

(** Nothing unverified is handed on: a hint that [filter_verified] returns, after
    any run of the pipeline from its retrieval, came from a verification as its last
    step, when it was within its time to live and its attempts, and it has content and
    has not expired when it is handed on. *)
Theorem filter_verified_sound v t0 ident text url conf ttl l h now hints :
  hint_run v l (hint_new t0 ident text url conf ttl) = Ret h ->
  In h (filter_verified now hints) ->
  text <> "" /\ Z.quot (now - t0) 1000 <= ttl /\
  exists l1 t, l = (l1 ++ [OpVerify t])%list /\ Z.quot (t - t0) 1000 <= ttl /\
    pending_count l1 < max_verification_attempts v.
Proof.
  intros Hr [_ Hf]%filter_In. apply andb_true_iff in Hf as [Hst%bool_decide_eq_true Hex%negb_true_iff].
  destruct l as [|o l1 _] using rev_ind; [by injection Hr as <-|].
  pose proof (hint_run_fields _ _ _ _ Hr) as (Hc & Ht & Hl & _).
  apply hint_run_snoc in Hr as (h1 & Hr1 & Hs).
  apply hint_run_fields in Hr1 as (Hc1 & Ht1 & Hl1 & Hn1).
  apply hint_step_inv in Hs as (_ & _ & _ & _ & Hv). destruct (Hv Hst) as (t & -> & Hex1 & Hn & Hne).
  unfold is_expired in *. simpl in *. rewrite Ht, Hl in Hex. rewrite Ht1, Hl1 in Hex1.
  apply Z.ltb_ge in Hex, Hex1. split_and!; [congruence|done|]. exists l1, t. split_and!; [done|done|lia].
Qed.

(** Verification does not look at the source: every hint with content, within its
    time and attempts, is confirmed. *)
Lemma verification_is_structural now v h :
  is_expired now h = false -> verification_attempts h < max_verification_attempts v ->
  content h <> "" -> status (apply_verification (verify_hint now v h) h) = Verified.
Proof.
  intros Hex Hn Hc. unfold verify_hint, is_empty. rewrite Hex.
  rewrite (proj2 (Z.leb_gt _ _)) by lia. by rewrite bool_decide_false.
Qed.

Lemma filter_verified_sound_witness :
  exists l1 t, [OpPending; OpVerify 5000] = (l1 ++ [OpVerify t])%list /\ Z.quot (t - 0) 1000 <= 60 /\
    pending_count l1 < 3.
Proof.
  eapply (filter_verified_sound verifier_default 0 "h1" "text" "https://a" High 60
    [OpPending; OpVerify 5000] _ 6000
    [mkHint "h1" "text" "https://a" 0 Verified High 60 1]); [reflexivity|by left].
Defined.
