(* ===== verification/Microkernel.v ===== *)
(** * crates/core/src/lib.rs: the microkernel's request pipeline

    A request passes the interlock, the resource monitor, the edge gateway, the
    confidence arbitrator and the payload validator before the tenant's component
    runs in a fresh store; the fuel it burns is charged to two meters.  wasmtime,
    serde_json, the file system and the texts of derived formats are parameters:
    what a guest does is an argument, a function of the component that runs. *)
From Stdlib Require Import Ascii String.
From S2P Require Import Prelude F64 RustStr Json PayloadValidator HotSwap FuelMonitor AbiGuard.
From S2P Require Import Masking HostStore Arbitrator EgressGuard ResourceMonitor Oracle.

Local Open Scope string_scope.

Definition STRANGULATION_ITERATIONS : Z := 5000000.

Inductive ApiError : Type :=
  | InvalidPayload (s : string)
  | Authorization (s : string)
  | ThreatMitigated (s : string)
  | EmergencyShutdown (s : string)
  | Internal (s : string).

Definition NexusError_display (e : NexusError) : string :=
  match e with
  | RouteNotFound s => "Route not found for endpoint: " ++ s
  | MalformedPayload s => "Malformed payload: " ++ s
  | NexusInternal s => "Internal gateway error: " ++ s
  | TmrConsensusFailure s => "TMR Consensus failed: " ++ s
  end.
Definition OracleError_display (fmt : nat -> f64 -> string) (e : OracleError) : string :=
  match e with
  | ParseError s => "Failed to parse LLM response: " ++ s
  | LowConfidenceThreshold score threshold =>
      "Confidence score " ++ fmt 2%nat score ++ " below minimum threshold of " ++ fmt 2%nat threshold
  | SchemaValidation s => "Schema validation failed: " ++ s
  | CircuitTripped node reason => "Circuit breaker tripped for node '" ++ node ++ "': " ++ reason
  | RateLimited s => "Rate limit exceeded by token bucket: " ++ s
  | AllNodesExhausted => "All LLM nodes exhausted via graceful degradation"
  | CoordinatorError s => "Coordinator dispatch failed: " ++ s
  | WriteDisciplineViolation s => "Memory write rejected - discipline violation: " ++ s
  end.

(** What serde_json reports, the decimal forms of [{:.n}], [str::to_lowercase], and
    the texts of derived formats. *)
Class KernelText := {
  Number : Type;
  as_i64 : Number -> option Z;
  as_f64 : Number -> option f64;
  from_str : string -> result (Value Number) string;
  float_text : f64 -> string;
  keys_text : list string -> string;
  fmt : nat -> f64 -> string;
  to_lowercase : string -> string;
  ip_text : IpAddr -> string;
  trap_text : Trap -> string;
  nexus_to_string : Value Z -> string }.

Section kernel.
Context `{KernelText} {Component : Type}.

Abbreviation Container := (@HotSwapContainer Component).

Record SereinMicrokernel := mkKernel {
  config : SecureRuntimeConfig;
  masking_engine : MaskingEngine;
  tenant_component : option Container;
  aegis_component : option Container;
  module_cache : gmap string Component;
  resource_monitor : ResourceMonitor;
  sis_interlock : SisInterlock;
  fuel_monitor : FuelMonitor;
  z3_validator : Z3FormalValidator;
  abi_guard : AbiGuard }.

Definition set_monitor (m : ResourceMonitor) (k : SereinMicrokernel) : SereinMicrokernel :=
  mkKernel (config k) (masking_engine k) (tenant_component k) (aegis_component k) (module_cache k)
    m (sis_interlock k) (fuel_monitor k) (z3_validator k) (abi_guard k).
Definition set_meters (i : SisInterlock) (m : FuelMonitor) (k : SereinMicrokernel) : SereinMicrokernel :=
  mkKernel (config k) (masking_engine k) (tenant_component k) (aegis_component k) (module_cache k)
    (resource_monitor k) i m (z3_validator k) (abi_guard k).
Definition set_validator (v : Z3FormalValidator) (k : SereinMicrokernel) : SereinMicrokernel :=
  mkKernel (config k) (masking_engine k) (tenant_component k) (aegis_component k) (module_cache k)
    (resource_monitor k) (sis_interlock k) (fuel_monitor k) v (abi_guard k).
Definition set_guard (g : AbiGuard) (k : SereinMicrokernel) : SereinMicrokernel :=
  mkKernel (config k) (masking_engine k) (tenant_component k) (aegis_component k) (module_cache k)
    (resource_monitor k) (sis_interlock k) (fuel_monitor k) (z3_validator k) g.
Definition set_tenant (c : option Container) (k : SereinMicrokernel) : SereinMicrokernel :=
  mkKernel (config k) (masking_engine k) c (aegis_component k) (module_cache k)
    (resource_monitor k) (sis_interlock k) (fuel_monitor k) (z3_validator k) (abi_guard k).
Definition set_aegis (c : option Container) (k : SereinMicrokernel) : SereinMicrokernel :=
  mkKernel (config k) (masking_engine k) (tenant_component k) c (module_cache k)
    (resource_monitor k) (sis_interlock k) (fuel_monitor k) (z3_validator k) (abi_guard k).
Definition set_cache (m : gmap string Component) (k : SereinMicrokernel) : SereinMicrokernel :=
  mkKernel (config k) (masking_engine k) (tenant_component k) (aegis_component k) m
    (resource_monitor k) (sis_interlock k) (fuel_monitor k) (z3_validator k) (abi_guard k).

(** ** Start-up *)

(** The master key of the environment. *)
Definition load_master_key `{Crypto} (var : option string) : result MaskingEngine string :=
  match var with
  | None => Err "SEREIN_MASTER_KEY environment variable is required for production deployment. Set a 64-character hex-encoded 256-bit key."
  | Some master_key =>
      if decide (len master_key <> 64) then
        Err ("SEREIN_MASTER_KEY must be exactly 64 hex characters (256 bits). Received " ++
             pretty (len master_key) ++ " characters.")
      else
        match hex_decode master_key with
        | Err e => Err ("SEREIN_MASTER_KEY must be valid hexadecimal: " ++ e)
        | Ok _ =>
            match engine_new (Some master_key) with
            | Ok e => Ok e
            | Err _ => Err "Failed to initialize the Masking Engine"
            end
        end
  end.

(** [new] after the engine, the database and the linker are there. *)
Definition kernel_new `{Crypto} (now : Z) (var : option string) : result SereinMicrokernel string :=
  masking_engine <-? load_master_key var ;;
  Ok (mkKernel runtime_default masking_engine None None ∅ resource_default
        (interlock_new SIS_FUEL_QUOTA) (monitor_new now SIS_FUEL_QUOTA) (validator_new true)
        (guard_new true true)).

(** ** Stores *)

Definition validate_memory_bounds (k : SereinMicrokernel) : SereinMicrokernel * result (Z * Z) string :=
  let linear_memory_min := 0 in
  let linear_memory_max := max_memory_size (config k) in
  let '(g, r) := AbiGuard.check_memory_access linear_memory_min linear_memory_max linear_memory_max
                   (abi_guard k) in
  (set_guard g k,
   match r with
   | Err e => Err ("Memory boundary validation failed: " ++ AbiViolation_display e)
   | Ok _ => Ok (linear_memory_min, linear_memory_max)
   end).

(** The state given to a request's store. *)
Definition store_state `{ResourceApi} (tenant_id : string) (k : SereinMicrokernel) : StoreState :=
  mkStore (masking_engine k) table_new [] (guard_new true true) None (canonical_new true) tenant_id ∅.

(** wasmtime's answers are an argument: [store_error] is a failure to open the models'
    directory or to inject the fuel. *)
Definition create_store_for_request (store_error : option string) (k : SereinMicrokernel)
    : SereinMicrokernel * result unit string :=
  match store_error with
  | Some e => (k, Err e)
  | None =>
      let '(k, r) := validate_memory_bounds k in
      (k, _ <-? r ;; Ok tt)
  end.

(** ** Execution

    What wasmtime reports of one run. *)
Inductive GuestRun : Type :=
  | TimedOut
  | InstantiationFailed (e : string)
  | FuelUnread (e : string)
  | Ran (fuel_before : Z) (fuel_after : result Z string) (r : result (result string string) string).

(** Both meters are charged: the interlock may panic, the monitor may trap. *)
Definition charge (consumed_fuel : Z) (k : SereinMicrokernel)
    : outcome (SereinMicrokernel * result unit Trap) :=
  '(i, _) ← HotSwap.consume_fuel consumed_fuel (sis_interlock k);
  let '(m, (r, _)) := FuelMonitor.consume consumed_fuel (fuel_monitor k) in
  Ret (set_meters i m k, r).

Definition timeout_text (what : string) (k : SereinMicrokernel) : string :=
  what ++ pretty (execution_timeout_secs (config k)) ++ "s timeout".

Definition execute_guest (guest : Component -> string -> GuestRun) (adjudicated_payload : string)
    (k : SereinMicrokernel) : outcome (SereinMicrokernel * result string ApiError) :=
  match tenant_component k with
  | None => Ret (k, Err (Internal "Tenant component not loaded"))
  | Some container =>
      match guest (load container) adjudicated_payload with
      | TimedOut =>
          Ret (k, Err (EmergencyShutdown (timeout_text "WASM guest execution exceeded " k ++
                         " - instance force-terminated")))
      | InstantiationFailed e => Ret (k, Err (Internal ("Guest instantiation failed: " ++ e)))
      | FuelUnread e => Ret (k, Err (Internal ("Failed to read fuel before execution: " ++ e)))
      | Ran fuel_before (Err e) _ =>
          Ret (k, Err (Internal ("Failed to read fuel after execution: " ++ e)))
      | Ran fuel_before (Ok fuel_after) guest_result =>
          let consumed_fuel := saturating_sub fuel_before fuel_after in
          '(k, r) ← charge consumed_fuel k;
          match r with
          | Err trap => Ret (k, Err (EmergencyShutdown ("Fuel ESD trap: " ++ trap_text trap)))
          | Ok _ =>
              match guest_result with
              | Err trap_err => Ret (k, Err (Internal ("Guest execution trapped: " ++ trap_err)))
              | Ok (Err guest_err) => Ret (k, Err (InvalidPayload ("Guest logic failed: " ++ guest_err)))
              | Ok (Ok result) => Ret (k, Ok result)
              end
          end
      end
  end.

(** The Aegis component: [Refused] stands for a failure before it has run,
    [Undropped] for one to drop its context, which is not metered. *)
Inductive AegisRun : Type :=
  | AegisTimedOut
  | Refused (e : string)
  | Undropped (e : string)
  | AegisRan (fuel_before : Z) (fuel_after : result Z string) (r : result string string).

Definition execute_aegis (aegis : Component -> AegisRun) (ip : IpAddr) (k : SereinMicrokernel)
    : outcome (SereinMicrokernel * result string ApiError) :=
  match aegis_component k with
  | None => Ret (k, Err (Internal "Aegis sandbox guard component not available"))
  | Some container =>
      match aegis (load container) with
      | AegisTimedOut =>
          Ret (k, Err (EmergencyShutdown (timeout_text "Aegis defense component exceeded " k)))
      | Refused e => Ret (k, Err (Internal e))
      | Undropped e => Ret (k, Err (Internal ("Attacker context resource drop failed: " ++ e)))
      | AegisRan fuel_before (Err e) _ =>
          Ret (k, Err (Internal ("Failed to read fuel after Aegis execution: " ++ e)))
      | AegisRan fuel_before (Ok fuel_after) aegis_result =>
          let aegis_fuel := saturating_sub fuel_before fuel_after in
          '(k, r) ← charge aegis_fuel k;
          match r with
          | Err trap => Ret (k, Err (EmergencyShutdown ("Aegis fuel ESD trap: " ++ trap_text trap)))
          | Ok _ =>
              match aegis_result with
              | Err trap => Ret (k, Err (Internal ("Aegis guest trapped during countermeasure: " ++ trap)))
              | Ok _ =>
                  Ret (k, Err (ThreatMitigated ("Aegis countermeasure executed for IP " ++ ip_text ip ++
                    " - sandbox containment verified, fuel consumed: " ++ pretty aegis_fuel)))
              end
          end
      end
  end.

Definition trigger_strangulation_mode (store_error : option string) (aegis : Component -> AegisRun)
    (ip : IpAddr) (k : SereinMicrokernel) : outcome (SereinMicrokernel * result string ApiError) :=
  match create_store_for_request store_error k with
  | (k, Err e) => Ret (k, Err (Internal e))
  | (k, Ok _) => execute_aegis aegis ip k
  end.

(** ** The pipeline *)

Definition source_text (payload : string) : string :=
  match from_str payload with
  | Ok value =>
      let field :=
        match value_get "source" value with
        | Some v => Some v
        | None =>
            match value_get "provider" value with
            | Some v => Some v
            | None => value_get "node_id" value
            end
        end in
      default "" (match field with Some v => as_str v | None => None end)
  | Err _ => ""
  end.
Definition local_markers : list string := ["node_d"; "noded"; "slm"; "local"].
Definition detect_response_source (payload : string) : ResponseSource :=
  match from_str payload with
  | Ok _ =>
      let source_lower := to_lowercase (source_text payload) in
      if existsb (fun m => contains m source_lower) local_markers then PhysicalNodeD else FrontierCloud
  | Err _ => FrontierCloud
  end.

Definition process_api_request (now : Z) (endpoint adjudicated_payload : string) (ip : IpAddr)
    (store_error : option string) (guest : Component -> string -> GuestRun)
    (aegis : Component -> AegisRun) (k : SereinMicrokernel)
    : outcome (SereinMicrokernel * result string ApiError) :=
  if decide (HotSwap.current_state (sis_interlock k) = HotSwap.EmergencyShutdown) then
    Ret (k, Err (EmergencyShutdown "Emergency shutdown active - all requests blocked"))
  else
    '(m, threat) ← check_and_record_request now ip (resource_monitor k);
    let k := set_monitor m k in
    if (threat : bool) then trigger_strangulation_mode store_error aegis ip k
    else
      match receive_request from_str nexus_to_string endpoint adjudicated_payload with
      | Err e => Ret (k, Err (Internal ("Nexus Gateway routing failed: " ++ NexusError_display e)))
      | Ok _ =>
          match Oracle.arbitrate as_f64 from_str adjudicated_payload
                  (detect_response_source adjudicated_payload) with
          | Err (LowConfidenceThreshold score threshold) =>
              Ret (k, Err (InvalidPayload ("Payload rejected by consensus arbitrator: confidence " ++
                fmt 4%nat score ++ " below threshold " ++ fmt 2%nat threshold)))
          | Err e =>
              Ret (k, Err (Internal ("Oracle consensus arbitration failed: " ++ OracleError_display fmt e)))
          | Ok _ =>
              let '(v, safety) :=
                prove_safety as_i64 as_f64 from_str float_text keys_text adjudicated_payload
                  (z3_validator k) in
              let k := set_validator v k in
              match safety with
              | Err _ =>
                  Ret (k, Err (InvalidPayload "Payload validation failed - formal safety proof rejected"))
              | Ok _ =>
                  match create_store_for_request store_error k with
                  | (k, Err e) => Ret (k, Err (Internal e))
                  | (k, Ok _) => execute_guest guest adjudicated_payload k
                  end
              end
          end
      end.

(** ** Components *)

(** Reading a file and compiling it is the argument [compile]. *)
Definition get_or_cache_component (compile : result Component string) (module_path : string)
    (k : SereinMicrokernel) : SereinMicrokernel * result Component string :=
  match module_cache k !! module_path with
  | Some component => (k, Ok component)
  | None =>
      match compile with
      | Err e => (k, Err e)
      | Ok component => (set_cache (<[module_path := component]> (module_cache k)) k, Ok component)
      end
  end.

(** [run_wasm] is not metered and has no time limit; the outer error is a failed
    instantiation. *)
Definition run_wasm (compile : result Component string) (store_error : option string)
    (guest : Component -> string -> result (result (result string string) string) string)
    (module_path payload : string) (k : SereinMicrokernel)
    : SereinMicrokernel * result string string :=
  match get_or_cache_component compile module_path k with
  | (k, Err e) => (k, Err e)
  | (k, Ok component) =>
      match create_store_for_request store_error k with
      | (k, Err e) => (k, Err ("Store creation failed: " ++ e))
      | (k, Ok _) =>
          (k, match guest component payload with
              | Err e => Err ("Component instantiation failed: " ++ e)
              | Ok (Err e) => Err ("Guest execution trapped: " ++ e)
              | Ok (Ok (Err e)) => Err ("Guest logic error: " ++ e)
              | Ok (Ok (Ok result)) => Ok result
              end)
      end
  end.

(** [update_tenant_component] and [reload_component]; [update_aegis_component] is the
    same on the other slot. *)
Definition installed (name : string) (component : Component) (slot : option Container)
    : outcome (option Container) :=
  match slot with
  | Some container => '(c, _) ← swap component container; Ret (Some c)
  | None => Ret (Some (container_new component name))
  end.
Definition reload_component (compile : result Component string) (k : SereinMicrokernel)
    : outcome (SereinMicrokernel * result unit string) :=
  match compile with
  | Err e => Ret (k, Err e)
  | Ok component =>
      c ← installed "tenant_component" component (tenant_component k);
      Ret (set_tenant c k, Ok tt)
  end.
Definition update_aegis_component (compile : result Component string) (k : SereinMicrokernel)
    : outcome (SereinMicrokernel * result unit string) :=
  match compile with
  | Err e => Ret (k, Err e)
  | Ok component =>
      c ← installed "aegis_component" component (aegis_component k);
      Ret (set_aegis c k, Ok tt)
  end.

Definition sis_state (k : SereinMicrokernel) : SisInterlockState :=
  HotSwap.current_state (sis_interlock k).
Definition fuel_metrics (now : Z) (k : SereinMicrokernel) : EnergyMetrics :=
  FuelMonitor.metrics now (fuel_monitor k).

(** ** Properties *)

(** The gates of the pipeline: [k1] is the kernel a request reaches its guest with. *)
Definition admitted (now : Z) (endpoint payload : string) (ip : IpAddr) (store_error : option string)
    (k k1 : SereinMicrokernel) : Prop :=
  HotSwap.current_state (sis_interlock k) <> HotSwap.EmergencyShutdown /\
  (exists m v, check_and_record_request now ip (resource_monitor k) = Ret (m, false) /\
     prove_safety as_i64 as_f64 from_str float_text keys_text payload (z3_validator k) = (v, Ok tt) /\
     create_store_for_request store_error (set_validator v (set_monitor m k)) = (k1, Ok tt)) /\
  starts_with "/v1/agent/" endpoint = true /\
  (exists v c x, from_str payload = Ok v /\ confidence_field v = Some c /\
     value_as_f64 as_f64 c = Some x /\
     f64_lt x (threshold_of (detect_response_source payload)) = false).

Lemma admitted_runs now endpoint payload ip se guest aegis k k1 :
  admitted now endpoint payload ip se k k1 ->
  process_api_request now endpoint payload ip se guest aegis k = execute_guest guest payload k1.
Proof.
  intros (Hs & (m & v & Hm & Hv & Hst) & He & v' & c & x & Hp & Hc & Hx & Hlt).
  unfold process_api_request. rewrite decide_False by done. rewrite Hm. simpl.
  unfold receive_request, route_request. rewrite Hp, He.
  rewrite (proj2 (arbitrate_Ok as_f64 from_str payload _ payload)) by (split; [done|]; by exists v', c, x).
  rewrite Hv, Hst. done.
Qed.

(** C10: the pipeline is a gate: a request that is not shut down, flagged, misrouted,
    under its confidence threshold, or refused by the validator or by the store's
    set-up is answered by running the tenant's component on it, in the kernel that has
    counted it; on any other request no component of the tenant has any influence on
    the answer or on the kernel. *)
Theorem pipeline_gate now endpoint payload ip se guest aegis k :
  (forall k1, admitted now endpoint payload ip se k k1 ->
     process_api_request now endpoint payload ip se guest aegis k = execute_guest guest payload k1) /\
  ((forall k1, ~ admitted now endpoint payload ip se k k1) ->
     forall guest', process_api_request now endpoint payload ip se guest aegis k =
                    process_api_request now endpoint payload ip se guest' aegis k).
Proof.
  split; [intros k1; apply admitted_runs|]. intros Hno guest'. unfold process_api_request.
  case_decide as Hs; [done|].
  destruct (check_and_record_request now ip (resource_monitor k)) as [[m []]|] eqn:Hm; simpl; [done| |done].
  destruct (receive_request _ _ _ _) as [u|] eqn:Hr; [|done].
  destruct (Oracle.arbitrate _ _ _ _) as [out|e] eqn:Ho; [|done].
  destruct (prove_safety _ _ _ _ _ _ _) as [v [[]|e]] eqn:Hv; [|done].
  destruct (create_store_for_request _ _) as [k1 [[]|e]] eqn:Hst; [|done].
  exfalso. apply (Hno k1). apply arbitrate_Ok in Ho as (_ & Ho).
  unfold receive_request, route_request in Hr.
  split_and!; [done|by exists m, v| |done].
  destruct (from_str payload); [|done]. by destruct (starts_with _ _).
Qed.

(** ** The meters *)

Inductive KernelOp : Type :=
  | KRequest (now : Z) (endpoint payload : string) (ip : IpAddr) (store_error : option string)
      (guest : Component -> string -> GuestRun) (aegis : Component -> AegisRun)
  | KReload (compile : result Component string)
  | KAegis (compile : result Component string)
  | KRunWasm (compile : result Component string) (store_error : option string)
      (guest : Component -> string -> result (result (result string string) string) string)
      (module_path payload : string).

Definition kernel_step (o : KernelOp) (k : SereinMicrokernel) : outcome SereinMicrokernel :=
  match o with
  | KRequest now endpoint payload ip se guest aegis =>
      '(k, _) ← process_api_request now endpoint payload ip se guest aegis k; Ret k
  | KReload c => '(k, _) ← reload_component c k; Ret k
  | KAegis c => '(k, _) ← update_aegis_component c k; Ret k
  | KRunWasm c se guest path payload => Ret (run_wasm c se guest path payload k).1
  end.
Fixpoint kernel_run (l : list KernelOp) (k : SereinMicrokernel) : outcome SereinMicrokernel :=
  match l with [] => Ret k | o :: l => k ← kernel_step o k; kernel_run l k end.

Definition same_meters (k k' : SereinMicrokernel) : Prop :=
  sis_interlock k' = sis_interlock k /\ fuel_monitor k' = fuel_monitor k.
Definition charged (k k' : SereinMicrokernel) : Prop :=
  exists n k1 k2 r, 0 <= n /\ same_meters k k1 /\ charge n k1 = Ret (k2, r) /\ same_meters k2 k'.

Lemma create_store_meters se k k' r :
  create_store_for_request se k = (k', r) -> same_meters k k'.
Proof.
  unfold create_store_for_request, validate_memory_bounds. destruct se; [by intros [= <- _]|].
  destruct (AbiGuard.check_memory_access _ _ _ _) as [g [u|e]]; simpl; intros [= <- _]; done.
Qed.

Lemma execute_guest_meters guest payload k k' r :
  execute_guest guest payload k = Ret (k', r) -> same_meters k k' \/ charged k k'.
Proof.
  unfold execute_guest. destruct (tenant_component k) as [c|]; [|intros [= <- _]; by left].
  destruct (guest _ _) as [| | |before [after|] res]; try (intros [= <- _]; by left).
  destruct (charge _ _) as [[k2 r2]|] eqn:Hc; [|done]. intros Hr. right.
  exists (saturating_sub before after), k, k2, r2. split_and!; [unfold saturating_sub; lia|done|done|].
  simpl in Hr. by destruct r2; [destruct res as [[]|]|]; simplify_eq.
Qed.

Lemma execute_aegis_meters aegis ip k k' r :
  execute_aegis aegis ip k = Ret (k', r) -> same_meters k k' \/ charged k k'.
Proof.
  unfold execute_aegis. destruct (aegis_component k) as [c|]; [|intros [= <- _]; by left].
  destruct (aegis _) as [| | |before [after|] res]; try (intros [= <- _]; by left).
  destruct (charge _ _) as [[k2 r2]|] eqn:Hc; [|done]. intros Hr. right.
  exists (saturating_sub before after), k, k2, r2. split_and!; [unfold saturating_sub; lia|done|done|].
  simpl in Hr. by destruct r2; [destruct res|]; simplify_eq.
Qed.

Lemma meters_after k k1 k' : same_meters k k1 ->
  same_meters k1 k' \/ charged k1 k' -> same_meters k k' \/ charged k k'.
Proof.
  intros [Hi Hf] [[Hi' Hf']|(n & k2 & k3 & r & Hn & [Hi2 Hf2] & Hc & Hs)].
  - left. split; congruence.
  - right. exists n, k2, k3, r. split_and!; [done|split; congruence|done|done].
Qed.

Lemma process_meters now endpoint payload ip se guest aegis k k' r :
  process_api_request now endpoint payload ip se guest aegis k = Ret (k', r) ->
  same_meters k k' \/ charged k k'.
Proof.
  unfold process_api_request. case_decide; [intros [= <- _]; by left|].
  destruct (check_and_record_request _ _ _) as [[m threat]|]; [|done]. simpl.
  destruct threat.
  - unfold trigger_strangulation_mode. destruct (create_store_for_request _ _) as [k1 [u|e]] eqn:Hst.
    all: apply create_store_meters in Hst. 2: intros [= <- _]; by left.
    intros Hr%execute_aegis_meters. by eapply meters_after.
  - destruct (receive_request _ _ _ _); [|intros [= <- _]; by left].
    destruct (Oracle.arbitrate _ _ _ _) as [|[]]; try (intros [= <- _]; by left).
    destruct (prove_safety _ _ _ _ _ _ _) as [v [u|e]]; [|intros [= <- _]; by left].
    destruct (create_store_for_request _ _) as [k1 [u1|e]] eqn:Hst.
    all: apply create_store_meters in Hst. 2: intros [= <- _]; by left.
    intros Hr%execute_guest_meters. by eapply meters_after.
Qed.

Lemma kernel_step_meters o k k' : kernel_step o k = Ret k' -> same_meters k k' \/ charged k k'.
Proof.
  destruct o; simpl.
  - destruct (process_api_request _ _ _ _ _ _ _ _) as [[k1 r]|] eqn:E; [|done].
    intros [= <-]. by eapply process_meters.
  - unfold reload_component. destruct compile; [|intros [= <-]; by left].
    destruct (installed _ _ _); [|done]. intros [= <-]. by left.
  - unfold update_aegis_component. destruct compile; [|intros [= <-]; by left].
    destruct (installed _ _ _); [|done]. intros [= <-]. by left.
  - intros [= <-]. left. unfold run_wasm.
    destruct (get_or_cache_component _ _ _) as [k1 [c|e]] eqn:E; simpl.
    all: assert (same_meters k k1) by (unfold get_or_cache_component in E; cases; done).
    2: done. destruct (create_store_for_request _ _) as [k2 [u|e]] eqn:Hst; simpl.
    all: apply create_store_meters in Hst as [Hi Hm].
    all: match goal with Hs : same_meters _ _ |- _ => destruct Hs end; split; congruence.
Qed.

(** Both meters hold the same total, against the same quota, and the interlock shows its
    class. *)
Definition meters_inv (k : SereinMicrokernel) : Prop :=
  tracks (sis_interlock k) /\ fits U64_MAX (FuelMonitor.fuel_consumed (fuel_monitor k)) /\
  HotSwap.fuel_consumed (sis_interlock k) = FuelMonitor.fuel_consumed (fuel_monitor k) /\
  HotSwap.fuel_limit (sis_interlock k) = FuelMonitor.fuel_quota (fuel_monitor k).

Lemma charge_meters n k k' r :
  0 <= n -> meters_inv k -> charge n k = Ret (k', r) ->
  meters_inv k' /\ HotSwap.fuel_limit (sis_interlock k') = HotSwap.fuel_limit (sis_interlock k) /\
  HotSwap.fuel_consumed (sis_interlock k') = HotSwap.fuel_consumed (sis_interlock k) + n.
Proof.
  intros Hn (Ht & Hfit & Hc & Hl) Hch. unfold charge in Hch.
  destruct (decide (HotSwap.fuel_consumed (sis_interlock k) + n <= U64_MAX)) as [Hle|Hgt].
  2: { unfold HotSwap.consume_fuel, add_u in Hch. by rewrite decide_False in Hch by done. }
  destruct (consume_fuel_tracks n _ Ht Hn Hle) as (i & Hi & Ht' & Hc' & Hl').
  rewrite Hi in Hch. simpl in Hch. unfold FuelMonitor.consume in Hch.
  destruct (consume_result _ _) as [r0 cb]. injection Hch as <- <-.
  rewrite Hc in Hle, Hc'. destruct Hfit as [Hfit _]. unfold meters_inv, fits.
  cbn [sis_interlock fuel_monitor set_meters set_state set_consumed FuelMonitor.fuel_consumed FuelMonitor.fuel_quota].
  rewrite wrapping_add_small by lia. split_and!; try done; try lia; congruence.
Qed.

Lemma meters_inv_same k k' : same_meters k k' -> meters_inv k -> meters_inv k'.
Proof. intros [Hi Hm]. unfold meters_inv. by rewrite Hi, Hm. Qed.

Lemma kernel_step_inv o k k' :
  kernel_step o k = Ret k' -> meters_inv k ->
  meters_inv k' /\ HotSwap.fuel_limit (sis_interlock k') = HotSwap.fuel_limit (sis_interlock k) /\
  HotSwap.fuel_consumed (sis_interlock k) <= HotSwap.fuel_consumed (sis_interlock k').
Proof.
  intros Hs Hinv. destruct (kernel_step_meters _ _ _ Hs) as [Hsame|(n & k1 & k2 & r & Hn & H1 & Hc & H2)].
  - split; [by eapply meters_inv_same|]. destruct Hsame as [-> _]. split; [done|lia].
  - apply charge_meters in Hc as (Hinv2 & Hl & Hcons); [|done|by eapply meters_inv_same].
    split; [by eapply meters_inv_same|]. destruct H1 as [Hi1 _], H2 as [Hi2 _].
    rewrite Hi1 in Hl, Hcons. rewrite Hi2. split; [done|lia].
Qed.

Lemma kernel_run_inv l k k' :
  kernel_run l k = Ret k' -> meters_inv k ->
  meters_inv k' /\ HotSwap.fuel_limit (sis_interlock k') = HotSwap.fuel_limit (sis_interlock k) /\
  HotSwap.fuel_consumed (sis_interlock k) <= HotSwap.fuel_consumed (sis_interlock k').
Proof.
  revert k. induction l as [|o l IH]; intros k Hr Hinv; [injection Hr as <-; split_and!; [done..|lia]|].
  cbn [kernel_run] in Hr. destruct (kernel_step o k) as [k1|] eqn:E; [|done]. simpl in Hr.
  destruct (kernel_step_inv _ _ _ E Hinv) as (Hinv1 & Hl1 & Hc1).
  destruct (IH k1 Hr Hinv1) as (? & ? & ?). split_and!; [done|congruence|lia].
Qed.

Lemma new_kernel_inv `{Crypto} now var k : kernel_new now var = Ok k -> meters_inv k.
Proof.
  unfold kernel_new. destruct (load_master_key var); simpl; [|done]. intros [= <-].
  unfold meters_inv, tracks. simpl. unfold fits. split_and!; done.
Qed.

(** C11: fuel accounting: in every run of requests, component updates and unmetered
    executions from start-up, the interlock and the fuel monitor have been charged the
    same fuel against the same quota, and the interlock shows the class of that total:
    emergency shutdown exactly from the quota of 10,000,000,000 on. *)
Theorem meters_agree `{Crypto} now var k l k' :
  kernel_new now var = Ok k -> kernel_run l k = Ret k' ->
  let total := FuelMonitor.fuel_consumed (fuel_monitor k') in
  HotSwap.fuel_consumed (sis_interlock k') = total /\
  FuelMonitor.fuel_quota (fuel_monitor k') = SIS_FUEL_QUOTA /\
  sis_state k' = classify SIS_FUEL_QUOTA total /\
  (sis_state k' = HotSwap.EmergencyShutdown <-> SIS_FUEL_QUOTA <= total).
Proof.
  intros Hk Hr total. destruct (kernel_run_inv _ _ _ Hr (new_kernel_inv _ _ _ Hk)) as (Hinv & Hl & _).
  assert (Hlim : HotSwap.fuel_limit (sis_interlock k) = SIS_FUEL_QUOTA).
  { unfold kernel_new in Hk. destruct (load_master_key var); [|done]. by injection Hk as <-. }
  destruct Hinv as ((_ & _ & _ & Hcl) & _ & Hc & Hq). rewrite Hl, Hlim in Hcl, Hq.
  unfold sis_state. fold total in Hc. rewrite Hcl, Hc. split_and!; try done.
  unfold classify. destruct (decide (SIS_FUEL_QUOTA <= total)); [done|]. by case_decide.
Qed.

(** An emergency shutdown is for good: once the total has reached the quota, every
    further run leaves the interlock shut down, and every request in it is refused
    without counting, charging or running anything; nothing in the kernel resets it. *)
Theorem shutdown_is_permanent k l k' :
  meters_inv k -> sis_state k = HotSwap.EmergencyShutdown -> kernel_run l k = Ret k' ->
  sis_state k' = HotSwap.EmergencyShutdown /\
  forall now endpoint payload ip se guest aegis,
    process_api_request now endpoint payload ip se guest aegis k' =
      Ret (k', Err (EmergencyShutdown "Emergency shutdown active - all requests blocked")).
Proof.
  intros Hinv Hs Hr. destruct (kernel_run_inv _ _ _ Hr Hinv) as (((_ & _ & _ & Hcl') & _) & Hl & Hc).
  destruct Hinv as ((_ & _ & _ & Hcl) & _).
  assert (sis_state k' = HotSwap.EmergencyShutdown) as Hs'.
  { unfold sis_state in *. rewrite Hcl'. rewrite Hcl in Hs. unfold classify in *. rewrite Hl.
    destruct (decide (HotSwap.fuel_limit (sis_interlock k) <= HotSwap.fuel_consumed (sis_interlock k)));
      [by rewrite decide_True by lia|]. by destruct (decide (_ * 9 / 10 <= _)). }
  split; [done|]. intros. unfold process_api_request. by rewrite decide_True.
Qed.

(** The payload picks its own threshold: what the arbitrator asks of a payload is
    0.40 when the payload calls its source, provider or node local, and 0.80
    otherwise; no other evidence of its origin is used. *)
Theorem source_chooses_threshold payload v :
  from_str payload = Ok v ->
  let claims_local :=
    existsb (fun m => contains m (to_lowercase (source_text payload))) local_markers in
  Oracle.arbitrate as_f64 from_str payload (detect_response_source payload) = Ok payload <->
  exists c x, confidence_field v = Some c /\ value_as_f64 as_f64 c = Some x /\
    f64_lt x (if claims_local then f64_lit 40 2 else f64_lit 80 2) = false.
Proof.
  intros Hp claims_local. rewrite arbitrate_Ok. unfold detect_response_source.
  rewrite Hp. fold claims_local. destruct claims_local; simpl; naive_solver.
Qed.
End kernel.

(** ** Concrete inputs

    Two documents that differ in what they call their source, both with a confidence of
    one half. *)
Definition document (source : string) : Value (Z + f64) :=
  JObject [("networkId", JString "mantle"); ("taskType", JString "price");
           ("confidenceScore", JNumber (inr (f64_lit 5 1))); ("source", JString source)].
#[local] Instance demo_text : KernelText := {|
  Number := Z + f64;
  as_i64 := fun n => match n with inl z => Some z | inr _ => None end;
  as_f64 := fun n => match n with inl z => Some (f64_of_Z z) | inr x => Some x end;
  from_str := fun s =>
    if bool_decide (s = "local") then Ok (document "local")
    else if bool_decide (s = "cloud") then Ok (document "cloud") else Err "syntax error";
  float_text := fun _ => ""; keys_text := fun _ => ""; fmt := fun _ _ => "";
  to_lowercase := fun s => s; ip_text := fun _ => "";
  trap_text := fun _ => "wasm trap: interrupt"; nexus_to_string := fun _ => "{}" |}.

Definition demo_ip : IpAddr := V4 (mkV4 192 0 2 1).
Definition demo_key : string := "0123456789abcdef0123456789abcdef0123456789abcdef0123456789abcdef".
#[local] Instance hex_crypto : Crypto.
Proof.
  refine {| hex_encode := fun s => s ++ s; hex_decode := fun s => Ok (take_bytes (String.length s / 2) s);
    sha256 := fun s => s; aes_encrypt := fun k n p => Ok (p ++ "0123456789abcdef");
    aes_decrypt := fun k n c => Ok (take_bytes (String.length c - 16) c);
    utf8_error := fun _ => "invalid utf-8 sequence" |}.
  - intros s. rewrite length_string_app. replace (String.length s + String.length s)%nat with
      (String.length s * 2)%nat by lia. by rewrite Nat.div_mul, take_bytes_app.
  - intros k n p c Hc. simplify_eq. rewrite length_string_app. simpl (String.length "0123456789abcdef").
    rewrite Nat.add_sub. by rewrite take_bytes_app.
  - intros k n p c Hc. simplify_eq. by rewrite length_string_app.
Defined.

(** A component is the fuel it burns; it answers with its input. *)
Definition demo_kernel : @SereinMicrokernel Z :=
  match kernel_new (Component := Z) 0 (Some demo_key) with
  | Ok k => match reload_component (Ok 1000) k with Ret (k, _) => k | Panic => k end
  | Err _ => mkKernel runtime_default (mkEngine None) None None ∅ resource_default
      interlock_default (monitor_default 0) validator_default (guard_new true true)
  end.
Definition echo (fuel : Z) (payload : string) : GuestRun :=
  Ran SIS_FUEL_QUOTA (Ok (SIS_FUEL_QUOTA - fuel)) (Ok (Ok payload)).
Definition demo_request (payload : string) : KernelOp :=
  KRequest 5 "/v1/agent/x" payload demo_ip None echo (fun _ => AegisTimedOut).

(** The local document runs, at a cost of 1000; the cloud one is below its threshold. *)
Lemma pipeline_gate_witness :
  exists k1, admitted 5 "/v1/agent/x" "local" demo_ip None demo_kernel k1 /\
    process_api_request 5 "/v1/agent/x" "local" demo_ip None echo (fun _ => AegisTimedOut)
      demo_kernel = execute_guest echo "local" k1.
Proof.
  assert (exists k1, admitted 5 "/v1/agent/x" "local" demo_ip None demo_kernel k1) as [k1 Ha].
  { eexists. split; [vm_compute; discriminate|]. split.
    { eexists _, _. split; [vm_compute; reflexivity|]. split; [vm_compute; reflexivity|reflexivity]. }
    split; [reflexivity|]. exists (document "local"), (JNumber (inr (f64_lit 5 1))), (f64_lit 5 1).
    split_and!; [reflexivity..|vm_compute; reflexivity]. }
  exists k1. split; [exact Ha|].
  exact (proj1 (pipeline_gate 5 "/v1/agent/x" "local" demo_ip None echo
                  (fun _ => AegisTimedOut) demo_kernel) _ Ha).
Defined.

Lemma source_chooses_threshold_witness :
  Oracle.arbitrate as_f64 from_str "local"
    (detect_response_source "local") = Ok "local" /\
  is_ok (Oracle.arbitrate as_f64 from_str "cloud"
    (detect_response_source "cloud")) = false.
Proof.
  split; [|vm_compute; reflexivity].
  apply (source_chooses_threshold (H := demo_text) "local" (document "local") eq_refl).
  exists (JNumber (inr (f64_lit 5 1))), (f64_lit 5 1). split_and!; [reflexivity..|vm_compute; reflexivity].
Defined.

Lemma meters_agree_witness :
  exists k', kernel_run [demo_request "local"; demo_request "cloud"] demo_kernel = Ret k' /\
    FuelMonitor.fuel_consumed (fuel_monitor k') = 1000 /\ sis_state k' = HotSwap.Normal.
Proof.
  destruct (kernel_new (Component := Z) 0 (Some demo_key)) as [k|] eqn:Hk; [|vm_compute in Hk; discriminate].
  eexists. split; [vm_compute; reflexivity|]. split; [reflexivity|].
  assert (exists l, kernel_run l k = kernel_run [demo_request "local"; demo_request "cloud"] demo_kernel)
    as [l Hl].
  { exists (KReload (Ok 1000) :: [demo_request "local"; demo_request "cloud"]).
    vm_compute in Hk. injection Hk as <-. vm_compute. reflexivity. }
  destruct (meters_agree 0 (Some demo_key) k l _ Hk Hl) as (_ & _ & Hs & _).
  reflexivity.
Defined.

Definition spent_kernel : @SereinMicrokernel Z :=
  set_meters (mkInterlock 2 SIS_FUEL_QUOTA SIS_FUEL_QUOTA)
    (mkMonitor SIS_FUEL_QUOTA SIS_FUEL_QUOTA 3 0 false) demo_kernel.
Lemma shutdown_is_permanent_witness :
  kernel_run [demo_request "local"] spent_kernel = Ret spent_kernel /\
  sis_state spent_kernel = HotSwap.EmergencyShutdown.
Proof.
  assert (kernel_run [demo_request "local"] spent_kernel = Ret spent_kernel) as Hr by reflexivity.
  split; [exact Hr|].
  apply (shutdown_is_permanent spent_kernel [demo_request "local"] spent_kernel);
    [|reflexivity|exact Hr].
  unfold meters_inv, tracks, fits. cbn [sis_interlock fuel_monitor spent_kernel set_meters].
  repeat split; try (vm_compute; congruence).
Defined.
