(* ===== verification/KernelBoot.v ===== *)
(** * crates/core/src/lib.rs and engine/wasmtime_rt.rs: the kernel's start and its clock

    [SereinMicrokernel::new] in the order of its steps, the search for a component's file,
    the replacement of the tenant's component, and the epoch ticker that ends guests which
    do not end by themselves.  What SQLite, the linker, the file system and the compiler
    answer are arguments. *)
From Stdlib Require Import Ascii String.
From S2P Require Import Prelude RustStr WasiVirt TpmMeasure MockHsm.
From S2P Require Import HotSwap AbiGuard Masking HostStore Microkernel.
From S2P Require ModelInterface.

Local Open Scope string_scope.

(** ** Components on disk *)

(** The places that are tried, in order. *)
Definition component_paths (root_dir name : string) : list string :=
  let target_dir := ModelInterface.join root_dir "target" in
  [ModelInterface.join root_dir name;
   ModelInterface.join (ModelInterface.join root_dir "modules") name;
   ModelInterface.join (ModelInterface.join target_dir "wasm32-wasip1/release") name;
   ModelInterface.join (ModelInterface.join target_dir "wasm32-wasi/release") name].

(** [current_dir] is the working directory, [exists_] the files that there are. *)
Definition find_wasm_component (current_dir : result string string) (exists_ : string -> bool) (name : string) :
    result string string :=
  match current_dir with
  | Err e => Err ("Failed to determine workspace directory: " ++ e)
  | Ok root_dir =>
      match List.find exists_ (component_paths root_dir name) with
      | Some p => Ok p
      | None => Err ("Wasm component '" ++ name ++ "' not found - ensure it is placed in the project root")
      end
  end.

Section boot.
Context `{KernelText} {Component : Type}.

(** [read] is the file system, [from_binary] wasmtime's compiler on its own thread
    ([None]: the thread panicked). *)
Definition load_component (current_dir : result string string) (exists_ : string -> bool)
    (read : string -> option string) (from_binary : string -> option (option Component)) (name : string) :
    result Component string :=
  path <-? find_wasm_component current_dir exists_ name ;;
  match read path with
  | None => Err "Failed to read Wasm component"
  | Some bytes =>
      match from_binary bytes with
      | None => Err "Tokio spawn_blocking failed"
      | Some None => Err "Failed to parse Wasm component binary"
      | Some (Some component) => Ok component
      end
  end.

Definition update_tenant_component current_dir exists_ read from_binary (name : string)
    (k : SereinMicrokernel) : outcome (SereinMicrokernel * result unit string) :=
  match load_component current_dir exists_ read from_binary name with
  | Err e => Ret (k, Err e)
  | Ok component =>
      c ← installed "tenant_component" component (tenant_component k);
      Ret (set_tenant c k, Ok tt)
  end.

(** ** Start *)

(** The answers of what is not in the repository, step by step. *)
Record BootWorld := mkWorld {
  engine_new : option string;
  sqlite_connect : bool;
  create_schema : bool;
  link_wasi : bool;
  link_persist : bool;
  link_nn : bool;
  device_exists : string -> bool }.

(** What [new] builds besides the state of [Microkernel]. *)
Record Booted := mkBooted {
  kernel : @SereinMicrokernel Component;
  nn_linked : bool;
  boot_hsm : MockHsm;
  honeypot_ctx : WasiVirtContext;
  epoch_ticker : bool }.

Definition wasi_nn_enabled (var : option string) : bool :=
  match var with
  | None => true
  | Some s => if bool_decide (s = "false") then false else true
  end.

Definition or_context (ok : bool) (message : string) : result unit string :=
  if ok then Ok tt else Err message.

(** [nn_feature] is the feature wasi-nn of the core crate, [nn_var] the variable
    WASI_NN_ENABLED, [key_var] the master key. *)
Definition boot `{Crypto} (nn_feature : bool) (w : BootWorld) (now : Z) (nn_var key_var : option string)
    (ctx : WasiVirtContext) : result Booted string :=
  match engine_new w with
  | Some e => Err e
  | None =>
      _ <-? or_context (sqlite_connect w) "Failed to initialize kernel-space ephemeral storage" ;;
      _ <-? or_context (create_schema w) "Failed to initialize execution_records schema in ephemeral storage" ;;
      _ <-? load_master_key key_var ;;
      _ <-? or_context (link_wasi w) "Failed to link WASI interfaces" ;;
      _ <-? or_context (link_persist w) "Failed to link PersistRecord host functions" ;;
      let nn := nn_feature && wasi_nn_enabled nn_var in
      _ <-? (if nn then or_context (link_nn w) "Failed to link WASI-NN host interface" else Ok tt) ;;
      match mock_new false (device_exists w) with
      | Err _ => Err "MockHsm initialization failed"
      | Ok hsm =>
          k <-? kernel_new now key_var ;;
          Ok (mkBooted k nn hsm ctx (epoch_interruption (config k)))
      end
  end.

Lemma load_master_key_Ok `{Crypto} var m : load_master_key var = Ok m ->
  exists key, var = Some key /\ len key = 64 /\ is_ok (hex_decode key) = true.
Proof.
  unfold load_master_key. destruct var as [key|]; [|done]. destruct (decide _) as [|Hl]; [done|].
  destruct (hex_decode key) eqn:Hh; [|done]. intros _. exists key. rewrite Hh. split_and!; [done|lia|done].
Qed.

(** A kernel that starts has a valid master key, no component to run and the epoch
    ticker, whatever the environment holds; without a tenant's component every request that
    passes the gates is answered with an error. *)
Theorem boot_spec `{Crypto} nn_feature w now nn_var key_var ctx b :
  boot nn_feature w now nn_var key_var ctx = Ok b ->
  (exists key, key_var = Some key /\ len key = 64 /\ is_ok (hex_decode key) = true) /\
  tenant_component (kernel b) = None /\ aegis_component (kernel b) = None /\
  module_cache (kernel b) = ∅ /\ epoch_ticker b = true /\ honeypot_ctx b = ctx /\
  (nn_linked b = true <-> nn_feature = true /\ nn_var <> Some "false") /\
  (forall guest payload, exists e, (execute_guest guest payload (kernel b)) = Ret (kernel b, Err e)).
Proof.
  unfold boot, or_context. intros Hb.
  repeat match type of Hb with
  | match ?x with _ => _ end = Ok _ => destruct x eqn:?; cbn [result_bind] in Hb; try discriminate
  | result_bind ?x _ = Ok _ => destruct x eqn:?; cbn [result_bind] in Hb; try discriminate
  end.
  injection Hb as <-. cbn.
  match goal with Hl : load_master_key _ = Ok _ |- _ => apply load_master_key_Ok in Hl end.
  match goal with Hk : kernel_new _ _ = Ok _ |- _ => revert Hk end.
  unfold kernel_new. destruct (load_master_key key_var); [|done]. intros [= <-].
  split_and!; try done; [|by intros; eexists].
  unfold wasi_nn_enabled. destruct nn_feature, nn_var as [v|]; cbn; try case_bool_decide; naive_solver.
Qed.
End boot.

(** ** Epochs

    The ticker's task waits for its next tick and advances the engine's epoch, over and
    over: the first tick is due when the task starts and each one an interval after the one
    before, whenever that one was served ([Burst]): ticks that are late are served as fast
    as the task gets to run.  When it does is up to the runtime: a [Wake] is one turn of
    the loop's body, which finds a tick due or goes on waiting.  Instants are milliseconds. *)
Record EpochTicker := mkTicker { interval : Z; next_tick : Z; epoch : Z; aborted : bool }.
Definition ticker_start (started interval_ms : Z) : EpochTicker := mkTicker interval_ms started 0 false.
Definition start_epoch_ticker (started : Z) : EpochTicker := ticker_start started EPOCH_INTERVAL_MS.
Definition ticker_drop (t : EpochTicker) : EpochTicker :=
  mkTicker (interval t) (next_tick t) (epoch t) true.
Definition ticker_wake (now : Z) (t : EpochTicker) : EpochTicker :=
  if aborted t then t
  else if decide (next_tick t <= now)%Z
       then mkTicker (interval t) (next_tick t + interval t)%Z (epoch t + 1)%Z false
       else t.

Inductive ticker_event : Type := Wake (now : Z) | TickerDropped (now : Z).
Definition event_time (e : ticker_event) : Z := match e with Wake t | TickerDropped t => t end.
Definition ticker_step (t : EpochTicker) (e : ticker_event) : EpochTicker :=
  match e with Wake now => ticker_wake now t | TickerDropped _ => ticker_drop t end.
Definition run_ticker (l : list ticker_event) (t : EpochTicker) : EpochTicker := fold_left ticker_step l t.

(** [set_epoch_deadline] when a store is created; wasmtime ends the guest at its next
    check once the engine's epoch has reached the deadline. *)
Definition deadline_of (c : SecureRuntimeConfig) (t : EpochTicker) : Z := (epoch t + epoch_deadline c)%Z.
(** The guest whose store was created at [started], at [now]. *)
Definition interrupted (c : SecureRuntimeConfig) (started now : EpochTicker) : bool :=
  (deadline_of c started <=? epoch now)%Z.

(** No tick is late by [late] or more. *)
Definition punctual (late now : Z) (t : EpochTicker) : Prop :=
  aborted t = false /\ (now - late < next_tick t)%Z.

(** The tick that is next is the epoch's, and the ones before it were due. *)
Definition on_schedule (s now : Z) (t : EpochTicker) : Prop :=
  interval t = EPOCH_INTERVAL_MS /\ (0 <= epoch t)%Z /\ next_tick t = (s + epoch t * EPOCH_INTERVAL_MS)%Z /\
  (0 < epoch t -> s + (epoch t - 1) * EPOCH_INTERVAL_MS <= now)%Z.

Lemma on_schedule_later s now now' t : (now <= now')%Z -> on_schedule s now t -> on_schedule s now' t.
Proof. intros Hle (Hi & H0 & Hn & He). split_and!; [done..|]. intros Hp. specialize (He Hp). lia. Qed.

Lemma on_schedule_run s now l t : Forall (fun e => event_time e <= now)%Z l ->
  on_schedule s now t -> on_schedule s now (run_ticker l t).
Proof.
  intros Hl. revert t. induction Hl as [|e l He _ IH]; intros t Ht; [done|]. apply IH.
  destruct Ht as (Hi & H0 & Hn & Hd), e as [u|u]; cbn in *; [|done]. unfold ticker_wake.
  destruct (aborted t); [done|]. case_decide; [|done]. unfold on_schedule. cbn. rewrite Hi in *. split_and!; [done|lia|lia|].
  intros _. replace (epoch t + 1 - 1)%Z with (epoch t) by lia. lia.
Qed.

Lemma aborted_run l t : aborted t = true -> aborted (run_ticker l t) = true /\ epoch (run_ticker l t) = epoch t.
Proof.
  revert t. induction l as [|e l IH]; intros t Ht; [done|]. cbn.
  assert (aborted (ticker_step t e) = true /\ epoch (ticker_step t e) = epoch t) as [Ha <-]; [|by apply IH].
  destruct e; cbn; unfold ticker_wake; by rewrite ?Ht.
Qed.

(** Overdue ticks are served at once. *)
Lemma burst n now t : aborted t = false -> (0 <= interval t)%Z ->
  (next_tick t + (Z.of_nat n - 1) * interval t <= now)%Z ->
  epoch (run_ticker (repeat (Wake now) n) t) = (epoch t + Z.of_nat n)%Z.
Proof.
  revert t. induction n as [|n IH]; intros t Ha Hi Hn; [cbn; lia|]. cbn [repeat]. cbn.
  unfold ticker_wake at 1. rewrite Ha, decide_True by nia. fold (run_ticker (repeat (Wake now) n)).
  change (fold_left ticker_step ?l ?x) with (run_ticker l x). rewrite IH; cbn; [lia|done|done|nia].
Qed.

(** C39: a guest is interrupted in time as far as the runtime serves the epoch ticker in time,
    however its wakes fall: if no tick was late by [late] milliseconds when the guest
    started, it gets more than 9.9 seconds less [late]; if none is at a later instant, it
    has been interrupted by then when it has run for 10 seconds and [late]; once the ticker
    is dropped, no guest is interrupted that starts afterwards; and a guest that starts when
    the ticker is 9.9 seconds behind is interrupted without having run at all, since the
    missed ticks are made up for at once. *)
Theorem guest_interrupted_in_time s before since started now late :
  (s <= started <= now)%Z -> (0 <= late)%Z ->
  Forall (fun e => event_time e <= started)%Z before -> Forall (fun e => event_time e <= now)%Z since ->
  let t0 := run_ticker before (start_epoch_ticker s) in
  let t1 := run_ticker since t0 in
  (punctual late started t0 -> interrupted runtime_default t0 t1 = true -> 9900 - late < now - started)%Z /\
  (punctual late now t1 -> 10000 + late <= now - started -> interrupted runtime_default t0 t1 = true)%Z /\
  (aborted t0 = true -> interrupted runtime_default t0 t1 = false) /\
  (aborted t0 = false -> next_tick t0 + 9900 <= started ->
     interrupted runtime_default t0 (run_ticker (repeat (Wake started) 100) t0) = true)%Z.
Proof.
  intros Hs Hlate Hb Hn t0 t1.
  assert (on_schedule s started t0) as H0 by (apply on_schedule_run; [done|by split_and!; cbn; lia]).
  assert (on_schedule s now t1) as H1 by (apply on_schedule_run; [done|by eapply on_schedule_later; [|exact H0]; lia]).
  assert (epoch t0 <= 0 \/ 0 < epoch t0)%Z as He by lia.
  destruct H0 as (Hi & Hp0 & Hn0 & Hd0), H1 as (_ & Hp1 & Hn1 & Hd1). unfold EPOCH_INTERVAL_MS in *.
  unfold interrupted, deadline_of, punctual. cbn [epoch_deadline runtime_default].
  split_and!.
  - rewrite Z.leb_le. intros [_ Hp] Hr. specialize (Hd1 ltac:(lia)). lia.
  - rewrite Z.leb_le. intros [_ Hp] Hr. destruct He as [He|He]; [|specialize (Hd0 He)]; lia.
  - intros Ha. rewrite Z.leb_gt. destruct (aborted_run since t0 Ha) as [_ He1]. unfold t1. rewrite He1. lia.
  - intros Ha Hst. rewrite burst; [rewrite Z.leb_le; lia|done|lia|]. rewrite Hi. lia.
Qed.

(** A component is looked for under the name as it is given: the first place that exists
    counts, and an absolute name is its own place whatever the directory. *)
Theorem find_wasm_component_spec root exists_ name :
  (forall p, find_wasm_component (Ok root) exists_ name = Ok p ->
     exists_ p = true /\ p ∈ component_paths root name) /\
  (is_ok (find_wasm_component (Ok root) exists_ name) = false <->
     Forall (fun p => exists_ p = false) (component_paths root name)) /\
  (starts_with "/" name = true -> exists_ name = true -> find_wasm_component (Ok root) exists_ name = Ok name).
Proof.
  unfold find_wasm_component. split_and!.
  - intros p. destruct (List.find _ _) as [q|] eqn:Hf; [|done]. intros [= <-].
    apply List.find_some in Hf as [Hin Hq]. split; [done|]. by apply list_elem_of_In.
  - destruct (List.find _ _) as [q|] eqn:Hf; cbn.
    + apply List.find_some in Hf as [Hin Hq]. apply list_elem_of_In in Hin. split; [done|].
      intros Hall. rewrite Forall_forall in Hall. by rewrite (Hall q Hin) in Hq.
    + split; [|done]. intros _. apply Forall_forall. intros q Hq.
      apply (List.find_none _ _ Hf). by apply list_elem_of_In.
  - intros Hn He. unfold component_paths, ModelInterface.join at 1. rewrite Hn. cbn [List.find]. by rewrite He.
Qed.

(** Ticks are served three milliseconds late: the guest that starts at 9950 is interrupted
    at 19903, and would have to be by 19990. *)
Definition demo_ticks (first n : nat) : list ticker_event :=
  List.map (fun i => Wake (100 * Z.of_nat i + 3)%Z) (seq first n).
Lemma guest_interrupted_in_time_witness :
  let t0 := run_ticker (demo_ticks 0 100) (start_epoch_ticker 0) in
  interrupted runtime_default t0 (run_ticker (demo_ticks 100 100) t0) = true /\ (9900 - 5 < 19903 - 9950)%Z.
Proof.
  assert (forall a n b, forallb (fun e => event_time e <=? b)%Z (demo_ticks a n) = true ->
    Forall (fun e => event_time e <= b)%Z (demo_ticks a n)) as Hin.
  { intros a n b Hf. rewrite forallb_forall in Hf. apply Forall_forall.
    intros e He%list_elem_of_In%Hf. by apply Z.leb_le. }
  split.
  - apply (guest_interrupted_in_time 0 (demo_ticks 0 100) (demo_ticks 100 100) 9950 19990 40);
      [lia|lia|by apply Hin|by apply Hin|split; vm_compute; reflexivity|lia].
  - apply (guest_interrupted_in_time 0 (demo_ticks 0 100) (demo_ticks 100 100) 9950 19903 5);
      [lia|lia|by apply Hin|by apply Hin|split; vm_compute; reflexivity|vm_compute; reflexivity].
Defined.

Lemma find_wasm_component_spec_witness :
  find_wasm_component (Ok "/srv") (fun p => bool_decide (p = "/etc/evil.wasm")) "/etc/evil.wasm" =
  Ok "/etc/evil.wasm".
Proof.
  apply (find_wasm_component_spec "/srv" (fun p => bool_decide (p = "/etc/evil.wasm")) "/etc/evil.wasm");
    reflexivity.
Defined.

Definition demo_world : BootWorld := mkWorld None true true true true true (fun _ => false).
Definition demo_boot (nn_var : option string) : result (@Booted Z) string :=
  boot (Component := Z) (H0 := hex_crypto) true demo_world 0 nn_var (Some demo_key) (context_new 7).

(** With the sample key and devices absent, the kernel starts without a component. *)
Lemma boot_spec_witness : exists b, demo_boot (Some "false") = Ok b /\ tenant_component (kernel b) = None.
Proof.
  destruct (demo_boot (Some "false")) as [b|e] eqn:Hb; [|vm_compute in Hb; discriminate Hb].
  exists b. split; [reflexivity|].
  apply (boot_spec (H := demo_text) (H0 := hex_crypto) true demo_world 0 (Some "false") (Some demo_key) (context_new 7) b Hb).
Defined.
