(* ===== verification/PromptCache.v ===== *)
(** * crates/llm-router/src/prompt_cache.rs: cache directives in requests

    A manager wraps prompts and documents into content blocks and builds the request
    bodies of the providers from them.  JSON objects keep the order of insertion; SHA-256
    in hexadecimal, the serializer and the numbers of JSON are parameters. *)
From Stdlib Require Import Ascii String.
From S2P Require Import Prelude RustStr Json.

Local Open Scope string_scope.

Inductive Provider : Type := Gemini | Anthropic | DeepSeek | Groq.
Definition supports_prompt_caching (p : Provider) : bool :=
  match p with Gemini | Anthropic | DeepSeek => true | Groq => false end.
Definition requires_beta_header (p : Provider) : bool :=
  match p with Anthropic => true | _ => false end.

Record CacheDirective := mkDirective { cache_type : string }.

Record CacheStats := mkStats {
  total_cached_blocks : Z; total_cache_hits : Z; estimated_token_savings : Z }.

(** The statistics behind the mutex, and the switch. *)
Record PromptCacheManager := mkManager { stats : CacheStats; enabled : bool }.
Definition manager_new (enabled : bool) : PromptCacheManager := mkManager (mkStats 0 0 0) enabled.
Definition manager_default : PromptCacheManager := manager_new true.

Section prompt_cache.
Context {Number : Type} (num_of : Z -> Number) (sha256_hex : string -> string)
        (to_string : Value Number -> option string).

Record CachedContent := mkContent {
  role : string; parts : list (Value Number); cache_control : option CacheDirective;
  content_hash : string; estimated_tokens : Z }.

Record CacheAwarePayload := mkPayload {
  body : string; headers : list (string * string); provider : Provider }.

(** [temperature] is a JSON number already. *)
Record CacheAwarePayloadArgs := mkArgs {
  a_provider : Provider; a_system_prompt : CachedContent; a_documents : list CachedContent;
  a_user_query : string; a_temperature : Number; a_max_tokens : Z; a_model : string }.

(** [json!({..})], and an entry assigned to an object. *)
Definition object (entries : list (string * Value Number)) : Value Number :=
  JObject (map_collect entries).
Definition assign (key : string) (v obj : Value Number) : Value Number :=
  match obj with JObject m => JObject (map_insert key v m) | _ => obj end.
Definition ephemeral : Value Number := object [("type", JString "ephemeral")].
Definition text_block (text : string) : Value Number := object [("text", JString text)].

Definition fingerprint_content (content : string) : string := sha256_hex content.
Definition estimate_tokens (content : string) : Z := ((len content + 3) / 4) mod (U32_MAX + 1).

Definition directive (m : PromptCacheManager) : option CacheDirective :=
  if enabled m then Some (mkDirective "ephemeral") else None.

Definition wrap_system_prompt (prompt_text : string) (m : PromptCacheManager)
    : outcome (PromptCacheManager * CachedContent) :=
  let content_hash := fingerprint_content prompt_text in
  let estimated_tokens := estimate_tokens prompt_text in
  let s := stats m in
  blocks ← add_u U64_MAX (total_cached_blocks s) 1;
  Ret (mkManager (mkStats blocks (total_cache_hits s) (estimated_token_savings s)) (enabled m),
       mkContent "user" [text_block prompt_text] (directive m) content_hash estimated_tokens).

Definition wrap_document (document_text document_title : string) (m : PromptCacheManager)
    : outcome (PromptCacheManager * CachedContent) :=
  let full_content := "## " ++ document_title ++ newline ++ newline ++ document_text in
  let content_hash := fingerprint_content full_content in
  let estimated_tokens := estimate_tokens full_content in
  let s := stats m in
  blocks ← add_u U64_MAX (total_cached_blocks s) 1;
  savings ← add_u U64_MAX (estimated_token_savings s) (estimated_tokens * 9 / 10);
  Ret (mkManager (mkStats blocks (total_cache_hits s) savings) (enabled m),
       mkContent "user" [text_block full_content] (directive m) content_hash estimated_tokens).

(** ** Requests *)

Definition gemini_content (cached : CachedContent) : Value Number :=
  let content_obj := object [("role", JString (role cached)); ("parts", JArray (parts cached))] in
  match cache_control cached with
  | Some cc => assign "cache_control" (object [("type", JString (cache_type cc))]) content_obj
  | None => content_obj
  end.

Definition build_gemini_request (cached_contents : list CachedContent) (user_query : string)
    (temperature : Number) (max_output_tokens : Z) : Value Number :=
  let contents :=
    (List.map gemini_content cached_contents ++
     [object [("role", JString "user"); ("parts", JArray [text_block user_query])]])%list in
  object [("contents", JArray contents);
          ("generationConfig", object [("temperature", JNumber temperature);
                                       ("maxOutputTokens", JNumber (num_of max_output_tokens))])].

(** The text of a block's first part. *)
Definition first_text (c : CachedContent) : option (Value Number) := head (parts c).
Definition text_of (v : Value Number) : option string := t ← value_get "text" v; as_str t.

Definition anthropic_block (c : CachedContent) : list (Value Number) :=
  match first_text c with
  | Some text_val =>
      let text_str := default "" (text_of text_val) in
      let block := object [("type", JString "text"); ("text", JString text_str)] in
      [match cache_control c with Some _ => assign "cache_control" ephemeral block | None => block end]
  | None => []
  end.

Definition build_anthropic_request (system_prompt : CachedContent) (documents : list CachedContent)
    (user_query model : string) (temperature : Number) (max_tokens : Z) : Value Number :=
  let system_blocks := List.flat_map anthropic_block (system_prompt :: documents) in
  let user_content := [object [("type", JString "text"); ("text", JString user_query)]] in
  let messages := [object [("role", JString "user"); ("content", JArray user_content)]] in
  object [("model", JString model); ("max_tokens", JNumber (num_of max_tokens));
          ("temperature", JNumber temperature); ("system", JArray system_blocks);
          ("messages", JArray messages)].

Definition system_text (c : CachedContent) : list string :=
  match first_text c with
  | Some text_val => match text_of text_val with Some text_str => [text_str] | None => [] end
  | None => []
  end.

Definition system_message (system_prompt : CachedContent) (documents : list CachedContent)
    : Value Number :=
  let system_text_parts := List.flat_map system_text (system_prompt :: documents) in
  let combined_system := String.concat (newline ++ newline) system_text_parts in
  let system_msg := object [("role", JString "system"); ("content", JString combined_system)] in
  match cache_control system_prompt with
  | Some _ => assign "cache_control" ephemeral system_msg
  | None => system_msg
  end.

Definition build_deepseek_request (system_prompt : CachedContent) (documents : list CachedContent)
    (user_query model : string) (temperature : Number) (max_tokens : Z) : Value Number :=
  let system_msg := system_message system_prompt documents in
  let messages := [system_msg; object [("role", JString "user"); ("content", JString user_query)]] in
  object [("model", JString model); ("messages", JArray messages);
          ("temperature", JNumber temperature); ("max_tokens", JNumber (num_of max_tokens))].

Definition request_body (args : CacheAwarePayloadArgs) : Value Number :=
  match a_provider args with
  | Gemini =>
      build_gemini_request (a_system_prompt args :: a_documents args) (a_user_query args)
        (a_temperature args) (a_max_tokens args)
  | Anthropic =>
      build_anthropic_request (a_system_prompt args) (a_documents args) (a_user_query args)
        (a_model args) (a_temperature args) (a_max_tokens args)
  | DeepSeek | Groq =>
      build_deepseek_request (a_system_prompt args) (a_documents args) (a_user_query args)
        (a_model args) (a_temperature args) (a_max_tokens args)
  end.

Definition build_cache_aware_payload (args : CacheAwarePayloadArgs) : CacheAwarePayload :=
  let headers :=
    (("Content-Type", "application/json") ::
     match a_provider args with
     | Anthropic => [("anthropic-beta", "prompt-caching-2024-07-31")]
     | _ => []
     end)%list in
  mkPayload (default "" (to_string (request_body args))) headers (a_provider args).

Definition record_cache_hit (m : PromptCacheManager) : outcome PromptCacheManager :=
  let s := stats m in
  hits ← add_u U64_MAX (total_cache_hits s) 1;
  Ret (mkManager (mkStats (total_cached_blocks s) hits (estimated_token_savings s)) (enabled m)).
Definition get_stats (m : PromptCacheManager) : CacheStats := stats m.

(** ** The cacheable part *)

(** What a request holds besides the query: the contents before it, the system blocks,
    the system message. *)
Definition static_part (p : Provider) (v : Value Number) : option (Value Number) :=
  match p with
  | Gemini =>
      match value_get "contents" v with Some (JArray l) => Some (JArray (removelast l)) | _ => None end
  | Anthropic => value_get "system" v
  | DeepSeek | Groq =>
      match value_get "messages" v with Some (JArray (system :: _)) => Some system | _ => None end
  end.

Definition static_of (p : Provider) (system_prompt : CachedContent) (documents : list CachedContent)
    : Value Number :=
  match p with
  | Gemini => JArray (List.map gemini_content (system_prompt :: documents))
  | Anthropic => JArray (List.flat_map anthropic_block (system_prompt :: documents))
  | DeepSeek | Groq => system_message system_prompt documents
  end.

(** The cacheable part of a request depends on the provider, the prompt and the documents
    alone: not on the query, the temperature, the token limit or the model. *)
Theorem static_part_stable p system_prompt documents q t n model :
  static_part p (request_body (mkArgs p system_prompt documents q t n model)) =
    Some (static_of p system_prompt documents).
Proof.
  destruct p; try reflexivity. cbn [static_of].
  etransitivity; [|by rewrite <- (removelast_last _ (object
    [("role", JString "user"); ("parts", JArray [text_block q])]))].
  reflexivity.
Qed.

Fixpoint has_key (key : string) (v : Value Number) : bool :=
  match v with
  | JArray l => existsb (has_key key) l
  | JObject m => existsb (fun e => String.eqb e.1 key || has_key key e.2) m
  | _ => false
  end.

(** A block as the manager's two functions make it. *)
Definition wrapped (m : PromptCacheManager) (c : CachedContent) : Prop :=
  cache_control c = directive m /\ exists text, parts c = [text_block text].

Lemma wrap_system_prompt_wrapped text m m' c :
  wrap_system_prompt text m = Ret (m', c) -> wrapped m c /\ enabled m' = enabled m.
Proof.
  unfold wrap_system_prompt. destruct (add_u _ _ _); simpl; [|done]. intros [= <- <-].
  split; [|done]. split; [done|]. by exists text.
Qed.
Lemma wrap_document_wrapped text title m m' c :
  wrap_document text title m = Ret (m', c) -> wrapped m c /\ enabled m' = enabled m.
Proof.
  unfold wrap_document. destruct (add_u _ (total_cached_blocks _) _); simpl; [|done].
  destruct (add_u _ _ _); simpl; [|done].
  intros [= <- <-]. split; [|done]. split; [done|]. by eexists.
Qed.

Lemma gemini_content_key m c :
  wrapped m c -> has_key "cache_control" (gemini_content c) = enabled m.
Proof.
  intros [Hc [text Hp]]. unfold gemini_content. rewrite Hc, Hp. unfold directive.
  destruct (enabled m); reflexivity.
Qed.
Lemma anthropic_block_key m c :
  wrapped m c -> existsb (has_key "cache_control") (anthropic_block c) = enabled m.
Proof.
  intros [Hc [text Hp]]. unfold anthropic_block, first_text. rewrite Hc, Hp. unfold directive.
  destruct (enabled m); reflexivity.
Qed.

(** The directive is in a request exactly when the manager that wrapped its blocks is
    enabled, whoever the provider is: also Groq, which is not said to support it. *)
Theorem directive_iff_enabled m system_prompt documents p q t n model :
  wrapped m system_prompt -> Forall (wrapped m) documents ->
  has_key "cache_control" (request_body (mkArgs p system_prompt documents q t n model)) = enabled m.
Proof.
  intros Hs Hd. unfold request_body. cbn [a_provider a_system_prompt a_documents a_user_query
    a_temperature a_max_tokens a_model].
  assert (Hall : forall f : CachedContent -> list (Value Number),
    (forall c, wrapped m c -> existsb (has_key "cache_control") (f c) = enabled m) ->
    existsb (has_key "cache_control") (List.flat_map f (system_prompt :: documents)) = enabled m).
  { intros f Hf. cbn. rewrite existsb_app, (Hf _ Hs). destruct (enabled m) eqn:E; [done|]. cbn.
    induction Hd as [|c l Hc Hd IH]; [done|]. cbn. by rewrite existsb_app, (Hf c Hc). }
  destruct p.
  - transitivity (existsb (has_key "cache_control") (List.map gemini_content (system_prompt :: documents) ++
      [object [("role", JString "user"); ("parts", JArray [text_block q])]])%list || false); [reflexivity|].
    rewrite existsb_app, !orb_false_r. rewrite <- (Hall (fun c => [gemini_content c])).
    2: { intros c Hc. cbn [existsb]. rewrite orb_false_r. by apply gemini_content_key. }
    clear. induction (system_prompt :: documents) as [|c l IH]; [done|]. cbn in *. by rewrite IH.
  - transitivity (existsb (has_key "cache_control")
      (List.flat_map anthropic_block (system_prompt :: documents)) || false); [reflexivity|].
    rewrite orb_false_r. apply Hall, anthropic_block_key.
  - unfold build_deepseek_request, system_message. destruct Hs as [-> _]. unfold directive.
    destruct (enabled m); reflexivity.
  - unfold build_deepseek_request, system_message. destruct Hs as [-> _]. unfold directive.
    destruct (enabled m); reflexivity.
Qed.
End prompt_cache.

(** Groq is sent the directive although it is not among the providers that support it; a
    disabled manager still counts savings; and the header of the beta goes to Anthropic. *)
Example groq_gets_directive :
  supports_prompt_caching Groq = false /\
  match wrap_system_prompt (Number := Z) (fun s => s) "rules" manager_default with
  | Ret (_, sys) =>
      has_key "cache_control" (request_body (fun z => z) (mkArgs Groq sys [] "q" 0 8 "m")) = true
  | Panic => False
  end.
Proof. split; vm_compute; reflexivity. Qed.

Example disabled_counts_savings :
  match wrap_document (Number := Z) (fun s => s) "some forty characters of document text ." "t"
          (manager_new false) with
  | Ret (m, c) => estimated_token_savings (stats m) = 10 /\ cache_control c = None
  | Panic => False
  end.
Proof. vm_compute. split; reflexivity. Qed.
