(* ===== verification/Web3.v ===== *)
(** * crates/llm-router/src/web3: billing and proof records

    Both functions only log: the cost of an inference, and the hash of a consensus with
    the number of nodes that agreed.  SHA-256 in hexadecimal and the text of a float with
    four decimals are parameters. *)
From Stdlib Require Import Ascii String.
From S2P Require Import Prelude RustStr F64.

Local Open Scope string_scope.

Section web3.
Context (sha256_hex : string -> string) (fixed4 : f64 -> string).

(** [to_le_bytes] of a [usize]. *)
Fixpoint le_bytes (k : nat) (n : Z) : string :=
  match k with
  | O => ""
  | S k => String (ascii_of_nat (Z.to_nat (n mod 256))) (le_bytes k (n / 256))
  end.
Definition to_le_bytes (n : Z) : string := le_bytes 8 n.

(** What the hasher is given, and the logged line. *)
Definition proof_preimage (consensus_output : string) (agreement_count : Z) : string :=
  consensus_output ++ to_le_bytes agreement_count.
Definition submit_verifiable_proof (consensus_output : string) (agreement_count : Z) : string :=
  "0x" ++ sha256_hex (proof_preimage consensus_output agreement_count).

Definition cost_usdc (tokens_used : Z) : f64 := f64_mul (f64_of_Z tokens_used) (f64_lit 15 7).
Definition deduct_inference_cost (tenant_id : string) (tokens_used : Z) : string * Z * string :=
  (tenant_id, tokens_used, fixed4 (cost_usdc tokens_used)).
End web3.

Lemma length_le_bytes k n : String.length (le_bytes k n) = k.
Proof. revert n. induction k as [|k IH]; intros n; [done|]. cbn. by rewrite IH. Qed.

Lemma le_bytes_inj k n m : 0 <= n < 256 ^ Z.of_nat k -> 0 <= m < 256 ^ Z.of_nat k ->
  le_bytes k n = le_bytes k m -> n = m.
Proof.
  revert n m. induction k as [|k IH]; intros n m Hn Hm; [cbn in *; lia|].
  rewrite Nat2Z.inj_succ, Z.pow_succ_r in Hn, Hm by lia. cbn [le_bytes]. intros Heq. injection Heq as Hc Ht.
  pose proof (Z.mod_pos_bound n 256 ltac:(lia)). pose proof (Z.mod_pos_bound m 256 ltac:(lia)).
  pose proof (Z_div_mod_eq_full n 256). pose proof (Z_div_mod_eq_full m 256).
  apply (f_equal nat_of_ascii) in Hc. rewrite !nat_ascii_embedding in Hc by lia.
  apply IH in Ht; [lia|split..]; try (apply Z.div_pos; lia); apply Z.div_lt_upper_bound; lia.
Qed.

Lemma app_suffix_inj a b x y : String.length x = String.length y -> a ++ x = b ++ y -> a = b /\ x = y.
Proof.
  intros Hl. revert b. induction a as [|c a IH]; intros [|d b] Heq.
  - done.
  - apply (f_equal String.length) in Heq. rewrite !length_string_app in Heq. cbn in Heq. lia.
  - apply (f_equal String.length) in Heq. rewrite !length_string_app in Heq. cbn in Heq. lia.
  - rewrite !string_app_cons in Heq. injection Heq as -> Heq. apply IH in Heq as [-> ->]. done.
Qed.

(** What is hashed determines the consensus and the number of nodes: records of different
    consensus never have the same hash unless SHA-256 collides on different texts. *)
Theorem proof_preimage_inj output count output' count' :
  fits USIZE_MAX count -> fits USIZE_MAX count' ->
  proof_preimage output count = proof_preimage output' count' -> output = output' /\ count = count'.
Proof.
  intros Hc Hc' Heq. apply app_suffix_inj in Heq as [-> Heq]; [|unfold to_le_bytes; by rewrite !length_le_bytes].
  split; [done|]. apply le_bytes_inj in Heq; [done|..]; unfold fits, USIZE_MAX in *; cbn; lia.
Qed.

Lemma proof_preimage_inj_witness :
  proof_preimage "a" 2 = proof_preimage "a" 2 -> "a" = "a" /\ 2 = 2.
Proof. apply (proof_preimage_inj "a" 2 "a" 2); unfold fits, USIZE_MAX; lia. Defined.
