(* ===== verification/LogSanitizer.v ===== *)
(** * crates/core/src/security/log_sanitizer.rs: cleaning of logs and transfers

    [sanitize] applies the redaction rules in order; [sanitize_for_wasm_transfer]
    removes what may not cross to a guest.  The replacement of each rule's pattern is
    the regex crate's: a parameter, given by its rule's position. *)
From Stdlib Require Import Ascii String.
From S2P Require Import Prelude RustStr.

Local Open Scope string_scope.

(** A rule: the pattern, its name and the replacement. *)
Record SanitizationRule := mkRule { pattern : string; rule_name : string; replacement : string }.
Definition SANITIZATION_RULES : list SanitizationRule :=
  [mkRule "\?key=[^&\s]+" "api_key_query" "?key=[REDACTED]";
   mkRule "(?i)Bearer\s+[A-Za-z0-9\-._~+/]+=*" "bearer_token" "Bearer [REDACTED]";
   mkRule ("(?mi)(api[_-]?key|token|secret|password|auth[_-]?token|access[_-]?key|private[_-]?key)[" ++
           String "034" "\s:=]+[^\s" ++ String "034" "{},]{8,}")
     "sensitive_key_value" "${1}=[REDACTED]";
   mkRule "[a-zA-Z0-9._%+-]+@[a-zA-Z0-9.-]+\.[a-zA-Z]{2,}" "email" "[EMAIL_REDACTED]"].
Definition IPV4_PATTERN : string := "\b\d{1,3}\.\d{1,3}\.\d{1,3}\.\d{1,3}\b".

(** [replace_all pattern text replacement]; [compiles]: [safe_regex] falls back to a
    pattern that matches nothing for a rule that does not compile. *)
Class RegexCrate := {
  compiles : string -> bool;
  replace_all : string -> string -> string -> string }.

Definition safe_regex `{RegexCrate} (p : string) : string := if compiles p then p else "a^".

Record LogSanitizer := mkSanitizer { mask_ipv4 : bool }.
Definition sanitizer_new : LogSanitizer := mkSanitizer false.
Definition with_ipv4_masking : LogSanitizer := mkSanitizer true.

Definition sanitize `{RegexCrate} (s : LogSanitizer) (input : string) : string :=
  let result :=
    fold_left (fun result rule => replace_all (safe_regex (pattern rule)) result (replacement rule))
      SANITIZATION_RULES input in
  if mask_ipv4 s then
    if compiles IPV4_PATTERN then replace_all IPV4_PATTERN result "[IP_REDACTED]" else result
  else result.

(** ** Transfers *)

(** U+FEFF and U+200B. *)
Definition bom : string := byte_string [239; 187; 191]%nat.
Definition zero_width_space : string := byte_string [226; 128; 139]%nat.
Definition trim_start_marks (s : string) : string :=
  trim_with (String.length s) [bom; zero_width_space] s.

(** [char::is_control]: the category Cc, one byte up to U+007F and two from U+0080 to
    U+009F. *)
Definition is_control (w : string) : bool :=
  match w with
  | String c "" => in_range 0 31 c || in_range 127 127 c
  | String c (String d "") => in_range 194 194 c && in_range 128 159 d
  | _ => false
  end.
Definition kept_control (w : string) : bool :=
  bool_decide (w = String "010" "") || bool_decide (w = String "013" "") ||
  bool_decide (w = String "009" "").
Definition replace_controls (s : string) : string :=
  collect_str (List.map (fun w => if is_control w && negb (kept_control w) then " " else w) (chars s)).

Definition sanitize_for_wasm_transfer (input : string) : string :=
  trim (replace_controls (trim_start_marks (trim input))).

(** ** Properties *)

(** The ASCII controls other than tab, line feed and carriage return. *)
Definition forbidden (c : ascii) : bool :=
  in_range 0 8 c || in_range 11 12 c || in_range 14 31 c || in_range 127 127 c.

Lemma replace_controls_lacks c s : forbidden c = true -> lacks c (replace_controls s) = true.
Proof.
  intros Hc. unfold replace_controls. apply lacks_collect, Forall_map.
  assert (in_range 0 127 c = true) as Hascii.
  { unfold forbidden in Hc. rewrite !orb_true_iff, !in_range_iff in Hc. apply in_range_iff. lia. }
  assert (Hspace : lacks c " " = true).
  { cbn [lacks]. destruct (Ascii.eqb_spec " " c); [by subst c|done]. }
  eapply Forall_impl; [by apply (chars_ascii c s)|]. intros w Hw.
  change (lacks c (if is_control w && negb (kept_control w) then " " else w) = true).
  destruct Hw as [->|Hw]; [|by case_match].
  replace (is_control (String c "") && negb (kept_control (String c ""))) with true; [done|].
  symmetry. apply andb_true_iff. split.
  - unfold is_control, forbidden in *. rewrite !orb_true_iff, !in_range_iff in *. lia.
  - unfold kept_control. apply negb_true_iff. rewrite !orb_false_iff.
    split_and!; apply bool_decide_eq_false; intros [= ->]; done.
Qed.

(** What crosses to a guest carries no ASCII control character other than tab,
    line feed and carriage return, whatever the text. *)
Theorem transfer_clean s c :
  forbidden c = true -> lacks c (sanitize_for_wasm_transfer s) = true.
Proof. intros Hc. by apply trim_lacks, replace_controls_lacks. Qed.

(** A compact JSON object without controls crosses unchanged. *)
Lemma transfer_identity body :
  let s := String "{" (body ++ String "}" "") in
  Forall (fun w => is_control w = false) (chars s) -> sanitize_for_wasm_transfer s = s.
Proof.
  intros s Hs. unfold sanitize_for_wasm_transfer.
  assert (Htrim : trim s = s).
  { unfold trim, s. rewrite trim_start_solid by auto.
    change (String "{" (body ++ String "}" "")) with (String "{" body ++ String "}" "").
    apply trim_end_solid. auto. }
  rewrite Htrim. unfold trim_start_marks. rewrite trim_with_stop by reflexivity.
  unfold replace_controls. rewrite (map_ext_in _ (fun w => w)), map_id, chars_collect; [done|].
  rewrite List.Forall_forall in Hs. intros w Hw. by rewrite (Hs w Hw).
Qed.

(** Only leading marks are removed, and a control in front of one hides it: cleaning
    twice is not cleaning once. *)
Example marks_survive :
  let s := String "001" (bom ++ "x") in
  sanitize_for_wasm_transfer s = bom ++ "x" /\
  sanitize_for_wasm_transfer (sanitize_for_wasm_transfer s) = "x".
Proof. split; vm_compute; reflexivity. Qed.

Lemma transfer_clean_witness : lacks "000" (sanitize_for_wasm_transfer (String "000" "x")) = true.
Proof. apply (transfer_clean (String "000" "x") "000"). reflexivity. Defined.
