(* ===== verification/Gateway.v ===== *)
(** * apps/gateway/src/main.rs: the HTTP handlers

    [handle_agent_execution] takes a request through identity, authentication, rate
    limit, budget, input checks, firewall, consensus and recording;
    [handle_hot_swap] replaces the tenant's component.  The handlers call the
    components of this library; the web server, header parsing, IP networks,
    serde_json and the clocks are parameters.  What runs concurrently or later (the
    spawned refund, the cache's write-back) is run when its handler returns. *)
From Stdlib Require Import Ascii String.
From S2P Require Import Prelude F64 RustStr Json PayloadValidator HotSwap AbiGuard Masking.
From S2P Require Import HostStore EgressGuard Oracle Microkernel HmacAuth RateLimiter FinOps.
From S2P Require Import TmrConsensus PiiMask Coordinator ComplianceBus DeterministicHooks.
From S2P Require Import FlightRecorder LogSanitizer.
From S2P Require Payload CachedResults.

Local Open Scope string_scope.

(** ** Addresses *)

Definition CLOUDFLARE_CIDRS : list string :=
  ["173.245.48.0/20"; "103.21.244.0/22"; "103.22.200.0/22"; "103.31.4.0/22"; "141.101.64.0/18";
   "108.162.192.0/18"; "190.93.240.0/20"; "188.114.96.0/20"; "197.234.240.0/22"; "198.41.128.0/17";
   "162.158.0.0/15"; "104.16.0.0/13"; "104.24.0.0/14"; "172.64.0.0/13"; "131.0.72.0/22";
   "2400:cb00::/32"; "2606:4700::/32"; "2803:f800::/32"; "2405:b500::/32"; "2405:8100::/32";
   "2a06:98c0::/29"; "2c0f:f248::/32"].

(** The values of the headers that are readable text, by lower-case name. *)
Definition HeaderMap : Type := string -> option string.

(** The libraries: [net_contains cidr ip] is whether the text is a network that
    contains the address; the other texts are those of the standard library, chrono and
    serde_json, whose objects keep the order of their fields in this build. *)
Class GatewayText := {
  net_contains : string -> IpAddr -> bool;
  parse_ip : string -> option IpAddr;
  ip_to_string : IpAddr -> string;
  f64_display : f64 -> string;
  debug_str : string -> string;
  datetime_text : Z -> string;
  number_text : f64 -> string;
  to_string : Value string -> option string;
  parse_value : string -> option (Value string);
  gateway_serde : CachedResults.SerdeJson }.
#[export] Existing Instance gateway_serde.

Definition node_error_debug `{GatewayText} (e : TmrNodeError) : string :=
  match e with
  | HttpForbidden => "HttpForbidden"
  | HttpRateLimited => "HttpRateLimited"
  | NodeTimeout => "Timeout"
  | CircuitBreakerOpen => "CircuitBreakerOpen"
  | NodeServerError code => "ServerError(" ++ pretty code ++ ")"
  | ParseError detail => "ParseError(" ++ debug_str detail ++ ")"
  | NodeNetworkError detail => "NetworkError(" ++ debug_str detail ++ ")"
  end.
Definition payload_to_value `{GatewayText} (p : IntermediatePayload) : Value string :=
  map_numbers (fun n => match n with Payload.Int n => pretty n | Payload.Float f => number_text f end)
    (Payload.payload_ser p).

(** ** Requests and responses *)

Record AgentExecutionPayload := mkAgentPayload { b_network_id : string; b_task_type : option string }.

(** The answer's [TmrConsensus]: node counts are cut to 8 bits. *)
Record TmrConsensus := mkTmrConsensus {
  c_result : string; c_agreeing_nodes : Z; c_total_nodes : Z; c_adjudication_logic : string }.
Record AgentExecutionResponse := mkAgentResponse {
  consensus : TmrConsensus; payload : option IntermediatePayload; r_tenant_id : string;
  kernel_receipt : Value string }.

Inductive Body : Type :=
  | ErrorResponse (error code : string)
  | Executed (r : AgentExecutionResponse)
  | Swapped (previous_size_bytes new_size_bytes : Z).
Record Response := mkResponse { status : Z; body : Body; transparency : bool }.

Definition refuse (status : Z) (error code : string) : Response :=
  mkResponse status (ErrorResponse error code) false.
Definition inject_ai_transparency_headers (r : Response) : Response :=
  mkResponse (status r) (body r) true.

(** ** State *)

Section gateway.
Context `{PiiRegex, HashOrder, Redis, LlmText, RedisStrings, Matchers, GatewayText}.
Context {Component : Type}.

(** [AppState] with the state behind its handles: the nonce cache, the rate limiter of
    the process, the budgets and the semantic cache in Redis. *)
Record AppState := mkState {
  kernel : @SereinMicrokernel Component;
  tmr_orchestrator : TmrOrchestrator;
  flight_recorder : ConsensusFlightRecorder;
  service_auth : option ServiceAuthenticator;
  nonces : NonceCache;
  compliance_tx : ComplianceBus;
  waf : PromptInjectionWaf;
  wasm_module : string;
  finops_manager : FinOpsBudgetManager;
  rate_limiter : option ApiRateLimiter;
  budgets : db;
  semantic_cache : sdb }.

Definition set_compliance (b : ComplianceBus) (s : AppState) : AppState :=
  mkState (kernel s) (tmr_orchestrator s) (flight_recorder s) (service_auth s) (nonces s) b (waf s)
    (wasm_module s) (finops_manager s) (rate_limiter s) (budgets s) (semantic_cache s).
Definition set_nonces (c : NonceCache) (s : AppState) : AppState :=
  mkState (kernel s) (tmr_orchestrator s) (flight_recorder s) (service_auth s) c (compliance_tx s)
    (waf s) (wasm_module s) (finops_manager s) (rate_limiter s) (budgets s) (semantic_cache s).
Definition set_limiter (l : option ApiRateLimiter) (s : AppState) : AppState :=
  mkState (kernel s) (tmr_orchestrator s) (flight_recorder s) (service_auth s) (nonces s)
    (compliance_tx s) (waf s) (wasm_module s) (finops_manager s) l (budgets s) (semantic_cache s).
Definition set_budgets (d : db) (s : AppState) : AppState :=
  mkState (kernel s) (tmr_orchestrator s) (flight_recorder s) (service_auth s) (nonces s)
    (compliance_tx s) (waf s) (wasm_module s) (finops_manager s) (rate_limiter s) d (semantic_cache s).
Definition set_orchestrator (o : TmrOrchestrator) (s : AppState) : AppState :=
  mkState (kernel s) o (flight_recorder s) (service_auth s) (nonces s) (compliance_tx s) (waf s)
    (wasm_module s) (finops_manager s) (rate_limiter s) (budgets s) (semantic_cache s).
Definition set_semantic (c : sdb) (s : AppState) : AppState :=
  mkState (kernel s) (tmr_orchestrator s) (flight_recorder s) (service_auth s) (nonces s)
    (compliance_tx s) (waf s) (wasm_module s) (finops_manager s) (rate_limiter s) (budgets s) c.
Definition set_recorder (r : ConsensusFlightRecorder) (s : AppState) : AppState :=
  mkState (kernel s) (tmr_orchestrator s) r (service_auth s) (nonces s) (compliance_tx s) (waf s)
    (wasm_module s) (finops_manager s) (rate_limiter s) (budgets s) (semantic_cache s).
Definition set_module (k : @SereinMicrokernel Component) (m : string) (s : AppState) : AppState :=
  mkState k (tmr_orchestrator s) (flight_recorder s) (service_auth s) (nonces s) (compliance_tx s)
    (waf s) m (finops_manager s) (rate_limiter s) (budgets s) (semantic_cache s).

(** What one request finds: the clocks' readings, the refund's fate, the
    circumstances of the dispatch, and whether the 55 seconds ran out in it, and what it
    had made of the orchestrator and the budgets by then. *)
Record Env := mkEnv {
  clk : nat -> Z;
  wall_secs : Z;
  instant : Z;
  wall_ms : Z;
  env_refund_net : Network;
  env_refund_at : Z;
  circumstances : Circumstances;
  redis_up : bool;
  redis_time : Z;
  interrupted : option (TmrOrchestrator * db) }.

(** ** Identity *)

Definition is_trusted_proxy (socket_ip : IpAddr) : bool :=
  existsb (fun cidr => net_contains cidr socket_ip) CLOUDFLARE_CIDRS.

Definition extract_trusted_ip (headers : HeaderMap) (socket_ip : IpAddr) : IpAddr :=
  if is_trusted_proxy socket_ip then
    match headers "cf-connecting-ip" with
    | Some cf_ip =>
        match split_char "," cf_ip with
        | ip_str :: _ => default socket_ip (parse_ip (trim ip_str))
        | [] => socket_ip
        end
    | None => socket_ip
    end
  else socket_ip.

Definition extract_tenant_id (headers : HeaderMap) : result string Z :=
  match headers "x-serein-tenant-id" with
  | Some tenant => let clean := trim tenant in if is_empty clean then Err 401 else Ok clean
  | None => Err 401
  end.

Definition emit_audit_event (e : Env) (tenant_id : string) (client_ip : IpAddr) (raw_payload : string)
    (action : AuditAction) (s : AppState) : AppState :=
  let event := event_new (wall_ms e) tenant_id (ip_to_string client_ip) raw_payload action in
  set_compliance (emit event (compliance_tx s)).1 s.

(** ** Authentication *)

Definition hmac_code (e : HmacAuthError) : string :=
  match e with
  | TimestampMismatch => "TIMESTAMP_MISMATCH"
  | VerificationFailed _ => "REPLAY_WINDOW_VIOLATION"
  | InvalidFormat => "HMAC_INVALID_FORMAT"
  | ReplayDetected => "REPLAY_ATTACK_DETECTED"
  | ComputationFailed _ => "HMAC_COMPUTATION_FAILED"
  | MissingToken => "HMAC_TOKEN_MISSING"
  end.
Definition hmac_action (e : HmacAuthError) : AuditAction :=
  match e with ReplayDetected => BLOCKED_BY_REPLAY | _ => BLOCKED_BY_AUTH end.

Definition request_timestamp_of (headers : HeaderMap) : Z :=
  default 0 (s ← headers "x-serein-timestamp"; parse_i64 s).
Definition nonce_of (headers : HeaderMap) : string := default "" (headers "x-serein-nonce").

(** [Some]: the request is refused. *)
Definition authenticate (e : Env) (headers : HeaderMap) (tenant_id : string) (client_ip : IpAddr)
    (network_id task_type : string) (s : AppState) : outcome (AppState * option Response) :=
  match service_auth s with
  | None => Ret (s, None)
  | Some auth =>
      match headers "authorization" with
      | Some auth_header =>
          let request_timestamp := request_timestamp_of headers in
          let nonce := nonce_of headers in
          if is_empty nonce then
            Ret (emit_audit_event e tenant_id client_ip "missing nonce" BLOCKED_BY_AUTH s,
                 Some (refuse 401 "Missing x-serein-nonce header - UUID nonce required for idempotency"
                         "MISSING_NONCE"))
          else if decide (request_timestamp = 0) then
            Ret (emit_audit_event e tenant_id client_ip "missing timestamp" BLOCKED_BY_AUTH s,
                 Some (refuse 401 "Missing or invalid x-serein-timestamp header - epoch seconds required"
                         "MISSING_TIMESTAMP"))
          else
            let payload := tenant_id ++ ":" ++ network_id ++ ":" ++ task_type ++ ":" ++
                           pretty request_timestamp ++ ":" ++ nonce in
            '(c, r) ← validate_auth_header (wall_secs e) (instant e) auth_header payload
                        request_timestamp auth (nonces s);
            let s := set_nonces c s in
            match r with
            | Err err =>
                Ret (emit_audit_event e tenant_id client_ip "HMAC auth failed" (hmac_action err) s,
                     Some (refuse 401 "HMAC signature verification failed" (hmac_code err)))
            | Ok _ => Ret (s, None)
            end
      | None =>
          Ret (emit_audit_event e tenant_id client_ip "missing auth header" BLOCKED_BY_AUTH s,
               Some (refuse 401 "Authorization header required for HMAC authentication"
                       "MISSING_AUTH_HEADER"))
      end
  end.

(** ** Execution *)

Definition valid_task_type (task_type : string) : bool :=
  (len task_type <=? 50)%Z && all_chars (fun c => is_ascii_alphanumeric c || is_ascii_whitespace c) task_type.

Definition execution_prompt (network_id task_type : string) : string :=
  let network := Coordinator.to_lowercase network_id in
  "You are a deterministic Web3 agent execution engine. Extract execution parameters for network " ++
  quoted network ++ " and task type " ++ quoted task_type ++ "." ++ newline ++
  "Respond ONLY with a JSON object matching this exact schema:" ++ newline ++
  "{" ++ newline ++
  "  " ++ quoted "networkId" ++ ": " ++ quoted network ++ "," ++ newline ++
  "  " ++ quoted "taskType" ++ ": " ++ quoted task_type ++ "," ++ newline ++
  "  " ++ quoted "maxGasLimit" ++ ": <integer: estimated max gas limit, or 0 if unknown>," ++ newline ++
  "  " ++ quoted "confidenceScore" ++ ": <float: 0.0 to 1.0 representing certainty>," ++ newline ++
  "  " ++ quoted "sourceUrl" ++ ": " ++ quoted "<string: official data source URL or 'unknown'>" ++ newline ++
  "}" ++ newline ++
  "No explanation, no markdown fences, just the JSON object.".

(** A dispatch that is cut short leaves what it works on, the fallback node, the breakers,
    the masking and the budgets, as [x] has them, the budgets only where the orchestrator
    has a manager for them; how the orchestrator is configured stays. *)
Definition cut_short (x : TmrOrchestrator * db) (s : AppState) : AppState :=
  let o := tmr_orchestrator s in
  set_orchestrator
    (mkOrchestrator (fallback_node x.1) (fallback_trigger_count x.1) (adapters x.1) (tmr_engine o)
       (canonical_strategy o) (o_min_agreement o) (Coordinator.cache o) (pii_protector x.1) (masking_maps x.1)
       (finops o))
    (set_budgets (match finops o with Some _ => x.2 | None => budgets s end) s).

(** The consensus within 55 seconds, and the write-back of its cache entries. *)
Definition run_consensus (e : Env) (req : ProviderRequest) (s : AppState)
    : outcome (AppState * TmrConsensusResult) :=
  match interrupted e with
  | Some x => Ret (cut_short x s, TmrConsensusResult_default)
  | None =>
      '(o, d, (r, effects)) ←
        execute_consensus_providers CachedResults.result_to_json CachedResults.result_from_json (redis_up e) (redis_time e)
          (circumstances e) req (tmr_orchestrator s) (budgets s) (semantic_cache s);
      Ret (set_semantic (write_back (redis_up e) (redis_time e) CACHE_TTL_SECS effects (semantic_cache s))
             (set_orchestrator o (set_budgets d s)), r)
  end.

(** The answers to record, by provider. *)
Definition node_entry (nr : TmrNodeResult) : list (string * string) :=
  match n_output nr, n_error nr with
  | Some text, None => [(provider_name nr, text)]
  | _, Some err => [(provider_name nr, "ERROR: " ++ node_error_debug err)]
  | None, None => []
  end.
Definition provider_results_of (r : TmrConsensusResult) : list (string * string) :=
  (List.flat_map node_entry (node_results r) ++
   match fallback_result r with
   | Some fb => match f_output fb with Some out => [("FallbackNodeD", out)] | None => [] end
   | None => []
   end)%list.
Definition result_entry (p : string * string) : ProviderResultEntry :=
  let '(name, output) := p in
  if starts_with "ERROR:" output then mkProviderResult name "error" None
  else
    mkProviderResult name "success"
      (match from_llm_output output with Ok p => Some (Coordinator.canonical_key p) | Err _ => None end).

Definition as_u8 (n : nat) : Z := Z.of_nat n mod 256.
Definition logic_of (r : TmrConsensusResult) : string :=
  if Coordinator.fallback_activated r
  then "canonical_key_majority_with_fallback" else "canonical_key_majority".

Definition consensus_event (e : Env) (tenant_id prompt : string)
    (consensus_payload : option IntermediatePayload) (r : TmrConsensusResult) : ConsensusEvent :=
  FlightRecorder.mkEvent (wall_ms e) ("tmr-" ++ pretty (wall_ms e)) tenant_id prompt
    (JObject [("cloud_timeout_ms", JNumber "30000");
              ("fallback_activated", JBool (Coordinator.fallback_activated r))])
    (as_u8 (Coordinator.agreement_count r)) (as_u8 (Coordinator.total_nodes r)) (logic_of r)
    (match consensus_payload with Some p => payload_to_value p | None => JNull end)
    (List.map result_entry (provider_results_of r)) (Coordinator.fallback_activated r).

(** What follows an achieved consensus. *)
Definition conclude (e : Env) (tenant_id : string) (client_ip : IpAddr) (prompt : string)
    (r : TmrConsensusResult) (guard : FinOpsRefundGuard) (s : AppState)
    : AppState * FinOpsRefundGuard * Response :=
  let consensus_payload :=
    match Coordinator.majority_output r with
    | Some output => match from_llm_output output with Ok p => Some p | Err _ => None end
    | None => None
    end in
  let adjudicated :=
    match consensus_payload with Some p => to_string (payload_to_value p) | None => Some "" end in
  match adjudicated with
  | None => (s, guard, refuse 500 "Internal serialization failure" "SERIALIZATION_FAILED")
  | Some adjudicated_json =>
      let consensus :=
        mkTmrConsensus adjudicated_json (as_u8 (Coordinator.agreement_count r))
          (as_u8 (Coordinator.total_nodes r)) (logic_of r) in
      let s :=
        if (2 <=? Coordinator.agreement_count r)%nat
        then set_recorder (record_consensus_event datetime_text to_string
               (consensus_event e tenant_id prompt consensus_payload r) (flight_recorder s)) s
        else s in
      let adjudicated_json := sanitize_for_wasm_transfer adjudicated_json in
      let receipt :=
        default (JObject [("raw", JString adjudicated_json)]) (parse_value adjudicated_json) in
      let s := emit_audit_event e tenant_id client_ip adjudicated_json ALLOWED s in
      (s, consume guard,
       inject_ai_transparency_headers
         (mkResponse 200 (Executed (mkAgentResponse consensus consensus_payload tenant_id receipt)) false))
  end.

(** From the budget guard's creation to the handler's return. *)
Definition execute_request (e : Env) (tenant_id : string) (client_ip : IpAddr)
    (body : AgentExecutionPayload) (task_type : string) (guard : FinOpsRefundGuard) (s : AppState)
    : outcome (AppState * FinOpsRefundGuard * Response) :=
  if negb (valid_network_id (b_network_id body)) then
    Ret (s, guard, refuse 400 "network_id must be a non-empty alphanumeric string (max 64 chars)"
                     "INVALID_NETWORK_ID")
  else if negb (valid_task_type task_type) then
    Ret (emit_audit_event e tenant_id client_ip "prompt injection attempt" BLOCKED_BY_WASM s, guard,
         refuse 400 "task_type contains invalid characters or exceeds length limits" "SECURITY_VIOLATION")
  else
    let prompt := execution_prompt (b_network_id body) task_type in
    let provider_req := with_tenant tenant_id (request_new prompt) in
    match scan prompt (waf s) with
    | WafBlocked violation =>
        Ret (emit_audit_event e tenant_id client_ip
               ("WAF blocked: " ++ DeterministicHooks.signature violation) BLOCKED_BY_WASM s, guard,
             refuse 403 ("Prompt injection detected: " ++ DeterministicHooks.signature violation)
               "WAF_BLOCKED")
    | Clean =>
        '(s, r) ← run_consensus e provider_req s;
        if negb (consensus_achieved r) then
          Ret (emit_audit_event e tenant_id client_ip "TMR consensus failed" BLOCKED_BY_ORACLE s, guard,
               refuse 409 ("TMR consensus failed: no majority agreement among " ++
                           pretty (as_u8 (Coordinator.total_nodes r)) ++ " providers")
                 "CONSENSUS_FAILED")
        else Ret (conclude e tenant_id client_ip prompt r guard s)
    end.

(** The guard is dropped when the handler returns. *)
Definition drop_guard (e : Env) (guard : FinOpsRefundGuard) (s : AppState) : AppState :=
  set_budgets (refund_guard_drop (env_refund_net e) (env_refund_at e) guard (budgets s)) s.

(** From the rate limit on: the guard is dropped when the handler returns. *)
Definition meter_request (e : Env) (tenant_id : string) (client_ip : IpAddr) (request_id : string)
    (body : AgentExecutionPayload) (task_type : string) (s : AppState) : outcome (AppState * Response) :=
  let '(l, r) := acquire_api_token (clk e) tenant_id (rate_limiter s) in
  let s := set_limiter l s in
  match r with
  | Err err =>
      Ret (emit_audit_event e tenant_id client_ip "rate limited" BLOCKED_BY_SIS s,
           refuse 429 ("Tenant rate limit exceeded: " ++ NetworkError_display f64_display err) "RATE_LIMITED")
  | Ok _ =>
      let '(d, r) := deduct_tokens (finops_manager s) tenant_id 1 (budgets s) in
      let s := set_budgets d s in
      match r with
      | Ok (DeductSuccess _) =>
          let guard := refund_guard_new tenant_id request_id in
          '(s, guard, response) ← execute_request e tenant_id client_ip body task_type guard s;
          Ret (drop_guard e guard s, response)
      | Ok (InsufficientFunds _ _) =>
          Ret (emit_audit_event e tenant_id client_ip "insufficient funds" BLOCKED_BY_SIS s,
               refuse 402 "Insufficient token budget - please top up your account" "INSUFFICIENT_FUNDS")
      | Err _ =>
          Ret (emit_audit_event e tenant_id client_ip "finops state store inaccessible" BLOCKED_BY_SIS s,
               refuse 500 "Billing infrastructure unavailable - please try again later"
                 "FINOPS_UNAVAILABLE")
      end
  end.

Definition handle_agent_execution (e : Env) (socket_ip : IpAddr) (headers : HeaderMap)
    (body : AgentExecutionPayload) (s : AppState) : outcome (AppState * Response) :=
  let client_ip := extract_trusted_ip headers socket_ip in
  match extract_tenant_id headers with
  | Err status =>
      Ret (emit_audit_event e "unknown" client_ip "missing tenant ID" BLOCKED_BY_AUTH s,
           refuse status
             "Missing or empty x-serein-tenant-id header - tenant identity required for billing"
             "MISSING_TENANT_ID")
  | Ok tenant_id =>
      let request_id := default "unknown" (headers "x-request-id") in
      let task_type := default "default" (b_task_type body) in
      '(s, refused) ← authenticate e headers tenant_id client_ip (b_network_id body) task_type s;
      match refused with
      | Some response => Ret (s, response)
      | None => meter_request e tenant_id client_ip request_id body task_type s
      end
  end.

(** ** Hot swap *)

Definition authenticate_swap (e : Env) (headers : HeaderMap) (tenant_id : string) (s : AppState)
    : outcome (AppState * option Response) :=
  match service_auth s with
  | None => Ret (s, None)
  | Some auth =>
      match headers "authorization" with
      | Some auth_header =>
          let request_timestamp := request_timestamp_of headers in
          let nonce := nonce_of headers in
          if is_empty nonce || (request_timestamp =? 0)%Z then
            Ret (s, Some (refuse 401 "HMAC authentication required for hot-swap" "MISSING_AUTH"))
          else
            let payload := tenant_id ++ ":hot-swap:" ++ pretty request_timestamp ++ ":" ++ nonce in
            '(c, r) ← validate_auth_header (wall_secs e) (instant e) auth_header payload
                        request_timestamp auth (nonces s);
            let s := set_nonces c s in
            match r with
            | Err _ => Ret (s, Some (refuse 401 "HMAC signature verification failed" "HMAC_FAILED"))
            | Ok _ => Ret (s, None)
            end
      | None =>
          Ret (s, Some (refuse 401 "Authorization header required for hot-swap" "MISSING_AUTH_HEADER"))
      end
  end.

(** [&body[0..4]]. *)
Definition first_four (body : string) : outcome string :=
  if (4 <=? String.length body)%nat then Ret (take_bytes 4 body) else Panic.
Definition wasm_magic : string := String "000" "asm".

(** From the swap of the bytes on; [compile] is wasmtime's verdict on them. *)
Definition commit_swap (e : Env) (tenant_id : string) (client_ip : IpAddr) (body : string)
    (compile : string -> result Component string) (s : AppState) : outcome (AppState * Response) :=
  let old_module := wasm_module s in
  let s := set_module (kernel s) body s in
  '(k, r) ← reload_component (compile body) (kernel s);
  let s := set_module k (wasm_module s) s in
  match r with
  | Err err => Ret (s, refuse 500 ("WASM compilation failed: " ++ err) "WASM_COMPILE_ERROR")
  | Ok _ =>
      Ret (emit_audit_event e tenant_id client_ip
             ("hot-swap: " ++ pretty (len body) ++ " bytes") MODIFIED s,
           inject_ai_transparency_headers
             (mkResponse 200 (Swapped (len old_module) (len body)) false))
  end.

Definition handle_hot_swap (e : Env) (socket_ip : IpAddr) (headers : HeaderMap) (body : string)
    (compile : string -> result Component string) (s : AppState) : outcome (AppState * Response) :=
  let client_ip := extract_trusted_ip headers socket_ip in
  match extract_tenant_id headers with
  | Err status =>
      Ret (s, refuse status "Missing or empty x-serein-tenant-id header" "MISSING_TENANT_ID")
  | Ok tenant_id =>
      '(s, refused) ← authenticate_swap e headers tenant_id s;
      match refused with
      | Some response => Ret (s, response)
      | None =>
          if is_empty body then Ret (s, refuse 400 "Empty WASM module body" "EMPTY_BODY")
          else if decide (50 * 1024 * 1024 < len body) then
            Ret (s, refuse 413 "WASM module exceeds 50MB limit" "PAYLOAD_TOO_LARGE")
          else
            magic ← first_four body;
            if decide (magic <> wasm_magic) then
              Ret (s, refuse 400 "Invalid WASM binary: missing magic number" "INVALID_WASM")
            else
              commit_swap e tenant_id client_ip body compile s
      end
  end.

(** ** Requests *)

(** The part of the state a request touches only by the consensus and its record. *)
Definition engine (s : AppState) :=
  (kernel s, tmr_orchestrator s, flight_recorder s, waf s, wasm_module s, semantic_cache s).

(** The audit event an answer stands for: none for two of the codes. *)
Definition audit_action (r : Response) : option AuditAction :=
  match body r with
  | ErrorResponse _ code =>
      if decide (code ∈ ["INVALID_NETWORK_ID"; "SERIALIZATION_FAILED"]) then None
      else if decide (code ∈ ["RATE_LIMITED"; "INSUFFICIENT_FUNDS"; "FINOPS_UNAVAILABLE"]) then
        Some BLOCKED_BY_SIS
      else if decide (code ∈ ["SECURITY_VIOLATION"; "WAF_BLOCKED"]) then Some BLOCKED_BY_WASM
      else if decide (code = "CONSENSUS_FAILED") then Some BLOCKED_BY_ORACLE
      else if decide (code = "REPLAY_ATTACK_DETECTED") then Some BLOCKED_BY_REPLAY
      else Some BLOCKED_BY_AUTH
  | Executed _ => Some ALLOWED
  | Swapped _ _ => Some MODIFIED
  end.

(** Between [s] and [s'] the bus was offered what the answer [r] stands for. *)
Definition audited (e : Env) (tenant_id : string) (client_ip : IpAddr) (r : Response)
    (s s' : AppState) : Prop :=
  match audit_action r with
  | None => compliance_tx s' = compliance_tx s
  | Some action => exists raw_payload,
      compliance_tx s' =
        (emit (event_new (wall_ms e) tenant_id (ip_to_string client_ip) raw_payload action)
           (compliance_tx s)).1
  end.

Ltac refusal Hr := simplify_eq; do 4 (split; [reflexivity|]); apply Hr; reflexivity.

Lemma authenticate_effect e headers tenant_id client_ip n t s s1 x :
  authenticate e headers tenant_id client_ip n t s = Ret (s1, x) ->
  engine s1 = engine s /\ budgets s1 = budgets s /\ rate_limiter s1 = rate_limiter s /\
  finops_manager s1 = finops_manager s /\
  match x with
  | None => compliance_tx s1 = compliance_tx s
  | Some r => status r = 401 /\ audited e tenant_id client_ip r s s1
  end.
Proof.
  unfold authenticate. intros Hx.
  assert (Hr : forall raw code error action, audit_action (refuse 401 error code) = Some action ->
    forall s0, compliance_tx s0 = compliance_tx s ->
    status (refuse 401 error code) = 401 /\
    audited e tenant_id client_ip (refuse 401 error code) s
      (emit_audit_event e tenant_id client_ip raw action s0)).
  { intros raw code error action Ha s0 Hs0. split; [done|].
    unfold audited. rewrite Ha. exists raw. cbn. by rewrite Hs0. }
  destruct (service_auth s) as [auth|]; [|by simplify_eq].
  destruct (headers "authorization") as [hdr|]; [|refusal Hr].
  destruct (is_empty _); [refusal Hr|].
  destruct (decide _) as [|_] in Hx; [refusal Hr|].
  destruct (validate_auth_header _ _ _ _ _ _ _) as [[c [u|err]]|]; simpl in Hx; simplify_eq; [done|].
  destruct err; refusal Hr.
Qed.

Lemma run_consensus_frame e req s s1 r :
  run_consensus e req s = Ret (s1, r) ->
  kernel s1 = kernel s /\ flight_recorder s1 = flight_recorder s /\ waf s1 = waf s /\
  wasm_module s1 = wasm_module s /\ compliance_tx s1 = compliance_tx s.
Proof.
  unfold run_consensus. destruct (interrupted e) as [[o d]|]; [by intros; simplify_eq|].
  destruct (execute_consensus_providers _ _ _ _ _ _ _ _ _) as [[[o d] [r' eff]]|]; simpl; [|done].
  by intros; simplify_eq.
Qed.

Lemma conclude_effect e tenant_id client_ip prompt r guard s s1 guard1 resp :
  conclude e tenant_id client_ip prompt r guard s = (s1, guard1, resp) ->
  audited e tenant_id client_ip resp s s1 /\
  ((status resp = 500 /\ guard1 = guard /\ s1 = s) \/
   (status resp = 200 /\ transparency resp = true /\ guard1 = consume guard /\
    (exists answer, body resp = Executed answer) /\
    kernel s1 = kernel s /\ wasm_module s1 = wasm_module s /\ budgets s1 = budgets s /\
    ((agreement_count r < 2)%nat -> flight_recorder s1 = flight_recorder s))).
Proof.
  unfold conclude. set (p := match majority_output r with Some _ => _ | None => _ end).
  destruct (match p with Some _ => _ | None => _ end) as [json|]; intros Hx; simplify_eq.
  - destruct (Nat.leb_spec 2 (agreement_count r)); (split; [by eexists|]); right;
      do 7 (split; [by eauto|]); intros; [lia|done].
  - split; [done|]. by left.
Qed.

Ltac refused_after Hx :=
  cbn [negb] in Hx; simplify_eq; split; [first [exact eq_refl|by eexists]|]; left;
  split; [in_list|done].

Lemma execute_request_effect e tenant_id client_ip body task_type guard s s1 guard1 r :
  execute_request e tenant_id client_ip body task_type guard s = Ret (s1, guard1, r) ->
  audited e tenant_id client_ip r s s1 /\
  ((status r ∈ [400; 403] /\ guard1 = guard /\ engine s1 = engine s /\
    budgets s1 = budgets s) \/
   (exists s2 res, let prompt := execution_prompt (b_network_id body) task_type in
    valid_network_id (b_network_id body) = true /\ valid_task_type task_type = true /\
    scan prompt (waf s) = Clean /\
    run_consensus e (with_tenant tenant_id (request_new prompt)) s = Ret (s2, res) /\
    ((consensus_achieved res = false /\ status r = 409 /\ guard1 = guard /\ engine s1 = engine s2) \/
     (consensus_achieved res = true /\
      conclude e tenant_id client_ip prompt res guard s2 = (s1, guard1, r))))).
Proof.
  unfold execute_request. intros Hx.
  destruct (valid_network_id _); [|refused_after Hx].
  destruct (valid_task_type _); [|refused_after Hx].
  cbn [negb] in Hx. destruct (scan _ (waf s)) as [|v] eqn:Hscan; [|refused_after Hx].
  destruct (run_consensus _ _ _) as [[s2 res]|] eqn:Hrun; simpl in Hx; [|done].
  pose proof (run_consensus_frame _ _ _ _ _ Hrun) as (_ & _ & _ & _ & Hbus).
  destruct (consensus_achieved res) eqn:Hc; simpl in Hx.
  - destruct (conclude _ _ _ _ _ _ _) as [[s3 g3] r3] eqn:Hcon. simplify_eq.
    destruct (conclude_effect _ _ _ _ _ _ _ _ _ _ Hcon) as [Ha _]. split.
    { unfold audited in *. by rewrite Hbus in Ha. }
    right. exists s2, res. do 4 (split; [done|]). by right.
  - simplify_eq. split; [eexists; cbn; by rewrite Hbus|].
    right. exists s2, res. do 4 (split; [done|]). by left.
Qed.

Lemma tenant_missing headers st : extract_tenant_id headers = Err st -> st = 401.
Proof.
  unfold extract_tenant_id. destruct (headers _); [destruct (is_empty _)|]; by intros; simplify_eq.
Qed.

Definition tenant_of (headers : HeaderMap) : string :=
  match extract_tenant_id headers with Ok tenant_id => tenant_id | Err _ => "unknown" end.

(** A request is refused before its budget is asked for, or it reaches
    [execute_request] from a state that differs by its nonce and its rate token. *)
Lemma handle_cases e socket_ip headers body s s' r :
  handle_agent_execution e socket_ip headers body s = Ret (s', r) ->
  let client_ip := extract_trusted_ip headers socket_ip in
  let tenant_id := tenant_of headers in
  let task_type := default "default" (b_task_type body) in
  (status r ∈ [401; 429] /\ engine s' = engine s /\ budgets s' = budgets s /\
   audited e tenant_id client_ip r s s') \/
  (exists s1 l s2 guard,
    extract_tenant_id headers = Ok tenant_id /\
    authenticate e headers tenant_id client_ip (b_network_id body) task_type s = Ret (s1, None) /\
    acquire_api_token (clk e) tenant_id (rate_limiter s) = (l, Ok tt) /\
    execute_request e tenant_id client_ip body task_type
      (refund_guard_new tenant_id (default "unknown" (headers "x-request-id")))
      (set_budgets (budgets s1) (set_limiter l s1)) = Ret (s2, guard, r) /\
    s' = drop_guard e guard s2).
Proof.
  intros Hx client_ip tenant_id task_type. unfold handle_agent_execution, meter_request in Hx.
  subst tenant_id. unfold tenant_of.
  destruct (extract_tenant_id headers) as [t|st] eqn:Ht.
  2: { rewrite (tenant_missing _ _ Ht) in Hx. simplify_eq. left. split; [in_list|]. split; [done|]. split; [done|]. by eexists. }
  destruct (authenticate _ _ _ _ _ _ _) as [[s1 [r1|]]|] eqn:Ha; simpl in Hx; [| |done];
    destruct (authenticate_effect _ _ _ _ _ _ _ _ _ Ha) as (He & Hb & Hl & Hf & Hr).
  { injection Hx as <- <-. destruct Hr as (Hst & Hau). left. split; [rewrite Hst; in_list|].
    do 2 (split; [assumption|]). exact Hau. }
  rewrite Hl in Hx. destruct (acquire_api_token _ _ _) as [l [[]|err]] eqn:Hacq.
  - cbn [deduct_tokens] in Hx. destruct (execute_request _ _ _ _ _ _ _) as [[[s2 g] r2]|] eqn:Hex; simpl in Hx; [|done].
    injection Hx as <- <-. right. exists s1, l, s2, g. done.
  - injection Hx as <- <-. left. split; [in_list|]. split; [done|]. split; [done|]. unfold audited. cbn. rewrite Hr. by eexists.
Qed.

(** C2: every request that is answered offers the compliance bus exactly one event, of
    the tenant and the client address, with the action its answer stands for; except
    for two answers (an invalid network id, a payload that cannot be serialized), which
    leave the audit trail as it was. *)
Theorem audit_trail e socket_ip headers body s s' r :
  handle_agent_execution e socket_ip headers body s = Ret (s', r) ->
  audited e (tenant_of headers) (extract_trusted_ip headers socket_ip) r s s'.
Proof.
  intros Hx. destruct (handle_cases _ _ _ _ _ _ _ Hx) as [(_ & _ & _ & Ha)|Hb]; [done|].
  destruct Hb as (s1 & l & s2 & guard & _ & Hauth & _ & Hex & ->).
  destruct (execute_request_effect _ _ _ _ _ _ _ _ _ _ Hex) as [Ha _].
  destruct (authenticate_effect _ _ _ _ _ _ _ _ _ Hauth) as (_ & _ & _ & _ & Hbus).
  unfold audited in *. cbn in *. by rewrite <- Hbus.
Qed.

(** C1: what a 200 answer took: a tenant, a request that authenticated, a rate token,
    a network id and a task type of the allowed form, a prompt the firewall found
    clean and a consensus that was achieved.  The deduction is then final (no refund),
    the transparency headers are set, a result with fewer than two votes is not
    recorded, and neither the kernel nor the tenant's component took part. *)
Theorem admission e socket_ip headers body s s' r :
  handle_agent_execution e socket_ip headers body s = Ret (s', r) -> status r = 200 ->
  exists tenant_id s1 l s2 res answer,
    let client_ip := extract_trusted_ip headers socket_ip in
    let task_type := default "default" (b_task_type body) in
    let prompt := execution_prompt (b_network_id body) task_type in
    extract_tenant_id headers = Ok tenant_id /\
    authenticate e headers tenant_id client_ip (b_network_id body) task_type s = Ret (s1, None) /\
    acquire_api_token (clk e) tenant_id (rate_limiter s) = (l, Ok tt) /\
    valid_network_id (b_network_id body) = true /\ valid_task_type task_type = true /\
    scan prompt (waf s) = Clean /\
    run_consensus e (with_tenant tenant_id (request_new prompt)) (set_limiter l s1) = Ret (s2, res) /\
    consensus_achieved res = true /\
    budgets s' = budgets s2 /\ Gateway.body r = Executed answer /\ transparency r = true /\
    ((agreement_count res < 2)%nat -> flight_recorder s' = flight_recorder s) /\
    kernel s' = kernel s /\ wasm_module s' = wasm_module s.
Proof.
  intros Hx Hst. destruct (handle_cases _ _ _ _ _ _ _ Hx) as [(Hn & _)|Hb].
  { rewrite Hst in Hn. by apply (bool_decide_pack _) in Hn. }
  destruct Hb as (s1 & l & s2 & guard & Ht & Hauth & Hacq & Hex & ->).
  destruct (authenticate_effect _ _ _ _ _ _ _ _ _ Hauth) as (He & Hbud & _ & _ & _).
  destruct (execute_request_effect _ _ _ _ _ _ _ _ _ _ Hex) as [_ [(Hn & _)|Hc]].
  { rewrite Hst in Hn. by apply (bool_decide_pack _) in Hn. }
  destruct Hc as (s3 & res & Hid & Htt & Hscan & Hrun & Hc).
  destruct (run_consensus_frame _ _ _ _ _ Hrun) as (Hk & Hfr & _ & Hw & _).
  destruct Hc as [(_ & H409 & _)|[Hach Hcon]]; [by rewrite Hst in H409|].
  destruct (conclude_effect _ _ _ _ _ _ _ _ _ _ Hcon) as
    [_ [(H500 & _)|(_ & Htr & -> & [a Hans] & Hk2 & Hw2 & Hb2 & Hrec)]]; [by rewrite Hst in H500|].
  cbn in Hscan, Hk, Hfr, Hw. injection He as Hk1 Ho1 Hf1 Hwaf1 Hm1 Hs1.
  exists (tenant_of headers), s1, l, s3, res, a. rewrite Hwaf1 in Hscan.
  replace (set_budgets (budgets s1) (set_limiter l s1)) with (set_limiter l s1) in Hrun by by destruct s1.
  do 10 (split; [done|]). split; [done|].
  split; [intros Hlt; cbn; rewrite Hrec, Hfr by done; exact Hf1|]. cbn. by rewrite Hk2, Hk, Hw2, Hw.
Qed.

(** A request refused for its input (an invalid network id or task type, or a
    prompt the firewall blocks) leaves the engine as it was and makes its tenant
    richer: no token was taken, and the guard's refund, once delivered, adds one to
    the balance; with a request id not used before, each such request mints a token. *)
Theorem refused_requests_mint e socket_ip headers body s s' r v :
  let tenant_id := tenant_of headers in
  let request_id := default "unknown" (headers "x-request-id") in
  handle_agent_execution e socket_ip headers body s = Ret (s', r) ->
  status r ∈ [400; 403] ->
  balance (budgets s) (balance_key tenant_id) = Some v -> I64_MIN <= v + 1 <= I64_MAX ->
  live (env_refund_at e) (budgets s) (idempotency_key request_id) = false ->
  executed (env_refund_net e) = true ->
  engine s' = engine s /\ balance (budgets s') (balance_key tenant_id) = Some (v + 1).
Proof.
  intros tenant_id request_id Hx Hst Hv Hr Hl Hn.
  destruct (handle_cases _ _ _ _ _ _ _ Hx) as [(Hst2 & _)|Hb].
  { apply list_elem_of_In in Hst, Hst2. simpl in Hst, Hst2. lia. }
  destruct Hb as (s1 & l & s2 & guard & Ht & Hauth & Hacq & Hex & ->).
  destruct (authenticate_effect _ _ _ _ _ _ _ _ _ Hauth) as (He & Hbud & _ & _ & _).
  destruct (execute_request_effect _ _ _ _ _ _ _ _ _ _ Hex) as [_ [(_ & -> & He2 & Hb2)|Hc]].
  - split; [exact (eq_trans He2 He)|]. cbn in Hb2 |- *. rewrite Hb2, Hbud.
    unfold refund_guard_drop. cbn [consumed refund_guard_new g_tenant_id g_request_id].
    pose proof (refund_fresh (env_refund_net e) (env_refund_at e) tenant_id 1 request_id (budgets s) v
      ltac:(lia) Hv Hr Hl) as Hf.
    fold tenant_id request_id. destruct (refund_tokens _ _ _ _ _ _) as [d rr].
    rewrite Hn in Hf. by destruct Hf.
  - exfalso. destruct Hc as (s3 & res & _ & _ & _ & _ & [(_ & H409 & _)|[_ Hcon]]).
    + rewrite H409 in Hst. by apply (bool_decide_pack _) in Hst.
    + destruct (conclude_effect _ _ _ _ _ _ _ _ _ _ Hcon) as [_ [(H500 & _)|(H200 & _)]];
        rewrite ?H500, ?H200 in Hst; by apply (bool_decide_pack _) in Hst.
Qed.

(** C7: authentication needs no secret: whatever the service's secret, the request and
    the signature, a header of the documented form with the request's own time stamp
    (within 300 s of the clock) and a nonce not in the cache is let in. *)
Theorem forged_header_admitted e headers tenant_id client_ip network_id task_type s
    stamp ts request_stamp nonce signature request_nonce :
  headers "authorization" = Some (HEADER_PREFIX ++ stamp ++ "." ++ nonce ++ "." ++ signature) ->
  headers "x-serein-timestamp" = Some request_stamp -> headers "x-serein-nonce" = Some request_nonce ->
  parse_i64 stamp = Some ts -> parse_i64 request_stamp = Some ts -> ts <> 0 ->
  find "." nonce = None -> nonce <> "" -> request_nonce <> "" ->
  Z.abs (wall_secs e - ts) <= HMAC_REPLAY_WINDOW_SECS ->
  HmacAuth.entries (nonces s) !! nonce = None -> 0 <= insert_count (nonces s) < USIZE_MAX ->
  exists c, authenticate e headers tenant_id client_ip network_id task_type s =
    Ret (match service_auth s with Some _ => set_nonces c s | None => s end, None).
Proof.
  intros Hauth Hstamp Hnonce Hp Hp' Hts Hdot Hne Hne' Hwin Hfresh Hcount.
  unfold authenticate. destruct (service_auth s) as [auth|]; [|by exists (nonces s)].
  rewrite Hauth. unfold request_timestamp_of, nonce_of. rewrite Hstamp, Hnonce.
  cbn [default mbind option_bind from_option]. rewrite Hp'.
  unfold is_empty at 1. rewrite bool_decide_false by done. cbn [default from_option id].
  rewrite decide_False by done. rewrite validate_auth_header_spec with (ts := ts) by done.
  rewrite decide_False by (intros Hx; by apply Hx). rewrite decide_False by lia.
  unfold check_and_insert. rewrite Hfresh, add_u_small by lia. cbn. by eexists.
Qed.

(** ** Hot swaps *)

Lemma authenticate_swap_frame e headers tenant_id s s1 x :
  authenticate_swap e headers tenant_id s = Ret (s1, x) ->
  kernel s1 = kernel s /\ wasm_module s1 = wasm_module s /\ compliance_tx s1 = compliance_tx s /\
  match x with Some r => status r = 401 | None => True end.
Proof.
  unfold authenticate_swap. destruct (service_auth s); [|by intros; simplify_eq].
  destruct (headers _); [|by intros; simplify_eq]. destruct (_ || _); [by intros; simplify_eq|].
  destruct (validate_auth_header _ _ _ _ _ _ _) as [[c [u|err]]|]; simpl; by intros; simplify_eq.
Qed.

Lemma reload_component_spec compile (k k' : @SereinMicrokernel Component) r :
  reload_component compile k = Ret (k', r) ->
  match compile with
  | Err err => k' = k /\ r = Err err
  | Ok component => r = Ok tt /\ load <$> tenant_component k' = Some component
  end.
Proof.
  destruct compile as [component|err]; simpl; [|by intros; simplify_eq].
  unfold installed. destruct (tenant_component k) as [c|]; simpl; [|by intros; simplify_eq].
  unfold swap. destruct (add_u _ _ _); simpl; [|done]. by intros; simplify_eq.
Qed.

(** C8: the swap of a component commits the bytes before it compiles them.  For an
    authenticated request with a module of acceptable size and magic number, the served
    bytes are the new ones whatever the compiler says; if it rejects them the answer is
    500, the old component keeps running, and no audit event tells of the change; if it
    accepts them the new component is the one loaded, and one event does.  Any other
    answered request changes neither. *)
Theorem hot_swap_commits_first e socket_ip headers body compile s s' r :
  handle_hot_swap e socket_ip headers body compile s = Ret (s', r) ->
  let accepted := exists tenant_id s1, extract_tenant_id headers = Ok tenant_id /\
    authenticate_swap e headers tenant_id s = Ret (s1, None) /\
    len body <= 50 * 1024 * 1024 /\ first_four body = Ret wasm_magic in
  (accepted -> wasm_module s' = body /\
     match compile body with
     | Err _ => status r = 500 /\ kernel s' = kernel s /\ compliance_tx s' = compliance_tx s
     | Ok component =>
         r = mkResponse 200 (Swapped (len (wasm_module s)) (len body)) true /\
         load <$> tenant_component (kernel s') = Some component /\
         audited e (tenant_of headers) (extract_trusted_ip headers socket_ip) r s s'
     end) /\
  (~ accepted -> wasm_module s' = wasm_module s /\ kernel s' = kernel s /\ 400 <= status r < 500).
Proof.
  intros Hx accepted. unfold handle_hot_swap, commit_swap in Hx. unfold tenant_of.
  destruct (extract_tenant_id headers) as [t|st] eqn:Ht.
  2: { rewrite (tenant_missing _ _ Ht) in Hx. simplify_eq. split; [intros (? & ? & ? & _); done|done]. }
  destruct (authenticate_swap e headers t s) as [[s1 [r1|]]|] eqn:Ha; simpl in Hx; [| |done];
    destruct (authenticate_swap_frame _ _ _ _ _ _ Ha) as (Hk & Hw & Hbus & Hst).
  { injection Hx as <- <-. split; [intros (t' & s2 & [= <-] & Hno & _); congruence|].
    intros _. by rewrite Hst. }
  destruct (is_empty body) eqn:Hempty.
  { injection Hx as <- <-. split; [|done]. intros (? & ? & _ & _ & _ & Hm).
    unfold is_empty in Hempty. rewrite bool_decide_eq_true in Hempty. by subst. }
  destruct (decide (_ < len body)) as [|Hlen] in Hx.
  { injection Hx as <- <-. split; [|done]. intros (? & ? & _ & _ & ? & _). lia. }
  destruct (first_four body) as [magic|] eqn:Hmagic; simpl in Hx; [|done].
  destruct (decide (magic <> wasm_magic)) as [Hne|Hne] in Hx.
  { injection Hx as <- <-. split; [|done]. intros (? & ? & _ & _ & _ & ?). congruence. }
  destruct (reload_component _ _) as [[k rk]|] eqn:Hre; simpl in Hx; [|done].
  apply reload_component_spec in Hre. split.
  - intros _. destruct (compile body) as [component|err].
    + destruct Hre as [-> Hl]. simplify_eq. split; [done|]. rewrite Hw. split; [done|]. split; [done|].
      unfold audited. cbn. rewrite Hbus. by eexists.
    + destruct Hre as [-> ->]. simplify_eq. done.
  - intros Hno. exfalso. apply Hno. exists t, s1. split; [done|]. split; [done|]. split; [lia|].
    f_equal. by destruct (decide (magic = wasm_magic)).
Qed.

(** A module of one to three bytes panics the handler: the magic number is sliced
    before the length is known to reach it. *)
Theorem short_module_panics e socket_ip headers body compile s tenant_id s1 :
  extract_tenant_id headers = Ok tenant_id ->
  authenticate_swap e headers tenant_id s = Ret (s1, None) -> 1 <= len body <= 3 ->
  handle_hot_swap e socket_ip headers body compile s = Panic.
Proof.
  intros Ht Ha Hb. unfold handle_hot_swap, commit_swap. rewrite Ht, Ha. cbn.
  rewrite decide_False by lia. unfold is_empty, first_four.
  rewrite bool_decide_false by (intros ->; unfold len in Hb; simpl in Hb; lia).
  destruct (Nat.leb_spec 4 (String.length body)); [unfold len in Hb; lia|done].
Qed.
End gateway.

(** ** Witnesses *)

(** Networks are /12 prefixes of IPv4 that match by their first byte; nothing parses. *)
#[local] Instance demo_gateway : GatewayText := {|
  net_contains cidr ip :=
    match ip with V4 v => bool_decide (cidr = "104.16.0.0/13") && (octet_a v =? 104)%Z | _ => false end;
  parse_ip s := if bool_decide (s = "192.0.2.7") then Some (V4 (mkV4 192 0 2 7)) else None;
  ip_to_string _ := "ip"; f64_display _ := "0"; debug_str s := quoted s; datetime_text := pretty;
  number_text _ := "0.5"; to_string _ := Some "{}"; parse_value _ := None;
  gateway_serde := CachedResults.BitText |}.

Definition demo_state : @AppState RedisMap StringMap Z :=
  mkState demo_kernel demo_orchestrator (mkCorpus "corpus" [] false 0) (Some (mkAuth "s3cret")) cache_new
    bus_new (mkWaf [] []) "old" (mkManager false)
    (Some (limiter_new 0 10 f64_zero 10 f64_zero 10)) demo_db ∅.

Definition demo_headers : HeaderMap := fun name =>
  if bool_decide (name = "x-serein-tenant-id") then Some " acme "
  else if bool_decide (name = "authorization") then
    Some (HEADER_PREFIX ++ "990" ++ "." ++ "00ff" ++ "." ++ "forged")
  else if bool_decide (name = "x-serein-timestamp") then Some "990"
  else if bool_decide (name = "x-serein-nonce") then Some "n"
  else if bool_decide (name = "cf-connecting-ip") then Some "192.0.2.7, 10.0.0.1"
  else None.
Definition demo_env : Env := mkEnv (fun _ => 0) 1000 0 1000000 Delivered 5 demo_agreement false 0 None.
Definition demo_socket : IpAddr := V4 (mkV4 104 16 0 1).
Definition demo_handle (body : AgentExecutionPayload) : outcome (AppState * Response) :=
  handle_agent_execution (H := AtSigns) (H0 := canonical_order) (H1 := RedisMap) (H2 := PlainText)
    (H3 := StringMap) (H4 := naive_matchers) demo_env demo_socket demo_headers body demo_state.
Definition demo_answer (body : AgentExecutionPayload) : AppState * Response :=
  match demo_handle body with Ret x => x | Panic => (demo_state, refuse 0 "" "") end.

Definition demo_good := mkAgentPayload "eth" (Some "swap").
Definition demo_bad := mkAgentPayload "" None.
Lemma demo_answered body :
  (match demo_handle body with Ret _ => true | Panic => false end) = true ->
  demo_handle body = Ret ((demo_answer body).1, (demo_answer body).2).
Proof. unfold demo_answer. by destruct (demo_handle body) as [[? ?]|]. Qed.

(** One event for the good request, none for the bad one. *)
Lemma audit_trail_witness :
  (exists raw, compliance_tx (demo_answer demo_good).1 =
     (emit (event_new 1000000 "acme" "ip" raw ALLOWED) bus_new).1) /\
  compliance_tx (demo_answer demo_bad).1 = bus_new.
Proof.
  split.
  - exact (audit_trail (H := AtSigns) (H0 := canonical_order) (H1 := RedisMap) (H2 := PlainText)
      (H3 := StringMap) (H4 := naive_matchers) demo_env demo_socket demo_headers demo_good demo_state _ _
      (demo_answered demo_good ltac:(vm_compute; reflexivity))).
  - exact (audit_trail (H := AtSigns) (H0 := canonical_order) (H1 := RedisMap) (H2 := PlainText)
      (H3 := StringMap) (H4 := naive_matchers) demo_env demo_socket demo_headers demo_bad demo_state _ _
      (demo_answered demo_bad ltac:(vm_compute; reflexivity))).
Defined.

Lemma admission_witness :
  kernel (demo_answer demo_good).1 = demo_kernel /\ transparency (demo_answer demo_good).2 = true.
Proof.
  destruct (admission (H := AtSigns) (H0 := canonical_order) (H1 := RedisMap) (H2 := PlainText)
    (H3 := StringMap) (H4 := naive_matchers) demo_env demo_socket demo_headers demo_good demo_state _ _
    (demo_answered demo_good ltac:(vm_compute; reflexivity)) ltac:(vm_compute; reflexivity))
    as (t & s1 & l & s2 & res & answer & _ & _ & _ & _ & _ & _ & _ & _ & _ & _ & Ht & _ & Hk & _).
  split; [exact Hk|exact Ht].
Defined.

(** The balance of 10 becomes 11. *)
Lemma refused_requests_mint_witness :
  balance (budgets (demo_answer demo_bad).1) (balance_key "acme") = Some 11.
Proof.
  apply (refused_requests_mint (H := AtSigns) (H0 := canonical_order) (H1 := RedisMap) (H2 := PlainText)
    (H3 := StringMap) (H4 := naive_matchers) demo_env demo_socket demo_headers demo_bad demo_state
    (demo_answer demo_bad).1 (demo_answer demo_bad).2 10).
  - apply demo_answered. vm_compute. reflexivity.
  - vm_compute. left.
  - reflexivity.
  - ulia.
  - reflexivity.
  - reflexivity.
Defined.

Lemma forged_header_admitted_witness :
  exists c, authenticate (H0 := canonical_order) (H1 := RedisMap) (H3 := StringMap) demo_env demo_headers
      "acme" demo_socket "eth" "swap" demo_state = Ret (set_nonces c demo_state, None).
Proof.
  apply (forged_header_admitted (H0 := canonical_order) (H1 := RedisMap) (H3 := StringMap) demo_env
    demo_headers "acme" demo_socket "eth" "swap" demo_state "990" 990 "990" "00ff" "forged" "n");
    try reflexivity; try discriminate.
  cbn. ulia.
Defined.

Abbreviation demo_swap body compile :=
  (handle_hot_swap (H0 := canonical_order) (H1 := RedisMap) (H3 := StringMap) demo_env demo_socket
    demo_headers body compile demo_state).
Definition demo_module : string := wasm_magic ++ "rest".

Definition demo_swap_state : AppState := set_nonces (mkCache {["00ff" := 0]} 1) demo_state.

Lemma demo_authenticated : authenticate_swap (H0 := canonical_order) (H1 := RedisMap) (H3 := StringMap)
  demo_env demo_headers "acme" demo_state = Ret (demo_swap_state, None).
Proof. reflexivity. Qed.

(** The compiler rejects the module: its bytes are served, the old component runs. *)
Lemma hot_swap_commits_first_witness :
  exists s' r, demo_swap demo_module (fun _ => Err "bad") = Ret (s', r) /\
    wasm_module s' = demo_module /\ status r = 500 /\ kernel s' = demo_kernel.
Proof.
  assert (exists s' r, demo_swap demo_module (fun _ => Err "bad") = Ret (s', r)) as (s' & r & Hx).
  { exists (set_module demo_kernel demo_module demo_swap_state),
      (refuse 500 "WASM compilation failed: bad" "WASM_COMPILE_ERROR"). reflexivity. }
  exists s', r. split; [exact Hx|].
  destruct (hot_swap_commits_first (H0 := canonical_order) (H1 := RedisMap) (H3 := StringMap) demo_env
    demo_socket demo_headers demo_module (fun _ => Err "bad") demo_state s' r Hx) as [Hacc _].
  destruct Hacc as (Hw & Hst & Hk & _); [|by split_and!].
  exists "acme", demo_swap_state. split; [reflexivity|]. split; [exact demo_authenticated|].
  split; [vm_compute; discriminate|reflexivity].
Defined.

Lemma short_module_panics_witness : demo_swap "abc" (fun _ => Ok 1) = Panic.
Proof.
  apply (short_module_panics (H0 := canonical_order) (H1 := RedisMap) (H3 := StringMap) demo_env
    demo_socket demo_headers "abc" (fun _ => Ok 1) demo_state "acme" demo_swap_state).
  - reflexivity.
  - exact demo_authenticated.
  - split; vm_compute; discriminate.
Defined.
