(* ===== verification/SwapRace.v ===== *)
(** * apps/gateway/src/main.rs: hot swaps that overlap

    [Gateway.commit_swap] is one handler with nobody else at work.  Handlers of several
    requests run at the same time: here each is a thread that stores the bytes (the
    [ArcSwap]), compiles them on the blocking pool, and installs the component behind the
    kernel's lock, and a step relation has one constructor per such access.  The order in
    which the bytes are stored need not be the order in which the components arrive. *)
From Stdlib Require Import Ascii String.
From S2P Require Import Prelude F64 RustStr Json PayloadValidator HotSwap AbiGuard Masking.
From S2P Require Import HostStore EgressGuard Oracle Microkernel HmacAuth RateLimiter FinOps.
From S2P Require Import TmrConsensus PiiMask Coordinator ComplianceBus DeterministicHooks.
From S2P Require Import FlightRecorder LogSanitizer Gateway.

Local Open Scope string_scope.

Definition push {A} (l : list A) (x : A) : list A := (l ++ [x])%list.

(** A handler past its checks; [Answered] has the sizes of the answer or the error's text. *)
Inductive swapper (Component : Type) : Type :=
  | Arrived (body : string)
  | Stored (body : string) (old_size : Z)
  | Compiled (body : string) (old_size : Z) (component : Component)
  | Answered (body : string) (r : result (Z * Z) string).
Arguments Arrived {Component}.
Arguments Stored {Component}.
Arguments Compiled {Component}.
Arguments Answered {Component}.

Section race.
Context {Component : Type} (compile : string -> result Component string).

Abbreviation Container := (@HotSwapContainer Component).

Record Race := mkRace {
  module_bytes : string;
  slot : option Container;
  swappers : list (swapper Component);
  stores : list string;
  installs : list string }.

(** The logs [stores] and [installs] have the bodies in the order of their steps.  A
    counter that overflows panics its handler, which has no step here. *)
Inductive race_step : Race -> Race -> Prop :=
  | sw_store b c ts st ins i body :
      ts !! i = Some (Arrived body) ->
      race_step (mkRace b c ts st ins)
        (mkRace body c (<[i := Stored body (len b)]> ts) (push st body) ins)
  | sw_compile b c ts st ins i body old component :
      ts !! i = Some (Stored body old) -> compile body = Ok component ->
      race_step (mkRace b c ts st ins) (mkRace b c (<[i := Compiled body old component]> ts) st ins)
  | sw_reject b c ts st ins i body old e :
      ts !! i = Some (Stored body old) -> compile body = Err e ->
      race_step (mkRace b c ts st ins)
        (mkRace b c (<[i := Answered body (Err ("WASM compilation failed: " ++ e))]> ts) st ins)
  | sw_install b c ts st ins i body old component c' :
      ts !! i = Some (Compiled body old component) ->
      installed "tenant_component" component c = Ret c' ->
      race_step (mkRace b c ts st ins)
        (mkRace b c' (<[i := Answered body (Ok (old, len body))]> ts) st (push ins body)).

Definition race_init (b : string) (c : option Container) (bodies : list string) : Race :=
  mkRace b c (Arrived <$> bodies) [] [].

(** ** What a thread has done *)

Definition body_of (t : swapper Component) : string :=
  match t with Arrived b | Stored b _ | Compiled b _ _ | Answered b _ => b end.
Definition stored_by (t : swapper Component) : option string :=
  match t with Arrived _ => None | _ => Some (body_of t) end.
Definition installed_by (t : swapper Component) : option string :=
  match t with Answered b (Ok _) => Some b | _ => None end.
Definition answered (t : swapper Component) : Prop := exists b r, t = Answered b r.

(** What a thread holds and has answered is the compiler's verdict on its own body. *)
Definition honest (t : swapper Component) : Prop :=
  match t with
  | Arrived _ | Stored _ _ => True
  | Compiled b _ component => compile b = Ok component
  | Answered b (Ok (_, n)) => is_ok (compile b) = true /\ n = len b
  | Answered b (Err m) => exists e, compile b = Err e /\ m = "WASM compilation failed: " ++ e
  end.

Definition component_of (body : string) : option Component :=
  match compile body with Ok c => Some c | Err _ => None end.

Lemma omap_new {A B} (f : A -> option B) (l : list A) i x y b :
  l !! i = Some y -> f y = None -> f x = Some b -> omap f (<[i := x]> l) ≡ₚ b :: omap f l.
Proof.
  revert i. induction l as [|z l IH]; intros [|i] Hi Hy Hx; simplify_eq/=; [by rewrite Hx, Hy|].
  destruct (f z); [|by apply IH]. rewrite IH by done. apply Permutation_swap.
Qed.
Lemma omap_same {A B} (f : A -> option B) (l : list A) i x y :
  l !! i = Some y -> f x = f y -> omap f (<[i := x]> l) = omap f l.
Proof.
  revert i. induction l as [|z l IH]; intros [|i] Hi Hx; simplify_eq/=; [by rewrite Hx|].
  by rewrite IH.
Qed.
Lemma fmap_same {A B} (f : A -> B) (l : list A) i x y :
  l !! i = Some y -> f x = f y -> f <$> <[i := x]> l = f <$> l.
Proof. intros Hi Hf. rewrite list_fmap_insert, Hf. apply list_insert_id. by rewrite list_lookup_fmap, Hi. Qed.

(** The state is told by its logs. *)
Record race_inv (b0 : string) (c0 : option Container) (bodies : list string) (s : Race) : Prop := {
  inv_bodies : body_of <$> swappers s = bodies;
  inv_honest : Forall honest (swappers s);
  inv_stores : stores s ≡ₚ omap stored_by (swappers s);
  inv_installs : installs s ≡ₚ omap installed_by (swappers s);
  inv_bytes : module_bytes s = default b0 (last (stores s));
  inv_slot : load <$> slot s =
    match last (installs s) with Some body => component_of body | None => load <$> c0 end }.

Lemma installed_load name (component : Component) (c c' : option Container) :
  installed name component c = Ret c' -> load <$> c' = Some component.
Proof.
  unfold installed. destruct c as [c|]; cbn; [|by intros [= <-]].
  unfold swap. destruct (add_u _ _ _); cbn; [|done]. by intros [= <-].
Qed.

Lemma push_perm {A} (l l' : list A) x : l ≡ₚ l' -> push l x ≡ₚ x :: l'.
Proof. intros H. unfold push. rewrite H. symmetry. apply Permutation_cons_append. Qed.

Lemma race_inv_init b c bodies : race_inv b c bodies (race_init b c bodies).
Proof.
  constructor; cbn; try done.
  - rewrite <- list_fmap_compose. apply list_fmap_id.
  - apply Forall_fmap. by apply Forall_true.
  - by induction bodies.
  - by induction bodies.
Qed.

Lemma race_inv_step b0 c0 bodies s s' : race_inv b0 c0 bodies s -> race_step s s' -> race_inv b0 c0 bodies s'.
Proof.
  intros Hinv Hs. destruct Hs as [b c ts st ins i body Hi|b c ts st ins i body old component Hi Hc
    |b c ts st ins i body old e Hi Hc|b c ts st ins i body old component c' Hi Hc];
    destruct Hinv as [Hb Hh Hst Hin Hby Hsl]; cbn in *.
  - constructor; cbn; try done.
    + by rewrite (fmap_same _ _ _ _ _ Hi).
    + by apply Forall_insert.
    + rewrite (omap_new _ _ _ _ _ body Hi) by done. by apply push_perm.
    + by rewrite (omap_same _ _ _ _ _ Hi).
    + unfold push. by rewrite last_snoc.
  - constructor; cbn; try done.
    + by rewrite (fmap_same _ _ _ _ _ Hi).
    + by apply Forall_insert.
    + by rewrite (omap_same _ _ _ _ _ Hi).
    + by rewrite (omap_same _ _ _ _ _ Hi).
  - constructor; cbn; try done.
    + by rewrite (fmap_same _ _ _ _ _ Hi).
    + apply Forall_insert; [done|]. cbn. by exists e.
    + by rewrite (omap_same _ _ _ _ _ Hi).
    + by rewrite (omap_same _ _ _ _ _ Hi).
  - assert (compile body = Ok component) as Hok.
    { exact (proj1 (Forall_lookup _ _) Hh i _ Hi). }
    constructor; cbn; try done.
    + by rewrite (fmap_same _ _ _ _ _ Hi).
    + apply Forall_insert; [done|]. cbn. by rewrite Hok.
    + by rewrite (omap_same _ _ _ _ _ Hi).
    + rewrite (omap_new _ _ _ _ _ body Hi) by done. by apply push_perm.
    + unfold push. rewrite last_snoc. unfold component_of. rewrite Hok. by eapply installed_load.
Qed.

Lemma race_reachable b c bodies s : rtc race_step (race_init b c bodies) s -> race_inv b c bodies s.
Proof.
  intros H. pose proof (race_inv_init b c bodies) as Hinv. revert Hinv.
  induction H as [|s1 s2 s3 H12 _ IH]; [done|]. intros Hinv. apply IH. by eapply race_inv_step.
Qed.

Lemma all_answered_logs ts : Forall answered ts -> Forall honest ts ->
  omap stored_by ts = body_of <$> ts /\
  omap installed_by ts = List.filter (fun b => is_ok (compile b)) (body_of <$> ts).
Proof.
  induction ts as [|t ts IH]; [done|]. intros [[b [r ->]] Ha]%Forall_cons [Hh Hhs]%Forall_cons.
  destruct (IH Ha Hhs) as [IH1 IH2]. destruct r as [[o n]|m]; cbn in *.
  - destruct Hh as [-> _]. by rewrite IH1, IH2.
  - destruct Hh as (e & -> & _). cbn. by rewrite IH1, IH2.
Qed.

(** C9: overlapping hot swaps, whatever their interleaving: when every handler has
    answered, every module has been stored once, and the modules that compile have been
    installed once each; the stored bytes are the last module stored, the served component
    is that of the last one installed, and each answer is the compiler's verdict on its own
    module.  The two last ones need not be the same. *)
Theorem swaps_settle b c bodies s :
  rtc race_step (race_init b c bodies) s -> Forall answered (swappers s) ->
  stores s ≡ₚ bodies /\
  installs s ≡ₚ List.filter (fun b => is_ok (compile b)) bodies /\
  module_bytes s = default b (last (stores s)) /\
  load <$> slot s = match last (installs s) with Some body => component_of body | None => load <$> c end /\
  body_of <$> swappers s = bodies /\ Forall honest (swappers s).
Proof.
  intros Hr Ha. apply race_reachable in Hr as [Hb Hh Hst Hin Hby Hsl].
  destruct (all_answered_logs _ Ha Hh) as [H1 H2].
  rewrite H1, Hb in Hst. rewrite H2, Hb in Hin. by split_and!.
Qed.

Definition has_room (c : option Container) (n : Z) : Prop :=
  match c with Some c => 0 <= swap_count c /\ swap_count c + n <= U64_MAX | None => n <= U64_MAX end.

Lemma installed_room (component : Component) c n : 1 <= n -> has_room c n ->
  exists c', installed "tenant_component" component c = Ret c' /\ load <$> c' = Some component /\ has_room c' (n - 1).
Proof.
  intros Hn Hr. unfold installed. destruct c as [c|]; cbn in *.
  - unfold swap. rewrite add_u_small by lia. cbn. eexists. split; [done|]. split; [done|].
    cbn. rewrite wrapping_add_small by ulia. lia.
  - eexists. split; [done|]. split; [done|]. cbn. lia.
Qed.

(** Two modules that compile: both swaps are answered with success, the second one with
    the size of the first as the old one, and still the component that is served is the
    first's while the stored bytes are the second's. *)
Theorem swaps_mix b c x y cx cy :
  compile x = Ok cx -> compile y = Ok cy -> has_room c 2 ->
  exists s, rtc race_step (race_init b c [x; y]) s /\
    swappers s = [Answered x (Ok (len b, len x)); Answered y (Ok (len x, len y))] /\
    module_bytes s = y /\ load <$> slot s = Some cx.
Proof.
  intros Hx Hy Hroom.
  destruct (installed_room cy c 2) as (c1 & Hc1 & _ & Hr1); [lia|done|].
  destruct (installed_room cx c1 (2 - 1)) as (c2 & Hc2 & Hl & _); [lia|done|].
  eexists. split.
  - eapply rtc_l; [by apply (sw_store b c _ _ _ 0%nat x)|]. cbn.
    eapply rtc_l; [by apply (sw_store x c _ _ _ 1%nat y)|]. cbn.
    eapply rtc_l; [by apply (sw_compile y c _ _ _ 0%nat x (len b) cx)|]. cbn.
    eapply rtc_l; [by apply (sw_compile y c _ _ _ 1%nat y (len x) cy)|]. cbn.
    eapply rtc_l; [by apply (sw_install y c _ _ _ 1%nat y (len x) cy c1)|]. cbn.
    eapply rtc_l; [by apply (sw_install y c1 _ _ _ 0%nat x (len b) cx c2)|]. cbn. apply rtc_refl.
  - by split_and!.
Qed.
End race.

(** ** The handler that is alone *)

Section handler.
Context `{PiiRegex, HashOrder, Redis, LlmText, RedisStrings, Matchers, GatewayText}.
Context {Component : Type}.

(** The handler of [Gateway] is one of the interleavings: undisturbed, a thread among
    others takes the bytes and the component from what the handler finds to what it leaves,
    and answers what the handler answers. *)
Theorem commit_swap_refines e tenant_id ip body compile (s s' : AppState (Component := Component)) r ts st ins i :
  ts !! i = Some (Arrived body) ->
  commit_swap e tenant_id ip body compile s = Ret (s', r) ->
  exists answer st' ins',
    rtc (race_step compile)
      (mkRace (wasm_module s) (tenant_component (kernel s)) ts st ins)
      (mkRace (wasm_module s') (tenant_component (kernel s')) (<[i := Answered body answer]> ts) st' ins') /\
    match answer with
    | Ok (old_size, new_size) => status r = 200 /\ Gateway.body r = Swapped old_size new_size
    | Err m => status r = 500 /\ Gateway.body r = ErrorResponse m "WASM_COMPILE_ERROR"
    end.
Proof.
  intros Hi. unfold commit_swap, reload_component. cbn [kernel set_module].
  assert (forall st ins, rtc (race_step compile) (mkRace (wasm_module s) (tenant_component (kernel s)) ts st ins)
    (mkRace body (tenant_component (kernel s)) (<[i := Stored body (len (wasm_module s))]> ts) (push st body) ins))
    as Hstore.
  { intros. apply rtc_once. by apply sw_store. }
  assert (forall x, (<[i := x]> ts : list (swapper Component)) !! i = Some x) as Hat.
  { intros x. apply list_lookup_insert_eq. by apply lookup_lt_Some in Hi. }
  destruct (compile body) as [component|err] eqn:Hc.
  - destruct (installed _ _ _) as [c'|] eqn:Hin; [|done]. intros [= <- <-].
    exists (Ok (len (wasm_module s), len body)), (push st body), (push ins body). split; [|done].
    etrans; [apply Hstore|]. cbn.
    eapply rtc_l; [by apply (sw_compile compile _ _ _ _ _ i body (len (wasm_module s)) component)|].
    rewrite list_insert_insert_eq.
    eapply rtc_l; [by apply (sw_install compile _ _ _ _ _ i body (len (wasm_module s)) component c')|].
    rewrite list_insert_insert_eq. apply rtc_refl.
  - intros [= <- <-]. exists (Err ("WASM compilation failed: " ++ err)), (push st body), ins. split; [|done].
    etrans; [apply Hstore|]. cbn.
    eapply rtc_l; [by apply (sw_reject compile _ _ _ _ _ i body (len (wasm_module s)) err)|].
    rewrite list_insert_insert_eq. apply rtc_refl.
Qed.
End handler.

(** ** Concrete inputs

    A component is a number and a module its text. *)
Definition number_compile (s : string) : result Z string :=
  match parse_u64 s with Some n => Ok n | None => Err "not a module" end.
Definition settled_race : @Race Z :=
  mkRace "x" (Some (container_new 7 "tenant_component"))
    [Answered "7" (Ok (1, 1)); Answered "x" (Err "WASM compilation failed: not a module")]
    ["7"; "x"] ["7"].

Lemma settled_reachable : rtc (race_step number_compile) (race_init "0" None ["7"; "x"]) settled_race.
Proof.
  eapply rtc_l; [by apply (sw_store number_compile "0" None _ _ _ 0%nat "7")|]. cbn.
  eapply rtc_l; [by apply (sw_store number_compile "7" None _ _ _ 1%nat "x")|]. cbn.
  eapply rtc_l; [by apply (sw_compile number_compile "x" None _ _ _ 0%nat "7" 1 7)|]. cbn.
  eapply rtc_l; [by apply (sw_reject number_compile "x" None _ _ _ 1%nat "x" 1 "not a module")|]. cbn.
  eapply rtc_l; [by eapply (sw_install number_compile "x" None _ _ _ 0%nat "7" 1 7)|]. cbn.
  apply rtc_refl.
Qed.

(** The bytes are those of the module that does not compile. *)
Lemma swaps_settle_witness :
  stores settled_race ≡ₚ ["7"; "x"] /\ installs settled_race ≡ₚ ["7"] /\
  module_bytes settled_race = "x" /\ load <$> slot settled_race = Some 7.
Proof.
  destruct (swaps_settle number_compile "0" None ["7"; "x"] settled_race settled_reachable)
    as (H1 & H2 & H3 & H4 & _ & _).
  { repeat constructor; unfold answered; eauto. }
  split; [exact H1|]. split; [exact H2|]. split; [exact H3|exact H4].
Defined.

Lemma swaps_mix_witness :
  exists s, rtc (race_step number_compile) (race_init "0" None ["7"; "8"]) s /\
    swappers s = [Answered "7" (Ok (1, 1)); Answered "8" (Ok (1, 1))] /\
    module_bytes s = "8" /\ load <$> slot s = Some 7.
Proof.
  apply (swaps_mix number_compile "0" None "7" "8" 7 8); [reflexivity|reflexivity|].
  vm_compute. discriminate.
Defined.

Lemma commit_swap_refines_witness : exists s' r answer st ins,
  rtc (race_step number_compile)
    (mkRace "old" (tenant_component demo_kernel) [Arrived "x"] [] [])
    (mkRace (wasm_module (H1 := RedisMap) (H3 := StringMap) s') (tenant_component (kernel s')) [Answered "x" answer] st ins) /\
  status r = 500 /\ answer = Err "WASM compilation failed: not a module".
Proof.
  assert (exists s' r, commit_swap (H1 := RedisMap) (H3 := StringMap) (H5 := demo_gateway)
    demo_env "acme" demo_socket "x" number_compile demo_state = Ret (s', r)) as (s' & r & Hx).
  { eexists _, _. reflexivity. }
  destruct (commit_swap_refines (H1 := RedisMap) (H3 := StringMap) (H5 := demo_gateway)
    demo_env "acme" demo_socket "x" number_compile demo_state s' r [Arrived "x"] [] [] 0%nat eq_refl Hx)
    as (answer & st & ins & Hr & Ha).
  exists s', r, answer, st, ins. split; [exact Hr|].
  cbn in Hx. injection Hx as <- <-. destruct answer as [[o n]|m].
  - destruct Ha as [Hst _]. discriminate Hst.
  - destruct Ha as [Hst Hb]. split; [exact Hst|]. injection Hb as Hb. rewrite <- Hb. reflexivity.
Defined.
