(* ===== verification/RequestRace.v ===== *)
(** * apps/gateway/src/main.rs: requests that overlap

    [Gateway.handle_agent_execution] is one request with nobody else at work.  Here its
    body is cut where other requests come in between: after the nonce (the cache's lock),
    after the rate token, after the deduction and after the refund (each a script of
    Redis), with the execution in between, whose own inside is the subject of
    [SingleFlight] and [Coordinator].  An audit event is emitted in the step that
    decides on it.  A request need not get to its end: the server drops the future of a
    handler whose client has gone or whose 65 seconds are over, and a panic drops it too
    where panics unwind (the release profile aborts). *)
From Stdlib Require Import Ascii String.
From S2P Require Import Prelude F64 RustStr Json PayloadValidator HotSwap AbiGuard Masking.
From S2P Require Import HostStore EgressGuard Oracle Microkernel HmacAuth RateLimiter FinOps.
From S2P Require Import TmrConsensus PiiMask Coordinator ComplianceBus DeterministicHooks.
From S2P Require Import FlightRecorder LogSanitizer Gateway.

Local Open Scope string_scope.

Section requests.
Context `{PiiRegex, HashOrder, Redis, LlmText, RedisStrings, Matchers, GatewayText}.
Context {Component : Type}.
Local Abbreviation AppState := (@AppState _ _ Component).

(** A request as its handler gets it, with what its clocks will read. *)
Record Request := mkRequest {
  rq_env : Env; rq_socket : IpAddr; rq_headers : HeaderMap; rq_body : AgentExecutionPayload }.

Inductive progress : Type :=
  | Received
  | Authenticated
  | Limited
  | Holding (guard : FinOpsRefundGuard)
  | Returning (guard : FinOpsRefundGuard) (r : Response)
  | Replied (r : Response)
  | Dropped (p : progress)
  | Gone (p : progress).

(** The next step of a request.  One whose future was dropped while it held its guard
    still has its refund to come, which runs in a task of its own. *)
Definition stage (rq : Request) (p : progress) (s : AppState) : outcome (AppState * progress) :=
  let e := rq_env rq in
  let headers := rq_headers rq in
  let client_ip := extract_trusted_ip headers (rq_socket rq) in
  let tenant_id := tenant_of headers in
  let task_type := default "default" (b_task_type (rq_body rq)) in
  match p with
  | Received =>
      match extract_tenant_id headers with
      | Err status =>
          Ret (emit_audit_event e "unknown" client_ip "missing tenant ID" BLOCKED_BY_AUTH s,
               Replied (refuse status
                 "Missing or empty x-serein-tenant-id header - tenant identity required for billing"
                 "MISSING_TENANT_ID"))
      | Ok tenant_id =>
          '(s, refused) ← authenticate e headers tenant_id client_ip (b_network_id (rq_body rq)) task_type s;
          Ret (s, match refused with Some r => Replied r | None => Authenticated end)
      end
  | Authenticated =>
      let '(l, r) := acquire_api_token (clk e) tenant_id (rate_limiter s) in
      let s := set_limiter l s in
      match r with
      | Err err =>
          Ret (emit_audit_event e tenant_id client_ip "rate limited" BLOCKED_BY_SIS s,
               Replied (refuse 429 ("Tenant rate limit exceeded: " ++ NetworkError_display f64_display err) "RATE_LIMITED"))
      | Ok _ => Ret (s, Limited)
      end
  | Limited =>
      let '(d, r) := deduct_tokens (finops_manager s) tenant_id 1 (budgets s) in
      let s := set_budgets d s in
      match r with
      | Ok (DeductSuccess _) =>
          Ret (s, Holding (refund_guard_new tenant_id (default "unknown" (headers "x-request-id"))))
      | Ok (InsufficientFunds _ _) =>
          Ret (emit_audit_event e tenant_id client_ip "insufficient funds" BLOCKED_BY_SIS s,
               Replied (refuse 402 "Insufficient token budget - please top up your account" "INSUFFICIENT_FUNDS"))
      | Err _ =>
          Ret (emit_audit_event e tenant_id client_ip "finops state store inaccessible" BLOCKED_BY_SIS s,
               Replied (refuse 500 "Billing infrastructure unavailable - please try again later"
                 "FINOPS_UNAVAILABLE"))
      end
  | Holding guard =>
      '(s, guard, r) ← execute_request e tenant_id client_ip (rq_body rq) task_type guard s;
      Ret (s, Returning guard r)
  | Returning guard r => Ret (drop_guard e guard s, Replied r)
  | Dropped p => Ret (match p with Holding guard => drop_guard e guard s | _ => s end, Gone p)
  | Replied _ | Gone _ => Ret (s, p)
  end.

(** Where a handler can be when its future is dropped: before its answer; the only state
    it may leave half-done is that of the dispatch it waits for. *)
Definition droppable (p : progress) : bool :=
  match p with Received | Authenticated | Limited | Holding _ => true | _ => false end.
Definition left_behind (p : progress) (s s' : AppState) : Prop :=
  s' = s \/ (exists guard x, p = Holding guard /\ s' = cut_short x s).

Local Abbreviation Requests := (list (Request * progress)).
Definition over (p : progress) : bool := match p with Replied _ | Gone _ => true | _ => false end.

Inductive requests_step : AppState * Requests -> AppState * Requests -> Prop :=
  | rq_stage s ts i rq p s' p' :
      ts !! i = Some (rq, p) -> over p = false -> stage rq p s = Ret (s', p') ->
      requests_step (s, ts) (s', <[i := (rq, p')]> ts)
  | rq_drop s ts i rq p s' :
      ts !! i = Some (rq, p) -> droppable p = true -> left_behind p s s' ->
      requests_step (s, ts) (s', <[i := (rq, Dropped p)]> ts).

Definition arrived (l : list Request) : Requests := (fun rq => (rq, Received)) <$> l.

(** ** The handler that is alone *)

Lemma step_at s ts i rq p s' p' q : ts !! i = Some q ->
  over p = false -> stage rq p s = Ret (s', p') ->
  requests_step (s, <[i := (rq, p)]> ts) (s', <[i := (rq, p')]> ts).
Proof.
  intros Hi Hp Hs. rewrite <- (list_insert_insert_eq ts i (rq, p') (rq, p)).
  eapply rq_stage; [|exact Hp|exact Hs]. apply list_lookup_insert_eq. by eapply lookup_lt_Some.
Qed.

(** The handler of [Gateway] is one of the interleavings: undisturbed, a request among
    others takes the state from what the handler finds to what it leaves, and is answered
    as the handler answers. *)
Theorem handler_refines s s' r ts i rq :
  ts !! i = Some (rq, Received) ->
  handle_agent_execution (rq_env rq) (rq_socket rq) (rq_headers rq) (rq_body rq) s = Ret (s', r) ->
  rtc requests_step (s, ts) (s', <[i := (rq, Replied r)]> ts).
Proof.
  intros Hi. rewrite <- (list_insert_id ts i (rq, Received) Hi) at 1.
  assert (forall s0 p s1 p1, over p = false -> stage rq p s0 = Ret (s1, p1) ->
    requests_step (s0, <[i := (rq, p)]> ts) (s1, <[i := (rq, p1)]> ts)) as Hat by eauto using step_at.
  unfold handle_agent_execution, meter_request. intros Hh.
  destruct (extract_tenant_id (rq_headers rq)) as [t|st] eqn:Ht.
  2: { apply rtc_once, Hat; [done|]. cbn [stage]. rewrite Ht. by injection Hh as <- <-. }
  assert (tenant_of (rq_headers rq) = t) as Htt by (unfold tenant_of; by rewrite Ht).
  destruct (authenticate _ _ _ _ _ _ s) as [[s1 [r1|]]|] eqn:Ha; cbn [mbind outcome_bind] in Hh; [| |done].
  { apply rtc_once, Hat; [done|]. cbn [stage]. rewrite Ht, Ha. by injection Hh as <- <-. }
  eapply rtc_l; [apply Hat; [done|]; cbn [stage]; rewrite Ht, Ha; reflexivity|].
  destruct (acquire_api_token _ _ _) as [l [u|err]] eqn:Hacq.
  2: { apply rtc_once, Hat; [done|]. cbn [stage]. rewrite Htt, Hacq. by injection Hh as <- <-. }
  eapply rtc_l; [apply Hat; [done|]; cbn [stage]; rewrite Htt, Hacq; reflexivity|].
  destruct (deduct_tokens _ _ _ _) as [d [[b|a b]|err]] eqn:Hd.
  2,3: apply rtc_once, Hat; [done|]; cbn [stage]; rewrite Htt, Hd; by injection Hh as <- <-.
  eapply rtc_l; [apply Hat; [done|]; cbn [stage]; rewrite Htt, Hd; reflexivity|].
  destruct (execute_request _ _ _ _ _ _ _) as [[[s2 g] r2]|] eqn:Hex; cbn [mbind outcome_bind] in Hh; [|done].
  eapply rtc_l; [apply Hat; [done|]; cbn [stage]; rewrite Htt, Hex; reflexivity|].
  apply rtc_once, Hat; [done|]. cbn [stage]. by injection Hh as <- <-.
Qed.

(** ** Replays among overlapping requests *)

Lemma check_and_insert_accepts t n c c' :
  check_and_insert t n c = Ret (c', true) ->
  HmacAuth.entries c' !! n = Some t /\
  (forall t0, HmacAuth.entries c !! n = Some t0 -> t0 + NONCE_TTL_SECS * 10 ^ 9 <= t).
Proof.
  unfold check_and_insert. intros Hc.
  destruct (match HmacAuth.entries c !! n with Some _ => _ | None => _ end) eqn:Hseen; [by simplify_eq|].
  split.
  - destruct (add_u USIZE_MAX (insert_count c) 1); simplify_eq/=. by rewrite lookup_insert_eq.
  - intros t0 Ht. rewrite Ht, bool_decide_eq_false, age_secs_lt in Hseen. lia.
Qed.

Lemma check_and_insert_size t n c c' b :
  Z.of_nat (size (HmacAuth.entries c)) < NONCE_CACHE_MAX_CAPACITY ->
  check_and_insert t n c = Ret (c', b) ->
  (size (HmacAuth.entries c') <= S (size (HmacAuth.entries c)))%nat.
Proof.
  unfold check_and_insert. intros Hsz Hc.
  destruct (match HmacAuth.entries c !! n with Some _ => _ | None => _ end); [simplify_eq; lia|].
  destruct (add_u USIZE_MAX (insert_count c) 1); simplify_eq/=.
  set (m := if decide (_ = 0) then _ else _).
  assert (size m <= size (HmacAuth.entries c))%nat as Hm.
  { unfold m. case_decide; [apply map_size_filter|lia]. }
  rewrite decide_False by lia. rewrite map_size_insert. destruct (m !! n); unfold id; lia.
Qed.

(** The nonce inside an authorization header. *)
Definition header_nonce (header : string) : string :=
  let body := drop_bytes (String.length HEADER_PREFIX) header in
  let remaining := drop_bytes (S (default 0%nat (find "." body))) body in
  take_bytes (default 0%nat (find "." remaining)) remaining.

Lemma validate_cases now instant hdr payload ts a c c' r :
  validate_auth_header now instant hdr payload ts a c = Ret (c', r) ->
  (c' = c /\ r <> Ok tt) \/
  exists b, check_and_insert instant (header_nonce hdr) c = Ret (c', b) /\ (r = Ok tt -> b = true).
Proof.
  unfold validate_auth_header, header_nonce. intros Hv.
  destruct (negb _); [left; by simplify_eq|].
  destruct (find "." (drop_bytes (String.length HEADER_PREFIX) hdr)) as [d1|]; [|left; by simplify_eq].
  destruct (find "." (drop_bytes (S d1) _)) as [d2|] eqn:Hd2; [|left; by simplify_eq].
  cbn [default from_option id]. rewrite Hd2. cbn [default from_option id].
  destruct (parse_i64 _); [|left; by simplify_eq]. destruct (is_empty _); [left; by simplify_eq|].
  destruct (decide _) in Hv; [left; by simplify_eq|]. destruct (decide _) in Hv; [left; by simplify_eq|].
  destruct (check_and_insert _ _ c) as [[c1 b]|]; cbn in Hv; [|done].
  right. exists b. destruct b; cbn in Hv; simplify_eq; [done|]. split; [done|discriminate].
Qed.

Lemma authenticate_nonces e headers t ip n tt (s s' : AppState) x a :
  service_auth s = Some a -> authenticate e headers t ip n tt s = Ret (s', x) ->
  service_auth s' = Some a /\
  ((nonces s' = nonces s /\ x <> None) \/
   exists hdr b, headers "authorization" = Some hdr /\
     check_and_insert (instant e) (header_nonce hdr) (nonces s) = Ret (nonces s', b) /\ (x = None -> b = true)).
Proof.
  intros Ha. unfold authenticate. rewrite Ha. intros Hx.
  destruct (headers "authorization") as [hdr|]; [|simplify_eq; auto].
  destruct (is_empty _); [simplify_eq; auto|]. destruct (decide _) in Hx; [simplify_eq; auto|].
  destruct (validate_auth_header _ _ _ _ _ _ _) as [[c r]|] eqn:Hv; cbn [mbind outcome_bind] in Hx; [|done].
  apply validate_cases in Hv. destruct r as [[]|err]; simplify_eq; (split; [exact Ha|]).
  - right. destruct Hv as [[_ Hv]|(b & Hb & Hok)]; [done|]. exists hdr, b. by auto.
  - destruct Hv as [[-> _]|(b & Hb & _)]; [by left|]. right. exists hdr, b. by auto.
Qed.

(** The part of the state that authentication works on. *)
Definition auth_part (s : AppState) := (service_auth s, nonces s).

Lemma run_consensus_auth e req (s s1 : AppState) r : run_consensus e req s = Ret (s1, r) -> auth_part s1 = auth_part s.
Proof.
  unfold run_consensus. destruct (interrupted e) as [x|]; [by intros; simplify_eq|].
  destruct (execute_consensus_providers _ _ _ _ _ _ _ _ _) as [[[o d] [r' eff]]|]; simpl; [|done].
  by intros; simplify_eq.
Qed.

Lemma conclude_auth e t ip prompt r guard (s s1 : AppState) g resp :
  conclude e t ip prompt r guard s = (s1, g, resp) -> auth_part s1 = auth_part s.
Proof.
  unfold conclude. set (p := match majority_output r with Some _ => _ | None => _ end).
  destruct (match p with Some _ => _ | None => _ end) as [json|]; intros Hx; simplify_eq; [|done].
  by destruct (2 <=? _)%nat.
Qed.

Lemma execute_request_auth e t ip body tt guard (s s1 : AppState) g r :
  execute_request e t ip body tt guard s = Ret (s1, g, r) -> auth_part s1 = auth_part s.
Proof.
  unfold execute_request. intros Hx. destruct (negb _); [by simplify_eq|]. destruct (negb _); [by simplify_eq|].
  destruct (scan _ _); [|by simplify_eq].
  destruct (run_consensus _ _ _) as [[s2 res]|] eqn:Hrun; cbn in Hx; [|done].
  apply run_consensus_auth in Hrun. destruct (negb _); [injection Hx as <- _ _; exact Hrun|].
  destruct (conclude _ _ _ _ _ _ s2) as [[s3 g3] r3] eqn:Hc. apply conclude_auth in Hc.
  injection Hx as <- _ _. by rewrite Hc.
Qed.

Lemma left_behind_auth p (s s' : AppState) : left_behind p s s' -> auth_part s' = auth_part s.
Proof. by intros [->|(g & x & _ & ->)]. Qed.

Definition received (p : progress) : bool := match p with Received => true | _ => false end.
(** Past authentication, whose refusals all have the status 401. *)
Fixpoint passed (p : progress) : bool :=
  match p with
  | Received => false
  | Replied r => negb (status r =? 401)%Z
  | Dropped p | Gone p => passed p
  | _ => true
  end.

Lemma stage_auth rq p (s s' : AppState) p' : received p = false -> stage rq p s = Ret (s', p') ->
  auth_part s' = auth_part s /\ received p' = false /\ (passed p' = true -> passed p = true).
Proof.
  destruct p as [| | |g|g r|r|q|q]; cbn [received stage]; intros Hr Hs; try discriminate.
  - destruct (acquire_api_token _ _ _) as [l [u|e]]; by simplify_eq.
  - destruct (deduct_tokens _ _ _ _) as [d [[b|b c]|e]]; by simplify_eq.
  - destruct (execute_request _ _ _ _ _ _ _) as [[[s2 g2] r2]|] eqn:Hex; cbn in Hs; [|done].
    apply execute_request_auth in Hex. by injection Hs as <- <-.
  - by simplify_eq.
  - by simplify_eq.
  - injection Hs as <- <-. by destruct q.
  - by simplify_eq.
Qed.

Lemma stage_received rq (s s' : AppState) p' a : service_auth s = Some a -> stage rq Received s = Ret (s', p') ->
  service_auth s' = Some a /\ received p' = false /\
  ((nonces s' = nonces s /\ passed p' = false) \/
   exists hdr b, rq_headers rq "authorization" = Some hdr /\
     check_and_insert (instant (rq_env rq)) (header_nonce hdr) (nonces s) = Ret (nonces s', b) /\
     (passed p' = true -> b = true)).
Proof.
  intros Ha Hs. cbn [stage] in Hs. destruct (extract_tenant_id _) as [t|st] eqn:Ht.
  2: { apply tenant_missing in Ht as ->. simplify_eq. by auto. }
  destruct (authenticate _ _ _ _ _ _ s) as [[s1 x]|] eqn:Hau; cbn in Hs; [|done].
  destruct (authenticate_effect _ _ _ _ _ _ _ _ _ Hau) as (_ & _ & _ & _ & Hx).
  destruct (authenticate_nonces _ _ _ _ _ _ _ _ _ _ Ha Hau) as [Ha' Hn]. injection Hs as <- <-.
  split; [done|]. destruct x as [r|]; (split; [done|]); cbn [passed].
  - destruct Hx as [-> _]. destruct Hn as [[Hn _]|(hdr & b & E1 & E2 & _)]; [by left|].
    right. exists hdr, b. split; [done|]. split; [done|discriminate].
  - right. destruct Hn as [[_ Hn]|(hdr & b & E1 & E2 & E3)]; [done|]. exists hdr, b. by auto.
Qed.

Section replays.
Context (a : ServiceAuthenticator) (s0 : AppState) (l : list Request).
Context (Hauth : service_auth s0 = Some a)
  (Hroom : Z.of_nat (size (HmacAuth.entries (nonces s0)) + length l) < NONCE_CACHE_MAX_CAPACITY)
  (Hclocks : forall rq rq', rq ∈ l -> rq' ∈ l ->
    instant (rq_env rq) < instant (rq_env rq') + NONCE_TTL_SECS * 10 ^ 9).

Definition begun (t : Request * progress) : bool := negb (received t.2).
Definition nonce_of_request (rq : Request) : option string := header_nonce <$> rq_headers rq "authorization".

Record replay_inv (s : AppState) (ts : Requests) : Prop := {
  ri_requests : ts.*1 = l;
  ri_auth : service_auth s = Some a;
  ri_size : (size (HmacAuth.entries (nonces s)) <=
             size (HmacAuth.entries (nonces s0)) + length (List.filter begun ts))%nat;
  ri_kept : forall i rq p, ts !! i = Some (rq, p) -> passed p = true ->
    exists n, nonce_of_request rq = Some n /\ HmacAuth.entries (nonces s) !! n = Some (instant (rq_env rq));
  ri_once : forall i j rq rq' p p', ts !! i = Some (rq, p) -> ts !! j = Some (rq', p') ->
    passed p = true -> passed p' = true -> nonce_of_request rq = nonce_of_request rq' -> i = j }.

Lemma request_in s ts i rq p : replay_inv s ts -> ts !! i = Some (rq, p) -> rq ∈ l.
Proof.
  intros [Hl _ _ _ _] Hi. rewrite <- Hl. apply list_elem_of_lookup_2 with i. by rewrite list_lookup_fmap, Hi.
Qed.

Lemma begun_length s ts : replay_inv s ts -> (length (List.filter begun ts) <= length l)%nat.
Proof. intros [Hl _ _ _ _]. rewrite <- Hl, length_fmap. apply List.filter_length_le. Qed.

Lemma replay_inv_init : replay_inv s0 (arrived l).
Proof.
  assert (forall i rq p, arrived l !! i = Some (rq, p) -> p = Received) as Hrec.
  { intros i rq p Hi. unfold arrived in Hi. rewrite list_lookup_fmap in Hi. destruct (l !! i); by simplify_eq/=. }
  constructor.
  - unfold arrived. rewrite <- list_fmap_compose. apply list_fmap_id.
  - exact Hauth.
  - lia.
  - intros i rq p Hi Hp. apply Hrec in Hi as ->. discriminate Hp.
  - intros i j rq rq' p p' Hi _ Hp. apply Hrec in Hi as ->. discriminate Hp.
Qed.

(** A step that leaves authentication's state alone. *)
Lemma replay_inv_later s ts i rq p s' p' : replay_inv s ts -> ts !! i = Some (rq, p) ->
  (passed p' = true -> passed p = true) -> auth_part s' = auth_part s -> received p' = false ->
  replay_inv s' (<[i := (rq, p')]> ts).
Proof.
  intros Hinv Hi Hp Hs Hr'. destruct Hinv as [Hl Ha Hsz Hk Ho]. injection Hs as Hsa Hsn.
  assert (forall j rq0 q, <[i := (rq, p')]> ts !! j = Some (rq0, q) -> passed q = true ->
    exists q0, ts !! j = Some (rq0, q0) /\ passed q0 = true) as Hback.
  { intros j rq0 q Hj Hq. apply list_lookup_insert_Some in Hj as [(-> & Hq0 & _)|[_ Hj]]; [|eauto].
    injection Hq0 as <- <-. eauto. }
  constructor.
  - rewrite list_fmap_insert. cbn. rewrite list_insert_id; [done|]. by rewrite list_lookup_fmap, Hi.
  - by rewrite Hsa.
  - rewrite Hsn. pose proof (count_insert begun ts i (rq, p) (rq, p') Hi) as Hc.
    unfold begun in Hc at 2 4. cbn [snd] in Hc. rewrite Hr' in Hc. destruct (received p); cbn in Hc; lia.
  - intros j rq0 q Hj Hq. rewrite Hsn. destruct (Hback _ _ _ Hj Hq) as (q0 & Hj0 & Hq0). eauto.
  - intros j k rq1 rq2 q1 q2 Hj Hk' Hq1 Hq2. destruct (Hback _ _ _ Hj Hq1) as (q3 & Hj3 & Hq3).
    destruct (Hback _ _ _ Hk' Hq2) as (q4 & Hk4 & Hq4). eauto.
Qed.

(** The step of authentication: other requests' nonces stay, and the own one is new. *)
Lemma replay_inv_received s ts i rq s' p' : replay_inv s ts -> ts !! i = Some (rq, Received) ->
  stage rq Received s = Ret (s', p') -> replay_inv s' (<[i := (rq, p')]> ts).
Proof.
  intros Hinv Hi Hs. pose proof (begun_length _ _ Hinv) as Hbl. pose proof (request_in _ _ _ _ _ Hinv Hi) as Hin.
  assert (forall j q0 q, ts !! j = Some (q0, q) -> q0 ∈ l) as Hins by eauto using request_in.
  destruct Hinv as [Hl Ha Hsz Hk Ho].
  destruct (stage_received _ _ _ _ _ Ha Hs) as (Ha' & Hr' & Hcase).
  pose proof (count_insert begun ts i (rq, Received) (rq, p') Hi) as Hc.
  unfold begun in Hc at 2 4. cbn [snd received negb] in Hc. rewrite Hr' in Hc. cbn in Hc.
  assert ((<[i := (rq, p')]> ts).*1 = l) as Hl'.
  { rewrite list_fmap_insert. cbn. rewrite list_insert_id; [done|]. by rewrite list_lookup_fmap, Hi. }
  destruct Hcase as [[Hn Hp]|(hdr & b & Hhdr & Hci & Hb)].
  { constructor; [done|done|rewrite Hn; lia| |].
    - intros j rq0 q Hj Hq. rewrite Hn.
      apply list_lookup_insert_Some in Hj as [(-> & [= <- <-] & _)|[_ Hj]]; [congruence|eauto].
    - intros j k rq1 rq2 q1 q2 Hj Hk' Hq1 Hq2.
      apply list_lookup_insert_Some in Hj as [(-> & [= <- <-] & _)|[_ Hj]]; [congruence|].
      apply list_lookup_insert_Some in Hk' as [(-> & [= <- <-] & _)|[_ Hk']]; [congruence|eauto]. }
  assert (Z.of_nat (size (HmacAuth.entries (nonces s))) < NONCE_CACHE_MAX_CAPACITY) as Hcap by lia.
  pose proof (check_and_insert_size _ _ _ _ _ Hcap Hci) as Hsz'.
  assert (forall j rq0 q, ts !! j = Some (rq0, q) -> passed q = true -> passed p' = true ->
    nonce_of_request rq0 = nonce_of_request rq -> False) as Hnew.
  { intros j rq0 q Hj Hq Hp Hsame. destruct (Hk _ _ _ Hj Hq) as (n & Hn & He).
    rewrite Hn in Hsame. unfold nonce_of_request in Hsame. rewrite Hhdr in Hsame. injection Hsame as ->.
    rewrite (Hb Hp) in Hci. apply check_and_insert_accepts in Hci as [_ Hold].
    specialize (Hold _ He). pose proof (Hclocks rq rq0 Hin (Hins _ _ _ Hj)). lia. }
  constructor; [done|done|lia| |].
  - intros j rq0 q Hj Hq. apply list_lookup_insert_Some in Hj as [(-> & [= <- <-] & _)|[_ Hj]].
    + exists (header_nonce hdr). unfold nonce_of_request. rewrite Hhdr. split; [done|].
      rewrite (Hb Hq) in Hci. by apply check_and_insert_accepts in Hci as [Hci _].
    + destruct (Hk _ _ _ Hj Hq) as (n & Hn & He). exists n. split; [done|].
      eapply check_and_insert_keeps; [exact Hcap|exact He| |exact Hci]. eauto.
  - intros j k rq1 rq2 q1 q2 Hj Hk' Hq1 Hq2 Hsame.
    apply list_lookup_insert_Some in Hj as [(-> & [= <- <-] & _)|[_ Hj]];
      apply list_lookup_insert_Some in Hk' as [(-> & [= <- <-] & _)|[_ Hk']]; [done| | |eauto].
    + exfalso. eauto.
    + exfalso. eauto.
Qed.

(** C3: however requests overlap or are dropped, of those with the same nonce in their
    authorization header at most one gets past authentication: as long as the clocks of the
    requests are within the 300 seconds of the replay window of each other and the cache has
    room for them. *)
Theorem nonce_used_once s ts i j rq rq' p p' hdr hdr' :
  rtc requests_step (s0, arrived l) (s, ts) ->
  ts !! i = Some (rq, p) -> ts !! j = Some (rq', p') -> i <> j ->
  rq_headers rq "authorization" = Some hdr -> rq_headers rq' "authorization" = Some hdr' ->
  header_nonce hdr = header_nonce hdr' -> passed p = true -> passed p' = false.
Proof using Hauth Hroom Hclocks.
  intros Hrun Hi Hj Hne Hh Hh' Hn Hp. destruct (passed p') eqn:Hp'; [|done]. destruct Hne.
  assert (replay_inv s ts) as Hinv.
  { clear - Hauth Hroom Hclocks Hrun. pose proof replay_inv_init as Hinv. revert Hinv.
    change (replay_inv s0 (arrived l)) with (replay_inv (s0, arrived l).1 (s0, arrived l).2).
    change (replay_inv s ts) with (replay_inv (s, ts).1 (s, ts).2).
    induction Hrun as [|x y z Hxy _ IH]; [done|]. intros Hinv. apply IH.
    destruct Hxy as [s1 t1 i rq p s2 p2 Hi Hr Hs|s1 t1 i rq p s2 Hi _ Hs]; cbn [fst snd] in *.
    - destruct (received p) eqn:Hrec.
      + destruct p; try discriminate. by eapply replay_inv_received.
      + destruct (stage_auth _ _ _ _ _ Hrec Hs) as (Hpart & Hr2 & Hpass). by eapply replay_inv_later.
    - eapply replay_inv_later; [exact Hinv|exact Hi|done|by apply left_behind_auth in Hs|done]. }
  eapply (ri_once _ _ Hinv); [exact Hi|exact Hj|exact Hp|exact Hp'|].
  unfold nonce_of_request. rewrite Hh, Hh'. exact (f_equal Some Hn).
Qed.
End replays.
End requests.

(** ** Concrete inputs

    The same forged header twice. *)
Definition demo_rq : Request := mkRequest demo_env demo_socket demo_headers demo_good.
Local Abbreviation demo_step :=
  (requests_step (H := AtSigns) (H0 := canonical_order) (H1 := RedisMap) (H2 := PlainText) (H3 := StringMap)
     (H4 := naive_matchers) (H5 := demo_gateway) (Component := Z)).
Local Abbreviation demo_stage :=
  (stage (H := AtSigns) (H0 := canonical_order) (H1 := RedisMap) (H2 := PlainText) (H3 := StringMap)
     (H4 := naive_matchers) (H5 := demo_gateway) (Component := Z)).
Definition demo_second : AppState * progress :=
  match demo_stage demo_rq Received demo_swap_state with Ret x => x | Panic => (demo_state, Received) end.

Lemma demo_overlap :
  rtc demo_step (demo_state, arrived [demo_rq; demo_rq])
    (demo_second.1, [(demo_rq, Authenticated); (demo_rq, demo_second.2)]).
Proof.
  eapply rtc_l.
  { apply (rq_stage (H5 := demo_gateway) demo_state _ 0%nat demo_rq Received demo_swap_state Authenticated);
      reflexivity. }
  eapply rtc_l.
  { apply (rq_stage (H5 := demo_gateway) demo_swap_state _ 1%nat demo_rq Received demo_second.1 demo_second.2);
      reflexivity. }
  apply rtc_refl.
Qed.

(** The first one is let in, the second one is refused. *)
Lemma nonce_used_once_witness : passed demo_second.2 = false.
Proof.
  refine (nonce_used_once (H := AtSigns) (H0 := canonical_order) (H1 := RedisMap) (H2 := PlainText)
    (H3 := StringMap) (H4 := naive_matchers) (H5 := demo_gateway) (mkAuth "s3cret") demo_state [demo_rq; demo_rq]
    eq_refl _ _ demo_second.1 [(demo_rq, Authenticated); (demo_rq, demo_second.2)] 0%nat 1%nat demo_rq demo_rq
    Authenticated demo_second.2 _ _ demo_overlap eq_refl eq_refl _ eq_refl eq_refl eq_refl eq_refl).
  - reflexivity.
  - intros rq rq' Hin Hin'. assert (forall x, x ∈ [demo_rq; demo_rq] -> x = demo_rq) as Hx by set_solver.
    rewrite (Hx _ Hin), (Hx _ Hin'). reflexivity.
  - discriminate.
Defined.

Lemma handler_refines_witness :
  rtc demo_step (demo_state, [(demo_rq, Received)])
    ((demo_answer demo_good).1, [(demo_rq, Replied (demo_answer demo_good).2)]).
Proof.
  exact (handler_refines (H := AtSigns) (H0 := canonical_order) (H1 := RedisMap) (H2 := PlainText)
    (H3 := StringMap) (H4 := naive_matchers) (H5 := demo_gateway) demo_state _ _ [(demo_rq, Received)] 0%nat demo_rq
    eq_refl (demo_answered demo_good ltac:(vm_compute; reflexivity))).
Defined.
