(* ===== verification/Startup.v ===== *)
(** * apps/gateway/src/main.rs: start-up, background tasks and shutdown

    [start] takes the environment and what the outside answers (Redis, files, the
    kernel's database and engine) to the state the handlers of [Gateway] work on; the
    probe and the self-healing loop of the fallback node, the eviction of idle
    tenants and the shutdown follow. *)
From Stdlib Require Import Ascii String.
From S2P Require Import Prelude F64 RustStr HotSwap Masking Microkernel HmacAuth RateLimiter FinOps.
From S2P Require Import TmrConsensus PiiMask Coordinator ComplianceBus DeterministicHooks.
From S2P Require Import FlightRecorder Config EgressGuard Gateway.
From S2P Require Provider.

Local Open Scope string_scope.

Abbreviation Environment := (string -> option string).

(** ** Before the components *)

(** The gate of a process whose variable [APP_ENV] says production. *)
Definition production_gate (env : Environment) : outcome unit :=
  if bool_decide (default "" (env "APP_ENV") = "production") then
    let token := default "" (env "SEREIN_INTERNAL_TOKEN") in
    if bool_decide (token = "generate_a_random_uuid_here") || is_empty (trim token) then Panic
    else Ret tt
  else Ret tt.

(** Threads of the worker pool; [parallelism] is what the system reports. *)
Definition rayon_threads (env : Environment) (parallelism : option Z) : Z :=
  match env "RAYON_NUM_THREADS" with
  | Some v => match parse_u64 v with Some n => n | None => default 4 parallelism end
  | None => default 4 parallelism
  end.

(** ** Providers from the environment *)

Definition groq : Provider.ProviderConfig :=
  Provider.mkProviderConfig "groq" "Groq Llama 3 (8B)" "openai" "https://api.groq.com/openai/v1"
    "llama3-8b-8192" "" "GROQ_API_KEY" 10000 (2 * 1024 * 1024) "groq" Provider.default_temperature
    1024 2 15 None None.
Definition deepseek : Provider.ProviderConfig :=
  Provider.mkProviderConfig "deepseek" "DeepSeek-V3 Chat" "openai" "https://api.deepseek.com/v1"
    "deepseek-chat" "" "DEEPSEEK_API_KEY" 15000 (5 * 1024 * 1024) "deepseek" Provider.default_temperature
    4096 3 20 None None.
Definition siliconflow : Provider.ProviderConfig :=
  Provider.mkProviderConfig "siliconflow" "SiliconFlow Qwen 2.5" "openai" "https://api.siliconflow.cn/v1"
    "Qwen/Qwen2.5-7B-Instruct" "" "SILICONFLOW_API_KEY" 12000 (2 * 1024 * 1024) "siliconflow"
    Provider.default_temperature 2048 2 10 None None.

Definition known_providers : list Provider.ProviderConfig := [groq; deepseek; siliconflow].
Definition build_providers_from_env (env : Environment) : Provider.ProvidersConfig :=
  Provider.mkProviders
    (List.filter (fun c => bool_decide (is_Some (env (Provider.api_key_env c)))) known_providers).

(** What the orchestrator keeps of a provider. *)
Definition llm_of (p : Provider.AnyProvider) : LlmProvider :=
  mkProvider (Provider.any_provider_id p) (Provider.any_display_name p) (Provider.any_timeout_ms p).

(** ** The fallback node's probe and healing *)

(** The probe runs in a task of its own, whose panic, after the invocation was counted, is
    logged; so is a probe that takes longer than ten seconds. *)
Definition probe_node (permit : Permit) (now ms : Z) (n : PhysicalFallbackNode) : PhysicalFallbackNode :=
  if is_available n then
    match fallback_invoke permit now ms "probe" n with
    | Ret (n, _) => n
    | Panic => count_invocation now n
    end
  else n.

(** One turn of the healing task; a panic in it would end the task. *)
Definition healing_turn (permit : Permit) (now ms : Z) (n : PhysicalFallbackNode) : outcome PhysicalFallbackNode :=
  if negb (is_available n) then
    '(n, result) ← fallback_invoke permit now ms "probe" n;
    match f_error result with None => Ret (enable n) | Some _ => Ret n end
  else Ret n.

(** The eviction task's turn, once a minute: idle for an hour. *)
Definition eviction_turn (now : string -> Z) (cell : option ApiRateLimiter) : option ApiRateLimiter :=
  match get_circuit_breaker cell with
  | Some l => Some (evict_stale_tenants now (3600 * 10 ^ 9) l).1
  | None => None
  end.

(** ** Start *)

Section start.
Context `{PiiRegex, HashOrder, Redis, LlmText, RedisStrings, Matchers, GatewayText, Crypto}.
Context {Component : Type} (parse_f64 : string -> option f64)
  (parse_providers : string -> result Provider.ProvidersConfig string).

(** What the outside answers: Redis takes a connection, [kernel_error] is a failure of the
    kernel's engine or database, the contents of the WAF's and the providers' files,
    [recorder_error] a failure to create the telemetry directory, the readings of the
    clocks. *)
Record Outside := mkOutside {
  redis_connects : bool;
  kernel_error : option string;
  waf_file : option string;
  providers_file : result string string;
  http_client_error : option string;
  recorder_error : option string;
  start_at : Z;
  probe_permit : Permit;
  redis_db : db;
  redis_strings : sdb }.

Definition load_providers (env : Environment) (o : Outside) : Provider.ProvidersConfig :=
  let path := default "providers.toml" (env "PROVIDERS_CONFIG") in
  match Provider.load_from_file parse_providers path (providers_file o) with
  | Ok c => c
  | Err _ => build_providers_from_env env
  end.

Definition start_kernel (env : Environment) (o : Outside) : result (@SereinMicrokernel Component) string :=
  match kernel_error o with
  | Some e => Err e
  | None => kernel_new (start_at o) (env "SEREIN_MASTER_KEY")
  end.

Definition start_slm (env : Environment) : SlmNodeConfig :=
  match slm_config_from_env env with
  | Ok c => c
  | Err _ => mkSlm "serein-slm-v1" "./serein-models/fallback-slm.gguf" Lazy
  end.

(** The rest of the state of the handlers. *)
Definition assemble (env : Environment) (o : Outside) (kernel : @SereinMicrokernel Component)
    (orchestrator : TmrOrchestrator) (limiter : option ApiRateLimiter) : outcome (result AppState string) :=
  match recorder_error o with
  | Some e => Ret (Err ("Failed to initialize consensus flight recorder: " ++ e))
  | None =>
      let auth :=
        match HmacAuth.from_env (env "SEREIN_INTERNAL_TOKEN") with Ok a => Some a | Err _ => None end in
      waf ← waf_new (waf_file o);
      Ret (Ok (mkState kernel orchestrator (corpus_new None) auth cache_new bus_new waf ""
        (FinOps.mkManager false) limiter (redis_db o) (redis_strings o)))
  end.

(** From the connection to Redis to the state of the handlers. *)
Definition build_state (env : Environment) (o : Outside) : outcome (result AppState string) :=
  let limiter := init_circuit_breaker (start_at o) None in
  if negb (redis_connects o) then Panic
  else
    global_waf ← waf_new (waf_file o);
    match from_env (Masking.hex_decode) parse_f64 env with
    | Err e => Ret (Err ("Failed to load application configuration from environment: " ++ e))
    | Ok app_config =>
        match start_kernel env o with
        | Err e => Ret (Err e)
        | Ok kernel =>
            match http_client_error o with
            | Some e => Ret (Err e)
            | None =>
                match Provider.build_providers env (load_providers env o) with
                | Err _ => Ret (Err "Failed to build providers from configuration")
                | Ok providers =>
                    let orchestrator := with_providers env (List.map llm_of providers) (start_slm env) in
                    let node := probe_node (probe_permit o) (start_at o) 0 (fallback_node orchestrator) in
                    let orchestrator := set_fallback node (fallback_trigger_count orchestrator) orchestrator in
                    assemble env o kernel orchestrator limiter
                end
            end
        end
    end.

Definition start (env : Environment) (o : Outside) : outcome (result AppState string) :=
  _ ← production_gate env; build_state env o.
End start.

(** ** Cross-origin requests *)

Inductive Cors : Type := AnyOrigin | Origins (l : list string).
(** [header_value] is the parsing of a header's value. *)
Definition cors_layer (header_value : string -> option string) (env : Environment) : result Cors string :=
  let allowed_origin_str := default "*" (env "ALLOWED_ORIGIN") in
  if bool_decide (allowed_origin_str = "*") then Ok AnyOrigin
  else match header_value allowed_origin_str with
       | Some origin => Ok (Origins [origin])
       | None => Err "Invalid ALLOWED_ORIGIN environment variable format"
       end.

(** The limits of the server, in the order of its layers. *)
Definition CONCURRENCY_LIMIT : Z := 10000.
Definition REQUEST_TIMEOUT_SECS : Z := 65.
Definition BODY_LIMIT : Z := 1024 * 1024.

(** ** The router

    A request but for those the cross-origin layer answers by itself.  The extractor looks
    at the content type ([json_type]) before it reads the body, and parses it with [json]
    when it is within the limit: the payload, or the status of its refusal; [uuid] is the
    identifier given to a request that has none. *)
Section router.
Context `{PiiRegex, HashOrder, Redis, LlmText, RedisStrings, Matchers, GatewayText}.
Context {Component : Type} (json_type : option string -> bool)
  (json : string -> result AgentExecutionPayload Z) (compile : string -> result Component string).

Record HttpRequest := mkHttpRequest { method : string; path : string; headers : HeaderMap; content : string }.
Inductive HttpAnswer : Type := Handled (r : Response) | Refused (status : Z).

Definition set_request_id (uuid : string) (h : HeaderMap) : HeaderMap := fun name =>
  if bool_decide (name = "x-request-id") then Some (default uuid (h "x-request-id")) else h name.

Definition route (e : Env) (socket_ip : IpAddr) (uuid : string) (rq : HttpRequest) (s : AppState)
    : outcome (AppState * HttpAnswer) :=
  let h := set_request_id uuid (headers rq) in
  if bool_decide (path rq = "/v1/agent/execute") then
    if negb (bool_decide (method rq = "POST")) then Ret (s, Refused 405)
    else if negb (json_type (h "content-type")) then Ret (s, Refused 415)
    else if decide (BODY_LIMIT < len (content rq)) then Ret (s, Refused 413)
    else match json (content rq) with
         | Err status => Ret (s, Refused status)
         | Ok body => '(s, r) ← handle_agent_execution e socket_ip h body s; Ret (s, Handled r)
         end
  else if bool_decide (path rq = "/v1/system/hot-swap") then
    if negb (bool_decide (method rq = "POST")) then Ret (s, Refused 405)
    else if decide (BODY_LIMIT < len (content rq)) then Ret (s, Refused 413)
    else '(s, r) ← handle_hot_swap e socket_ip h (content rq) compile s; Ret (s, Handled r)
  else Ret (s, Refused 404).
End router.

(** ** Shutdown

    From the signal: the server ends when its connections have drained, [None] when they
    never do, or after the 25 seconds; ten pauses of 100 ms follow. *)
Definition SHUTDOWN_SECS : Z := 25.
Definition shutdown_ms (drained : option Z) : Z :=
  match drained with
  | Some d => Z.min d (SHUTDOWN_SECS * 1000)
  | None => SHUTDOWN_SECS * 1000
  end + 10 * 100.

(** ** Metrics *)

Definition metrics_text : string :=
  "# HELP serein_billing_event_total Total FinOps billing events processed" ++ newline ++
  "# TYPE serein_billing_event_total counter" ++ newline ++
  "serein_billing_event_total{tenant=" ++ quoted "system" ++ "} 1" ++ newline.
(** The task that serves it: a port that cannot be bound ends the task and nothing else. *)
Definition metrics_answer (bound : result unit string) (path : string) : option string :=
  match bound with
  | Ok _ => if decide (path = "/metrics") then Some metrics_text else None
  | Err _ => None
  end.
(** The filter of the log, from [RUST_LOG]. *)
Definition log_filter (from_default_env : option string) : string := default "info" from_default_env.

(** ** The gate *)

(** The gate stops a process exactly when [APP_ENV] is set to production and the
    token is missing, blank or the placeholder of the example file. *)
Theorem production_gate_spec env :
  production_gate env = Panic <->
  env "APP_ENV" = Some "production" /\
  (env "SEREIN_INTERNAL_TOKEN" = None \/ exists token, env "SEREIN_INTERNAL_TOKEN" = Some token /\
     (token = "generate_a_random_uuid_here" \/ trim token = "")).
Proof.
  unfold production_gate, is_empty. destruct (env "APP_ENV") as [e|]; cbn [default from_option id].
  2: { rewrite bool_decide_eq_false_2 by done. naive_solver. }
  case_bool_decide as He; [subst e|naive_solver].
  destruct (env "SEREIN_INTERNAL_TOKEN") as [t|]; cbn [default from_option id].
  - case_bool_decide; cbn [orb]; [naive_solver|]. case_bool_decide; naive_solver.
  - cbn. naive_solver.
Qed.

(** ** What a started gateway is *)

Section started.
Context `{PiiRegex, HashOrder, Redis, LlmText, RedisStrings, Matchers, GatewayText, Crypto}.
Context {Component : Type} (parse_f64 : string -> option f64)
  (parse_providers : string -> result Provider.ProvidersConfig string).
Local Abbreviation starts := (start (Component := Component) parse_f64 parse_providers).

Lemma start_fields env o s : starts env o = Ret (Ok s) ->
  production_gate env = Ret tt /\
  (exists c, from_env Masking.hex_decode parse_f64 env = Ok c) /\
  (exists token, env "SEREIN_INTERNAL_TOKEN" = Some token /\ token <> "" /\
     service_auth s = Some (mkAuth token)) /\
  is_Some (rate_limiter s) /\ cache (tmr_orchestrator s) = None /\ finops (tmr_orchestrator s) = None /\
  2 <= o_min_agreement (tmr_orchestrator s) /\ compliance_tx s = bus_new /\ nonces s = cache_new /\
  wasm_module s = "" /\
  exists ps, Provider.build_providers env (load_providers parse_providers env o) = Ok ps /\
    List.map llm (adapters (tmr_orchestrator s)) = List.map llm_of ps.
Proof.
  unfold start. destruct (production_gate env) as [[]|]; [|done]. cbn [mbind outcome_bind]. unfold build_state, assemble.
  destruct (redis_connects o); [|done]. cbn [negb]. destruct (waf_new (waf_file o)) as [w|]; [|done].
  cbn [mbind outcome_bind]. destruct (from_env _ _ env) as [c|] eqn:Ec; [|done].
  destruct (start_kernel env o) as [k|]; [|done]. destruct (http_client_error o); [done|].
  destruct (Provider.build_providers env _) as [ps|] eqn:Eps; [|done].
  destruct (recorder_error o); [done|]. intros [= <-].
  split; [done|]. split; [eauto|]. cbn [service_auth rate_limiter tmr_orchestrator compliance_tx nonces wasm_module].
  apply from_env_valid in Ec as (_ & _ & _ & _ & Ht & Hne & _). rewrite Ht.
  unfold HmacAuth.from_env, is_empty. rewrite bool_decide_eq_false_2 by done.
  split_and!; try done.
  - by eexists.
  - cbn. lia.
  - exists ps. split; [done|]. cbn. rewrite !List.map_map. done.
Qed.

(** C6: a gateway that has started holds the token of its environment and authenticates:
    the branch of its documentation in which authentication is disabled is not reached,
    and neither are the lazy fallback model for an invalid configuration, a response
    cache or the refunds of the orchestrator's own budget manager, which it is built
    without; its quorum is at least two. *)
Theorem start_spec env o s :
  start (Component := Component) parse_f64 parse_providers env o = Ret (Ok s) ->
  (exists token, env "SEREIN_INTERNAL_TOKEN" = Some token /\ token <> "" /\
     service_auth s = Some (mkAuth token)) /\
  (exists slm, slm_config_from_env env = Ok slm) /\
  cache (tmr_orchestrator s) = None /\ finops (tmr_orchestrator s) = None /\
  2 <= o_min_agreement (tmr_orchestrator s) /\ is_Some (rate_limiter s).
Proof.
  intros Hs. destruct (start_fields env o s Hs) as (_ & (c & Hc) & Ht & Hr & Hca & Hf & Hm & _).
  split_and!; try done. apply from_env_valid in Hc as ((_ & Hp) & _ & _ & _ & _ & _ & _ & _ & _ & Hne & _).
  unfold slm_config_from_env, var, is_empty in *. destruct (env "SLM_MODEL_PATH") as [path|]; cbn in *.
  - rewrite bool_decide_eq_false_2 by congruence. eauto.
  - eauto.
Qed.

(** The configuration takes an environment without [APP_ENV] for production, the gate
    does not look at it: the placeholder token then starts a production gateway. *)
Theorem unset_env_passes_gate env c :
  env "APP_ENV" = None -> from_env Masking.hex_decode parse_f64 env = Ok c ->
  production_gate env = Ret tt /\ app_env c = "production".
Proof.
  intros He Hc. unfold production_gate. rewrite He. split; [done|].
  apply from_env_valid in Hc as ((Ha & _) & _). by rewrite Ha; unfold var; rewrite He.
Qed.

(** C5: end to end, a request without an [authorization] header never reaches a provider of a
    started gateway: whatever it says otherwise, the answer is 401 and nothing of the
    state has changed but the compliance bus. *)
Theorem unauthenticated_refused env o s e ip headers body :
  start (Component := Component) parse_f64 parse_providers env o = Ret (Ok s) ->
  headers "authorization" = None ->
  exists s' r, handle_agent_execution e ip headers body s = Ret (s', r) /\ status r = 401 /\
    s' = set_compliance (compliance_tx s') s.
Proof.
  intros Hs Ha. destruct (start_fields env o s Hs) as (_ & _ & (token & _ & _ & Hauth) & _).
  unfold handle_agent_execution. destruct (extract_tenant_id headers) as [tenant|st] eqn:Et.
  - unfold authenticate. rewrite Hauth, Ha. cbn [mbind outcome_bind]. eexists _, _. split; [done|]. by destruct s.
  - unfold extract_tenant_id in Et. eexists _, _. split; [done|].
    destruct (headers "x-serein-tenant-id"); [destruct (is_empty _)|]; simplify_eq; by destruct s.
Qed.
End started.

(** ** Routing *)

Section routing.
Context `{PiiRegex, HashOrder, Redis, LlmText, RedisStrings, Matchers, GatewayText}.
Context {Component : Type} (json_type : option string -> bool)
  (json : string -> result AgentExecutionPayload Z) (compile : string -> result Component string).

(** The router's body limit comes before the handlers': a module of more than 1 MiB is
    refused by the router and changes nothing, so the handler's own limit of 50 MiB
    is never what refuses one; every request a handler gets is a POST to one of the two
    paths, within the limit, with a request id, its own when it has one. *)
Theorem route_spec e ip uuid rq s s' a :
  route json_type json compile e ip uuid rq s = Ret (s', a) ->
  (forall status, a = Refused status -> s' = s) /\
  (forall r, a = Handled r ->
    method rq = "POST" /\ (len (content rq) <= BODY_LIMIT)%Z /\
    let h := set_request_id uuid (headers rq) in
    h "x-request-id" = Some (default uuid (headers rq "x-request-id")) /\
    (path rq = "/v1/agent/execute" /\ (exists body, json_type (h "content-type") = true /\ json (content rq) = Ok body /\
        handle_agent_execution e ip h body s = Ret (s', r)) \/
     path rq = "/v1/system/hot-swap" /\ handle_hot_swap e ip h (content rq) compile s = Ret (s', r))) /\
  (BODY_LIMIT < len (content rq) -> path rq = "/v1/system/hot-swap" -> method rq = "POST" -> a = Refused 413).
Proof.
  unfold route. set (h := set_request_id uuid (headers rq)).
  assert (Hid : h "x-request-id" = Some (default uuid (headers rq "x-request-id"))) by done.
  case_bool_decide as Hp; [|case_bool_decide as Hp'].
  3: intros [= <- <-]; split_and!; try done.
  all: case_bool_decide as Hm; cbn [negb]; [|intros [= <- <-]; split_and!; try done; naive_solver].
  1: destruct (json_type _) eqn:Ht; cbn [negb]; [|intros [= <- <-]; split_and!; try done; congruence].
  all: case_decide as Hl; [intros [= <- <-]; split_and!; try done|].
  - destruct (json _) as [body|st] eqn:Hj; [|intros [= <- <-]; split_and!; naive_solver].
    destruct (handle_agent_execution _ _ _ _ _) as [[s1 r1]|] eqn:Hh; [|done]. intros [= <- <-].
    split_and!; [done| |congruence]. intros r [= <-]. split_and!; [done|lia|done|]. left. eauto.
  - destruct (handle_hot_swap _ _ _ _ _ _) as [[s1 r1]|] eqn:Hh; [|done]. intros [= <- <-].
    split_and!; [done| |lia]. intros r [= <-]. split_and!; [done|lia|done|]. right. eauto.
Qed.
End routing.

(** ** Providers of the environment *)

Section providers.
Context `{LlmText}.

(** The providers taken from the environment always build: exactly those of the three
    whose variable is set, in their order; a variable that is set but empty counts, and
    the provider it gives has no key, so that asking it fails without a request. *)
Theorem env_providers_spec (Hopenai : Coordinator.to_lowercase "openai" = "openai") env :
  exists ps, Provider.build_providers env (build_providers_from_env env) = Ok ps /\
    (fun p => Provider.any_provider_id p) <$> ps =
      Provider.id <$> List.filter (fun c => bool_decide (is_Some (env (Provider.api_key_env c)))) known_providers /\
    forall (T : Provider.Transport) (W : Provider.WasmHost) p req, p ∈ ps ->
      (exists c, c ∈ known_providers /\ is_Some (env (Provider.api_key_env c)) /\
         Provider.any_provider_id p = Provider.id c /\
         (env (Provider.api_key_env c) = Some "" ->
          exists e, Provider.invoke req p = ([], Err e))).
Proof.
  unfold build_providers_from_env, Provider.build_providers. cbn [Provider.provider].
  set (l := List.filter _ known_providers).
  assert (Hl : forall c, c ∈ l -> c ∈ known_providers /\ is_Some (env (Provider.api_key_env c))).
  { intros c Hc. apply list_elem_of_In, List.filter_In in Hc as [Hc Hb].
    split; [by apply list_elem_of_In|]. by apply bool_decide_eq_true in Hb. }
  assert (Hb : forall c, c ∈ known_providers ->
    Provider.build_provider env c = Ok (Provider.OpenAi (Provider.openai_from_config env c)) /\
    Provider.api_key_env c <> "").
  { intros c Hc. unfold known_providers in Hc. rewrite !elem_of_cons, elem_of_nil in Hc.
    unfold Provider.build_provider. destruct Hc as [->|[->|[->|[]]]]; 
      (split; [|done]); cbn [Provider.adapter Provider.api_format groq deepseek siliconflow]; rewrite Hopenai;
      by rewrite decide_True. }
  exists ((fun c => Provider.OpenAi (Provider.openai_from_config env c)) <$> l). split_and!.
  - apply Provider.collect_Forall2. clearbody l. induction l as [|c l IH]; [constructor|]. rewrite fmap_cons.
    constructor; [|apply IH; intros c' Hc'; apply Hl; by right]. apply Hb, Hl. by left.
  - clear. clearbody l. induction l as [|c l IH]; [done|]. rewrite !fmap_cons. by rewrite IH.
  - intros T W p req Hp. apply list_elem_of_fmap in Hp as (c & -> & Hc). destruct (Hl c Hc) as [Hk Hs].
    exists c. split_and!; [done..|]. intros He. cbn [Provider.invoke]. unfold Provider.openai_invoke,
      Provider.openai_from_config, Provider.resolve_api_key. cbn [Provider.oa_api_key].
    unfold is_empty. rewrite bool_decide_eq_false_2 by apply Hb, Hk. cbn [negb]. rewrite He. cbn. eauto.
Qed.
End providers.

(** ** The fallback node *)

(** The healing task undoes an operator's decision: a fallback node that was switched
    off at run time answers the probe all the same, as only its configuration is looked
    at, and is switched on again within one turn; a node that its configuration disables is
    never switched on, and an available node is not touched. *)
Theorem healing_spec permit now ms n :
  (is_available n = true -> healing_turn permit now ms n = Ret n) /\
  (enabled (endpoint n) = true -> permit = Permitted -> 5 <= max_input_tokens (endpoint n) * 4 <= USIZE_MAX ->
   exists n', healing_turn permit now ms (disable n) = Ret n' /\ is_available n' = true) /\
  (enabled (endpoint n) = false -> exists n', healing_turn permit now ms n = Ret n' /\ is_available n' = false).
Proof.
  unfold healing_turn. split_and!.
  - by intros ->.
  - intros He -> Hm. unfold is_available at 1. cbn [disable set_disabled endpoint force_disabled].
    rewrite andb_false_r. cbn [negb]. unfold fallback_invoke, invoke_gated.
    cbn [count_invocation disable set_disabled endpoint]. rewrite He. cbn [negb].
    unfold mul_u. rewrite decide_True by lia. cbn [mbind outcome_bind].
    rewrite decide_False by (change (len "probe") with 5; lia).
    eexists. split; [done|]. unfold is_available. cbn. by rewrite He.
  - intros He. unfold is_available at 1. rewrite He. cbn [andb negb]. unfold fallback_invoke, invoke_gated.
    destruct permit; cbn [mbind outcome_bind].
    2-3: eexists; split; [done|]; unfold is_available; by rewrite He.
    cbn [count_invocation endpoint]. rewrite He. cbn.
    eexists. split; [done|]. unfold is_available. cbn. by rewrite He.
Qed.

(** ** Shutdown *)

(** A gateway that is told to stop has stopped after at most 26 seconds, and within a
    second of its connections draining when that takes less than 25. *)
Theorem shutdown_bounded drained :
  (forall d, drained = Some d -> 0 <= d) ->
  1000 <= shutdown_ms drained <= 26000 /\
  forall d, drained = Some d -> d <= 25000 -> shutdown_ms drained = d + 1000.
Proof.
  unfold shutdown_ms, SHUTDOWN_SECS. intros Hd. destruct drained as [d|].
  - specialize (Hd d eq_refl). split; [lia|]. intros d' [= <-]. lia.
  - split; [lia|done].
Qed.

(** ** Witnesses *)

Definition demo_outside : Outside (H1 := RedisMap) (H3 := StringMap) :=
  mkOutside (H1 := RedisMap) (H3 := StringMap) true None None (Err "no such file") None None 0 Permitted demo_db ∅.
Definition demo_start (env : Environment) : outcome (result (AppState (Component := Z)) string) :=
  start (H1 := RedisMap) (H2 := PlainText) (H3 := StringMap) (H4 := naive_matchers) (H6 := hex_crypto) (fun _ => Some f64_one) (fun _ => Err "not parsed") env demo_outside.

Definition demo_started : AppState (Component := Z) :=
  match demo_start minimal_env with Ret (Ok s) => s | _ => demo_state end.
Lemma demo_starts : demo_start minimal_env = Ret (Ok demo_started).
Proof.
  assert (Hok : (match demo_start minimal_env with Ret (Ok _) => true | _ => false end) = true)
    by (vm_compute; reflexivity).
  unfold demo_started. by destruct (demo_start minimal_env) as [[s|]|].
Qed.

Lemma start_spec_witness :
  (exists token, minimal_env "SEREIN_INTERNAL_TOKEN" = Some token /\
     service_auth demo_started = Some (mkAuth token)) /\
  cache (tmr_orchestrator demo_started) = None.
Proof.
  destruct (start_spec (H1 := RedisMap) (H2 := PlainText) (H3 := StringMap) (H4 := naive_matchers)
    (H6 := hex_crypto) (fun _ => Some f64_one) (fun _ => Err "not parsed") minimal_env demo_outside
    demo_started demo_starts) as ((token & Ht & _ & Ha) & _ & Hc & _).
  split; [by exists token|done].
Defined.

Lemma unset_env_passes_gate_witness :
  production_gate (with_var "SEREIN_INTERNAL_TOKEN" "generate_a_random_uuid_here" minimal_env) = Ret tt /\
  exists c, demo_from_env (with_var "SEREIN_INTERNAL_TOKEN" "generate_a_random_uuid_here" minimal_env) = Ok c /\
    app_env c = "production".
Proof.
  destruct (demo_from_env (with_var "SEREIN_INTERNAL_TOKEN" "generate_a_random_uuid_here" minimal_env))
    as [c|] eqn:E; [|vm_compute in E; discriminate].
  destruct (unset_env_passes_gate (H2 := PlainText) (H6 := toy_crypto) (fun _ => Some f64_one)
    (with_var "SEREIN_INTERNAL_TOKEN" "generate_a_random_uuid_here" minimal_env) c eq_refl E) as [Hg Ha].
  split; [exact Hg|]. by exists c.
Defined.

Lemma unauthenticated_refused_witness :
  exists s' r, handle_agent_execution (H := AtSigns) (H0 := canonical_order) (H1 := RedisMap) (H2 := PlainText)
    (H3 := StringMap) (H4 := naive_matchers) (H5 := demo_gateway) demo_env demo_socket (fun _ => None) demo_good
    demo_started = Ret (s', r) /\ status r = 401.
Proof.
  destruct (unauthenticated_refused (H := AtSigns) (H0 := canonical_order) (H1 := RedisMap) (H2 := PlainText)
    (H3 := StringMap) (H4 := naive_matchers) (H5 := demo_gateway) (H6 := hex_crypto) (fun _ => Some f64_one)
    (fun _ => Err "not parsed") minimal_env demo_outside demo_started demo_env demo_socket (fun _ => None)
    demo_good demo_starts eq_refl) as (s' & r & Hr & Hs & _).
  by exists s', r.
Defined.

Lemma env_providers_spec_witness :
  exists ps, Provider.build_providers (H := PlainText) (with_var "DEEPSEEK_API_KEY" "" minimal_env)
    (build_providers_from_env (with_var "DEEPSEEK_API_KEY" "" minimal_env)) = Ok ps /\
    (fun p => Provider.any_provider_id p) <$> ps = ["deepseek"].
Proof.
  destruct (env_providers_spec (H := PlainText) eq_refl (with_var "DEEPSEEK_API_KEY" "" minimal_env))
    as (ps & Hb & Hi & _).
  exists ps. split; [exact Hb|exact Hi].
Defined.

Lemma healing_spec_witness :
  exists n', healing_turn Permitted 0 50 (disable (fallback_new (endpoint_new "slm" "path"))) = Ret n' /\
    is_available n' = true.
Proof.
  apply (healing_spec Permitted 0 50 (fallback_new (endpoint_new "slm" "path"))); [done|done|].
  cbn. unfold USIZE_MAX. lia.
Defined.

Lemma shutdown_bounded_witness : 1000 <= shutdown_ms (Some 300) <= 26000 /\ shutdown_ms (Some 300) = 300 + 1000.
Proof.
  destruct (shutdown_bounded (Some 300)) as [Hb Hd]; [intros d [= <-]; lia|].
  split; [exact Hb|]. apply Hd; [reflexivity|lia].
Defined.

Definition demo_request : HttpRequest := mkHttpRequest "POST" "/v1/system/hot-swap" (fun _ => None) "".
Definition demo_refusal : Response :=
  refuse 401 "Missing or empty x-serein-tenant-id header" "MISSING_TENANT_ID".
Definition demo_route : outcome (AppState * HttpAnswer) :=
  route (H := AtSigns) (H0 := canonical_order) (H1 := RedisMap) (H2 := PlainText) (H3 := StringMap)
    (H4 := naive_matchers) (H5 := demo_gateway) (fun _ => true) (fun _ => Err 400) (fun _ => Err "no component")
    demo_env demo_socket "id-1" demo_request demo_state.

Lemma route_spec_witness :
  demo_route = Ret (demo_state, Handled demo_refusal) /\ method demo_request = "POST" /\
  set_request_id "id-1" (headers demo_request) "x-request-id" = Some "id-1".
Proof.
  split; [reflexivity|].
  destruct (route_spec (H := AtSigns) (H0 := canonical_order) (H1 := RedisMap) (H2 := PlainText) (H3 := StringMap)
    (H4 := naive_matchers) (H5 := demo_gateway) (fun _ => true) (fun _ => Err 400) (fun _ => Err "no component")
    demo_env demo_socket "id-1" demo_request demo_state demo_state (Handled demo_refusal) eq_refl)
    as (_ & Hh & _).
  destruct (Hh demo_refusal eq_refl) as (Hm & _ & Hid & _). split; [exact Hm|exact Hid].
Defined.
