(* ===== verification/BudgetRace.v ===== *)
(** * apps/gateway/src/main.rs and rate_limiter.rs: the budgets of requests that overlap

    [RequestRace] with the eye on one tenant's balance.  The orchestrator of a started
    gateway has no budget manager of its own ([Startup.start_spec]); what moves a balance
    is then the guard of each request: it gives the token back when the handler refuses,
    and when its future is dropped. *)
From Stdlib Require Import Ascii String.
From S2P Require Import Prelude F64 RustStr Json PayloadValidator HotSwap AbiGuard Masking.
From S2P Require Import HostStore EgressGuard Oracle Microkernel HmacAuth RateLimiter FinOps.
From S2P Require Import TmrConsensus PiiMask Coordinator ComplianceBus DeterministicHooks.
From S2P Require Import FlightRecorder LogSanitizer Gateway RequestRace.

Local Open Scope string_scope.

(** ** A dispatch without a budget manager *)

Section dispatch.
Context `{PiiRegex, HashOrder, Redis, LlmText, RedisStrings}.

Lemma finish_budgetless to_json c req key result o d o' d' x : finops o = None ->
  finish to_json c req key result o d = Ret (o', d', x) -> d' = d /\ finops o' = None.
Proof.
  intros Hf. unfold finish. rewrite Hf.
  replace (if consensus_achieved result then d else d) with d by by destruct (consensus_achieved result).
  set (r1 := set_cache_hit false _). destruct (consensus_achieved r1), (Coordinator.majority_output r1); cbn -[sum_ms].
  1: destruct (sum_ms _) as [ms|]; cbn [mbind outcome_bind]; [|done].
  all: by intros [= <- <- _].
Qed.

Lemma execute_budgetless to_json from_json up t c req o d s o' d' x : finops o = None ->
  execute_consensus_providers to_json from_json up t c req o d s = Ret (o', d', x) ->
  d' = d /\ finops o' = None.
Proof.
  intros Hf. unfold execute_consensus_providers. destruct (match Coordinator.cache o with Some _ => _ | None => _ end) as [r|].
  { by intros [= <- <- _]. }
  unfold dispatch_consensus_inner. destruct (PiiMask.mask _ _) as [pii [masked map]].
  destruct (ask_all _ _ _ _) as [[l [[nrs responses] sent]]|]; cbn [mbind outcome_bind]; [|done].
  destruct (adjudicate _ _ _ _ _) as [[o1 r1]|] eqn:Hadj; cbn [mbind outcome_bind]; [|done].
  assert (finops o1 = None) as Hf1.
  { apply adjudicate_frame in Hadj as [->|(n & k & ->)]; exact Hf. }
  destruct (finish _ _ _ _ _ _ _) as [[[o2 d2] [r2 e2]]|] eqn:Hfin; cbn [mbind outcome_bind]; [|done].
  intros [= <- <- _]. by eapply finish_budgetless.
Qed.
End dispatch.

(** ** Requests *)

Section budgets.
Context `{PiiRegex, HashOrder, Redis, LlmText, RedisStrings, Matchers, GatewayText}.
Context {Component : Type}.
Local Abbreviation AppState := (@AppState _ _ Component).
Local Abbreviation Requests := (list (Request * progress)).

Definition request_tenant (rq : Request) : string := tenant_of (rq_headers rq).
Definition request_id (rq : Request) : string := default "unknown" (rq_headers rq "x-request-id").

(** The answers given while the request holds its guard: the last of them keeps what was
    deducted, the others give it back, and so does a request dropped there. *)
Definition refunding : list Z := [400; 403; 409; 500].
Definition unspent (p : progress) : bool :=
  match p with
  | Replied r => bool_decide (Gateway.status r ∈ refunding)
  | Gone (Holding _) => true
  | _ => false
  end.
Definition refunded (rq : Request) (p : progress) : bool :=
  unspent p && executed (env_refund_net (rq_env rq)).

(** The guard whose drop is next, and the guards a request holds. *)
Definition refund_due (p : progress) : option FinOpsRefundGuard :=
  match p with Returning g _ | Dropped (Holding g) => Some g | _ => None end.
Definition guard_ok (rq : Request) (p : progress) : Prop :=
  match p with
  | Holding g | Dropped (Holding g) => g = refund_guard_new (request_tenant rq) (request_id rq)
  | Returning g r =>
      g = mkRefundGuard (request_tenant rq) (request_id rq) (Gateway.status r =? 200)%Z /\
      (Gateway.status r = 200 \/ Gateway.status r ∈ refunding)
  | _ => True
  end.

(** The fates of the request's token in [execute_request], whose dispatch may time out. *)
Lemma run_consensus_budget e req (s s1 : AppState) res : finops (tmr_orchestrator s) = None ->
  run_consensus e req s = Ret (s1, res) -> budgets s1 = budgets s /\ finops (tmr_orchestrator s1) = None.
Proof.
  intros Hf. unfold run_consensus. destruct (interrupted e) as [x|].
  { intros [= <- _]. unfold cut_short. cbn. by rewrite Hf. }
  destruct (execute_consensus_providers _ _ _ _ _ _ _ _ _) as [[[o d] [r eff]]|] eqn:Hex; [|done].
  apply execute_budgetless in Hex as [-> Hfo]; [|done]. by intros [= <- _].
Qed.

Lemma conclude_budget e t ip prompt res g (s s1 : AppState) g1 r :
  conclude e t ip prompt res g s = (s1, g1, r) ->
  budgets s1 = budgets s /\ tmr_orchestrator s1 = tmr_orchestrator s.
Proof.
  unfold conclude. set (p := match Coordinator.majority_output res with Some _ => _ | None => _ end).
  destruct (match p with Some _ => _ | None => _ end); intros Hxy; injection Hxy as <- _ _; [|done].
  by repeat case_match.
Qed.

Lemma execute_request_budget e t ip body tt g (s s1 : AppState) g1 r :
  finops (tmr_orchestrator s) = None -> consumed g = false ->
  execute_request e t ip body tt g s = Ret (s1, g1, r) ->
  budgets s1 = budgets s /\ finops (tmr_orchestrator s1) = None /\
  g1 = mkRefundGuard (g_tenant_id g) (g_request_id g) (Gateway.status r =? 200)%Z /\
  (Gateway.status r = 200 \/ Gateway.status r ∈ refunding).
Proof.
  intros Hf Hg Hx. assert (forall b, consumed g = b -> g = mkRefundGuard (g_tenant_id g) (g_request_id g) b) as Hsame.
  { intros b <-. by destruct g. }
  unfold execute_request in Hx. destruct (negb _).
  { injection Hx as <- <- <-. split_and!; [done|done|by apply Hsame|right; in_list]. }
  destruct (negb _). { injection Hx as <- <- <-. split_and!; [done|done|by apply Hsame|right; in_list]. }
  destruct (scan _ _); [|injection Hx as <- <- <-; split_and!; [done|done|by apply Hsame|right; in_list]].
  destruct (run_consensus _ _ _) as [[s2 res]|] eqn:Hrun; cbn [mbind outcome_bind] in Hx; [|done].
  destruct (run_consensus_budget _ _ _ _ _ Hf Hrun) as [Hb Hfo].
  destruct (negb _). { injection Hx as <- <- <-. split_and!; [done|done|by apply Hsame|right; in_list]. }
  destruct (conclude _ _ _ _ _ _ _) as [[x y] z] eqn:Hc in Hx.
  destruct (conclude_budget _ _ _ _ _ _ _ _ _ _ Hc) as [Hbx Hox].
  apply conclude_effect in Hc as [_ Hc]. injection Hx as <- <- <-. rewrite Hbx, Hox.
  do 2 (split; [done|]). destruct Hc as [(Hst & -> & _)|(Hst & _ & -> & _)]; rewrite Hst.
  - split; [by apply Hsame|right; in_list].
  - split; [done|by left].
Qed.

(** What a step does to the budgets. *)
Lemma stage_budget rq p (s s' : AppState) p' :
  finops (tmr_orchestrator s) = None -> guard_ok rq p -> over p = false -> stage rq p s = Ret (s', p') ->
  finops (tmr_orchestrator s') = None /\ guard_ok rq p' /\
  match refund_due p with
  | Some g =>
      g_tenant_id g = request_tenant rq /\ g_request_id g = request_id rq /\ over p' = true /\
      unspent p' = negb (consumed g) /\
      budgets s' = refund_guard_drop (env_refund_net (rq_env rq)) (env_refund_at (rq_env rq)) g (budgets s)
  | None => budgets s' = budgets s /\ unspent p' = false
  end.
Proof.
  intros Hf Hg Hp Hs. destruct p as [| | |g|g r|r|q|q]; cbn [stage over] in *; try discriminate.
  - destruct (extract_tenant_id _) as [t|st] eqn:Ht.
    2: { apply tenant_missing in Ht as ->. by injection Hs as <- <-. }
    destruct (authenticate _ _ _ _ _ _ s) as [[s1 x]|] eqn:Ha; cbn [mbind outcome_bind] in Hs; [|done].
    destruct (authenticate_effect _ _ _ _ _ _ _ _ _ Ha) as (He & Hb & _ & _ & Hx).
    injection Hs as <- <-. injection He as _ Ho _ _ _ _. rewrite Ho.
    destruct x as [r|]; [|done]. destruct Hx as [Hx _]. cbn [refund_due unspent guard_ok]. by rewrite Hx.
  - destruct (acquire_api_token _ _ _) as [l [u|e]]; by injection Hs as <- <-.
  - cbn [deduct_tokens] in Hs. by injection Hs as <- <-.
  - destruct (execute_request _ _ _ _ _ _ _) as [[[s2 g2] r2]|] eqn:Hex; cbn [mbind outcome_bind] in Hs; [|done].
    cbn [guard_ok] in Hg. subst g.
    destruct (execute_request_budget _ _ _ _ _ (refund_guard_new _ _) _ _ _ _ Hf eq_refl Hex) as (Hb & Hfo & -> & Hst).
    by injection Hs as <- <-.
  - destruct Hg as [-> Hst]. injection Hs as <- <-. cbn [refund_due unspent over guard_ok consumed].
    split_and!; [done..| |done].
    destruct (Z.eqb_spec (Gateway.status r) 200) as [->|H200]; [done|].
    destruct Hst as [|Hst]; [done|]. by rewrite bool_decide_true.
  - injection Hs as <- <-. destruct q; cbn [refund_due guard_ok] in *; try done. by subst.
Qed.

Lemma left_behind_budget p (s s' : AppState) : finops (tmr_orchestrator s) = None -> left_behind p s s' ->
  budgets s' = budgets s /\ finops (tmr_orchestrator s') = None.
Proof. intros Hf [->|(g & x & _ & ->)]; [done|]. unfold cut_short. cbn. by rewrite Hf. Qed.

(** A schedule: whose turn it is, and whose future is dropped, with the dispatch not begun. *)
Inductive turn : Type := Next (i : nat) | Drop (i : nat).
Definition take_turn (x : AppState * Requests) (t : turn) : option (AppState * Requests) :=
  match t with
  | Next i =>
      '(rq, p) ← x.2 !! i;
      if over p then None
      else match stage rq p x.1 with Ret (s, p) => Some (s, <[i := (rq, p)]> x.2) | Panic => None end
  | Drop i =>
      '(rq, p) ← x.2 !! i;
      if droppable p then Some (x.1, <[i := (rq, Dropped p)]> x.2) else None
  end.
Fixpoint run_schedule (order : list turn) (x : AppState * Requests) : option (AppState * Requests) :=
  match order with [] => Some x | t :: order => x ← take_turn x t; run_schedule order x end.

Lemma take_turn_sound t x y : take_turn x t = Some y -> requests_step x y.
Proof.
  destruct x as [s ts], t as [i|i]; unfold take_turn; cbn [fst snd];
    destruct (ts !! i) as [[rq p]|] eqn:Hi; cbn [mbind option_bind]; [|done| |done].
  - destruct (over p) eqn:Hp; [done|]. destruct (stage rq p s) as [[s' p']|] eqn:Hs; [|done].
    intros [= <-]. exact (rq_stage _ _ _ _ _ _ _ Hi Hp Hs).
  - destruct (droppable p) eqn:Hp; [|done]. intros [= <-]. by apply (rq_drop _ _ _ _ _ _ Hi Hp); left.
Qed.

Lemma run_schedule_sound order x y : run_schedule order x = Some y -> rtc requests_step x y.
Proof.
  revert x. induction order as [|t order IH]; intros x; cbn [run_schedule]; [intros [= <-]; apply rtc_refl|].
  destruct (take_turn x t) as [z|] eqn:Ht; [|done]. intros Hr.
  eapply rtc_l; [by eapply take_turn_sound|by apply IH].
Qed.

Section overlapping.
Context (s0 : AppState) (l : list Request) (tenant : string) (v : Z).
Context (Hbudgetless : finops (tmr_orchestrator s0) = None)
  (Hbalance : balance (budgets s0) (balance_key tenant) = Some v)
  (Hlow : I64_MIN <= v) (Hhigh : v + Z.of_nat (length l) <= I64_MAX).

(** The requests of the tenant whose token, not spent, was given back: refused behind
    the budget's gate, or dropped there; and whose refund reached Redis. *)
Definition mints (t : Request * progress) : bool :=
  bool_decide (request_tenant t.1 = tenant) && refunded t.1 t.2.
Definition minted (ts : Requests) : nat := length (List.filter mints ts).

(** Every request has an identifier of its own that Redis has not seen. *)
Definition fresh_ids : Prop :=
  NoDup (List.map request_id l) /\
  forall rq t, rq ∈ l -> live t (budgets s0) (idempotency_key (request_id rq)) = false.

Record budget_inv (s : AppState) (ts : Requests) : Prop := {
  bi_requests : List.map fst ts = l;
  bi_finops : finops (tmr_orchestrator s) = None;
  bi_guards : forall i rq p, ts !! i = Some (rq, p) -> guard_ok rq p;
  bi_balance : exists n, balance (budgets s) (balance_key tenant) = Some (v + Z.of_nat n) /\
    (n <= minted ts)%nat /\ (fresh_ids -> n = minted ts);
  bi_fresh : fresh_ids -> forall i rq p t, ts !! i = Some (rq, p) -> over p = false ->
    live t (budgets s) (idempotency_key (request_id rq)) = false }.

Lemma minted_bound ts : List.map fst ts = l -> (minted ts <= length l)%nat.
Proof. intros <-. rewrite List.length_map. apply List.filter_length_le. Qed.

Lemma arrived_received i rq p : arrived l !! i = Some (rq, p) -> p = Received.
Proof. unfold arrived. rewrite list_lookup_fmap. destruct (l !! i); intros Hx; by inversion Hx. Qed.

Lemma arrived_requests : List.map fst (arrived l) = l.
Proof. clear Hhigh. unfold arrived. induction l as [|rq l' IH]; [done|]. cbn. by f_equal. Qed.

Lemma arrived_minted : minted (arrived l) = 0%nat.
Proof.
  clear Hhigh. unfold minted, arrived, mints. induction l as [|rq l' IH]; [done|]. cbn. by rewrite andb_false_r.
Qed.

Lemma budget_inv_init : budget_inv s0 (arrived l).
Proof.
  constructor.
  - apply arrived_requests.
  - exact Hbudgetless.
  - intros i rq p Hi. by rewrite (arrived_received _ _ _ Hi).
  - exists 0%nat. rewrite arrived_minted, Z.add_0_r. done.
  - intros [_ Hf] i rq p t Hi _. apply Hf. rewrite <- arrived_requests.
    apply list_elem_of_In, in_map_iff. exists (rq, p). split; [done|].
    apply list_elem_of_In. by eapply list_elem_of_lookup_2.
Qed.

Lemma request_lookup (ts : Requests) i rq p : List.map fst ts = l -> ts !! i = Some (rq, p) -> l !! i = Some rq.
Proof. intros <- Hi. rewrite (list_lookup_fmap fst ts i : List.map fst ts !! i = _). by rewrite Hi. Qed.

Lemma request_listed (ts : Requests) i rq p : List.map fst ts = l -> ts !! i = Some (rq, p) -> rq ∈ l.
Proof. intros Hl Hi. eapply list_elem_of_lookup_2. by eapply request_lookup. Qed.

Lemma ids_differ (ts : Requests) i j rq rq' p p' : fresh_ids -> List.map fst ts = l ->
  ts !! i = Some (rq, p) -> ts !! j = Some (rq', p') -> i <> j -> request_id rq' <> request_id rq.
Proof.
  intros [Hnd _] Hl Hi Hj Hne Heq. apply Hne.
  assert (forall k rq (p : progress), ts !! k = Some (rq, p) -> List.map request_id l !! k = Some (request_id rq)) as Hk.
  { intros k rq0 p0 Hk. rewrite (list_lookup_fmap request_id l k : List.map request_id l !! k = _).
    by rewrite (request_lookup _ _ _ _ Hl Hk). }
  eapply NoDup_lookup; [exact Hnd|by eapply Hk|]. rewrite <- Heq. by eapply Hk.
Qed.

Lemma not_yet_minted rq p : over p = false -> mints (rq, p) = false.
Proof. intros Hp. unfold mints, refunded. destruct p; (discriminate Hp || apply andb_false_r). Qed.

Lemma minted_strict (ts : Requests) i rq p : List.map fst ts = l -> ts !! i = Some (rq, p) -> over p = false ->
  (minted ts < length l)%nat.
Proof.
  intros Hl Hi Hp. rewrite <- Hl, List.length_map, <- (List.filter_length mints ts).
  enough (In (rq, p) (List.filter (fun t => negb (mints t)) ts)) as Hin.
  { unfold minted. destruct (List.filter (fun t => negb _) ts); [done|cbn; lia]. }
  apply filter_In. split; [|by rewrite not_yet_minted]. apply list_elem_of_In. by eapply list_elem_of_lookup_2.
Qed.

Lemma minted_insert (ts : Requests) i rq p p' : ts !! i = Some (rq, p) -> over p = false ->
  minted (<[i := (rq, p')]> ts) = (minted ts + if mints (rq, p') then 1 else 0)%nat.
Proof.
  intros Hi Hp. unfold minted. pose proof (count_insert mints ts i (rq, p) (rq, p') Hi) as Hc.
  rewrite (not_yet_minted _ _ Hp) in Hc. lia.
Qed.

(** The refund of a request that is done, on the balance of [tenant] and on the marks. *)
Lemma drop_balance s ts i rq p p' g d' : budget_inv s ts -> ts !! i = Some (rq, p) -> over p = false ->
  g_tenant_id g = request_tenant rq -> g_request_id g = request_id rq -> unspent p' = negb (consumed g) ->
  d' = refund_guard_drop (env_refund_net (rq_env rq)) (env_refund_at (rq_env rq)) g (budgets s) ->
  exists n, balance d' (balance_key tenant) = Some (v + Z.of_nat n) /\
    (n <= minted (<[i := (rq, p')]> ts))%nat /\
    (fresh_ids -> n = minted (<[i := (rq, p')]> ts)).
Proof.
  intros [Hl Hf Hg (n & Hn & Hle & Heq) Hfr] Hi Hp Hgt Hgr Hu ->. rewrite (minted_insert _ _ _ _ _ Hi Hp).
  pose proof (minted_strict _ _ _ _ Hl Hi Hp) as Hlt.
  unfold refund_guard_drop, mints, refunded. cbn [fst snd]. rewrite Hu, Hgt, Hgr.
  destruct (consumed g); cbn [negb andb].
  { rewrite andb_false_r. exists n. split; [done|]. split; [lia|]. intros Hd. rewrite (Heq Hd). lia. }
  destruct (bool_decide_reflect (request_tenant rq = tenant)) as [Ht|Ht]; cbn [andb].
  - rewrite Ht. destruct (refund_adds (env_refund_net (rq_env rq)) (env_refund_at (rq_env rq)) tenant 1
      (request_id rq) _ _ ltac:(lia) Hn) as [Hb|[Hx Hb]]; [ulia| |].
    + exists n. split; [exact Hb|]. split; [lia|]. intros Hd. destruct (executed _) eqn:Hx; [|rewrite (Heq Hd); lia].
      pose proof (refund_fresh (env_refund_net (rq_env rq)) (env_refund_at (rq_env rq)) tenant 1
        (request_id rq) _ _ ltac:(lia) Hn ltac:(ulia) (Hfr Hd _ _ _ _ Hi Hp)) as Hr.
      destruct (refund_tokens _ _ _ _ _ _) as [d rr]. cbn [fst] in Hb. rewrite Hx in Hr.
      destruct Hr as [Hr _]. rewrite Hr in Hb. injection Hb as Hb. lia.
    + exists (S n). rewrite Hx. split; [rewrite Hb; f_equal; lia|]. split; [lia|]. intros Hd. rewrite (Heq Hd). lia.
  - exists n. split; [|split; [lia|intros Hd; rewrite (Heq Hd); lia]].
    destruct (refund_frame (env_refund_net (rq_env rq)) (env_refund_at (rq_env rq)) (request_tenant rq) 1
      (request_id rq) (budgets s)) as [Hb _]. by rewrite Hb by congruence.
Qed.

Lemma insert_at (ts : Requests) i j rq rq0 p' q : <[i := (rq, p')]> ts !! j = Some (rq0, q) ->
  j = i /\ rq0 = rq /\ q = p' \/ j <> i /\ ts !! j = Some (rq0, q).
Proof. intros Hj. apply list_lookup_insert_Some in Hj as [(-> & [= <- <-] & _)|[Hne Hj]]; auto. Qed.

Lemma requests_insert (ts : Requests) i rq p p' : List.map fst ts = l -> ts !! i = Some (rq, p) ->
  List.map fst (<[i := (rq, p')]> ts) = l.
Proof.
  intros Hl Hi. rewrite (list_fmap_insert fst ts i _ : List.map fst _ = _). cbn. rewrite list_insert_id; [done|].
  by rewrite list_lookup_fmap, Hi.
Qed.

(** A step that leaves the budgets, and gives no token back. *)
Lemma budget_inv_quiet s ts i rq p s' p' : budget_inv s ts -> ts !! i = Some (rq, p) -> over p = false ->
  finops (tmr_orchestrator s') = None -> guard_ok rq p' -> budgets s' = budgets s -> unspent p' = false ->
  budget_inv s' (<[i := (rq, p')]> ts).
Proof.
  intros [Hl _ Hg Hb Hfr] Hi Hp Hf' Hg' Hd Hu. constructor; [by eapply requests_insert|exact Hf'| | |].
  - intros j rq0 q [(-> & -> & ->)|[_ Hj]]%insert_at; eauto.
  - rewrite Hd, (minted_insert _ _ _ _ _ Hi Hp). unfold mints, refunded. cbn [fst snd].
    by rewrite Hu, andb_false_r, Nat.add_0_r.
  - rewrite Hd. intros Hfresh j rq0 q t [(-> & -> & ->)|[_ Hj]]%insert_at Hq; eauto.
Qed.

(** The refund of one request leaves the marks of the others. *)
Lemma budget_inv_refund s ts i rq p s' p' g : budget_inv s ts -> ts !! i = Some (rq, p) -> over p = false ->
  finops (tmr_orchestrator s') = None -> guard_ok rq p' -> over p' = true ->
  g_tenant_id g = request_tenant rq -> g_request_id g = request_id rq -> unspent p' = negb (consumed g) ->
  budgets s' = refund_guard_drop (env_refund_net (rq_env rq)) (env_refund_at (rq_env rq)) g (budgets s) ->
  budget_inv s' (<[i := (rq, p')]> ts).
Proof.
  intros Hinv Hi Hp Hf' Hg' Hp' Hgt Hgr Hu Hd.
  pose proof (drop_balance _ _ _ _ _ _ _ _ Hinv Hi Hp Hgt Hgr Hu Hd) as Hb'. destruct Hinv as [Hl _ Hg _ Hfr].
  constructor; [by eapply requests_insert|exact Hf'| |exact Hb'|].
  - intros j rq0 q [(-> & -> & ->)|[_ Hj]]%insert_at; eauto.
  - intros Hfresh j rq0 q t [(-> & -> & ->)|[Hne Hj]]%insert_at Hq; [congruence|].
    pose proof (Hfr Hfresh _ _ _ t Hj Hq) as Hlive. rewrite Hd. unfold refund_guard_drop.
    destruct (consumed g); [done|]. rewrite (proj2 (refund_frame _ _ _ _ _ _)); [done|].
    rewrite Hgr. by eapply (ids_differ ts i j).
Qed.

Lemma budget_inv_step x y : requests_step x y -> budget_inv x.1 x.2 -> budget_inv y.1 y.2.
Proof.
  intros Hxy Hinv. pose proof Hinv as [_ Hf Hg _ _].
  destruct Hxy as [s ts i rq p s' p' Hi Hp Hs|s ts i rq p s' Hi Hp Hs]; cbn [fst snd] in *.
  - destruct (stage_budget _ _ _ _ _ Hf (Hg _ _ _ Hi) Hp Hs) as (Hf' & Hg' & Hd).
    destruct (refund_due p) as [g|].
    + destruct Hd as (? & ? & ? & ? & ?). by eapply budget_inv_refund.
    + destruct Hd as [? ?]. by eapply budget_inv_quiet.
  - destruct (left_behind_budget _ _ _ Hf Hs) as [Hb Hf']. pose proof (Hg _ _ _ Hi) as Hgi.
    eapply budget_inv_quiet; eauto; destruct p; done.
Qed.

(** C4: overlapping requests never cost their tenant anything, and those that get nothing
    pay: at a gateway whose orchestrator has no budget manager (as a started one), and for
    a tenant whose balance exists and has room for one token a request, the balance is at
    all times, however requests overlap, time out or are dropped and whatever other tenants
    do, what it was at first plus at most one token for each of the tenant's requests whose
    guard was dropped unspent (refused behind the budget's gate, or its future dropped
    there) and whose refund has run in Redis; exactly one for each of these, when
    every request has an identifier of its own that Redis has not seen. *)
Theorem balance_counts_refusals s ts :
  rtc requests_step (s0, arrived l) (s, ts) ->
  exists n, balance (budgets s) (balance_key tenant) = Some (v + Z.of_nat n) /\
    (n <= minted ts)%nat /\ (fresh_ids -> n = minted ts).
Proof using Hbudgetless Hbalance Hlow Hhigh.
  intros Hrun. assert (budget_inv s ts) as Hinv; [|apply Hinv].
  pose proof budget_inv_init as Hinv. revert Hinv.
  change (budget_inv s0 (arrived l)) with (budget_inv (s0, arrived l).1 (s0, arrived l).2).
  change (budget_inv s ts) with (budget_inv (s, ts).1 (s, ts).2).
  induction Hrun as [|x y z Hxy _ IH]; [done|]. intros Hinv. apply IH. by eapply budget_inv_step.
Qed.
End overlapping.
End budgets.

(** ** Concrete inputs

    Two requests of one tenant and one of another, without a network id, take turns at a
    gateway whose orchestrator has no budget manager; the client of the third one goes
    while it holds its guard. *)
Definition demo_budgetless : @AppState RedisMap StringMap Z :=
  mkState demo_kernel
    (with_providers (H2 := PlainText) (fun _ => None) demo_providers (mkSlm "slm" "path" Active))
    (mkCorpus "corpus" [] false 0) None cache_new bus_new (mkWaf [] []) "old" (mkManager false)
    (Some (limiter_new 0 10 f64_zero 10 f64_zero 10)) demo_db ∅.
Definition demo_customer (tenant id : string) (body : AgentExecutionPayload) : Request :=
  mkRequest demo_env demo_socket
    (fun name => if bool_decide (name = "x-serein-tenant-id") then Some tenant
                 else if bool_decide (name = "x-request-id") then Some id else None) body.
Definition demo_requests : list Request :=
  [demo_customer "acme" "r1" demo_bad; demo_customer "globex" "r2" demo_bad; demo_customer "acme" "r3" demo_bad].
Local Abbreviation demo_run order :=
  (run_schedule (H := AtSigns) (H0 := canonical_order) (H1 := RedisMap) (H2 := PlainText) (H3 := StringMap)
     (H4 := naive_matchers) (H5 := demo_gateway) (Component := Z) order (demo_budgetless, arrived demo_requests)).
Definition demo_order : list turn :=
  [Next 0; Next 2; Next 1; Next 0; Next 0; Next 2; Next 2; Next 1; Drop 2; Next 0; Next 1; Next 0; Next 2].
Definition demo_after : @AppState RedisMap StringMap Z * list (Request * progress) :=
  default (demo_budgetless, []) (demo_run demo_order).

Lemma demo_scheduled : demo_run demo_order = Some (demo_after.1, demo_after.2).
Proof.
  assert (bool_decide (is_Some (demo_run demo_order)) = true) as Hr by (vm_compute; reflexivity).
  apply bool_decide_eq_true in Hr as [[s ts] Hr]. unfold demo_after. by rewrite Hr.
Qed.

(** The balance of 10 becomes 12. *)
Lemma balance_counts_refusals_witness : balance (budgets demo_after.1) (balance_key "acme") = Some 12.
Proof.
  destruct (balance_counts_refusals (H := AtSigns) (H0 := canonical_order) (H1 := RedisMap) (H2 := PlainText)
    (H3 := StringMap) (H4 := naive_matchers) (H5 := demo_gateway) demo_budgetless demo_requests "acme" 10
    eq_refl eq_refl ltac:(ulia) ltac:(cbn; ulia) demo_after.1 demo_after.2
    (run_schedule_sound (H5 := demo_gateway) _ _ _ demo_scheduled)) as (n & Hn & _ & Hex).
  rewrite Hn, Hex; [vm_compute; reflexivity|]. split.
  - in_list.
  - intros rq t Hin. apply list_elem_of_In in Hin. destruct Hin as [<-|[<-|[<-|[]]]]; reflexivity.
Defined.
